(* ===== verification/_CoqProject ===== *)
-Q . S2P
Prelude.v
Solidity.v
EnumerableMap.v
LinkedList.v
Parsers.v
Dynamics.v
Snapshots.v
Epochs.v
JsValue.v
Numbers.v
Json.v
Constants.v
Artifacts.v
Fixtures.v
DeployList.v
Ethers.v
Factory.v
Instances.v
World.v
Scenario.v
FactoryProofs.v
FactoryHistory.v
LockCycle.v
StateFile.v
DeployArgs.v
Provider.v
FactoryTasks.v
DeployFlow.v
Fallback.v
UpgradeFlow.v
Descriptor.v
Logic.v
DeployAll.v
FactoryLib.v
ImmutableAuth.v
ValidatorTasks.v
Migration.v
NodeTasks.v
LegacyToken.v
Polling.v
Traffic.v
Bindings.v
Scripts.v
GasSum.v
Config.v
