(* ===== verification/Prelude.v ===== *)
(** * Verification of the AliceNet bridge deployment tooling

    The TypeScript under [src/bridge/scripts] deploys and administers the
    contracts of the AliceNet bridge: hardhat tasks read NatSpec tags and ABIs
    from the compiled artifacts, keep the list of contracts to deploy and their
    arguments in files, send transactions to an on-chain factory and record
    what they deployed.  This library is an executable model of those scripts,
    of the factory contract they drive, of the file system they work on and of
    the contracts whose state the maintenance and migration tasks move, with
    theorems from the command a user runs to what is left on the chain and on
    disk.

    ** How a script is modelled

    An [async] function becomes a script, a state-passing function over
    [World.world]: file system, working directory, chain and the trace of
    console output and provider requests.  What does not change during a run
    (network, signers, artifacts, process environment, the balances a node
    reports) is the record [World.Hre], an argument.  A script ends with
    [Ok v] or [Throw e]; the world it leaves is there in both cases, so a
    theorem on an exception says what was already written or sent.
    JavaScript values of no static type are [JsValue.jsval], with property
    access, [for ... in] order and the quirks the scripts meet
    ([undefined], inherited properties, [NaN] as [None] of [parseInt]).
    Code outside the repository is a parameter, one class per library, with a
    class of laws: [Ethers.Ethers]/[EthersLaws] (hashes, ABI coding, addresses),
    [Ethers.Toml]/[TomlLaws] (the TOML package), [Factory.Evm]/[EvmLaws] (code
    of the contracts behind the factory).  [Instances] proves the laws of
    concrete functions; the witnesses evaluate the theorems there.

    ** How a contract is modelled

    A function of a contract takes its storage and returns the storage it
    leaves, the events and the result, or the revert with its error
    ([Solidity.sol]); checked arithmetic, casts and array bounds are those of
    the language.  Messages from outside and the answers of contracts that are
    not modelled are arguments.  A transaction that reverts leaves the storage
    ([dyn_tx], [sys_tx]); theorems quantify over all histories of them.  The
    factory, which calls other contracts and itself, is a state monad over
    the whole chain instead ([Factory.X]).

    ** Files

    Foundations:
    - [Prelude]: exceptions, results, lemmas on strings, lists, options;
      [Solidity]: reverts, machine words, arrays.
    - [JsValue], [Numbers], [Json]: values and objects of the language,
      [parseInt], the stable [sort], number texts, [JSON.stringify] and
      [JSON.parse] with their round trip.
    - [Ethers], [World], [Logic]: library classes, file system and chain as
      seen by a script, and a weakest-precondition logic for scripts that only
      talk to the chain.
    - [Constants] ([lib/constants.ts]), [Config] ([hardhat.config.ts]).
    - [Instances], [Fixtures], [Scenario]: concrete libraries, artifacts and
      worlds for the witnesses.

    The contract ([contracts/libraries/factory/AliceNetFactoryBase.sol],
    [AliceNetFactory.sol], [Proxy.sol], [libraries/proxy/*.sol]):
    - [Factory]: storage and functions of the factory, the proxy's slot with
      its lock, deterministic addresses, message calls with reverts.
    - [FactoryProofs]: deploy and upgrade sequences, ownership.
      [FactoryHistory]: what every sequence of changes of the chain keeps,
      those by code outside the repository included (calls, creations,
      self-destruction); [tame] singles out the changes in which no code run
      by [delegateCallAny] removes a salt.  [LockCycle]: the upgrade lock of a
      proxy across transactions.

    The contracts behind it:
    - [EnumerableMap] ([utils/CustomEnumerableMaps.sol]): the validators' map.
    - [LinkedList], [Dynamics] ([libraries/dynamics/DoublyLinkedList.sol],
      [Dynamics.sol]): the scheduled values and the node's version.
    - [Parsers] ([libraries/parsers]), [Snapshots] ([Snapshots.sol],
      [libraries/snapshots]): block claims, ring buffer, election, migration.
    - [Epochs]: Snapshots and Dynamics as one system.

    The deployment tasks:
    - [Artifacts] (readers of [lib/deployment/deploymentUtil.ts]): names,
      ABI and tags of a contract.
    - [DeployList] ([lib/deployment/deploymentListUtil.ts]): grouping and
      sorting; [DeployArgs] adds [deployArgUtil.ts], the templates and lists
      on disk.
    - [StateFile] ([factoryStateUtil.ts], [deploymentConfigUtil.ts]): the state
      file, as an implementation of a finite map from networks to records.
    - [Provider]: fees, transactions, receipts, salts.
    - [FactoryTasks] ([alicenetFactoryTasks.ts], [deploymentUtil.ts]): one
      definition per task, composed as [hre.run] composes them.
    - [DeployFlow]: the tasks together with the factory and the state file;
      [Fallback]: the two transactions of the multicall task above the gas
      limit, and the two places where it can stop; [UpgradeFlow]: the same for [multiCallUpgradeProxy]; [DeployAll]:
      [deployContracts] on a whole list, on chain and in the state file.
    - [Descriptor]: the two descriptor tasks of [alicenetFactoryTasks.ts].
    - [FactoryLib] ([alicenetFactory.ts]): the variants other scripts call.
    - [Scripts]: [generateDeployList.ts], [generateDeploymentArgTemplate.ts],
      [getInitCallData.ts], [deployAllContracts.ts]; [GasSum]:
      [sumGasInFactoryState.ts].

    Administration ([lib/alicenetTasks.ts]):
    - [ValidatorTasks]: staking, registering and migrating validators,
      maintenance calls, [waitBlocks].  [Migration]: the data of the migration
      task in the Snapshots contract.
    - [NodeTasks]: tokens, ether, settings of a local node.
    - [LegacyToken], [Polling], [Traffic]: the legacy token, the polling
      tasks and the load generator.

    Generators:
    - [ImmutableAuth] ([generateImmutableAuth.ts]), [Bindings] ([gogogen.ts],
      [build/build.ts]): the generated Solidity, shell and Go texts.

    ** What the theorems show

    - Deployment: one contract is created at the addresses computed from its
      salt and the factory's nonce, and recorded; the fallback of the multicall
      task ends with the same proxies, or stops in recording; a list of contracts is deployed in order,
      all of them being there in the end; an upgrade succeeds or fails as one;
      deployed contracts stay; deploying from a descriptor is deploying its
      entries one by one ([DeployFlow], [Fallback], [DeployAll],
      [UpgradeFlow], [Descriptor], [FactoryHistory]).
    - State file: each update refines the update of a finite map and leaves
      other networks alone; the getters cannot read the file ([StateFile]).
    - Lists and arguments: the deployment list is a stably sorted permutation
      of the deployable contracts; templates, lists and edited arguments round
      trip through the files ([DeployList], [DeployArgs]).
    - Safety of the factory: only the owner or the factory itself moves it, the
      proxy's lock cycle ([FactoryProofs], [LockCycle]).
    - Contract storage: the linked list, its storage contracts and the encoding
      implement a schedule; the swap-and-pop array implements a finite map; the
      ring buffer holds exactly the last six epochs; the values in force follow
      the epochs; no state refuses a valid snapshot, all this in the histories
      whose migrations carry the claims of consecutive epochs
      ([careful_migration]; [migration_gap] shows why); the data of the
      migration task fills the buffer ([Dynamics], [EnumerableMap], [Epochs],
      [Migration], [Snapshots]).
    - Administration: which transactions each task sends, in which order and
      from whom, or that it throws having sent none; waiting and polling return
      at the first round that meets the condition, and poll on otherwise.
    - Generators: the generated texts read back, by a parser that is part of
      the specification, as exactly the contracts or functions they are
      generated from.
    - Errors and deviations: the branches on which the code does something
      else than its name says are theorems too (saltless contracts,
      hexadecimal amounts, numeric descriptor arguments).

    ** Bounds and fuel

    - The endless or waiting loops ([waitBlocks], [create-local-seed-node],
      [getGasCost], [spamEthereum]) take the number of rounds looked at.
      Termination theorems give the number that is enough; the others hold
      for every number, with [WAITING] for a loop that is still polling.
    - [JSON.parse] is given the length of the text as fuel, which the round
      trip shows to be enough for every text [JSON.stringify] writes.
    - Message calls nest up to the depth the EVM allows, 1024; beyond it they
      fail, as they do on chain.
    - Gas and fees are unbounded integers ([BigNumber]); the contracts compute
      in machine words, checked or cast as the language does ([Solidity]).
    - The loop of the election runs once per validator at most, its fuel;
      [allowed_loop_run] shows that it ends before.

    ** Not modelled

    - The code of the remaining contracts (ValidatorPool, ETHDKG, staking,
      tokens), also behind proxies, in constructors and in [delegateCallAny]:
      parameters of [Factory.Evm], and of [Snapshots.Outside] where Snapshots
      asks them.  Hashes and the pairing check of a group signature are
      parameters too.
    - The declarations in [hardhatRuntimeEnvFields.ts] and [decs.d.ts], the
      settings of the linter.
    - Within one message call, code outside the repository emits events and
      leaves a proxy's slot or the factory's storage; its creations, calls and
      self-destruction are changes of [FactoryHistory] between the calls.
      Raw deployments of the proxy's code are ordinary code.
    - The output of child processes, file modes, symbolic links, JSON
      fractions and surrogate pairs, numbers beyond 2^53 where the language
      would round.
    - Concurrency: the scripts are sequential; calls that are started
      without [await] run at their place in the model where they have no
      await of their own, and are left out where the process ends first.
    - The Go node, the vendored Swagger files and the tests.

    ** Plan

    Still to come: ValidatorPool on top of [EnumerableMap], so that the
    answers Snapshots gets are those of a contract; the error paths of the
    descriptor tasks; the text of [go-go-gen]. *)

From Stdlib Require Export Ascii.
From stdpp Require Export base gmap strings list pretty sorting.
From stdpp Require Import options.

Local Open Scope Z_scope.

(** ** JavaScript exceptions and results

    [async] functions of the scripts either return a value or throw; a task
    that awaits them propagates the exception.  [res] is the outcome of a
    computation that only reads (artifacts, a parsed configuration); [World]
    adds the state. *)

Inductive jserror :=
  | Error (msg : string)                  (* throw new Error(msg) of the scripts *)
  | TypeError (msg : string)              (* raised by the language *)
  | FsError (code : string) (path : string)  (* raised by node's fs *)
  | LibError (lib : string) (msg : string).  (* raised by a library or the node *)

Global Instance jserror_eq_dec : EqDecision jserror.
Proof. solve_decision. Defined.

Inductive res (A : Type) :=
  | Ok (a : A)
  | Throw (e : jserror).
Arguments Ok {A} a.
Arguments Throw {A} e.

(** Sequencing: an exception ends the computation. *)
Definition rbind {A B} (m : res A) (k : A → res B) : res B :=
  match m with Ok a => k a | Throw e => Throw e end.

Declare Scope js_scope.
Delimit Scope js_scope with js.
Notation "x <~ m ;; k" := (rbind m (λ x, k))
  (at level 100, m at next level, right associativity) : js_scope.
Open Scope js_scope.

Definition of_option {A} (e : jserror) (o : option A) : res A :=
  match o with Some a => Ok a | None => Throw e end.

(** [mapM]-style loop: the first exception ends it. *)
Fixpoint res_mapM {A B} (f : A → res B) (l : list A) : res (list B) :=
  match l with
  | [] => Ok []
  | x :: l => y <~ f x ;; ys <~ res_mapM f l ;; Ok (y :: ys)
  end.

Fixpoint res_foldl {A B} (f : B → A → res B) (l : list A) (b : B) : res B :=
  match l with
  | [] => Ok b
  | x :: l => b' <~ f b x ;; res_foldl f l b'
  end.

Create HintDb bridge.

Lemma res_bind_Ok_inv {A B} (m : res A) (k : A → res B) b :
  rbind m k = Ok b → ∃ a, m = Ok a ∧ k a = Ok b.
Proof. destruct m; naive_solver. Qed.

Lemma of_option_Ok {A} e (o : option A) a : of_option e o = Ok a ↔ o = Some a.
Proof. destruct o; naive_solver. Qed.

Lemma res_mapM_Ok {A B} (f : A → res B) l k :
  res_mapM f l = Ok k ↔ Forall2 (λ x y, f x = Ok y) l k.
Proof.
  revert k; induction l as [|x l IH]; intros k; simpl.
  { split; [intros [= <-]; constructor|intros H; by inversion H]. }
  split.
  - intros (y & Hy & (ys & Hys & [= <-])%res_bind_Ok_inv)%res_bind_Ok_inv.
    constructor; [done|by apply IH].
  - intros H; inversion H as [|? y ? ys Hy Hys]; subst.
    rewrite Hy; simpl. apply IH in Hys as ->. done.
Qed.

(** Case analysis on the scrutinee of a bind in a hypothesis or the goal. *)
Ltac res_inv :=
  repeat match goal with
  | H : rbind _ _ = Ok _ |- _ =>
      apply res_bind_Ok_inv in H as (? & ? & H)
  | H : of_option _ _ = Ok _ |- _ => apply of_option_Ok in H
  | H : Ok _ = Ok _ |- _ => injection H as H
  | H : Throw _ = Ok _ |- _ => discriminate H
  end; subst.

(** ** Strings

    JavaScript strings are modelled as [string] (8-bit characters); the
    scripts only handle ASCII identifiers, paths and hex text. *)

Notation "x '++s' y" := (String.append x y) (at level 60, right associativity).

#[global] Arguments String.append !_ _ / : simpl nomatch.

Fixpoint string_elem (c : ascii) (s : string) : bool :=
  match s with
  | EmptyString => false
  | String d s => bool_decide (d = c) || string_elem c s
  end.

(** [s.split(c)] for a one-character separator: never empty. *)
Fixpoint split_on (c : ascii) (s : string) : list string :=
  match s with
  | EmptyString => [EmptyString]
  | String d s' =>
      if bool_decide (d = c) then EmptyString :: split_on c s'
      else match split_on c s' with
           | p :: ps => String d p :: ps
           | [] => [String d EmptyString]
           end
  end.

(** [l.join(sep)]. *)
Fixpoint join (sep : string) (l : list string) : string :=
  match l with
  | [] => EmptyString
  | [x] => x
  | x :: l => x ++s sep ++s join sep l
  end.

(** [s.replace(/\s+/g, '')] on ASCII text. *)
Fixpoint remove_ws (s : string) : string :=
  match s with
  | EmptyString => EmptyString
  | String c s => if Ascii.is_space c then remove_ws s else String c (remove_ws s)
  end.

Fixpoint all_char (c : ascii) (s : string) : bool :=
  match s with
  | EmptyString => true
  | String d s => bool_decide (d = c) && all_char c s
  end.

(** [s.replace(/\/+$/, '')]: strips the trailing slashes. *)
Fixpoint strip_slashes (s : string) : string :=
  match s with
  | EmptyString => EmptyString
  | String c s' => if all_char "/"%char s then EmptyString else String c (strip_slashes s')
  end.

(** [s.slice(n)] for [n >= 0]. *)
Fixpoint slice (n : nat) (s : string) : string :=
  match n, s with
  | O, _ => s
  | S n, String _ s => slice n s
  | S _, EmptyString => EmptyString
  end.

(** [s.startsWith(p)]. *)
Fixpoint startsWith (p s : string) : bool :=
  match p, s with
  | EmptyString, _ => true
  | String c p, String d s => bool_decide (c = d) && startsWith p s
  | String _ _, EmptyString => false
  end.

(** [s.includes(p)]. *)
Fixpoint includes (p s : string) : bool :=
  startsWith p s ||
  match s with EmptyString => false | String _ s => includes p s end.

(** [x !== undefined && x ? x : d] *)
Definition nonempty_or (d : string) (x : option string) : string :=
  match x with Some s => if decide (s = EmptyString) then d else s | None => d end.

(** The text after a prefix. *)
Fixpoint strip_prefix (p s : string) : option string :=
  match p, s with
  | EmptyString, _ => Some s
  | String a p, String b s => if decide (a = b) then strip_prefix p s else None
  | String _ _, EmptyString => None
  end.

(** The text before the first [c], and the rest from [c] on. *)
Fixpoint break_at (c : ascii) (s : string) : string * string :=
  match s with
  | EmptyString => (EmptyString, EmptyString)
  | String d s' => if decide (c = d) then (EmptyString, s)
                   else let '(a, b) := break_at c s' in (String d a, b)
  end.

Definition toLowerAscii (c : ascii) : ascii :=
  let n := N_of_ascii c in
  if (65 <=? n)%N && (n <=? 90)%N then ascii_of_N (n + 32) else c.

(** [s.charAt(0).toLowerCase() + s.slice(1)]. *)
Definition lowerFirst (s : string) : string :=
  match s with EmptyString => EmptyString | String c s => String (toLowerAscii c) s end.

Definition dq_char : ascii := ascii_of_nat 34.
Definition dq : string := String dq_char EmptyString.
Definition nl : string := String (ascii_of_nat 10) EmptyString.
Definition nl_char : ascii := ascii_of_nat 10.

(** ** Generic list lemmas *)

Section Filter.
Context {A : Type} (P : A → Prop) `{∀ x, Decision (P x)}.

Lemma filter_none l : Forall (λ x, ¬ P x) l → filter P l = [].
Proof. induction 1; [done|]. by rewrite filter_cons_False. Qed.

Lemma filter_all l : Forall P l → filter P l = l.
Proof. induction 1 as [|x l Hx Hl IH]; [done|]. by rewrite filter_cons_True, IH. Qed.

(** A predicate and its negation split a list. *)
Lemma filter_split (Q : A → Prop) `{∀ x, Decision (Q x)} l :
  (∀ x, Q x ↔ ¬ P x) → filter P l ++ filter Q l ≡ₚ l.
Proof.
  intros HPQ. rewrite (list_filter_iff Q (λ x, ¬ P x)) by done.
  apply filter_app_complement.
Qed.
End Filter.

Lemma list_fmap_bind_comm {A B C} (f : B → C) (g : A → list B) (l : list A) :
  f <$> (l ≫= g) = l ≫= λ x, f <$> g x.
Proof. induction l as [|x l IH]; [done|]. csimpl. by rewrite fmap_app, IH. Qed.

Lemma bind_perm_ext {A B} (f g : A → list B) (l : list A) :
  (∀ x, x ∈ l → f x ≡ₚ g x) → l ≫= f ≡ₚ l ≫= g.
Proof.
  induction l as [|x l IH]; intros H; [done|]. csimpl.
  f_equiv; [apply H|apply IH]; set_solver.
Qed.

(** *** Lemmas on strings *)

Lemma app_empty_r s : s ++s EmptyString = s.
Proof. induction s as [|c s IH]; simpl; [done|by rewrite IH]. Qed.

Lemma app_assoc_s s t u : (s ++s t) ++s u = s ++s t ++s u.
Proof. induction s as [|c s IH]; simpl; [done|by rewrite IH]. Qed.

Lemma length_app_s s t : String.length (s ++s t) = (String.length s + String.length t)%nat.
Proof. induction s as [|c s IH]; simpl; [done|by rewrite IH]. Qed.

Lemma string_elem_app c s t : string_elem c (s ++s t) = string_elem c s || string_elem c t.
Proof. induction s as [|d s IH]; simpl; [done|]. by rewrite IH, orb_assoc. Qed.

Lemma app_inj_l s t u : s ++s t = s ++s u → t = u.
Proof. induction s; simpl; naive_solver. Qed.

Lemma split_on_cons_nonempty c s : split_on c s ≠ [].
Proof. destruct s; simpl; repeat case_match; done. Qed.

Lemma split_on_none c s : string_elem c s = false → split_on c s = [s].
Proof.
  induction s as [|d s IH]; simpl; [done|].
  intros [Hd Hs]%orb_false_iff. rewrite Hd, IH; done.
Qed.

Lemma split_on_app c s t :
  string_elem c s = false →
  split_on c (s ++s String c t) = s :: split_on c t.
Proof.
  induction s as [|d s IH]; simpl.
  { intros _. by rewrite bool_decide_true. }
  intros [Hd Hs]%orb_false_iff. by rewrite Hd, IH.
Qed.

(** [join] inverts [split]: no character is lost or added. *)
Lemma join_split c s : join (String c EmptyString) (split_on c s) = s.
Proof.
  induction s as [|d s IH]; simpl; [done|].
  case_bool_decide as Hd; subst.
  - destruct (split_on c s) eqn:E; [by destruct (split_on_cons_nonempty c s)|].
    simpl in *. by rewrite IH.
  - destruct (split_on c s) as [|p ps] eqn:E; [by destruct (split_on_cons_nonempty c s)|].
    rewrite <-IH. by destruct ps.
Qed.

Lemma join_clean c sep (l : list string) :
  string_elem c sep = false → Forall (λ s, string_elem c s = false) l → string_elem c (join sep l) = false.
Proof.
  intros Hsep Hl. induction Hl as [|x l Hx Hl IH]; [done|]. destruct l as [|y l]; [done|].
  change (join sep (x :: y :: l)) with (x ++s sep ++s join sep (y :: l)).
  by rewrite !string_elem_app, Hx, Hsep, IH.
Qed.

Lemma split_join c (l : list string) :
  l ≠ [] → Forall (λ s, string_elem c s = false) l → split_on c (join (String c EmptyString) l) = l.
Proof.
  intros Hne Hl. induction Hl as [|x l Hx Hl IH]; [done|]. destruct l as [|y l].
  - by apply split_on_none.
  - change (join (String c EmptyString) (x :: y :: l)) with (x ++s String c (join (String c EmptyString) (y :: l))).
    rewrite split_on_app by done. by rewrite IH.
Qed.

Lemma strip_slashes_all s : all_char "/"%char s = true → strip_slashes s = EmptyString.
Proof. destruct s; simpl; [done|]. by intros ->. Qed.

(** Stripping twice is stripping once. *)
Lemma all_char_strip s :
  all_char "/"%char (strip_slashes s) = true → all_char "/"%char s = true.
Proof.
  induction s as [|c s IH]; [done|]. cbn [strip_slashes].
  destruct (all_char "/"%char (String c s)) eqn:E; [done|].
  simpl in *. intros [Hc Hs]%andb_true_iff. by rewrite Hc, (IH Hs) in E.
Qed.

Lemma strip_slashes_idem s : strip_slashes (strip_slashes s) = strip_slashes s.
Proof.
  induction s as [|c s IH]; [done|]. cbn [strip_slashes].
  destruct (all_char "/"%char (String c s)) eqn:E; [done|].
  cbn [strip_slashes]. rewrite IH.
  destruct (all_char "/"%char (String c (strip_slashes s))) eqn:E'; [|done].
  simpl in E, E'. apply andb_true_iff in E' as [Hc Hs].
  rewrite Hc in E. simpl in E. by rewrite (all_char_strip _ Hs) in E.
Qed.

(** Text that ends in anything but a slash is kept. *)
Lemma strip_slashes_app s t :
  strip_slashes t = t → t ≠ EmptyString → strip_slashes (s ++s t) = s ++s t.
Proof.
  intros Ht Hne. induction s as [|c s IH]; [done|]. simpl String.append. cbn [strip_slashes].
  destruct (all_char "/"%char (String c (s ++s t))) eqn:E; [exfalso|by rewrite IH].
  simpl in E. apply andb_true_iff in E as [_ E].
  rewrite (strip_slashes_all _ E) in IH. by destruct s, t.
Qed.

Lemma strip_prefix_app p s : strip_prefix p (p ++s s) = Some s.
Proof. induction p as [|a p IH]; simpl; [done|]. by rewrite decide_True. Qed.

Lemma break_at_app c s t :
  string_elem c s = false → break_at c (s ++s String c t) = (s, String c t).
Proof.
  induction s as [|d s IH]; simpl; [by rewrite decide_True|]. intros [Hd Hs]%orb_false_iff.
  apply bool_decide_eq_false in Hd. rewrite decide_False by done. by rewrite IH.
Qed.

#[export] Hint Rewrite app_empty_r app_assoc_s strip_slashes_idem join_split : bridge.
#[export] Hint Resolve split_on_cons_nonempty : bridge.
