(* ===== verification/Solidity.v ===== *)
(** * Solidity

    What the modelled contracts use of the language, version 0.8: checked
    arithmetic on machine words, casts that truncate, arrays whose bounds are
    checked, and reverts.  A function of a contract takes the storage it
    reads and returns the storage it leaves; a revert leaves none. *)

From S2P Require Import Prelude.
From stdpp Require Import options.
Local Open Scope Z_scope.

(** ** Reverts *)

Inductive sol_error :=
  | Panic (code : Z)                            (* raised by the language *)
  | Revert (name : string) (args : list Z).     (* [revert Name(args)] *)

Inductive sol (A : Type) :=
  | Done (a : A)
  | Reverts (e : sol_error).
Arguments Done {A} a.
Arguments Reverts {A} e.

Definition sbind {A B} (m : sol A) (k : A → sol B) : sol B :=
  match m with Done a => k a | Reverts e => Reverts e end.
Notation "x <! m ;; k" := (sbind m (λ x, k))
  (at level 100, m at next level, right associativity) : js_scope.

(** [if (b) revert Name(args)] *)
Definition revert_if (b : bool) (name : string) (args : list Z) : sol unit :=
  if b then Reverts (Revert name args) else Done tt.

Fixpoint sol_foldl {A B} (f : B → A → sol B) (l : list A) (b : B) : sol B :=
  match l with
  | [] => Done b
  | x :: l => b <! f b x ;; sol_foldl f l b
  end.

(** ** Machine words *)

(** The result of checked arithmetic of width [w]. *)
Definition checked (w x : Z) : sol Z :=
  if (0 <=? x) && (x <? 2 ^ w) then Done x else Reverts (Panic 0x11).

(** A cast to a narrower word. *)
Definition cast (w x : Z) : Z := x mod 2 ^ w.

Definition divide (a b : Z) : sol Z := if b =? 0 then Reverts (Panic 0x12) else Done (a / b).
Definition modulo (a b : Z) : sol Z := if b =? 0 then Reverts (Panic 0x12) else Done (a mod b).

Definition word (w x : Z) : Prop := 0 ≤ x < 2 ^ w.

(** ** Arrays *)

Definition array_get {A} (l : list A) (i : Z) : sol A :=
  match (if 0 <=? i then l !! Z.to_nat i else None) with
  | Some x => Done x
  | None => Reverts (Panic 0x32)
  end.

Definition array_set {A} (l : list A) (i : Z) (x : A) : sol (list A) :=
  if (0 <=? i) && (i <? Z.of_nat (length l)) then Done (<[Z.to_nat i := x]> l) else Reverts (Panic 0x32).

Definition array_pop {A} (l : list A) : sol (list A) :=
  match l with [] => Reverts (Panic 0x31) | _ => Done (removelast l) end.

(** A storage mapping holds zero where nothing was written. *)
Definition map_get (m : gmap Z Z) (k : Z) : Z := default 0 (m !! k).

(** ** Lemmas *)

Lemma sbind_Done {A B} (m : sol A) (k : A → sol B) b :
  sbind m k = Done b ↔ ∃ a, m = Done a ∧ k a = Done b.
Proof. destruct m; naive_solver. Qed.

Lemma checked_ok w x : word w x → checked w x = Done x.
Proof. intros [? ?]. unfold checked. by rewrite (proj2 (Z.leb_le _ _)), (proj2 (Z.ltb_lt _ _)). Qed.

Lemma checked_Done w x y : checked w x = Done y → y = x ∧ word w x.
Proof.
  unfold checked, word. destruct (Z.leb_spec 0 x), (Z.ltb_spec x (2 ^ w)); naive_solver.
Qed.

Lemma cast_word w x : word w x → cast w x = x.
Proof. apply Z.mod_small. Qed.

Lemma cast_range w x : 0 ≤ w → word w (cast w x).
Proof. intros. apply Z.mod_pos_bound. by apply Z.pow_pos_nonneg. Qed.

Lemma revert_if_Done b name args u : revert_if b name args = Done u ↔ b = false.
Proof. destruct u, b; naive_solver. Qed.

Lemma array_get_nat {A} (l : list A) n x : l !! n = Some x → array_get l (Z.of_nat n) = Done x.
Proof. intros H. unfold array_get. by rewrite (proj2 (Z.leb_le _ _)), Nat2Z.id, H by lia. Qed.

Lemma array_set_nat {A} (l : list A) n x : (n < length l)%nat →
  array_set l (Z.of_nat n) x = Done (<[n := x]> l).
Proof.
  intros H. unfold array_set.
  rewrite (proj2 (Z.leb_le _ _)), (proj2 (Z.ltb_lt _ _)) by lia. by rewrite Nat2Z.id.
Qed.

Lemma array_pop_snoc {A} (l : list A) x : array_pop (l ++ [x]) = Done l.
Proof.
  unfold array_pop. destruct (l ++ [x]) as [|y k] eqn:E; [by destruct l|]. rewrite <-E. by rewrite removelast_last.
Qed.

(** Inverts a run that did not revert. *)
Ltac sol_inv :=
  repeat match goal with
  | H : sbind _ _ = Done _ |- _ => apply sbind_Done in H as (? & ? & H)
  | H : revert_if _ _ _ = Done _ |- _ => apply revert_if_Done in H
  | H : checked _ _ = Done _ |- _ => apply checked_Done in H as [-> ?]
  | H : Done _ = Done _ |- _ => injection H as H
  | H : Reverts _ = Done _ |- _ => discriminate H
  end; subst.

(** A word put in front of another. *)
Lemma lor_shift a b n : 0 ≤ n → 0 ≤ b < 2 ^ n → Z.lor (Z.shiftl a n) b = a * 2 ^ n + b.
Proof.
  intros Hn Hb. rewrite <-Z.shiftl_mul_pow2 by done.
  assert (Z.land (Z.shiftl a n) b = 0) as Hz.
  { apply Z.bits_inj'. intros i Hi. rewrite Z.land_spec, Z.bits_0. destruct (Z.ltb_spec i n).
    - by rewrite Z.shiftl_spec_low.
    - destruct (decide (b = 0)) as [->|Hb0]; [by rewrite Z.bits_0, andb_false_r|].
      rewrite (Z.bits_above_log2 b i), andb_false_r; [done|lia|]. apply Z.log2_lt_pow2; [lia|].
      eapply Z.lt_le_trans; [apply Hb|]. by apply Z.pow_le_mono_r. }
  rewrite <-Z.add_lor_land, Hz. lia.
Qed.
