(* ===== verification/EnumerableMap.v ===== *)
(** * The set of validators

    [contracts/utils/CustomEnumerableMaps.sol], the map of [ValidatorPool.sol]
    from a validator's address to its staking position: an array of entries
    and a mapping from addresses to positions in it, counted from one. *)

From S2P Require Import Prelude Solidity.
From stdpp Require Import options.
Local Open Scope Z_scope.

(** ** Storage *)

Record ValidatorData := { _address : Z; _tokenID : Z }.

Record ValidatorDataMap := {
  _values : list ValidatorData;
  _indexes : gmap Z Z }.

Definition new_map : ValidatorDataMap := {| _values := []; _indexes := ∅ |}.

(** ** Operations *)

Definition contains (map : ValidatorDataMap) (key : Z) : bool :=
  negb (map_get (_indexes map) key =? 0).

Definition map_length (map : ValidatorDataMap) : Z := Z.of_nat (length (_values map)).

Definition add (map : ValidatorDataMap) (value : ValidatorData) : sol (ValidatorDataMap * bool) :=
  if negb (contains map (_address value)) then
    let values := _values map ++ [value] in
    Done ({| _values := values;
             _indexes := <[_address value := Z.of_nat (length values)]> (_indexes map) |}, true)
  else Done (map, false).

(** The entry to delete is overwritten by the last one. *)
Definition move_last (map : ValidatorDataMap) (valueIndex toDeleteIndex lastIndex : Z) : sol ValidatorDataMap :=
  lastValue <! array_get (_values map) lastIndex ;;
  values <! array_set (_values map) toDeleteIndex lastValue ;;
  Done {| _values := values; _indexes := <[_address lastValue := valueIndex]> (_indexes map) |}.

Definition remove (map : ValidatorDataMap) (key : Z) : sol (ValidatorDataMap * bool) :=
  let valueIndex := map_get (_indexes map) key in
  if negb (valueIndex =? 0) then
    toDeleteIndex <! checked 256 (valueIndex - 1) ;;
    lastIndex <! checked 256 (map_length map - 1) ;;
    map <! (if negb (lastIndex =? toDeleteIndex)
            then move_last map valueIndex toDeleteIndex lastIndex else Done map) ;;
    values <! array_pop (_values map) ;;
    Done ({| _values := values; _indexes := delete key (_indexes map) |}, true)
  else Done (map, false).

Definition at_index (map : ValidatorDataMap) (index : Z) : sol ValidatorData :=
  array_get (_values map) index.

Definition tryGet (map : ValidatorDataMap) (key : Z) : sol (bool * ValidatorData) :=
  let index := map_get (_indexes map) key in
  if index =? 0 then Done (false, {| _address := 0; _tokenID := 0 |})
  else
    i <! checked 256 (index - 1) ;;
    v <! array_get (_values map) i ;;
    Done (true, v).

Definition get (map : ValidatorDataMap) (key : Z) : sol ValidatorData :=
  r <! tryGet map key ;;
  if negb r.1 then Reverts (Revert "KeyNotInMap" [key]) else Done r.2.

Definition addressValues (map : ValidatorDataMap) : list Z := _address <$> _values map.

(** ** Histories *)

Inductive operation :=
  | Add (value : ValidatorData)
  | Remove (key : Z).

Definition exec (map : ValidatorDataMap) (o : operation) : sol (ValidatorDataMap * bool) :=
  match o with Add v => add map v | Remove k => remove map k end.

Fixpoint run (map : ValidatorDataMap) (os : list operation) : sol (ValidatorDataMap * list bool) :=
  match os with
  | [] => Done (map, [])
  | o :: os =>
      r <! exec map o ;;
      rs <! run r.1 os ;;
      Done (rs.1, r.2 :: rs.2)
  end.

(** ** Specification: a finite map *)

Definition spec_exec (s : gmap Z Z) (o : operation) : gmap Z Z * bool :=
  match o with
  | Add v =>
      match s !! _address v with
      | Some _ => (s, false)
      | None => (<[_address v := _tokenID v]> s, true)
      end
  | Remove k => (delete k s, bool_decide (is_Some (s !! k)))
  end.

Fixpoint spec_run (s : gmap Z Z) (os : list operation) : gmap Z Z * list bool :=
  match os with
  | [] => (s, [])
  | o :: os => let r := spec_exec s o in let rs := spec_run r.1 os in (rs.1, r.2 :: rs.2)
  end.

(** What the read operations answer. *)
Record answers (m : ValidatorDataMap) (s : gmap Z Z) : Prop := {
  answer_contains k : contains m k = bool_decide (is_Some (s !! k));
  answer_get k : get m k = match s !! k with
                           | Some t => Done {| _address := k; _tokenID := t |}
                           | None => Reverts (Revert "KeyNotInMap" [k])
                           end;
  answer_tryGet k : tryGet m k = Done (match s !! k with
                                       | Some t => (true, {| _address := k; _tokenID := t |})
                                       | None => (false, {| _address := 0; _tokenID := 0 |})
                                       end);
  answer_length : map_length m = Z.of_nat (size s);
  answer_values : (λ v, (_address v, _tokenID v)) <$> _values m ≡ₚ map_to_list s;
  answer_addresses : addressValues m ≡ₚ (map_to_list s).*1;
  answer_at i : match at_index m i with
                | Done v => s !! _address v = Some (_tokenID v)
                | Reverts e => e = Panic 0x32 ∧ ¬ 0 ≤ i < Z.of_nat (size s)
                end }.

(** ** The invariant

    The mapping gives exactly the positions of the entries. *)

Record wf (m : ValidatorDataMap) : Prop := {
  wf_listed i v : _values m !! i = Some v → _indexes m !! _address v = Some (Z.of_nat (S i));
  wf_indexed k n : _indexes m !! k = Some n →
    ∃ i v, n = Z.of_nat (S i) ∧ _values m !! i = Some v ∧ _address v = k;
  wf_address : Forall (λ v, word 160 (_address v)) (_values m) }.

Definition entry (v : ValidatorData) : Z * Z := (_address v, _tokenID v).
Definition tokens (m : ValidatorDataMap) : gmap Z Z := list_to_map (entry <$> _values m).

Lemma wf_new : wf new_map.
Proof. split; [intros ?? H; discriminate H|intros ?? H; discriminate H|constructor]. Qed.

(** An address has one entry. *)
Lemma wf_unique m i j v w : wf m →
  _values m !! i = Some v → _values m !! j = Some w → _address v = _address w → i = j.
Proof.
  intros Hm Hv%(wf_listed m Hm) Hw%(wf_listed m Hm) E. rewrite E, Hw in Hv. injection Hv. lia.
Qed.

Lemma wf_NoDup m : wf m → NoDup (entry <$> _values m).*1.
Proof.
  intros Hm. rewrite <-list_fmap_compose. apply NoDup_alt. intros i j a Hi Hj.
  apply list_lookup_fmap_Some in Hi as (v & -> & Hv), Hj as (w & E & Hw).
  by apply (wf_unique m i j v w).
Qed.

Lemma tokens_lookup m i v : wf m → _values m !! i = Some v → tokens m !! _address v = Some (_tokenID v).
Proof.
  intros Hm Hv. apply elem_of_list_to_map; [by apply wf_NoDup|].
  apply list_elem_of_fmap. exists v. split; [done|]. by eapply list_elem_of_lookup_2.
Qed.

(** The position the mapping gives, or zero. *)
Lemma index_cases m k : wf m →
  (map_get (_indexes m) k = 0 ∧ _indexes m !! k = None ∧ tokens m !! k = None) ∨
  ∃ i v, map_get (_indexes m) k = Z.of_nat (S i) ∧ _values m !! i = Some v ∧ _address v = k.
Proof.
  intros Hm. unfold map_get. destruct (_indexes m !! k) as [n|] eqn:Hn.
  - right. destruct (wf_indexed m Hm _ _ Hn) as (i & v & -> & Hv & <-). by exists i, v.
  - left. split_and!; [done..|]. apply not_elem_of_list_to_map. rewrite <-list_fmap_compose.
    intros (v & -> & (i & Hv)%list_elem_of_lookup)%list_elem_of_fmap.
    pose proof (wf_listed m Hm _ _ Hv). simpl in Hn. congruence.
Qed.

(** There are at most as many distinct numbers below [n] as [n]. *)
Lemma NoDup_bounded (l : list Z) n : NoDup l → Forall (λ x, 0 ≤ x < n) l → Z.of_nat (length l) ≤ Z.max 0 n.
Proof.
  intros Hl Hn. assert (length l ≤ length (seqZ 0 n))%nat as Hle.
  { apply submseteq_length, NoDup_submseteq; [done|]. intros x Hx. rewrite Forall_forall in Hn.
    apply elem_of_seqZ. specialize (Hn x Hx). lia. }
  rewrite length_seqZ in Hle. lia.
Qed.

Lemma wf_length m : wf m → map_length m ≤ 2 ^ 160.
Proof.
  intros Hm. pose proof (wf_NoDup m Hm) as Hn. rewrite <-list_fmap_compose in Hn.
  unfold map_length. rewrite <-(length_fmap (fst ∘ entry)).
  etrans; [apply (NoDup_bounded _ (2 ^ 160)); [done|]|by apply Z.eq_le_incl].
  apply Forall_fmap. exact (wf_address m Hm).
Qed.

Lemma checked_index m i v : wf m → _values m !! i = Some v → checked 256 (Z.of_nat (S i) - 1) = Done (Z.of_nat i).
Proof.
  intros Hm Hv%lookup_lt_Some. pose proof (wf_length m Hm) as Hl. unfold map_length in Hl.
  rewrite checked_ok; [f_equal; lia|]. assert (2 ^ 160 < 2 ^ 256) by (by apply Z.pow_lt_mono_r). unfold word. lia.
Qed.

(** ** Each operation *)

Lemma wf_answers m : wf m → answers m (tokens m).
Proof.
  intros Hm.
  assert (∀ k, tryGet m k = Done (match tokens m !! k with
    | Some t => (true, {| _address := k; _tokenID := t |})
    | None => (false, {| _address := 0; _tokenID := 0 |}) end)) as Htry.
  { intros k. unfold tryGet.
    destruct (index_cases m k Hm) as [(-> & _ & ->)|(i & v & Hi & Hv & <-)]; [done|].
    rewrite Hi, (tokens_lookup m i v Hm Hv). change (Z.of_nat (S i) =? 0) with false. cbv iota.
    rewrite (checked_index m i v Hm Hv). cbn [sbind]. rewrite (array_get_nat _ _ _ Hv). by destruct v. }
  assert (entry <$> _values m ≡ₚ map_to_list (tokens m)) as Hp
    by (symmetry; apply map_to_list_to_map; by apply wf_NoDup).
  assert (map_length m = Z.of_nat (size (tokens m))) as Hl
    by (unfold map_length; by rewrite <-length_map_to_list, <-Hp, length_fmap).
  split; [| |exact Htry|exact Hl|exact Hp| |].
  - intros k. unfold contains. destruct (index_cases m k Hm) as [(-> & _ & ->)|(i & v & -> & Hv & <-)]; [done|].
    by rewrite (tokens_lookup m i v Hm Hv).
  - intros k. unfold get. rewrite Htry. by destruct (tokens m !! k).
  - rewrite <-Hp, <-list_fmap_compose. done.
  - intros i. unfold at_index, array_get. rewrite <-Hl. unfold map_length.
    destruct (Z.leb_spec 0 i); [|split; [done|lia]]. destruct (_values m !! Z.to_nat i) as [v|] eqn:Hv.
    + by apply (tokens_lookup m (Z.to_nat i)).
    + apply lookup_ge_None in Hv. split; [done|lia].
Qed.

Lemma add_step m v : wf m → word 160 (_address v) →
  ∃ m', exec m (Add v) = Done (m', (spec_exec (tokens m) (Add v)).2) ∧ wf m' ∧
    tokens m' = (spec_exec (tokens m) (Add v)).1.
Proof.
  intros Hm Hv. simpl. unfold add, contains.
  destruct (index_cases m (_address v) Hm) as [(-> & Hi & Ht)|(i & w & -> & Hw & E)].
  2:{ rewrite <-E, (tokens_lookup m i w Hm Hw). by exists m. }
  simpl. rewrite Ht. eexists. split; [done|]. split; [split; simpl|].
  - intros i w Hw. apply lookup_app_Some in Hw as [Hw|[Hle Hw]].
    + pose proof (wf_listed m Hm _ _ Hw). rewrite lookup_insert_ne by congruence. done.
    + apply list_lookup_singleton_Some in Hw as [Hz <-]. rewrite lookup_insert_eq, length_app. simpl. do 2 f_equal. lia.
  - intros k n Hk. apply lookup_insert_Some in Hk as [[<- <-]|[Hne Hk]].
    + exists (length (_values m)), v. split_and!; [rewrite length_app; simpl; f_equal; lia|apply list_lookup_middle; done|done].
    + destruct (wf_indexed m Hm _ _ Hk) as (i & w & -> & Hw & <-). exists i, w. split_and!; [done| |done].
      by apply lookup_app_l_Some.
  - apply Forall_app. split; [by apply (wf_address m Hm)|by apply Forall_singleton].
  - unfold tokens. simpl. rewrite fmap_app. rewrite (list_to_map_proper _ (entry v :: (entry <$> _values m))); [done| |].
    + rewrite fmap_app. simpl. apply NoDup_app. split_and!; [by apply wf_NoDup| |apply NoDup_singleton].
      intros a Ha ->%list_elem_of_singleton. apply not_elem_of_list_to_map in Ht. by apply Ht.
    + apply Permutation_app_comm.
Qed.

(** Removing: the last entry takes the place of the one removed. *)
Lemma remove_run m k i v : wf m → map_get (_indexes m) k = Z.of_nat (S i) →
  _values m !! i = Some v → _address v = k →
  ∃ l x, _values m = l ++ [x] ∧
    remove m k = Done (
      if decide (i = length l)
      then {| _values := l; _indexes := delete k (_indexes m) |}
      else {| _values := <[i := x]> l;
              _indexes := delete k (<[_address x := Z.of_nat (S i)]> (_indexes m)) |}, true).
Proof.
  intros Hm Hi Hv Hk. destruct (_values m) as [|y ys] eqn:E; [done|]. rewrite <-E in *.
  destruct (exists_last (l := _values m)) as (l & x & El); [by rewrite E|]. exists l, x. split; [done|].
  unfold remove. rewrite Hi. change (Z.of_nat (S i) =? 0) with false. cbv iota. simpl negb. cbv iota.
  rewrite (checked_index m i v Hm Hv). cbn [sbind].
  assert (map_length m = Z.of_nat (S (length l))) as Hn
    by (unfold map_length; rewrite El, length_app; simpl; f_equal; lia).
  assert (_values m !! length l = Some x) as Hx by (rewrite El; by apply list_lookup_middle).
  rewrite Hn, (checked_index m _ x Hm Hx). cbn [sbind].
  pose proof (lookup_lt_Some _ _ _ Hv) as Hlt. rewrite El, length_app in Hlt. simpl in Hlt.
  destruct (decide (i = length l)) as [->|Hne].
  - rewrite Z.eqb_refl. cbn [negb sbind]. by rewrite El, array_pop_snoc.
  - rewrite (proj2 (Z.eqb_neq _ _)) by lia. cbn [negb]. unfold move_last.
    rewrite (array_get_nat _ _ _ Hx). cbn [sbind].
    rewrite array_set_nat by (rewrite El, length_app; simpl; lia). cbn [sbind _values _indexes].
    rewrite El, insert_app_l by lia. by rewrite array_pop_snoc.
Qed.

Section Removed.
Context (m : ValidatorDataMap) (Hm : wf m) (l : list ValidatorData) (x : ValidatorData).
Context (El : _values m = l ++ [x]).

Lemma last_index : _values m !! length l = Some x.
Proof using El. rewrite El. by apply list_lookup_middle. Qed.

Lemma init_lookup j w : l !! j = Some w → _values m !! j = Some w ∧ j ≠ length l.
Proof using El.
  intros Hw. rewrite El. split; [by apply lookup_app_l_Some|]. apply lookup_lt_Some in Hw. lia.
Qed.

Lemma remove_last : wf {| _values := l; _indexes := delete (_address x) (_indexes m) |}.
Proof using Hm El.
  split; simpl.
  - intros j w [Hw Hj]%init_lookup. rewrite lookup_delete_ne; [by apply (wf_listed m Hm)|].
    intros E. by apply Hj, (wf_unique m j (length l) w x Hm Hw last_index).
  - intros k n [Hne Hk]%lookup_delete_Some. destruct (wf_indexed m Hm _ _ Hk) as (j & w & -> & Hw & <-).
    exists j, w. split_and!; [done| |done]. rewrite El in Hw. apply lookup_app_Some in Hw as [Hw|[_ Hw]]; [done|].
    apply list_lookup_singleton_Some in Hw as [_ <-]. done.
  - pose proof (wf_address m Hm) as Ha. rewrite El in Ha. by apply Forall_app in Ha as [? _].
Qed.

Lemma remove_middle i v : l !! i = Some v →
  wf {| _values := <[i := x]> l;
        _indexes := delete (_address v) (<[_address x := Z.of_nat (S i)]> (_indexes m)) |}.
Proof using Hm El.
  intros Hi. destruct (init_lookup i v Hi) as [Hv Hil].
  assert (_address v ≠ _address x) as Hvx by (intros E; by apply Hil, (wf_unique m i (length l) v x Hm Hv last_index)).
  split; simpl.
  - intros j w [(<- & <- & _)|[Hij [Hw Hjl]%init_lookup]]%list_lookup_insert_Some.
    + by rewrite lookup_delete_ne, lookup_insert_eq.
    + rewrite lookup_delete_ne, lookup_insert_ne; [by apply (wf_listed m Hm)| |].
      * intros E. by apply Hjl, (wf_unique m j (length l) w x Hm Hw last_index).
      * intros E. by apply Hij, (wf_unique m i j v w Hm Hv Hw).
  - intros k n [Hne [[<- <-]|[Hx Hk]]%lookup_insert_Some]%lookup_delete_Some.
    + exists i, x. split_and!; [done| |done]. apply list_lookup_insert_eq. by eapply lookup_lt_Some.
    + destruct (wf_indexed m Hm _ _ Hk) as (j & w & -> & Hw & <-). exists j, w. split_and!; [done| |done].
      rewrite El in Hw. apply lookup_app_Some in Hw as [Hw|[_ Hw]].
      * rewrite list_lookup_insert_ne; [done|]. intros <-. congruence.
      * apply list_lookup_singleton_Some in Hw as [_ <-]. congruence.
  - apply Forall_insert; pose proof (wf_address m Hm) as Ha; rewrite El in Ha; apply Forall_app in Ha as [? Hx].
    + done.
    + rewrite Forall_singleton in Hx. exact Hx.
Qed.

Lemma removed_entries i v : l !! i = Some v → _values m ≡ₚ v :: <[i := x]> l.
Proof using El.
  intros Hi. rewrite El, (Permutation_app_comm l [x]), insert_take_drop by by eapply lookup_lt_Some.
  simpl. rewrite <-(take_drop_middle l i v Hi) at 1. rewrite <-!Permutation_middle. apply perm_swap.
Qed.
End Removed.

(** What is left after an entry is taken out of the array. *)
Lemma tokens_removed m m' v : wf m → wf m' → _values m ≡ₚ v :: _values m' →
  tokens m' = delete (_address v) (tokens m).
Proof.
  intros Hm Hm' Hp. unfold tokens.
  assert (entry <$> _values m ≡ₚ entry <$> v :: _values m') as He by by rewrite Hp.
  assert (NoDup (entry <$> v :: _values m').*1) as Hn by (rewrite <-He; by apply wf_NoDup).
  rewrite (list_to_map_proper _ _ (wf_NoDup m Hm) He).
  simpl in *. apply NoDup_cons in Hn as [Hv _]. rewrite delete_insert_id; [done|]. by apply not_elem_of_list_to_map.
Qed.

Lemma remove_step m k : wf m →
  ∃ m', exec m (Remove k) = Done (m', (spec_exec (tokens m) (Remove k)).2) ∧ wf m' ∧
    tokens m' = (spec_exec (tokens m) (Remove k)).1.
Proof.
  intros Hm. simpl. destruct (index_cases m k Hm) as [(Hi & _ & Ht)|(i & v & Hi & Hv & Hk)].
  { unfold remove. rewrite Hi. exists m. rewrite Ht. by rewrite delete_id. }
  destruct (remove_run m k i v Hm Hi Hv Hk) as (l & x & El & ->).
  rewrite <-Hk, (tokens_lookup m i v Hm Hv). destruct (decide (i = length l)) as [->|Hne].
  - rewrite (last_index m l x El) in Hv. injection Hv as ->.
    pose proof (remove_last m Hm l v El) as Hw. eexists. split; [done|]. split; [done|].
    apply tokens_removed; [done..|]. simpl. rewrite El. by rewrite Permutation_app_comm.
  - assert (l !! i = Some v) as Hl.
    { rewrite El in Hv. apply lookup_app_Some in Hv as [Hv|[Hle Hv]]; [done|].
      apply list_lookup_singleton_Some in Hv as [? _]. lia. }
    pose proof (remove_middle m Hm l x El i v Hl) as Hw. eexists. split; [done|]. split; [done|].
    apply tokens_removed; [done..|]. by apply removed_entries.
Qed.

Definition valid_key (o : operation) : Prop :=
  match o with Add v => word 160 (_address v) | Remove _ => True end.

(** C17: the library implements a finite map.  Every sequence of additions and
    removals of addresses, from the empty map on, runs without a revert or a
    panic and answers each operation the way the specification does; after
    it, every read answers from the finite map the specification reached:
    membership, [get] with its revert on a missing key, [tryGet], the number
    of entries, the entries themselves, each once, and the bounds of [at]. *)
Theorem enumerable_map_refines os : Forall valid_key os →
  ∃ m, run new_map os = Done (m, (spec_run ∅ os).2) ∧ answers m (spec_run ∅ os).1.
Proof.
  intros Hos. change ∅ with (tokens new_map). pose proof wf_new as Hw. revert Hw.
  generalize new_map. induction Hos as [|o os Ho _ IH]; intros m Hm.
  { exists m. split; [done|]. by apply wf_answers. }
  assert (∃ m', exec m o = Done (m', (spec_exec (tokens m) o).2) ∧ wf m' ∧
    tokens m' = (spec_exec (tokens m) o).1) as (m' & E & Hm' & Ht).
  { destruct o; [by apply add_step|by apply remove_step]. }
  cbn [run spec_run]. cbv zeta. rewrite E. cbn [sbind fst snd]. rewrite <-Ht.
  destruct (IH m' Hm') as (m'' & -> & Ha). by exists m''.
Qed.

Definition ops_ex : list operation :=
  [Add {| _address := 7; _tokenID := 1 |}; Add {| _address := 8; _tokenID := 2 |};
   Add {| _address := 9; _tokenID := 3 |}; Add {| _address := 8; _tokenID := 4 |}; Remove 7; Remove 7].

Example ops_ex_run : run new_map ops_ex =
  Done ({| _values := [{| _address := 9; _tokenID := 3 |}; {| _address := 8; _tokenID := 2 |}];
           _indexes := <[8 := 2]> (<[9 := 1]> ∅) |}, [true; true; true; false; true; false]).
Proof. vm_compute. reflexivity. Qed.

Lemma enumerable_map_refines_witness :
  ∃ m, run new_map ops_ex = Done (m, [true; true; true; false; true; false]) ∧
    answers m (<[8 := 2]> (<[9 := 3]> ∅)).
Proof.
  assert (Forall valid_key ops_ex) as Hv by (repeat constructor; discriminate).
  destruct (enumerable_map_refines ops_ex Hv) as (m & E & Ha). exists m. split; [exact E|exact Ha].
Defined.
