(* ===== verification/LinkedList.v ===== *)
(** * The list of scheduled values

    [contracts/libraries/dynamics/DoublyLinkedList.sol], which [Dynamics.sol]
    keeps its values in: nodes in a mapping from epochs, linked both ways,
    with the epochs of the head and of the tail. *)

From S2P Require Import Prelude Solidity.
From stdpp Require Import options.
Local Open Scope Z_scope.

(** ** Storage *)

Record Node := { n_epoch : Z; n_next : Z; n_prev : Z; n_data : Z }.

Record DoublyLinkedList := {
  l_head : Z;
  l_tail : Z;
  l_nodes : gmap Z Node }.

Definition zero_node : Node := {| n_epoch := 0; n_next := 0; n_prev := 0; n_data := 0 |}.
Definition new_list : DoublyLinkedList := {| l_head := 0; l_tail := 0; l_nodes := ∅ |}.

(** ** Operations *)

Definition getNode (list : DoublyLinkedList) (epoch : Z) : Node := default zero_node (l_nodes list !! epoch).
Definition getValue (list : DoublyLinkedList) (epoch : Z) : Z := n_data (getNode list epoch).
Definition getNextEpoch (list : DoublyLinkedList) (epoch : Z) : Z := n_next (getNode list epoch).
Definition getPreviousEpoch (list : DoublyLinkedList) (epoch : Z) : Z := n_prev (getNode list epoch).
Definition exists_node (list : DoublyLinkedList) (epoch : Z) : bool := negb (getValue list epoch =? 0).

Definition createNode (epoch data : Z) : Node :=
  {| n_epoch := epoch; n_next := 0; n_prev := 0; n_data := data |}.
Definition updatePrevious (node : Node) (prevEpoch : Z) : Node :=
  {| n_epoch := n_epoch node; n_next := n_next node; n_prev := prevEpoch; n_data := n_data node |}.
Definition updateNext (node : Node) (nextEpoch : Z) : Node :=
  {| n_epoch := n_epoch node; n_next := nextEpoch; n_prev := n_prev node; n_data := n_data node |}.

Definition set_node (list : DoublyLinkedList) (epoch : Z) (node : Node) : DoublyLinkedList :=
  {| l_head := l_head list; l_tail := l_tail list; l_nodes := <[epoch := node]> (l_nodes list) |}.

Definition setHead (list : DoublyLinkedList) (epoch : Z) : sol DoublyLinkedList :=
  if negb (exists_node list epoch) then Reverts (Revert "InexistentNodeAtPosition" [epoch])
  else Done {| l_head := epoch; l_tail := l_tail list; l_nodes := l_nodes list |}.

Definition setTail (list : DoublyLinkedList) (epoch : Z) : sol DoublyLinkedList :=
  if negb (exists_node list epoch) then Reverts (Revert "InexistentNodeAtPosition" [epoch])
  else Done {| l_head := l_head list; l_tail := epoch; l_nodes := l_nodes list |}.

Definition linkNext (list : DoublyLinkedList) (prevEpoch nextEpoch : Z) : DoublyLinkedList :=
  set_node list prevEpoch (updateNext (getNode list prevEpoch) nextEpoch).
Definition linkPrevious (list : DoublyLinkedList) (nextEpoch prevEpoch : Z) : DoublyLinkedList :=
  set_node list nextEpoch (updatePrevious (getNode list nextEpoch) prevEpoch).

Definition addNode (list : DoublyLinkedList) (epoch data : Z) : sol DoublyLinkedList :=
  let head := cast 32 (l_head list) in
  let tail := cast 32 (l_tail list) in
  _ <! revert_if (epoch <=? tail) "InvalidNodeId" [head; tail; epoch] ;;
  _ <! revert_if (exists_node list epoch) "ExistentNodeAtPosition" [epoch] ;;
  _ <! revert_if (data =? 0) "InvalidData" [] ;;
  let node := createNode epoch data in
  if head =? 0 then
    let list := set_node list epoch node in
    list <! setHead list epoch ;;
    setTail list epoch
  else
    let list := set_node list epoch (updatePrevious node tail) in
    let list := linkNext list tail epoch in
    setTail list epoch.

(** ** The list the nodes form *)

(** The node of the [i]th entry of a list of epochs and data. *)
Definition node_of (es : list (Z * Z)) (i : nat) : option Node :=
  ed ← es !! i;
  Some {| n_epoch := ed.1; n_next := default 0 (fst <$> es !! S i);
          n_prev := match i with O => 0 | S j => default 0 (fst <$> es !! j) end; n_data := ed.2 |}.

(** The storage holds exactly the nodes of [es], whose epochs increase; the
    head is entry [h], the tail the last one. *)
Record linked (L : DoublyLinkedList) (es : list (Z * Z)) (h : nat) : Prop := {
  linked_nodes i n : node_of es i = Some n → l_nodes L !! n_epoch n = Some n;
  linked_only k n : l_nodes L !! k = Some n → ∃ i, node_of es i = Some n ∧ n_epoch n = k;
  linked_sorted i j a b : es !! i = Some a → es !! j = Some b → (i < j)%nat → a.1 < b.1;
  linked_valid : Forall (λ ed, 0 < ed.1 < 2 ^ 32 ∧ ed.2 ≠ 0) es;
  linked_head : l_head L = default 0 (fst <$> es !! h);
  linked_tail : l_tail L = default 0 (fst <$> last es);
  linked_current : (h < length es)%nat ∨ es = [] ∧ h = 0%nat }.

Lemma linked_new : linked new_list [] 0.
Proof. split; try done. by right. Qed.

Section Linked.
Context (L : DoublyLinkedList) (es : list (Z * Z)) (h : nat) (HL : linked L es h).

Lemma entry_valid i e d : es !! i = Some (e, d) → 0 < e < 2 ^ 32 ∧ d ≠ 0.
Proof using HL.
  intros Hi. pose proof (linked_valid _ _ _ HL) as Hv. rewrite Forall_lookup in Hv. apply (Hv i _ Hi).
Qed.

Lemma entry_node i e d : es !! i = Some (e, d) →
  getNode L e = {| n_epoch := e; n_next := default 0 (fst <$> es !! S i);
                   n_prev := match i with O => 0 | S j => default 0 (fst <$> es !! j) end; n_data := d |}.
Proof using HL.
  intros Hi. pose proof (linked_nodes _ _ _ HL i) as Hn. unfold node_of in Hn. rewrite Hi in Hn.
  specialize (Hn _ eq_refl). simpl in Hn. unfold getNode. by rewrite Hn.
Qed.

(** Only the epochs of the list have a node. *)
Lemma exists_entry e : exists_node L e = true ↔ ∃ i d, es !! i = Some (e, d).
Proof using HL.
  unfold exists_node, getValue. split.
  - unfold getNode. destruct (l_nodes L !! e) as [n|] eqn:Hn; [|done]. intros _.
    destruct (linked_only _ _ _ HL _ _ Hn) as (i & Hi & He). unfold node_of in Hi.
    destruct (es !! i) as [[e' d]|] eqn:E; [|done]. injection Hi as <-. simpl in He. subst. by exists i, d.
  - intros (i & d & Hi). rewrite (entry_node i e d Hi). simpl. destruct (entry_valid i e d Hi) as [_ Hd].
    by rewrite (proj2 (Z.eqb_neq _ _)).
Qed.

Lemma setHead_entry i e d : es !! i = Some (e, d) →
  ∃ L', setHead L e = Done L' ∧ linked L' es i.
Proof using HL.
  intros Hi. unfold setHead. rewrite (proj2 (exists_entry e)) by by exists i, d. eexists. split; [done|].
  destruct HL as [H1 H2 H3 H4 _ H6 _]. split; [done..| |done|].
  - simpl. by rewrite Hi.
  - left. by eapply lookup_lt_Some.
Qed.

(** Every epoch is at most the tail. *)
Lemma entry_le_tail i e d : es !! i = Some (e, d) → e ≤ l_tail L.
Proof using HL.
  intros Hi. rewrite (linked_tail _ _ _ HL), last_lookup.
  pose proof (lookup_lt_Some _ _ _ Hi) as Hlt.
  destruct (lookup_lt_is_Some_2 es (pred (length es))) as [[t d'] Ht]; [lia|]. rewrite Ht. simpl.
  destruct (decide (i = pred (length es))) as [->|Hne].
  - rewrite Hi in Ht. injection Ht. lia.
  - pose proof (linked_sorted _ _ _ HL _ _ _ _ Hi Ht) as Hs. simpl in Hs. specialize (Hs ltac:(lia)). lia.
Qed.

Lemma tail_range : 0 ≤ l_tail L < 2 ^ 32.
Proof using HL.
  rewrite (linked_tail _ _ _ HL), last_lookup. destruct (es !! _) as [[e d]|] eqn:E; simpl; [|lia].
  destruct (entry_valid _ _ _ E). lia.
Qed.

Lemma head_range : 0 ≤ l_head L < 2 ^ 32.
Proof using HL.
  rewrite (linked_head _ _ _ HL). destruct (es !! h) as [[e d]|] eqn:E; simpl; [|lia].
  destruct (entry_valid _ _ _ E). lia.
Qed.

Lemma head_zero : l_head L = 0 ↔ es = [].
Proof using HL.
  rewrite (linked_head _ _ _ HL). destruct (linked_current _ _ _ HL) as [Hlt|[-> ->]]; [|done].
  destruct (lookup_lt_is_Some_2 _ _ Hlt) as [[e d] E]. rewrite E. simpl. destruct (entry_valid _ _ _ E).
  split; [lia|]. by intros ->.
Qed.
End Linked.

(** ** Appending *)

Lemma node_of_app_lt es x i : (S i < length es)%nat → node_of (es ++ [x]) i = node_of es i.
Proof.
  intros Hi. unfold node_of. rewrite !lookup_app_l by lia. destruct (es !! i); [|done]. simpl.
  by destruct i; rewrite ?lookup_app_l by lia.
Qed.

Lemma node_of_app_last es e d i n : S i = length es → node_of es i = Some n →
  node_of (es ++ [(e, d)]) i = Some (updateNext n e).
Proof.
  intros Hi. unfold node_of. rewrite (lookup_app_l _ _ i) by lia. rewrite Hi.
  destruct (es !! i) as [[a b]|]; [|done]. simpl. intros [= <-]. unfold updateNext. simpl.
  rewrite lookup_app_r, Nat.sub_diag by lia. simpl. by destruct i; rewrite ?lookup_app_l by lia.
Qed.

Lemma node_of_app_new es e d : node_of (es ++ [(e, d)]) (length es) =
  Some {| n_epoch := e; n_next := 0; n_prev := default 0 (fst <$> last es); n_data := d |}.
Proof.
  unfold node_of. rewrite (list_lookup_middle es [] (e, d) (length es)) by done. simpl.
  rewrite (lookup_ge_None_2 (es ++ _)) by (rewrite length_app; simpl; lia). do 2 f_equal.
  - rewrite last_lookup. destruct (length es) as [|j] eqn:E; [by destruct es|]. simpl.
    by rewrite lookup_app_l by lia.
Qed.

Lemma node_of_epoch es i n : node_of es i = Some n → ∃ d, es !! i = Some (n_epoch n, d).
Proof. unfold node_of. destruct (es !! i) as [[a b]|]; [|done]. intros [= <-]. by exists b. Qed.

Section Append.
Context (L : DoublyLinkedList) (es : list (Z * Z)) (h : nat) (HL : linked L es h).
Context (e d : Z) (He : l_tail L < e < 2 ^ 32) (Hd : d ≠ 0).

Lemma no_entry : l_nodes L !! e = None.
Proof using HL He.
  destruct (l_nodes L !! e) as [n|] eqn:Hn; [|done].
  destruct (linked_only _ _ _ HL _ _ Hn) as (i & Hi & <-).
  destruct (node_of_epoch _ _ _ Hi) as [d' Hd']. pose proof (entry_le_tail L es h HL _ _ _ Hd'). lia.
Qed.

Lemma app_sorted i j a b : (es ++ [(e, d)]) !! i = Some a → (es ++ [(e, d)]) !! j = Some b →
  (i < j)%nat → a.1 < b.1.
Proof using HL He.
  intros Ha Hb Hij. apply lookup_app_Some in Hb as [Hb|[Hj Hb]].
  - rewrite lookup_app_l in Ha by (apply lookup_lt_Some in Hb; lia).
    by apply (linked_sorted _ _ _ HL i j).
  - apply list_lookup_singleton_Some in Hb as [Hj' <-]. rewrite lookup_app_l in Ha by lia.
    destruct a as [a d']. pose proof (entry_le_tail L es h HL _ _ _ Ha). simpl. lia.
Qed.

Lemma app_valid : Forall (λ ed, 0 < ed.1 < 2 ^ 32 ∧ ed.2 ≠ 0) (es ++ [(e, d)]).
Proof using HL He Hd.
  apply Forall_app. split; [apply (linked_valid _ _ _ HL)|]. apply Forall_singleton. simpl.
  pose proof (tail_range L es h HL). split; [lia|done].
Qed.

(** The first node. *)
Lemma linked_first : es = [] →
  linked {| l_head := e; l_tail := e; l_nodes := <[e := createNode e d]> (l_nodes L) |} [(e, d)] 0.
Proof using HL He Hd.
  intros Hes. pose proof app_sorted as Hs. pose proof app_valid as Hv. rewrite Hes in Hs, Hv. simpl in Hs, Hv.
  assert (∀ k n, l_nodes L !! k = Some n → False) as Hno.
  { intros k n Hn. destruct (linked_only _ _ _ HL _ _ Hn) as (i & Hi & _). by rewrite Hes in Hi. }
  split; simpl; [|..|exact Hs|exact Hv|done|done|left; simpl; lia].
  - intros [|i] n; [|done]. intros [= <-]. by rewrite lookup_insert_eq.
  - intros k n [[<- <-]|[_ []%Hno]]%lookup_insert_Some. by exists 0%nat.
Qed.

(** A further node. *)
Lemma linked_further t : l_nodes L !! l_tail L = Some t → es ≠ [] →
  linked {| l_head := l_head L; l_tail := e;
            l_nodes := <[l_tail L := updateNext t e]>
                         (<[e := updatePrevious (createNode e d) (l_tail L)]> (l_nodes L)) |}
         (es ++ [(e, d)]) h.
Proof using HL He Hd.
  intros Ht Hne.
  assert (∃ i, S i = length es ∧ node_of es i = Some t ∧ n_epoch t = l_tail L) as (it & Hit & Hnt & Het).
  { destruct (linked_only _ _ _ HL _ _ Ht) as (i & Hi & Hit). exists i. split_and!; [|done..].
    destruct (node_of_epoch _ _ _ Hi) as [dt Hdt]. pose proof (lookup_lt_Some _ _ _ Hdt) as Hlt.
    destruct (decide (S i = length es)) as [|Hn]; [done|]. exfalso.
    destruct (lookup_lt_is_Some_2 es (S i)) as [[a b] Hab]; [lia|].
    pose proof (linked_sorted _ _ _ HL _ _ _ _ Hdt Hab ltac:(lia)) as Hlt'.
    pose proof (entry_le_tail L es h HL _ _ _ Hab). simpl in Hlt'. lia. }
  destruct (linked_current _ _ _ HL) as [Hh|[? _]]; [|done].
  split; [..|exact app_sorted|exact app_valid| | |].
  - intros i n Hi. simpl. destruct (decide (S i < length es)%nat) as [Hlt|Hge].
    + rewrite node_of_app_lt in Hi by done. destruct (node_of_epoch _ _ _ Hi) as [di Hdi].
      destruct (node_of_epoch _ _ _ Hnt) as [dt Hdt].
      pose proof (linked_sorted _ _ _ HL _ _ _ _ Hdi Hdt ltac:(lia)) as Hlt'. simpl in Hlt'.
      rewrite !lookup_insert_ne by lia. by apply (linked_nodes _ _ _ HL i).
    + destruct (decide (i = it)) as [->|Hni].
      * rewrite (node_of_app_last _ _ _ _ _ Hit Hnt) in Hi. injection Hi as <-. simpl.
        by rewrite Het, lookup_insert_eq.
      * destruct (node_of_epoch _ _ _ Hi) as [di Hdi]. apply lookup_lt_Some in Hdi.
        rewrite length_app in Hdi. simpl in Hdi. replace i with (length es) in Hi by lia.
        rewrite node_of_app_new in Hi. injection Hi as <-. simpl. rewrite lookup_insert_ne by lia.
        rewrite lookup_insert_eq. unfold updatePrevious, createNode. simpl. by rewrite (linked_tail _ _ _ HL).
  - intros k n. simpl. intros [[<- <-]|[Hkt [[<- <-]|[Hke Hk]]%lookup_insert_Some]]%lookup_insert_Some.
    + exists it. by rewrite (node_of_app_last _ _ _ _ _ Hit Hnt).
    + exists (length es). rewrite node_of_app_new. split; [|done].
      unfold updatePrevious, createNode. simpl. by rewrite (linked_tail _ _ _ HL).
    + destruct (linked_only _ _ _ HL _ _ Hk) as (i & Hi & <-). exists i. split; [|done].
      destruct (node_of_epoch _ _ _ Hi) as [di Hdi]. apply lookup_lt_Some in Hdi.
      rewrite node_of_app_lt; [done|]. destruct (decide (i = it)) as [->|]; [|lia]. rewrite Hnt in Hi.
      injection Hi as ->. done.
  - simpl. rewrite (linked_head _ _ _ HL). by rewrite lookup_app_l.
  - simpl. by rewrite last_snoc.
  - left. rewrite length_app. lia.
Qed.
End Append.

(** Every outcome of [addNode]. *)
Lemma addNode_outcome L es h e d : linked L es h → word 32 e →
  (e ≤ l_tail L ∧ addNode L e d = Reverts (Revert "InvalidNodeId" [l_head L; l_tail L; e])) ∨
  (l_tail L < e ∧ d = 0 ∧ addNode L e d = Reverts (Revert "InvalidData" [])) ∨
  (l_tail L < e ∧ d ≠ 0 ∧ ∃ L', addNode L e d = Done L' ∧ linked L' (es ++ [(e, d)]) h).
Proof.
  intros HL He. pose proof (head_range L es h HL) as Hhr. pose proof (tail_range L es h HL) as Htr.
  unfold addNode. rewrite !cast_word by done. destruct (Z.leb_spec e (l_tail L)) as [Hle|Hlt]; [by left|].
  right. assert (exists_node L e = false) as ->.
  { unfold exists_node, getValue, getNode. by rewrite (no_entry L es h HL e) by (unfold word in He; lia). }
  cbn [revert_if sbind].
  destruct (Z.eqb_spec d 0) as [->|Hd]; [by left|right]. split; [done|]. split; [done|]. cbn [revert_if sbind].
  assert (l_tail L < e < 2 ^ 32) as He' by (unfold word in He; lia).
  assert (∀ l hd tl n, n_data n = d → exists_node {| l_head := hd; l_tail := tl; l_nodes := <[e := n]> l |} e = true)
    as Hex.
  { intros l hd tl n Hn. unfold exists_node, getValue, getNode. cbn [l_nodes]. rewrite lookup_insert_eq. simpl.
    rewrite Hn. by rewrite (proj2 (Z.eqb_neq _ _)). }
  destruct (Z.eqb_spec (l_head L) 0) as [Hz|Hnz].
  - pose proof (proj1 (head_zero L es h HL) Hz) as E.
    unfold set_node, setHead. rewrite Hex by done. cbn [negb sbind l_head l_tail l_nodes]. unfold setTail.
    rewrite Hex by done. cbn [negb l_head l_nodes]. eexists. split; [done|]. subst es.
    pose proof (linked_first L [] h HL e d He' Hd eq_refl) as H1.
    destruct (linked_current _ _ _ HL) as [Hlt'|[_ ->]]; [simpl in Hlt'; lia|]. exact H1.
  - assert (es ≠ []) as Hne by (intros E; by apply Hnz, (head_zero L es h HL)).
    assert (is_Some (l_nodes L !! l_tail L)) as [t Ht].
    { pose proof (exists_entry L es h HL (l_tail L)) as Hex'. destruct (l_nodes L !! l_tail L) as [n|] eqn:E; [done|].
      exfalso. enough (exists_node L (l_tail L) = true) as Hx.
      { unfold exists_node, getValue, getNode in Hx. by rewrite E in Hx. }
      apply Hex'. rewrite (linked_tail _ _ _ HL), last_lookup.
      destruct (lookup_lt_is_Some_2 es (pred (length es))) as [[a b] Hab]; [destruct es; simpl; [done|lia]|].
      exists (pred (length es)), b. by rewrite Hab. }
    unfold linkNext, set_node, getNode. cbn [l_nodes l_head l_tail]. rewrite lookup_insert_ne by lia. rewrite Ht.
    simpl default. unfold setTail.
    assert (exists_node {| l_head := l_head L; l_tail := l_tail L;
      l_nodes := <[l_tail L := updateNext t e]> (<[e := updatePrevious (createNode e d) (l_tail L)]> (l_nodes L)) |} e
      = true) as ->.
    { rewrite insert_insert_ne by lia. by apply Hex. }
    cbn [negb l_nodes l_head]. eexists. split; [done|]. by apply (linked_further L es h HL e d He' Hd t).
Qed.
