(* ===== verification/Parsers.v ===== *)
(** * Parsing what the side chain signs

    [contracts/libraries/parsers]: [BaseParserLibrary.sol],
    [BClaimsParserLibrary.sol] and [extractSigGroup] of
    [RCertParserLibrary.sol].  A [bytes] value is the list of its bytes; the
    integers of a Cap'n Proto blob are little endian. *)

From S2P Require Import Prelude Solidity.
From stdpp Require Import options.
Local Open Scope Z_scope.

(** ** Words of a byte array *)

(** The big-endian word of the first [n] bytes at [offset]: [mload], shifted
    right by what is not wanted. *)
Definition load (n : nat) (src : list Z) (offset : nat) : Z :=
  foldl (λ acc b, 256 * acc + b) 0 (take n (drop offset src)).

(** Reading [n] bytes at [offset] stays inside the array. *)
Definition in_bounds (name : string) (src : list Z) (offset n : nat) : sol unit :=
  revert_if (length src <? offset + n)%nat name [Z.of_nat (offset + n); Z.of_nat (length src)].

Definition extractUInt32 (src : list Z) (offset : nat) : sol Z :=
  _ <! in_bounds "OffsetOutOfBounds" src offset 4 ;;
  let val := load 4 src offset in
  Done (Z.lor (Z.lor (Z.lor (Z.shiftr (Z.land val 0xff000000) 24)
                            (Z.shiftr (Z.land val 0x00ff0000) 8))
                     (Z.shiftl (Z.land val 0x0000ff00) 8))
              (Z.shiftl (Z.land val 0x000000ff) 24)).

Definition extractUInt16 (src : list Z) (offset : nat) : sol Z :=
  _ <! in_bounds "LEUint16OffsetOutOfBounds" src offset 2 ;;
  let val := load 2 src offset in
  Done (Z.lor (Z.shiftr (Z.land val 0xff00) 8) (Z.shiftl (Z.land val 0x00ff) 8)).

Definition extractUInt256 (src : list Z) (offset : nat) : sol Z :=
  _ <! in_bounds "LEUint256OffsetOutOfBounds" src offset 32 ;;
  Done (load 32 src offset).

Definition extractBytes32 (src : list Z) (offset : nat) : sol Z :=
  _ <! in_bounds "Bytes32OffsetOutOfBounds" src offset 32 ;;
  Done (load 32 src offset).

(** ** Block claims *)

Record BClaims := {
  c_chainId : Z; c_height : Z; c_txCount : Z;
  c_prevBlock : Z; c_txRoot : Z; c_stateRoot : Z; c_headerRoot : Z }.

Definition zero_claims : BClaims :=
  {| c_chainId := 0; c_height := 0; c_txCount := 0; c_prevBlock := 0; c_txRoot := 0;
     c_stateRoot := 0; c_headerRoot := 0 |}.

Definition _BCLAIMS_SIZE : nat := 176.
Definition _CAPNPROTO_HEADER_SIZE : nat := 8.

Definition getPointerOffsetAdjustment (src : list Z) (dataOffset : nat) : sol nat :=
  dataSectionSize <! extractUInt16 src dataOffset ;;
  _ <! revert_if ((dataSectionSize <=? 0) || (dataSectionSize >? 2)) "SizeThresholdExceeded" [dataSectionSize] ;;
  Done (if dataSectionSize =? 1 then 8%nat else 0%nat).

Definition extractInnerBClaims (src : list Z) (dataOffset adjustment : nat) : sol BClaims :=
  let size := (dataOffset + _BCLAIMS_SIZE - adjustment)%nat in
  _ <! revert_if (size <=? dataOffset)%nat "DataOffsetOverflow" [Z.of_nat dataOffset] ;;
  _ <! revert_if (length src <? size)%nat "NotEnoughBytes" [Z.of_nat size; Z.of_nat (length src)] ;;
  txCount <! (if (adjustment =? 0)%nat then extractUInt32 src (dataOffset + 8) else Done 0) ;;
  chainId <! extractUInt32 src dataOffset ;;
  _ <! revert_if (chainId =? 0) "ChainIdZero" [] ;;
  height <! extractUInt32 src (dataOffset + 4) ;;
  _ <! revert_if (height =? 0) "HeightZero" [] ;;
  prevBlock <! extractBytes32 src (dataOffset + 48 - adjustment) ;;
  txRoot <! extractBytes32 src (dataOffset + 80 - adjustment) ;;
  stateRoot <! extractBytes32 src (dataOffset + 112 - adjustment) ;;
  headerRoot <! extractBytes32 src (dataOffset + 144 - adjustment) ;;
  Done {| c_chainId := chainId; c_height := height; c_txCount := txCount; c_prevBlock := prevBlock;
          c_txRoot := txRoot; c_stateRoot := stateRoot; c_headerRoot := headerRoot |}.

Definition extractBClaims (src : list Z) : sol BClaims :=
  adjustment <! getPointerOffsetAdjustment src 4 ;;
  extractInnerBClaims src _CAPNPROTO_HEADER_SIZE adjustment.

(** ** Group signatures *)

Definition _SIG_GROUP_SIZE : nat := 192.

(** Public key and signature. *)
Definition extractSigGroup (src : list Z) (dataOffset : nat) : sol (list Z * list Z) :=
  _ <! revert_if (length src <? dataOffset + _SIG_GROUP_SIZE)%nat "InsufficientBytes"
         [Z.of_nat (length src); Z.of_nat (dataOffset + _SIG_GROUP_SIZE)] ;;
  k0 <! extractUInt256 src (dataOffset + 0) ;;
  k1 <! extractUInt256 src (dataOffset + 32) ;;
  k2 <! extractUInt256 src (dataOffset + 64) ;;
  k3 <! extractUInt256 src (dataOffset + 96) ;;
  s0 <! extractUInt256 src (dataOffset + 128) ;;
  s1 <! extractUInt256 src (dataOffset + 160) ;;
  Done ([k0; k1; k2; k3], [s0; s1]).

(** ** Lemmas *)

(** Bytes are below 256. *)
Definition bytes (src : list Z) : Prop := Forall (λ b, 0 ≤ b < 256) src.

(** The big-endian bytes of a number. *)
Fixpoint be_bytes (n : nat) (x : Z) : list Z :=
  match n with
  | O => []
  | S n => be_bytes n (x / 256) ++ [x mod 256]
  end.

Lemma length_be_bytes n x : length (be_bytes n x) = n.
Proof. revert x. induction n as [|n IH]; intros x; simpl; [done|]. rewrite length_app, IH. simpl. lia. Qed.

Lemma load_be n x r : 0 ≤ x < 256 ^ Z.of_nat n → load n (be_bytes n x ++ r) 0 = x.
Proof.
  intros Hx. unfold load. rewrite drop_0, take_app_length' by (by rewrite length_be_bytes).
  revert x Hx. induction n as [|n IH]; intros x Hx; simpl; [simpl in Hx; lia|].
  rewrite foldl_app. simpl. rewrite Nat2Z.inj_succ, Z.pow_succ_r in Hx by lia.
  rewrite IH by (split; [apply Z.div_pos; lia|apply Z.div_lt_upper_bound; lia]).
  pose proof (Z.div_mod x 256). lia.
Qed.

Lemma foldl_be l : bytes l → ∀ a,
  foldl (λ acc b, 256 * acc + b) a l = 256 ^ Z.of_nat (length l) * a + foldl (λ acc b, 256 * acc + b) 0 l ∧
  0 ≤ foldl (λ acc b, 256 * acc + b) 0 l < 256 ^ Z.of_nat (length l).
Proof.
  induction 1 as [|b l Hb _ IH]; intros a; [simpl; lia|]. simpl foldl. cbn [length].
  rewrite Nat2Z.inj_succ, Z.pow_succ_r by lia.
  destruct (IH (256 * a + b)) as [-> H1]. destruct (IH (256 * 0 + b)) as [-> _].
  replace (256 * 0 + b) with b by lia. set (p := 256 ^ Z.of_nat (length l)) in *.
  split; [ring|nia].
Qed.

(** Shifting a longer word right leaves the shorter one. *)
Lemma load_shiftr n m src offset : bytes src → (offset + n + m ≤ length src)%nat →
  Z.shiftr (load (n + m) src offset) (8 * Z.of_nat m) = load n src offset.
Proof.
  intros Hs Hl. unfold load. rewrite <-take_take_drop, foldl_app, drop_drop.
  destruct (foldl_be (take m (drop (offset + n) src)) (Forall_take _ _ _ (Forall_drop _ _ _ Hs))
    (foldl (λ acc b, 256 * acc + b) 0 (take n (drop offset src)))) as [-> Hb].
  rewrite length_take_le in * by (rewrite length_drop; lia).
  rewrite Z.shiftr_div_pow2, Z.pow_mul_r by lia. change (2 ^ 8) with 256.
  rewrite Z.mul_comm, Z.div_add_l by (apply Z.pow_nonzero; lia). rewrite Z.div_small by done. lia.
Qed.
