(* ===== verification/Dynamics.v ===== *)
(** * The dynamic values of the side chain

    [contracts/Dynamics.sol]: the values the nodes run with are encoded into
    storage contracts and scheduled, by epoch, in the linked list; the
    version of the node is announced the same way.  Storage and handlers are
    modelled in full.  What comes from outside are the addresses of the
    contracts it creates and the epoch of the Snapshots contract. *)

From S2P Require Import Prelude Solidity LinkedList Parsers.
From stdpp Require Import options.
Local Open Scope Z_scope.

(** ** Data *)

Record DynamicValues := {
  encoderVersion : Z; proposalTimeout : Z; preVoteTimeout : Z; preCommitTimeout : Z;
  maxBlockSize : Z; dataStoreFee : Z; valueStoreFee : Z; minScaledTransactionFee : Z }.

Record Configuration := { minEpochsBetweenUpdates : Z; maxEpochsBetweenUpdates : Z }.

Record CanonicalVersion := { major : Z; minor : Z; patch : Z; executionEpoch : Z; binaryHash : Z }.

Record Dynamics := {
  _dynamicValues : DoublyLinkedList;
  _configuration : Configuration;
  _aliceNetCanonicalVersion : CanonicalVersion;
  _initialized : bool;
  d_nonce : Z;                         (* of the contract's account *)
  d_code : gmap Z (list Z) }.          (* the storage contracts it created *)

Definition new_dynamics : Dynamics :=
  {| _dynamicValues := new_list;
     _configuration := {| minEpochsBetweenUpdates := 0; maxEpochsBetweenUpdates := 0 |};
     _aliceNetCanonicalVersion := {| major := 0; minor := 0; patch := 0; executionEpoch := 0; binaryHash := 0 |};
     _initialized := false; d_nonce := 1; d_code := ∅ |}.

Inductive dyn_event :=
  | DeployedStorageContract (contractAddr : Z)
  | DynamicValueChanged (epoch : Z) (rawDynamicValues : list Z)
  | NewAliceNetNodeVersionAvailable (version : CanonicalVersion)
  | NewCanonicalAliceNetNodeVersion (version : CanonicalVersion).

(** ** Encoding *)

Definition _encodeDynamicValues (newValue : DynamicValues) : list Z :=
  be_bytes 1 (encoderVersion newValue) ++ be_bytes 3 (proposalTimeout newValue) ++
  be_bytes 4 (preVoteTimeout newValue) ++ be_bytes 4 (preCommitTimeout newValue) ++
  be_bytes 4 (maxBlockSize newValue) ++ be_bytes 8 (dataStoreFee newValue) ++
  be_bytes 8 (valueStoreFee newValue) ++ be_bytes 16 (minScaledTransactionFee newValue).

(** In bits. *)
Definition sizes : list Z := [8; 24; 32; 32; 32; 64; 64; 128].
Definition dynamicValuesTotalSize : Z := 48.

(** The loop: each field is what [mload] at the pointer leaves after the
    shift; the memory behind the copied code is zero. *)
Fixpoint decode_fields (memory : list Z) (sizes : list Z) (ptr : nat) : list Z :=
  match sizes with
  | [] => []
  | size :: sizes =>
      Z.shiftr (load 32 memory ptr) (256 - size) :: decode_fields memory sizes (ptr + Z.to_nat (size / 8))
  end.

Definition values_of (fields : list Z) : DynamicValues :=
  let f i := nth i fields 0 in
  {| encoderVersion := f 0%nat; proposalTimeout := f 1%nat; preVoteTimeout := f 2%nat;
     preCommitTimeout := f 3%nat; maxBlockSize := f 4%nat; dataStoreFee := f 5%nat;
     valueStoreFee := f 6%nat; minScaledTransactionFee := f 7%nat |}.

Definition _decodeDynamicValues (st : Dynamics) (addr : Z) : sol DynamicValues :=
  let code := default [] (d_code st !! addr) in
  let extCodeSize := Z.of_nat (length code) in
  _ <! revert_if ((extCodeSize =? 0) || (extCodeSize <? dynamicValuesTotalSize)) "InvalidExtCodeSize"
         [addr; extCodeSize] ;;
  Done (values_of (decode_fields (code ++ replicate 32 0) sizes 0)).

(** ** Versions *)

Definition _computeCompactedVersion (majorVersion minorVersion patch : Z) : Z :=
  Z.lor (Z.lor (cast 256 (Z.shiftl majorVersion 64)) (cast 256 (Z.shiftl minorVersion 32))) patch.

Definition compacted (v : CanonicalVersion) : Z := _computeCompactedVersion (major v) (minor v) (patch v).

Definition version_fields (v : CanonicalVersion) : list Z :=
  [major v; minor v; patch v; executionEpoch v; binaryHash v].

(** ** Storage updates *)

Definition with_values (st : Dynamics) (l : DoublyLinkedList) : Dynamics :=
  {| _dynamicValues := l; _configuration := _configuration st;
     _aliceNetCanonicalVersion := _aliceNetCanonicalVersion st; _initialized := _initialized st;
     d_nonce := d_nonce st; d_code := d_code st |}.
Definition with_config (st : Dynamics) (c : Configuration) : Dynamics :=
  {| _dynamicValues := _dynamicValues st; _configuration := c;
     _aliceNetCanonicalVersion := _aliceNetCanonicalVersion st; _initialized := _initialized st;
     d_nonce := d_nonce st; d_code := d_code st |}.
Definition with_version (st : Dynamics) (v : CanonicalVersion) : Dynamics :=
  {| _dynamicValues := _dynamicValues st; _configuration := _configuration st;
     _aliceNetCanonicalVersion := v; _initialized := _initialized st;
     d_nonce := d_nonce st; d_code := d_code st |}.
Definition with_initialized (st : Dynamics) : Dynamics :=
  {| _dynamicValues := _dynamicValues st; _configuration := _configuration st;
     _aliceNetCanonicalVersion := _aliceNetCanonicalVersion st; _initialized := true;
     d_nonce := d_nonce st; d_code := d_code st |}.
Definition with_code (st : Dynamics) (a : Z) (code : list Z) : Dynamics :=
  {| _dynamicValues := _dynamicValues st; _configuration := _configuration st;
     _aliceNetCanonicalVersion := _aliceNetCanonicalVersion st; _initialized := _initialized st;
     d_nonce := d_nonce st + 1; d_code := <[a := code]> (d_code st) |}.

Definition INITIAL_VALUES : DynamicValues :=
  {| encoderVersion := 0; proposalTimeout := 4000; preVoteTimeout := 3000; preCommitTimeout := 3000;
     maxBlockSize := 3000000; dataStoreFee := 0; valueStoreFee := 0; minScaledTransactionFee := 0 |}.
Definition INITIAL_CONFIGURATION : Configuration :=
  {| minEpochsBetweenUpdates := 2; maxEpochsBetweenUpdates := 336 |}.

(** The changes announced by events. *)
Definition announced (ds : list dyn_event) : list (Z * list Z) :=
  omap (λ d, match d with DynamicValueChanged epoch raw => Some (epoch, raw) | _ => None end) ds.

Section Dynamics.
(** The factory, the Snapshots contract, the CREATE address of each nonce,
    and whether the EVM accepts a code (its size and first byte). *)
Context (factory snapshots : Z) (create_address : Z → Z) (accepts_code : list Z → bool).

Definition Handler (A : Type) : Type := sol (A * list dyn_event).

Definition onlyFactory (sender : Z) : sol unit := revert_if (negb (sender =? factory)) "OnlyFactory" [sender; factory].
Definition onlySnapshots (sender : Z) : sol unit :=
  revert_if (negb (sender =? snapshots)) "OnlySnapshots" [sender; snapshots].

(** CREATE of a contract whose code is the data. *)
Definition _deployStorage (st : Dynamics) (data : list Z) : sol (Z * Dynamics * list dyn_event) :=
  let addr := create_address (d_nonce st) in
  if accepts_code data && bool_decide (d_code st !! addr = None) then
    Done (addr, with_code st addr data, [DeployedStorageContract addr])
  else Reverts (Revert EmptyString []).

Definition _addNode (st : Dynamics) (executionEpoch : Z) (value : DynamicValues) : Handler Dynamics :=
  let encodedData := _encodeDynamicValues value in
  r <! _deployStorage st encodedData ;;
  let '(dataAddress, st, es) := r in
  l <! addNode (_dynamicValues st) executionEpoch dataAddress ;;
  Done (with_values st l, es ++ [DynamicValueChanged executionEpoch encodedData]).

(** [epoch] is the answer of the Snapshots contract. *)
Definition _computeExecutionEpoch (st : Dynamics) (epoch relativeExecutionEpoch : Z) : sol Z :=
  let config := _configuration st in
  _ <! revert_if ((relativeExecutionEpoch <? minEpochsBetweenUpdates config) ||
                  (relativeExecutionEpoch >? maxEpochsBetweenUpdates config)) "InvalidScheduledDate"
         [relativeExecutionEpoch; minEpochsBetweenUpdates config; maxEpochsBetweenUpdates config] ;;
  let currentEpoch := cast 32 epoch in
  checked 32 (relativeExecutionEpoch + currentEpoch).

Definition _updateAliceNetNodeVersion (st : Dynamics) (epoch relativeUpdateEpoch majorVersion minorVersion
    patchVersion hash : Z) : Handler Dynamics :=
  let currentVersion := _aliceNetCanonicalVersion st in
  let currentCompactedVersion := compacted currentVersion in
  executionEpoch <! _computeExecutionEpoch st epoch relativeUpdateEpoch ;;
  let newVersion := {| major := majorVersion; minor := minorVersion; patch := patchVersion;
                       executionEpoch := executionEpoch; binaryHash := hash |} in
  let newCompactedVersion := _computeCompactedVersion majorVersion minorVersion patchVersion in
  invalid <! (if newCompactedVersion <=? currentCompactedVersion then Done true
              else limit <! checked 32 (major currentVersion + 1) ;; Done (majorVersion >? limit)) ;;
  _ <! revert_if invalid "InvalidAliceNetNodeVersion" (version_fields newVersion ++ version_fields currentVersion) ;;
  _ <! revert_if ((hash =? 0) || (hash =? binaryHash currentVersion)) "InvalidAliceNetNodeHash"
         [hash; binaryHash currentVersion] ;;
  Done (with_version st newVersion, [NewAliceNetNodeVersionAvailable newVersion]).

(** ** External functions *)

Definition initialize (sender : Z) (st : Dynamics) : Handler Dynamics :=
  _ <! onlyFactory sender ;;
  _ <! revert_if (_initialized st) "Initializable: contract is already initialized" [] ;;
  _addNode (with_config (with_initialized st) INITIAL_CONFIGURATION) 1 INITIAL_VALUES.

Definition changeDynamicValues (sender epoch : Z) (st : Dynamics) (relativeExecutionEpoch : Z)
    (newValue : DynamicValues) : Handler Dynamics :=
  _ <! onlyFactory sender ;;
  executionEpoch <! _computeExecutionEpoch st epoch relativeExecutionEpoch ;;
  _addNode st executionEpoch newValue.

Definition updateHead (sender : Z) (st : Dynamics) (currentEpoch : Z) : Handler Dynamics :=
  _ <! onlySnapshots sender ;;
  let nextEpoch := getNextEpoch (_dynamicValues st) (l_head (_dynamicValues st)) in
  st <! (if negb (nextEpoch =? 0) && (currentEpoch >=? nextEpoch)
         then l <! setHead (_dynamicValues st) nextEpoch ;; Done (with_values st l)
         else Done st) ;;
  let currentVersion := _aliceNetCanonicalVersion st in
  Done (st, if negb (executionEpoch currentVersion =? 0) && (executionEpoch currentVersion =? currentEpoch)
            then [NewCanonicalAliceNetNodeVersion currentVersion] else []).

Definition updateAliceNetNodeVersion (sender epoch : Z) (st : Dynamics) (relativeUpdateEpoch majorVersion
    minorVersion patchVersion hash : Z) : Handler Dynamics :=
  _ <! onlyFactory sender ;;
  _updateAliceNetNodeVersion st epoch relativeUpdateEpoch majorVersion minorVersion patchVersion hash.

Definition setConfiguration (sender : Z) (st : Dynamics) (newConfig : Configuration) : Handler Dynamics :=
  _ <! onlyFactory sender ;;
  Done (with_config st newConfig, []).

Definition deployStorage (st : Dynamics) (data : list Z) : Handler Dynamics :=
  r <! _deployStorage st data ;;
  let '(_, st, es) := r in Done (st, es).

Definition getLatestDynamicValues (st : Dynamics) : sol DynamicValues :=
  let l := _dynamicValues st in _decodeDynamicValues st (getValue l (l_head l)).

Definition getPreviousDynamicValues (st : Dynamics) (epoch : Z) : sol DynamicValues :=
  let l := _dynamicValues st in
  let head := l_head l in
  if head <=? epoch then _decodeDynamicValues st (getValue l head)
  else
    let previous := getPreviousEpoch l head in
    if negb (previous =? 0) && (previous <=? epoch) then _decodeDynamicValues st (getValue l previous)
    else Reverts (Revert "DynamicValueNotFound" [epoch]).

(** The calls that change state. *)
Inductive dyn_call :=
  | Initialize
  | ChangeDynamicValues (relativeExecutionEpoch : Z) (newValue : DynamicValues)
  | UpdateHead (currentEpoch : Z)
  | UpdateAliceNetNodeVersion (relativeUpdateEpoch majorVersion minorVersion patchVersion hash : Z)
  | SetConfiguration (newConfig : Configuration)
  | DeployStorage (data : list Z).

Definition dyn_exec (sender epoch : Z) (c : dyn_call) (st : Dynamics) : Handler Dynamics :=
  match c with
  | Initialize => initialize sender st
  | ChangeDynamicValues r v => changeDynamicValues sender epoch st r v
  | UpdateHead e => updateHead sender st e
  | UpdateAliceNetNodeVersion r ma mi pa h => updateAliceNetNodeVersion sender epoch st r ma mi pa h
  | SetConfiguration c => setConfiguration sender st c
  | DeployStorage d => deployStorage st d
  end.
End Dynamics.

(** ** Values survive their storage contract *)

Definition valid_values (v : DynamicValues) : Prop :=
  word 8 (encoderVersion v) ∧ word 24 (proposalTimeout v) ∧ word 32 (preVoteTimeout v) ∧
  word 32 (preCommitTimeout v) ∧ word 32 (maxBlockSize v) ∧ word 64 (dataStoreFee v) ∧
  word 64 (valueStoreFee v) ∧ word 128 (minScaledTransactionFee v).

(** Fields one after the other, with their widths in bytes. *)
Definition encode_fields (fs : list (nat * Z)) : list Z := concat ((λ f, be_bytes f.1 f.2) <$> fs).

Lemma bytes_be n x : bytes (be_bytes n x).
Proof.
  revert x. induction n as [|n IH]; intros x; [constructor|]. apply Forall_app. split; [apply IH|].
  apply Forall_singleton, Z.mod_pos_bound. lia.
Qed.

Lemma bytes_fields fs : bytes (encode_fields fs).
Proof.
  induction fs as [|f fs IH]; [constructor|]. apply Forall_app. split; [apply bytes_be|exact IH].
Qed.

(** A field is read wherever it stands, with 32 bytes of memory from there on. *)
Lemma field_read pre n x r : bytes pre → bytes r → (n ≤ 32)%nat → (32 ≤ n + length r)%nat →
  0 ≤ x < 256 ^ Z.of_nat n →
  Z.shiftr (load 32 (pre ++ be_bytes n x ++ r) (length pre)) (256 - 8 * Z.of_nat n) = x.
Proof.
  intros Hp Hr Hn Hl Hx. replace (256 - 8 * Z.of_nat n) with (8 * Z.of_nat (32 - n)) by lia.
  replace 32%nat with (n + (32 - n))%nat at 1 by lia.
  rewrite load_shiftr.
  - unfold load. rewrite drop_app_length. by apply load_be.
  - apply Forall_app. split; [done|]. apply Forall_app. split; [apply bytes_be|done].
  - rewrite !length_app, length_be_bytes. lia.
Qed.

Lemma decode_encode_fields fs : ∀ pre r, bytes pre → bytes r → (32 ≤ length r)%nat →
  Forall (λ f, (f.1 ≤ 32)%nat ∧ 0 ≤ f.2 < 256 ^ Z.of_nat f.1) fs →
  decode_fields (pre ++ encode_fields fs ++ r) ((λ f, 8 * Z.of_nat f.1) <$> fs) (length pre) = fs.*2.
Proof.
  induction fs as [|[n x] fs IH]; intros pre r Hp Hr Hl Hfs; [done|].
  apply Forall_cons in Hfs as [[Hn Hx] Hfs]. unfold encode_fields. cbn [fmap list_fmap concat fst snd decode_fields].
  change (concat _) with (encode_fields fs). rewrite <-(assoc_L (++) (be_bytes n x)). f_equal.
  - apply field_read; try done; [|rewrite length_app; lia]. apply Forall_app. split; [apply bytes_fields|done].
  - assert (Z.to_nat (8 * Z.of_nat n / 8) = n) as -> by (rewrite Z.mul_comm, Z.div_mul; lia).
    rewrite <-(IH (pre ++ be_bytes n x) r); [|apply Forall_app; split; [done|apply bytes_be]|done..].
    rewrite <-(assoc_L (++)), length_app, length_be_bytes. done.
Qed.

Definition fields_of (v : DynamicValues) : list (nat * Z) :=
  [(1%nat, encoderVersion v); (3%nat, proposalTimeout v); (4%nat, preVoteTimeout v);
   (4%nat, preCommitTimeout v); (4%nat, maxBlockSize v); (8%nat, dataStoreFee v);
   (8%nat, valueStoreFee v); (16%nat, minScaledTransactionFee v)].

Lemma encode_is_fields v : _encodeDynamicValues v = encode_fields (fields_of v).
Proof. unfold encode_fields. cbn [fields_of fmap list_fmap concat fst snd]. by rewrite app_nil_r. Qed.

Lemma length_encoded v : length (_encodeDynamicValues v) = 48%nat.
Proof. unfold _encodeDynamicValues. by rewrite !length_app, !length_be_bytes. Qed.

(** The code of a storage contract is read back as the values it holds. *)
Lemma stored_values st a v : valid_values v → d_code st !! a = Some (_encodeDynamicValues v) →
  _decodeDynamicValues st a = Done v.
Proof.
  intros Hv Hc. unfold _decodeDynamicValues. rewrite Hc.
  change (default [] (Some ?x)) with x. cbv zeta. rewrite length_encoded. cbn [sbind revert_if].
  destruct Hv as (H1 & H2 & H3 & H4 & H5 & H6 & H7 & H8).
  assert (decode_fields (_encodeDynamicValues v ++ replicate 32 0) sizes 0 = (fields_of v).*2) as ->; [|by destruct v].
  rewrite encode_is_fields.
  refine (decode_encode_fields (fields_of v) [] (replicate 32 0) _ _ _ _).
  - constructor.
  - apply Forall_replicate. lia.
  - done.
  - repeat (constructor; [split; [simpl; lia|assumption]|]). constructor.
Qed.

(** ** Versions are compared like triples *)

(** The order of major, minor and patch numbers. *)
Definition version_lt (a1 a2 a3 b1 b2 b3 : Z) : Prop :=
  a1 < b1 ∨ a1 = b1 ∧ (a2 < b2 ∨ a2 = b2 ∧ a3 < b3).
#[global] Instance version_lt_dec a1 a2 a3 b1 b2 b3 : Decision (version_lt a1 a2 a3 b1 b2 b3).
Proof. unfold version_lt. apply _. Defined.

Lemma cast_shift x n : word 32 x → 0 ≤ n ≤ 64 → cast 256 (Z.shiftl x n) = Z.shiftl x n.
Proof.
  unfold word. intros Hx Hn. apply cast_word. unfold word. rewrite Z.shiftl_mul_pow2 by lia.
  pose proof (Z.pow_le_mono_r 2 n 64 ltac:(lia) ltac:(lia)). pose proof (Z.pow_pos_nonneg 2 n ltac:(lia) ltac:(lia)).
  split; [lia|]. apply Z.lt_le_trans with (2 ^ 32 * 2 ^ 64); [nia|done].
Qed.

Lemma compacted_sum ma mi pa : word 32 ma → word 32 mi → word 32 pa →
  _computeCompactedVersion ma mi pa = ma * 2 ^ 64 + mi * 2 ^ 32 + pa.
Proof.
  unfold word. intros Hma Hmi Hpa. unfold _computeCompactedVersion.
  rewrite !cast_shift by (unfold word; lia).
  rewrite <-(Z.lor_assoc), (lor_shift mi pa 32) by lia. rewrite (lor_shift ma) by lia. lia.
Qed.

Lemma compacted_lt a1 a2 a3 b1 b2 b3 :
  word 32 a1 → word 32 a2 → word 32 a3 → word 32 b1 → word 32 b2 → word 32 b3 →
  (_computeCompactedVersion b1 b2 b3 <=? _computeCompactedVersion a1 a2 a3) =
  negb (bool_decide (version_lt a1 a2 a3 b1 b2 b3)).
Proof.
  intros Ha1 Ha2 Ha3 Hb1 Hb2 Hb3. rewrite !compacted_sum by done. unfold word, version_lt in *.
  change (2 ^ 64) with 18446744073709551616. change (2 ^ 32) with 4294967296 in *.
  case_bool_decide; simpl; [apply Z.leb_gt|apply Z.leb_le]; lia.
Qed.

(** ** Specification: a schedule

    What the contract promises does not mention nodes, links or storage
    contracts: a list of values with the epochs they start at, and the
    position of the current ones. *)

Record spec := {
  s_config : Configuration;
  s_version : CanonicalVersion;
  s_initialized : bool;
  s_schedule : list (Z * DynamicValues);
  s_current : nat }.

Definition new_spec : spec :=
  {| s_config := _configuration new_dynamics; s_version := _aliceNetCanonicalVersion new_dynamics;
     s_initialized := false; s_schedule := []; s_current := 0 |}.

(** The last epoch something is scheduled for. *)
Definition last_epoch (s : spec) : Z := default 0 (fst <$> last (s_schedule s)).

Definition may_schedule (s : spec) (epoch relative : Z) : Prop :=
  minEpochsBetweenUpdates (s_config s) ≤ relative ≤ maxEpochsBetweenUpdates (s_config s) ∧
  relative + epoch < 2 ^ 32.
#[global] Instance may_schedule_dec s e r : Decision (may_schedule s e r).
Proof. unfold may_schedule. apply _. Defined.

Definition may_update (s : spec) (ma mi pa hash : Z) : Prop :=
  let v := s_version s in
  version_lt (major v) (minor v) (patch v) ma mi pa ∧ ma ≤ major v + 1 < 2 ^ 32 ∧
  hash ≠ 0 ∧ hash ≠ binaryHash v.
#[global] Instance may_update_dec s ma mi pa h : Decision (may_update s ma mi pa h).
Proof. unfold may_update. apply _. Defined.

Definition schedule (s : spec) (epoch : Z) (v : DynamicValues) : option spec :=
  if decide (last_epoch s < epoch) then
    Some {| s_config := s_config s; s_version := s_version s; s_initialized := s_initialized s;
            s_schedule := s_schedule s ++ [(epoch, v)]; s_current := s_current s |}
  else None.

(** The next values, when their epoch has come. *)
Definition advance (s : spec) (epoch : Z) : spec :=
  match s_schedule s !! S (s_current s) with
  | Some (e, _) =>
      if decide (e ≤ epoch) then
        {| s_config := s_config s; s_version := s_version s; s_initialized := s_initialized s;
           s_schedule := s_schedule s; s_current := S (s_current s) |}
      else s
  | None => s
  end.

Section Spec.
Context (factory snapshots : Z) (accepts_code : list Z → bool).

(** [None]: the call reverts. *)
Definition spec_exec (sender epoch : Z) (c : dyn_call) (s : spec) : option spec :=
  match c with
  | UpdateHead e => if decide (sender = snapshots) then Some (advance s e) else None
  | DeployStorage d => if accepts_code d then Some s else None
  | _ =>
      if decide (sender = factory) then
        match c with
        | Initialize =>
            if s_initialized s then None
            else schedule {| s_config := INITIAL_CONFIGURATION; s_version := s_version s; s_initialized := true;
                             s_schedule := s_schedule s; s_current := s_current s |} 1 INITIAL_VALUES
        | ChangeDynamicValues r v =>
            if decide (may_schedule s epoch r) then schedule s (r + epoch) v else None
        | UpdateAliceNetNodeVersion r ma mi pa hash =>
            if decide (may_schedule s epoch r ∧ may_update s ma mi pa hash) then
              Some {| s_config := s_config s;
                      s_version := {| major := ma; minor := mi; patch := pa; executionEpoch := r + epoch;
                                      binaryHash := hash |};
                      s_initialized := s_initialized s; s_schedule := s_schedule s; s_current := s_current s |}
            else None
        | SetConfiguration c =>
            Some {| s_config := c; s_version := s_version s; s_initialized := s_initialized s;
                    s_schedule := s_schedule s; s_current := s_current s |}
        | _ => None
        end
      else None
  end.
End Spec.

(** The arguments the ABI decoder lets through; [V1] is the only version of
    the encoding. *)
Definition valid_call (c : dyn_call) : Prop :=
  match c with
  | ChangeDynamicValues r v => word 32 r ∧ valid_values v ∧ encoderVersion v = 0
  | UpdateHead e => word 32 e
  | UpdateAliceNetNodeVersion r ma mi pa h => word 32 r ∧ word 32 ma ∧ word 32 mi ∧ word 32 pa ∧ word 256 h
  | _ => True
  end.

(** ** The contract implements the specification *)

Section Refinement.
Context (factory snapshots : Z) (create_address : Z → Z) (accepts_code : list Z → bool).
Context (create_inj : ∀ m n, 1 ≤ m → 1 ≤ n → create_address m = create_address n → m = n).
Context (create_nonzero : ∀ n, create_address n ≠ 0).
Context (accepts_values : ∀ v, valid_values v → encoderVersion v = 0 → accepts_code (_encodeDynamicValues v) = true).

(** A node of the list and its storage contract hold a scheduled change. *)
Definition stored (codes : gmap Z (list Z)) (ed : Z * Z) (sv : Z * DynamicValues) : Prop :=
  ed.1 = sv.1 ∧ codes !! ed.2 = Some (_encodeDynamicValues sv.2) ∧ valid_values sv.2.

Record implements (st : Dynamics) (s : spec) : Prop := {
  im_config : _configuration st = s_config s;
  im_version : _aliceNetCanonicalVersion st = s_version s;
  im_initialized : _initialized st = s_initialized s;
  im_values : ∃ es, linked (_dynamicValues st) es (s_current s) ∧ Forall2 (stored (d_code st)) es (s_schedule s);
  im_codes a : is_Some (d_code st !! a) → ∃ n, 1 ≤ n < d_nonce st ∧ a = create_address n;
  im_nonce : 1 ≤ d_nonce st;
  im_words : word 32 (major (s_version s)) ∧ word 32 (minor (s_version s)) ∧ word 32 (patch (s_version s)) }.

Definition refines (r : sol (Dynamics * list dyn_event)) (o : option spec) : Prop :=
  match r, o with
  | Done (st, _), Some s => implements st s
  | Reverts _, None => True
  | _, _ => False
  end.

Lemma implements_new : implements new_dynamics new_spec.
Proof using Type.
  split; try done.
  - exists []. split; [apply linked_new|constructor].
  - intros a [x Hx]. simpl in Hx. by rewrite lookup_empty in Hx.
Qed.

Lemma stored_insert codes a code es sched : codes !! a = None →
  Forall2 (stored codes) es sched → Forall2 (stored (<[a := code]> codes)) es sched.
Proof using Type.
  intros Ha Hes. eapply Forall2_impl; [exact Hes|]. intros ed sv (H1 & H2 & H3). split_and!; [done| |done].
  rewrite lookup_insert_ne; [done|]. intros E. congruence.
Qed.

Lemma fresh_code st s : implements st s → d_code st !! create_address (d_nonce st) = None.
Proof using create_inj.
  intros Hi. destruct (d_code st !! _) eqn:E; [|done].
  destruct (im_codes st s Hi (create_address (d_nonce st))) as (n & Hn & En); [by rewrite E|].
  apply create_inj in En; [lia|apply (im_nonce st s Hi)|lia].
Qed.

Lemma deploy_run st s data : implements st s → accepts_code data = true →
  _deployStorage create_address accepts_code st data =
    Done (create_address (d_nonce st), with_code st (create_address (d_nonce st)) data,
          [DeployedStorageContract (create_address (d_nonce st))]) ∧
  implements (with_code st (create_address (d_nonce st)) data) s.
Proof using create_inj.
  intros Hi Ha. pose proof (fresh_code st s Hi) as Hf. unfold _deployStorage. rewrite Ha, bool_decide_true by done.
  split; [done|]. destruct Hi as [H1 H2 H3 (es & Hl & Hes) H5 H6 H7]. split; try done.
  - exists es. split; [done|]. by apply stored_insert.
  - intros a [x Hx]. simpl in *. apply lookup_insert_Some in Hx as [[<- _]|[_ Hx]].
    + exists (d_nonce st). lia.
    + destruct (H5 a) as (n & Hn & ->); [by rewrite Hx|]. exists n. lia.
  - simpl. lia.
Qed.

Lemma tail_last L es sched h codes : linked L es h → Forall2 (stored codes) es sched →
  l_tail L = default 0 (fst <$> last sched).
Proof using Type.
  intros HL Hes. rewrite (linked_tail _ _ _ HL). rewrite !last_lookup, (Forall2_length _ _ _ Hes).
  destruct (es !! pred (length sched)) as [[e d]|] eqn:E.
  - destruct (Forall2_lookup_l _ _ _ _ _ Hes E) as ([e' v] & -> & He & _). simpl in *. by rewrite He.
  - apply lookup_ge_None in E. rewrite (Forall2_length _ _ _ Hes) in E.
    by rewrite (lookup_ge_None_2 sched).
Qed.

Lemma addNode_refines st s e v : implements st s → word 32 e → valid_values v → encoderVersion v = 0 →
  refines (_addNode create_address accepts_code st e v) (schedule s e v).
Proof using create_inj create_nonzero accepts_values.
  intros Hi He Hv Hev. unfold _addNode. pose proof (fresh_code st s Hi) as Hf.
  destruct (deploy_run st s (_encodeDynamicValues v) Hi (accepts_values v Hv Hev)) as [-> Hi'].
  cbn [sbind]. set (a := create_address (d_nonce st)) in *. set (st1 := with_code st a _) in *.
  destruct (im_values st1 s Hi') as (es & Hl & Hes).
  pose proof (tail_last _ _ _ _ _ Hl Hes) as Ht. unfold schedule, last_epoch.
  destruct (addNode_outcome _ es _ e a Hl He) as [[Hle ->]|[(_ & Ha & _)|(Hlt & _ & L' & -> & Hl')]].
  - simpl. rewrite decide_False by lia. done.
  - by destruct (create_nonzero (d_nonce st)).
  - rewrite decide_True by lia. cbn [sbind refines]. destruct Hi' as [H1 H2 H3 _ H5 H6 H7]. split; try done.
    exists (es ++ [(e, a)]). split; [done|]. simpl. apply Forall2_app; [done|]. apply Forall2_cons; split; [|constructor].
    split_and!; [done| |done]. simpl. by rewrite lookup_insert_eq.
Qed.

Lemma scheduled_epoch st s epoch r : implements st s → word 32 epoch → word 32 r →
  (may_schedule s epoch r ∧ _computeExecutionEpoch st epoch r = Done (r + epoch)) ∨
  (¬ may_schedule s epoch r ∧ ∃ e, _computeExecutionEpoch st epoch r = Reverts e).
Proof using Type.
  intros Hi He Hr. unfold _computeExecutionEpoch, may_schedule. rewrite (im_config st s Hi), cast_word by done.
  unfold revert_if. destruct (Z.ltb_spec r (minEpochsBetweenUpdates (s_config s))); [right; split; [lia|by eexists]|].
  rewrite Z.gtb_ltb. destruct (Z.ltb_spec (maxEpochsBetweenUpdates (s_config s)) r); [right; split; [lia|by eexists]|].
  cbn [orb sbind]. unfold word in *. destruct (decide (r + epoch < 2 ^ 32)).
  - left. split; [lia|]. apply checked_ok. unfold word. lia.
  - right. split; [lia|]. unfold checked. rewrite (proj2 (Z.ltb_ge _ _)) by lia. rewrite andb_false_r. by eexists.
Qed.

(** The next epoch the list gives is that of the next scheduled values. *)
Lemma next_epoch st s es : linked (_dynamicValues st) es (s_current s) →
  Forall2 (stored (d_code st)) es (s_schedule s) →
  getNextEpoch (_dynamicValues st) (l_head (_dynamicValues st)) =
    default 0 (fst <$> s_schedule s !! S (s_current s)).
Proof using Type.
  intros Hl Hes. rewrite (linked_head _ _ _ Hl). destruct (linked_current _ _ _ Hl) as [Hlt|[-> Hc]].
  - destruct (lookup_lt_is_Some_2 _ _ Hlt) as [[e d] He]. rewrite He. simpl. unfold getNextEpoch.
    rewrite (entry_node _ _ _ Hl _ _ _ He). simpl.
    destruct (es !! S (s_current s)) as [ed|] eqn:E.
    + destruct (Forall2_lookup_l _ _ _ _ _ Hes E) as (sv & -> & Hs & _). simpl. by rewrite Hs.
    + apply lookup_ge_None in E. rewrite (Forall2_length _ _ _ Hes) in E. by rewrite lookup_ge_None_2.
  - apply Forall2_nil_inv_l in Hes. rewrite Hes, Hc. simpl. unfold getNextEpoch, getNode.
    destruct (l_nodes _ !! 0) as [n|] eqn:E; [|done].
    destruct (linked_only _ _ _ Hl _ _ E) as (i & Hi & _). done.
Qed.

Lemma updateHead_refines st s sender e : implements st s → word 32 e →
  refines (updateHead snapshots sender st e) (if decide (sender = snapshots) then Some (advance s e) else None).
Proof using Type.
  intros Hi He. unfold updateHead, onlySnapshots. destruct (Z.eqb_spec sender snapshots) as [Heq|Hne].
  2:{ by rewrite decide_False. }
  rewrite decide_True by done. cbn [negb revert_if sbind].
  destruct (im_values st s Hi) as (es & Hl & Hes). rewrite (next_epoch st s es Hl Hes). unfold advance.
  destruct (s_schedule s !! S (s_current s)) as [[e' v]|] eqn:E; simpl default; [|by destruct Hi].
  destruct (Forall2_lookup_r _ _ _ _ _ Hes E) as ([e1 d] & Hed & He1 & _). simpl in He1. subst e1.
  destruct (entry_valid _ _ _ Hl _ _ _ Hed) as [Hr _]. rewrite (proj2 (Z.eqb_neq _ _)) by lia. rewrite Z.geb_leb.
  cbn [negb andb]. destruct (Z.leb_spec e' e).
  - rewrite decide_True by done. destruct (setHead_entry _ _ _ Hl _ _ _ Hed) as (L' & -> & Hl').
    cbn [sbind refines]. destruct Hi as [H1 H2 H3 _ H5 H6 H7]. split; try done. by exists es.
  - by rewrite decide_False by lia.
Qed.

Lemma version_refines st s epoch r ma mi pa hash : implements st s → word 32 epoch →
  valid_call (UpdateAliceNetNodeVersion r ma mi pa hash) →
  refines (_updateAliceNetNodeVersion st epoch r ma mi pa hash)
    (if decide (may_schedule s epoch r ∧ may_update s ma mi pa hash) then
       Some {| s_config := s_config s;
               s_version := {| major := ma; minor := mi; patch := pa; executionEpoch := r + epoch;
                               binaryHash := hash |};
               s_initialized := s_initialized s; s_schedule := s_schedule s; s_current := s_current s |}
     else None).
Proof using Type.
  intros Hi He (Hr & Hma & Hmi & Hpa & Hh). unfold _updateAliceNetNodeVersion. cbv zeta.
  destruct (scheduled_epoch st s epoch r Hi He Hr) as [[Hs ->]|[Hs [e ->]]]; cbn [sbind].
  2:{ by rewrite decide_False by tauto. }
  unfold compacted. rewrite (im_version st s Hi). destruct (im_words st s Hi) as (H1 & H2 & H3).
  rewrite compacted_lt by done. unfold may_update.
  case_bool_decide as Hlt; cbn [negb sbind revert_if]; [|by rewrite decide_False by tauto].
  unfold checked. rewrite (proj2 (Z.leb_le _ _)) by (unfold word in H1; lia). cbn [andb].
  destruct (Z.ltb_spec (major (s_version s) + 1) (2 ^ 32)); [|by rewrite decide_False by (intros (_ & _ & ? & _); lia)].
  cbn [sbind]. rewrite Z.gtb_ltb. destruct (Z.ltb_spec (major (s_version s) + 1) ma);
    [by rewrite decide_False by (intros (_ & _ & ? & _); lia)|].
  cbn [revert_if sbind]. destruct (Z.eqb_spec hash 0); [by rewrite decide_False by (intros (_ & _ & _ & ? & _); lia)|].
  destruct (Z.eqb_spec hash (binaryHash (s_version s)));
    [by rewrite decide_False by (intros (_ & _ & _ & _ & ?); lia)|].
  cbn [orb revert_if sbind]. rewrite decide_True; [|split; [done|]; split_and!; done].
  cbn [refines]. destruct Hi as [I1 I2 I3 I4 I5 I6 I7]. by split.
Qed.

(** Every call, whoever sends it: it reverts exactly when the specification
    refuses it, and else leaves the specification's state. *)
Lemma dyn_exec_refines st s sender epoch c : implements st s → valid_call c → word 32 epoch →
  refines (dyn_exec factory snapshots create_address accepts_code sender epoch c st)
          (spec_exec factory snapshots accepts_code sender epoch c s).
Proof using create_inj create_nonzero accepts_values.
  intros Hi Hc He. destruct c as [|r v|e|r ma mi pa hash|cf|data]; cbn [dyn_exec spec_exec].
  3:{ by apply updateHead_refines. }
  5:{ unfold deployStorage. destruct (accepts_code data) eqn:Ha.
      - by destruct (deploy_run st s data Hi Ha) as [-> Hi'].
      - unfold _deployStorage. by rewrite Ha. }
  all: unfold initialize, changeDynamicValues, updateAliceNetNodeVersion, setConfiguration, onlyFactory;
    destruct (Z.eqb_spec sender factory) as [Heq|Hne]; [|by rewrite decide_False];
    rewrite decide_True by done; cbn [negb revert_if sbind].
  - rewrite (im_initialized st s Hi). destruct (s_initialized s); [done|]. cbn [revert_if sbind].
    apply addNode_refines; [|by vm_compute|unfold valid_values, word; simpl; lia|done].
    destruct Hi as [I1 I2 I3 I4 I5 I6 I7]. by split.
  - destruct Hc as (Hr & Hv & Hev).
    destruct (scheduled_epoch st s epoch r Hi He Hr) as [[Hs ->]|[Hs [e ->]]]; cbn [sbind].
    + rewrite decide_True by done. apply addNode_refines; try done. unfold word, may_schedule in *. lia.
    + by rewrite decide_False.
  - by apply version_refines.
  - cbn [refines]. destruct Hi as [I1 I2 I3 I4 I5 I6 I7]. by split.
Qed.

(** What a call schedules, and announces. *)
Definition scheduled_by (epoch : Z) (c : dyn_call) : list (Z * DynamicValues) :=
  match c with
  | Initialize => [(1, INITIAL_VALUES)]
  | ChangeDynamicValues r v => [(r + epoch, v)]
  | _ => []
  end.

Definition encoded (sv : Z * DynamicValues) : Z * list Z := (sv.1, _encodeDynamicValues sv.2).

Lemma addNode_events st e v st' ds :
  _addNode create_address accepts_code st e v = Done (st', ds) → announced ds = [encoded (e, v)].
Proof using Type.
  unfold _addNode, _deployStorage. destruct (_ && _); [|done]. cbn [sbind]. intros Hx. sol_inv. done.
Qed.

Lemma exec_events sender epoch c st st' ds : word 32 epoch →
  dyn_exec factory snapshots create_address accepts_code sender epoch c st = Done (st', ds) →
  announced ds = encoded <$> scheduled_by epoch c.
Proof using Type.
  intros He Hx. destruct c as [|r v|e|r ma mi pa hash|cf|data]; cbn [dyn_exec] in Hx;
    unfold initialize, changeDynamicValues, updateHead, updateAliceNetNodeVersion, _updateAliceNetNodeVersion,
      setConfiguration, deployStorage in Hx; sol_inv; try done.
  - by apply addNode_events in Hx.
  - match goal with H : _computeExecutionEpoch _ _ _ = Done _ |- _ => unfold _computeExecutionEpoch in H; sol_inv end.
    apply addNode_events in Hx. by rewrite cast_word in Hx.
  - match goal with |- context [if ?b then _ else _] => by destruct b end.
  - unfold _deployStorage in *. destruct (_ && _); sol_inv. by simplify_eq/=.
Qed.

Lemma schedule_inv s e v s' : schedule s e v = Some s' →
  last_epoch s < e ∧ s_schedule s' = s_schedule s ++ [(e, v)] ∧ s_current s' = s_current s ∧
  s_config s' = s_config s ∧ s_initialized s' = s_initialized s.
Proof using Type. unfold schedule. destruct (decide _); [|done]. intros [= <-]. done. Qed.

(** *** What is read *)

Lemma read_entry st s i e v : implements st s → s_schedule s !! i = Some (e, v) →
  0 < e ∧ _decodeDynamicValues st (getValue (_dynamicValues st) e) = Done v ∧
  getPreviousEpoch (_dynamicValues st) e =
    match i with O => 0 | S j => default 0 (fst <$> s_schedule s !! j) end.
Proof using Type.
  intros Hi Hv. destruct (im_values st s Hi) as (es & Hl & Hes).
  destruct (Forall2_lookup_r _ _ _ _ _ Hes Hv) as ([e1 d] & Hed & He1 & Hc & Hval). simpl in He1, Hc, Hval. subst e1.
  destruct (entry_valid _ _ _ Hl _ _ _ Hed) as [Hr _].
  unfold getValue, getPreviousEpoch. rewrite (entry_node _ _ _ Hl _ _ _ Hed). cbn [n_data n_prev].
  split_and!; [lia|by apply stored_values|]. destruct i as [|j]; [done|].
  destruct (lookup_lt_is_Some_2 es j) as [[e' d'] He']; [apply lookup_lt_Some in Hed; lia|].
  destruct (Forall2_lookup_l _ _ _ _ _ Hes He') as ([e2 v'] & -> & E & _). by rewrite He'.
Qed.

Lemma head_entry st s : implements st s →
  l_head (_dynamicValues st) = default 0 (fst <$> s_schedule s !! s_current s) ∧
  (s_schedule s !! s_current s = None → getValue (_dynamicValues st) 0 = 0 ∧ d_code st !! 0 = None).
Proof using create_nonzero.
  intros Hi. destruct (im_values st s Hi) as (es & Hl & Hes). rewrite (linked_head _ _ _ Hl).
  destruct (s_schedule s !! s_current s) as [[e v]|] eqn:E.
  - destruct (Forall2_lookup_r _ _ _ _ _ Hes E) as ([e1 d] & -> & He1 & _).
    simpl in *. by rewrite He1.
  - apply lookup_ge_None in E. rewrite <-(Forall2_length _ _ _ Hes) in E.
    rewrite (lookup_ge_None_2 es) by done. split; [done|]. intros _.
    assert (es = []) as -> by (destruct (linked_current _ _ _ Hl) as [?|[? _]]; [lia|done]).
    split.
    + unfold getValue, getNode. destruct (l_nodes _ !! 0) as [n|] eqn:En; [|done].
      by destruct (linked_only _ _ _ Hl _ _ En) as (i & Hn & _).
    + destruct (d_code st !! 0) eqn:Ec; [|done]. destruct (im_codes st s Hi 0) as (n & _ & En); [by rewrite Ec|].
      by destruct (create_nonzero n).
Qed.

(** The values before anything is scheduled. *)
Definition no_values : sol DynamicValues := Reverts (Revert "InvalidExtCodeSize" [0; 0]).

Definition spec_latest (s : spec) : sol DynamicValues :=
  match s_schedule s !! s_current s with Some (_, v) => Done v | None => no_values end.

(** Only the values before the current ones are kept in sight. *)
Definition spec_previous (s : spec) (epoch : Z) : sol DynamicValues :=
  match s_schedule s !! s_current s with
  | None => no_values
  | Some (e, v) =>
      if decide (e ≤ epoch) then Done v
      else match s_current s with
           | O => Reverts (Revert "DynamicValueNotFound" [epoch])
           | S j =>
               match s_schedule s !! j with
               | Some (e', v') =>
                   if decide (e' ≤ epoch) then Done v' else Reverts (Revert "DynamicValueNotFound" [epoch])
               | None => Reverts (Revert "DynamicValueNotFound" [epoch])
               end
           end
  end.

Lemma latest_reads st s : implements st s → getLatestDynamicValues st = spec_latest s.
Proof using create_nonzero.
  intros Hi. destruct (head_entry st s Hi) as [Hh Hz]. unfold getLatestDynamicValues, spec_latest. rewrite Hh.
  destruct (s_schedule s !! s_current s) as [[e v]|] eqn:E.
  - simpl default. by destruct (read_entry st s _ _ _ Hi E) as (_ & -> & _).
  - destruct (Hz eq_refl) as [Hv Hc]. simpl default. rewrite Hv. unfold _decodeDynamicValues. by rewrite Hc.
Qed.

Lemma previous_reads st s epoch : implements st s → 0 ≤ epoch →
  getPreviousDynamicValues st epoch = spec_previous s epoch.
Proof using create_nonzero.
  intros Hi Hep. destruct (head_entry st s Hi) as [Hh Hz]. unfold getPreviousDynamicValues, spec_previous. rewrite Hh.
  destruct (s_schedule s !! s_current s) as [[e v]|] eqn:E.
  2:{ destruct (Hz eq_refl) as [Hv Hc]. simpl default. rewrite (proj2 (Z.leb_le _ _)), Hv by done.
      unfold _decodeDynamicValues. by rewrite Hc. }
  destruct (read_entry st s _ _ _ Hi E) as (He & Hd & Hp). simpl default. rewrite Hd.
  destruct (Z.leb_spec e epoch); [by rewrite decide_True|].
  rewrite decide_False by lia. rewrite Hp. destruct (s_current s) as [|j]; [done|].
  destruct (s_schedule s !! j) as [[e' v']|] eqn:E'; [|done].
  destruct (read_entry st s _ _ _ Hi E') as (He' & Hd' & _). simpl default. rewrite Hd'.
  rewrite (proj2 (Z.eqb_neq _ _)) by lia. cbn [negb andb]. destruct (Z.leb_spec e' epoch).
  - by rewrite decide_True.
  - by rewrite decide_False by lia.
Qed.

(** *** Transactions: a reverted one leaves the state *)

Definition dyn_tx (st : Dynamics) (t : Z * Z * dyn_call) : Dynamics :=
  let '(sender, epoch, c) := t in
  match dyn_exec factory snapshots create_address accepts_code sender epoch c st with
  | Done (st', _) => st'
  | Reverts _ => st
  end.

Definition spec_tx (s : spec) (t : Z * Z * dyn_call) : spec :=
  let '(sender, epoch, c) := t in default s (spec_exec factory snapshots accepts_code sender epoch c s).

Definition valid_tx (t : Z * Z * dyn_call) : Prop := word 32 t.1.2 ∧ valid_call t.2.

Lemma tx_implements st s t : implements st s → valid_tx t → implements (dyn_tx st t) (spec_tx s t).
Proof using create_inj create_nonzero accepts_values.
  destruct t as [[sender epoch] c]. intros Hi [He Hc]. unfold dyn_tx, spec_tx.
  pose proof (dyn_exec_refines st s sender epoch c Hi Hc He) as Hr.
  destruct (dyn_exec _ _ _ _ _ _ _ _) as [[st' es]|], (spec_exec _ _ _ _ _ _ _); try done.
Qed.

Lemma txs_implement txs : ∀ st s, implements st s → Forall valid_tx txs →
  implements (foldl dyn_tx st txs) (foldl spec_tx s txs).
Proof using create_inj create_nonzero accepts_values.
  induction txs as [|t txs IH]; intros st s Hi Ht; [done|]. apply Forall_cons in Ht as [Ht Hts].
  apply IH; [by apply tx_implements|done].
Qed.

(** C12: [Dynamics.sol] implements its specification, a schedule of values
    without nodes, links, storage contracts and encodings.  Whatever
    transactions it received, from whomever and in whatever epoch: it refuses
    the next one exactly when the specification does, namely for a wrong
    sender, an epoch out of the configured range or beyond 32 bits, one not
    after the last scheduled one, or a version that is not greater, skips a
    major number or reuses the hash; and the values, the previous values, the
    version and the configuration it reads back are the specification's. *)
Theorem dynamics_refines txs : Forall valid_tx txs →
  let st := foldl dyn_tx new_dynamics txs in
  let s := foldl spec_tx new_spec txs in
  (∀ sender epoch c, valid_tx (sender, epoch, c) →
     (∃ e, dyn_exec factory snapshots create_address accepts_code sender epoch c st = Reverts e) ↔
     spec_exec factory snapshots accepts_code sender epoch c s = None) ∧
  getLatestDynamicValues st = spec_latest s ∧
  (∀ epoch, 0 ≤ epoch → getPreviousDynamicValues st epoch = spec_previous s epoch) ∧
  _aliceNetCanonicalVersion st = s_version s ∧ _configuration st = s_config s.
Proof using create_inj create_nonzero accepts_values.
  intros Ht st s. assert (implements st s) as Hi by (apply txs_implement; [apply implements_new|done]).
  split_and!.
  - intros sender epoch c [He Hc]. pose proof (dyn_exec_refines st s sender epoch c Hi Hc He) as Hr.
    destruct (dyn_exec _ _ _ _ _ _ _ _) as [[st' es]|], (spec_exec _ _ _ _ _ _ _); try done.
    + split; [by intros [? ?]|done].
    + split; [done|by eexists].
  - by apply latest_reads.
  - intros epoch He. by apply previous_reads.
  - apply (im_version st s Hi).
  - apply (im_config st s Hi).
Qed.
End Refinement.

(** ** Witness *)

Definition create_ex (nonce : Z) : Z := if decide (1 ≤ nonce) then 99 + nonce else 99.
Definition accepts_ex (code : list Z) : bool :=
  match code with 239 :: _ => false | _ => (Z.of_nat (length code) <=? 24576) end.
Definition values_ex (n : Z) : DynamicValues :=
  {| encoderVersion := 0; proposalTimeout := 5000; preVoteTimeout := 1; preCommitTimeout := 2;
     maxBlockSize := n; dataStoreFee := 3; valueStoreFee := 4; minScaledTransactionFee := 2 ^ 100 |}.
Definition txs_ex : list (Z * Z * dyn_call) :=
  [(7, 0, Initialize); (7, 0, ChangeDynamicValues 1 (values_ex 5)); (7, 1, ChangeDynamicValues 2 (values_ex 6));
   (8, 2, UpdateHead 2); (8, 3, UpdateHead 3); (7, 3, UpdateAliceNetNodeVersion 2 1 0 0 77);
   (7, 3, UpdateAliceNetNodeVersion 2 3 0 0 78); (9, 3, SetConfiguration INITIAL_CONFIGURATION)].

Lemma accepts_ex_values v : valid_values v → encoderVersion v = 0 → accepts_ex (_encodeDynamicValues v) = true.
Proof.
  intros _ Hv. unfold accepts_ex. rewrite length_encoded. unfold _encodeDynamicValues. rewrite Hv. reflexivity.
Qed.

Lemma dynamics_refines_witness :
  let st := foldl (dyn_tx 7 8 create_ex accepts_ex) new_dynamics txs_ex in
  getLatestDynamicValues st = Done (values_ex 6) ∧
  getPreviousDynamicValues st 2 = Done INITIAL_VALUES ∧
  major (_aliceNetCanonicalVersion st) = 1.
Proof.
  cbv zeta.
  destruct (dynamics_refines 7 8 create_ex accepts_ex) with (txs := txs_ex) as (_ & H1 & H2 & H3 & _).
  - intros m n Hm Hn. unfold create_ex. rewrite !decide_True by done. lia.
  - intros n. unfold create_ex. destruct (decide (1 ≤ n)); lia.
  - exact accepts_ex_values.
  - repeat (constructor; [vm_compute; repeat split; discriminate|]). constructor.
  - rewrite H1, (H2 2), H3 by discriminate. vm_compute. repeat split.
Defined.
