(* ===== verification/Snapshots.v ===== *)
(** * Snapshots of the side chain

    [contracts/Snapshots.sol] with [SnapshotsStorage.sol] and
    [SnapshotRingBuffer.sol]: the block claims at the end of each epoch, the
    last six of them kept in a ring buffer.  Taking a snapshot moves
    [Dynamics.sol] on.  The answers of ValidatorPool and ETHDKG are given for
    each transaction; hashing and the check of a BLS signature are
    parameters. *)

From S2P Require Import Prelude Solidity LinkedList Parsers Dynamics.
From stdpp Require Import options.
Local Open Scope Z_scope.

(** ** Storage *)

Record Snapshot := { committedAt : Z; blockClaims : BClaims }.

Definition zero_snapshot : Snapshot := {| committedAt := 0; blockClaims := zero_claims |}.
Definition height (s : Snapshot) : Z := c_height (blockClaims s).

Record Snapshots := {
  _minimumIntervalBetweenSnapshots : Z;
  _snapshotDesperationDelay : Z;
  _snapshotDesperationFactor : Z;
  _epoch : Z;
  _snapshots : list Snapshot;          (* SnapshotBuffer: six of them *)
  sn_initialized : bool }.

Definition new_snapshots : Snapshots :=
  {| _minimumIntervalBetweenSnapshots := 0; _snapshotDesperationDelay := 0; _snapshotDesperationFactor := 0;
     _epoch := 0; _snapshots := replicate 6 zero_snapshot; sn_initialized := false |}.

(** What the other contracts answer during a transaction. *)
Record Outside := {
  o_sender : Z;
  o_block : Z;                         (* block.number *)
  o_isValidator : Z → bool;
  o_consensusRunning : bool;
  o_maintenance : bool;                (* isMaintenanceScheduled *)
  o_pauses : bool;                     (* pauseConsensus does not revert *)
  o_participantIndex : Z → Z;          (* getLastRoundParticipantIndex *)
  o_validators : Z;                    (* getValidatorsCount *)
  o_masterKeyHash : Z }.               (* getMasterPublicKeyHash *)

Inductive sn_event :=
  | SnapshotTaken (epoch height : Z) (sender : Z) (safe : bool) (key signature : list Z) (claims : BClaims)
  | ConsensusPaused
  | DynamicsEvents (es : list dyn_event).

Definition with_buffer (st : Snapshots) (buffer : list Snapshot) (epoch : Z) : Snapshots :=
  {| _minimumIntervalBetweenSnapshots := _minimumIntervalBetweenSnapshots st;
     _snapshotDesperationDelay := _snapshotDesperationDelay st;
     _snapshotDesperationFactor := _snapshotDesperationFactor st;
     _epoch := epoch; _snapshots := buffer; sn_initialized := sn_initialized st |}.

(** ** The ring buffer *)

Definition indexFor (epoch : Z) : sol Z :=
  _ <! revert_if (epoch =? 0) "EpochMustBeNonZero" [] ;;
  Done (epoch mod 6).

Definition unsafeSet (buffer : list Snapshot) (new_ : Snapshot) (epoch : Z) : sol (list Snapshot) :=
  i <! indexFor epoch ;; array_set buffer i new_.

Definition buffer_get (buffer : list Snapshot) (epoch : Z) : sol Snapshot :=
  i <! indexFor epoch ;; array_get buffer i.

(** The new buffer and the epoch of the snapshot. *)
Definition buffer_set (epochFor : Z → sol Z) (buffer : list Snapshot) (new_ : Snapshot) : sol (list Snapshot * Z) :=
  epoch <! epochFor (height new_) ;;
  old <! buffer_get buffer epoch ;;
  _ <! revert_if (height new_ <=? height old) "InvalidRingBufferBlockHeight" [height new_; height old] ;;
  buffer <! unsafeSet buffer new_ epoch ;;
  Done (buffer, epoch).

Section Snapshots.
(** The immutables, the addresses of the two other contracts, the hash of a
    byte array and [CryptoLibrary.verifySignatureASM]. *)
Context (_chainId _epochLength : Z) (factory : Z).
Context (keccak : list Z → Z) (verifySignature : Z → list Z → list Z → bool).

Definition _getEpochFromHeight (height_ : Z) : sol Z :=
  if height_ <=? _epochLength then Done 1
  else
    r <! modulo height_ _epochLength ;;
    q <! divide height_ _epochLength ;;
    if r =? 0 then Done (cast 32 q) else Done (cast 32 (q + 1)).

Definition _setSnapshot (st : Snapshots) (snapshot_ : Snapshot) : sol (Snapshots * Z) :=
  r <! buffer_set _getEpochFromHeight (_snapshots st) snapshot_ ;;
  Done (with_buffer st r.1 r.2, r.2).

Definition _getSnapshot (st : Snapshots) (epoch_ : Z) : sol Snapshot :=
  if epoch_ =? 0 then Done zero_snapshot
  else
    snapshot_ <! buffer_get (_snapshots st) epoch_ ;;
    e <! _getEpochFromHeight (height snapshot_) ;;
    if negb (e =? epoch_) then Reverts (Revert "SnapshotsNotInBuffer" [epoch_]) else Done snapshot_.

Definition _getLatestSnapshot (st : Snapshots) : sol Snapshot := _getSnapshot st (_epoch st).

(** [getSnapshot(uint256)] *)
Definition getSnapshot (st : Snapshots) (epoch_ : Z) : sol Snapshot := _getSnapshot st (cast 32 epoch_).

(** ** Checks *)

Definition _parseAndValidateBClaims (epoch : Z) (bClaims_ : list Z) : sol BClaims :=
  blockClaims <! extractBClaims bClaims_ ;;
  expected <! checked 256 (epoch * _epochLength) ;;
  _ <! revert_if (negb (expected =? c_height blockClaims)) "UnexpectedBlockHeight" [c_height blockClaims; expected] ;;
  _ <! revert_if (negb (c_chainId blockClaims =? _chainId)) "InvalidChainId" [c_chainId blockClaims] ;;
  Done blockClaims.

Definition _checkBClaimsSignature (o : Outside) (groupSignature_ bClaims_ : list Z) : sol (list Z * list Z) :=
  r <! extractSigGroup groupSignature_ 0 ;;
  let '(masterPublicKey, signature) := r in
  let calculated := keccak (concat (be_bytes 32 <$> masterPublicKey)) in
  _ <! revert_if (negb (calculated =? o_masterKeyHash o)) "InvalidMasterPublicKey" [calculated; o_masterKeyHash o] ;;
  _ <! revert_if (negb (verifySignature (keccak bClaims_) signature masterPublicKey)) "SignatureVerificationFailed" [] ;;
  Done (masterPublicKey, signature).

Definition _checkSnapshotMinimumInterval (st : Snapshots) (o : Outside) (lastSnapshotCommittedAt : Z) : sol unit :=
  limit <! checked 256 (lastSnapshotCommittedAt + _minimumIntervalBetweenSnapshots st) ;;
  revert_if (o_block o <? limit) "MinimumBlocksIntervalNotPassed" [o_block o; limit].

(** ** The election *)

(** How many validators may take the snapshot; one round per validator at
    most. *)
Fixpoint allowed_loop (fuel : nat) (numValidators blocksSinceDesperation desperationFactor
    desperation numValidatorsAllowed : Z) : sol Z :=
  if (desperation <? blocksSinceDesperation) && (numValidatorsAllowed <? numValidators) then
    match fuel with
    | O => Done numValidatorsAllowed
    | S fuel =>
        desperation <! checked 256 (desperation + desperationFactor / numValidatorsAllowed) ;;
        allowed_loop fuel numValidators blocksSinceDesperation desperationFactor desperation
          (numValidatorsAllowed + 1)
    end
  else Done numValidatorsAllowed.

Definition _mayValidatorSnapshot (numValidators myIdx blocksSinceDesperation randomSeed desperationFactor : Z)
    : sol (bool * Z * Z) :=
  numValidatorsAllowed <! allowed_loop (Z.to_nat numValidators) numValidators blocksSinceDesperation
                            desperationFactor 0 1 ;;
  start <! modulo randomSeed numValidators ;;
  e <! checked 256 (start + numValidatorsAllowed) ;;
  end_ <! modulo e numValidators ;;
  let isAllowed := if end_ >? start then (myIdx >=? start) && (myIdx <? end_)
                   else (myIdx >=? start) || (myIdx <? end_) in
  Done (isAllowed, start, end_).

Definition _isValidatorElectedToPerformSnapshot (st : Snapshots) (o : Outside) (validator
    lastSnapshotCommittedAt groupSignatureHash : Z) : sol unit :=
  let validatorIndex := o_participantIndex o validator in
  ethBlocksSinceLastSnapshot <! checked 256 (o_block o - lastSnapshotCommittedAt) ;;
  let desperationDelay := _snapshotDesperationDelay st in
  let blocksSinceDesperation :=
    if ethBlocksSinceLastSnapshot >=? desperationDelay then ethBlocksSinceLastSnapshot - desperationDelay else 0 in
  myIdx <! checked 256 (validatorIndex - 1) ;;
  r <! _mayValidatorSnapshot (o_validators o) myIdx blocksSinceDesperation groupSignatureHash
         (_snapshotDesperationFactor st) ;;
  let '(isValidatorElected, startIndex, endIndex) := r in
  revert_if (negb isValidatorElected) "ValidatorNotElected" [myIdx; startIndex; endIndex; groupSignatureHash].

(** ** Transactions *)

(** A snapshot, up to the call of [Dynamics.updateHead(epoch)]: the storage,
    the epoch, the events and the answer. *)
Definition take_snapshot (o : Outside) (st : Snapshots) (groupSignature_ bClaims_ : list Z)
    : sol (Snapshots * Z * list sn_event * bool) :=
  _ <! revert_if (negb (o_isValidator o (o_sender o))) "OnlyValidatorsAllowed" [o_sender o] ;;
  _ <! revert_if (negb (o_consensusRunning o)) "ConsensusNotRunning" [] ;;
  epoch <! checked 32 (_epoch st + 1) ;;
  blockClaims <! _parseAndValidateBClaims epoch bClaims_ ;;
  latest <! _getLatestSnapshot st ;;
  let lastSnapshotCommittedAt := committedAt latest in
  _ <! _checkSnapshotMinimumInterval st o lastSnapshotCommittedAt ;;
  _ <! _isValidatorElectedToPerformSnapshot st o (o_sender o) lastSnapshotCommittedAt (keccak groupSignature_) ;;
  r <! _checkBClaimsSignature o groupSignature_ bClaims_ ;;
  let '(masterPublicKey, signature) := r in
  let isSafeToProceedConsensus := negb (o_maintenance o) in
  _ <! revert_if (o_maintenance o && negb (o_pauses o)) "pauseConsensus" [] ;;
  r <! _setSnapshot st {| committedAt := o_block o; blockClaims := blockClaims |} ;;
  let st := with_buffer r.1 (_snapshots r.1) epoch in
  Done (st, epoch,
        (if o_maintenance o then [ConsensusPaused] else []) ++
        [SnapshotTaken epoch (c_height blockClaims) (o_sender o) isSafeToProceedConsensus masterPublicKey
           signature blockClaims],
        isSafeToProceedConsensus).

(** The loop of [migrateSnapshots]: storage, last epoch, events. *)
Definition migrate_one (o : Outside) (acc : Snapshots * Z * list sn_event) (sc : list Z * list Z)
    : sol (Snapshots * Z * list sn_event) :=
  let '(st, _, es) := acc in
  blockClaims <! extractBClaims sc.2 ;;
  r <! modulo (c_height blockClaims) _epochLength ;;
  _ <! revert_if (negb (r =? 0)) "BlockHeightNotMultipleOfEpochLength" [c_height blockClaims; _epochLength] ;;
  ks <! _checkBClaimsSignature o sc.1 sc.2 ;;
  epoch <! _getEpochFromHeight (cast 32 (c_height blockClaims)) ;;
  r <! _setSnapshot st {| committedAt := o_block o; blockClaims := blockClaims |} ;;
  Done (r.1, epoch,
        es ++ [SnapshotTaken epoch (c_height blockClaims) (o_sender o) true ks.1 ks.2 blockClaims]).

Definition migrateSnapshots (o : Outside) (st : Snapshots) (groupSignature_ bClaims_ : list (list Z))
    : sol (Snapshots * list sn_event) :=
  _ <! onlyFactory factory (o_sender o) ;;
  _ <! revert_if (negb (_epoch st =? 0)) "MigrationNotAllowedAtCurrentEpoch" [] ;;
  _ <! revert_if (negb (length groupSignature_ =? length bClaims_)%nat || (length groupSignature_ =? 0)%nat)
         "MigrationInputDataMismatch" [Z.of_nat (length groupSignature_); Z.of_nat (length bClaims_)] ;;
  r <! sol_foldl (migrate_one o) (zip groupSignature_ bClaims_) (st, 0, []) ;;
  let '(st, epoch, es) := r in
  Done (with_buffer st (_snapshots st) (cast 32 epoch), es).

Definition sn_initialize (o : Outside) (st : Snapshots) (desperationDelay_ desperationFactor_ : Z) : sol Snapshots :=
  _ <! onlyFactory factory (o_sender o) ;;
  _ <! revert_if (sn_initialized st) "Initializable: contract is already initialized" [] ;;
  Done {| _minimumIntervalBetweenSnapshots := cast 32 (_epochLength / 4);
          _snapshotDesperationDelay := desperationDelay_; _snapshotDesperationFactor := desperationFactor_;
          _epoch := _epoch st; _snapshots := _snapshots st; sn_initialized := true |}.

Definition setSnapshotDesperationDelay (o : Outside) (st : Snapshots) (desperationDelay_ : Z) : sol Snapshots :=
  _ <! onlyFactory factory (o_sender o) ;;
  Done {| _minimumIntervalBetweenSnapshots := _minimumIntervalBetweenSnapshots st;
          _snapshotDesperationDelay := desperationDelay_;
          _snapshotDesperationFactor := _snapshotDesperationFactor st;
          _epoch := _epoch st; _snapshots := _snapshots st; sn_initialized := sn_initialized st |}.

Definition setSnapshotDesperationFactor (o : Outside) (st : Snapshots) (desperationFactor_ : Z) : sol Snapshots :=
  _ <! onlyFactory factory (o_sender o) ;;
  Done {| _minimumIntervalBetweenSnapshots := _minimumIntervalBetweenSnapshots st;
          _snapshotDesperationDelay := _snapshotDesperationDelay st;
          _snapshotDesperationFactor := desperationFactor_;
          _epoch := _epoch st; _snapshots := _snapshots st; sn_initialized := sn_initialized st |}.

Definition setMinimumIntervalBetweenSnapshots (o : Outside) (st : Snapshots) (interval : Z) : sol Snapshots :=
  _ <! onlyFactory factory (o_sender o) ;;
  Done {| _minimumIntervalBetweenSnapshots := interval;
          _snapshotDesperationDelay := _snapshotDesperationDelay st;
          _snapshotDesperationFactor := _snapshotDesperationFactor st;
          _epoch := _epoch st; _snapshots := _snapshots st; sn_initialized := sn_initialized st |}.
End Snapshots.

(** ** The election of the validator *)

Section Election.
Context (n blocks factor : Z) (Hn : 1 ≤ n < 2 ^ 64) (Hb : 0 ≤ blocks < 2 ^ 64) (Hf : word 32 factor).

(** The loop ends within its fuel, with all validators allowed or the delay
    used up. *)
Lemma allowed_loop_run fuel : ∀ d k, 0 ≤ d ≤ blocks + 2 ^ 32 → 1 ≤ k ≤ n → d ≤ (k - 1) * factor →
  n - k ≤ Z.of_nat fuel →
  ∃ k', allowed_loop fuel n blocks factor d k = Done k' ∧ k ≤ k' ≤ n ∧
    (blocks ≤ d → k' = k) ∧ (n * factor < blocks → k' = n).
Proof using Hn Hb Hf.
  induction fuel as [|fuel IH]; intros d k Hd Hk Hdk Hfuel; cbn [allowed_loop].
  - replace k with n in * by lia. rewrite (proj2 (Z.ltb_ge n n)), andb_false_r by lia.
    exists n. split_and!; [done|lia..].
  - unfold word in Hf. destruct (Z.ltb_spec d blocks), (Z.ltb_spec k n); cbn [andb];
      try (exists k; split_and!; [done|lia..|nia]).
    assert (0 ≤ factor / k ≤ factor) as Hq by (split; [apply Z.div_pos; lia|apply Z.div_le_upper_bound; nia]).
    change (2 ^ 64) with 18446744073709551616 in *. change (2 ^ 32) with 4294967296 in *.
    rewrite checked_ok.
    2:{ unfold word. assert (2 ^ 66 < 2 ^ 256) by (by apply Z.pow_lt_mono_r).
        change (2 ^ 66) with 73786976294838206464 in *. lia. }
    cbn [sbind]. destruct (IH (d + factor / k) (k + 1)) as (k' & -> & Hk' & Hsame & Hall); [lia..|nia|lia|].
    exists k'. split_and!; [done|lia..|done].
Qed.

(** C18: the election of the validator that may take a snapshot.  A number of
    validators is allowed, one while the desperation delay has not passed, at
    most all of them, and all of them once the delay is longer than the
    desperation factor for each; those allowed are that many consecutive
    ones, counted cyclically from the random seed, and no others. *)
Theorem election seed : 0 ≤ seed →
  ∃ k, 1 ≤ k ≤ n ∧ (blocks = 0 → k = 1) ∧ (n * factor < blocks → k = n) ∧
    ∀ idx, 0 ≤ idx < n → ∃ s e,
      _mayValidatorSnapshot n idx blocks seed factor =
      Done (bool_decide ((idx - seed mod n) mod n < k), s, e).
Proof using Hn Hb Hf.
  intros Hs. unfold word in Hf.
  destruct (allowed_loop_run (Z.to_nat n) 0 1) as (k & E & Hk & H0 & Hall); [lia..|].
  exists k. split_and!; [lia..|intros ->; apply H0; lia|done|]. intros idx Hi.
  unfold _mayValidatorSnapshot. rewrite E. cbn [sbind]. unfold modulo. rewrite (proj2 (Z.eqb_neq n 0)) by lia.
  cbn [sbind]. set (s := seed mod n). assert (0 ≤ s < n) as Hsn by (apply Z.mod_pos_bound; lia).
  rewrite checked_ok.
  2:{ unfold word. assert (2 ^ 65 < 2 ^ 256) by (by apply Z.pow_lt_mono_r).
      change (2 ^ 65) with 36893488147419103232 in *. change (2 ^ 64) with 18446744073709551616 in *. lia. }
  cbn [sbind]. eexists _, _. do 3 f_equal.
  assert ((idx - s) mod n = if decide (s ≤ idx) then idx - s else idx - s + n) as ->.
  { destruct (decide (s ≤ idx)); [by apply Z.mod_small; lia|].
    rewrite <-(Z.mod_add _ 1) by lia. rewrite Z.mul_1_l. apply Z.mod_small. lia. }
  assert ((s + k) mod n = if decide (s + k < n) then s + k else s + k - n) as ->.
  { destruct (decide (s + k < n)); [by apply Z.mod_small; lia|].
    rewrite <-(Z.mod_add _ (-1)) by lia. replace (s + k + -1 * n) with (s + k - n) by lia. apply Z.mod_small. lia. }
  rewrite Z.gtb_ltb, Z.geb_leb.
  repeat case_decide; case_bool_decide; destruct (Z.ltb_spec s (s + k)); try lia;
    repeat match goal with |- context [?a <=? ?b] => destruct (Z.leb_spec a b)
                         | |- context [?a <? ?b] => destruct (Z.ltb_spec a b) end; simpl; try done; lia.
Qed.
End Election.

Lemma election_witness :
  ∃ k, 1 ≤ k ≤ 4 ∧ ∀ idx, 0 ≤ idx < 4 → ∃ s e,
    _mayValidatorSnapshot 4 idx 50 7 40 = Done (bool_decide ((idx - 7 mod 4) mod 4 < k), s, e).
Proof.
  destruct (election 4 50 40) with (seed := 7) as (k & Hk & _ & _ & H).
  - split; [discriminate|reflexivity].
  - split; [discriminate|reflexivity].
  - split; [discriminate|reflexivity].
  - discriminate.
  - exists k. split; [exact Hk|exact H].
Defined.

(** ** The window of the ring buffer *)

Section Window.
Context (L : Z) (HL : 1 ≤ L).

(** The snapshots taken, in order: those of the epochs from [first] on. *)
Record windowed (st : Snapshots) (first : Z) (log : list Snapshot) : Prop := {
  w_first : 1 ≤ first;
  w_epoch : _epoch st = if decide (log = []) then 0 else first + Z.of_nat (length log) - 1;
  w_size : length (_snapshots st) = 6%nat;
  w_heights j s : log !! j = Some s → height s = (first + Z.of_nat j) * L;
  w_recent j s : log !! j = Some s → (length log ≤ j + 6)%nat →
    _snapshots st !! Z.to_nat ((first + Z.of_nat j) mod 6) = Some s;
  w_unused i : (i < 6)%nat → (∀ j, (j < length log)%nat → (first + Z.of_nat j) mod 6 ≠ Z.of_nat i) →
    _snapshots st !! i = Some zero_snapshot;
  w_bound : first + Z.of_nat (length log) ≤ 2 ^ 32 }.

Lemma windowed_new first st : 1 ≤ first < 2 ^ 32 → _epoch st = 0 → _snapshots st = replicate 6 zero_snapshot →
  windowed st first [].
Proof using Type.
  intros Hf He Hs. split; try done; [lia|by rewrite Hs|..].
  - intros i Hi _. rewrite Hs. by apply lookup_replicate_2.
  - simpl. lia.
Qed.

Lemma epoch_of_end e : 1 ≤ e < 2 ^ 32 → _getEpochFromHeight L (e * L) = Done e.
Proof using HL.
  intros He. unfold _getEpochFromHeight. destruct (Z.leb_spec (e * L) L).
  { f_equal. nia. }
  unfold modulo, divide. rewrite (proj2 (Z.eqb_neq L 0)) by lia. cbn [sbind].
  rewrite Z.mod_mul, Z.div_mul by lia. cbn [Z.eqb]. by rewrite cast_word by (unfold word; lia).
Qed.

Lemma slot_get (buffer : list Snapshot) e s : e ≠ 0 → buffer !! Z.to_nat (e mod 6) = Some s →
  buffer_get buffer e = Done s.
Proof using Type.
  intros He Hs. unfold buffer_get, indexFor. rewrite (proj2 (Z.eqb_neq e 0)) by done. cbn [revert_if sbind].
  assert (0 ≤ e mod 6 < 6) by (apply Z.mod_pos_bound; lia).
  rewrite <-(Z2Nat.id (e mod 6)) by lia. by apply array_get_nat.
Qed.

Lemma slot_set (buffer : list Snapshot) e s : e ≠ 0 → length buffer = 6%nat →
  unsafeSet buffer s e = Done (<[Z.to_nat (e mod 6) := s]> buffer).
Proof using Type.
  intros He Hl. unfold unsafeSet, indexFor. rewrite (proj2 (Z.eqb_neq e 0)) by done. cbn [revert_if sbind].
  assert (0 ≤ e mod 6 < 6) by (apply Z.mod_pos_bound; lia).
  rewrite <-(Z2Nat.id (e mod 6)) at 1 by lia. apply array_set_nat. rewrite Hl. lia.
Qed.

(** What a slot holds: the last snapshot of its residue, or nothing yet. *)
Lemma slot_cases st first log e : windowed st first log →
  (∃ j s, log !! j = Some s ∧ (length log ≤ j + 6)%nat ∧ (first + Z.of_nat j) mod 6 = e mod 6 ∧
     _snapshots st !! Z.to_nat (e mod 6) = Some s) ∨
  ((∀ j, (j < length log)%nat → (first + Z.of_nat j) mod 6 ≠ e mod 6) ∧
     _snapshots st !! Z.to_nat (e mod 6) = Some zero_snapshot).
Proof using Type.
  intros Hw. assert (0 ≤ e mod 6 < 6) as He by (apply Z.mod_pos_bound; lia).
  (* the position, among the last six, of the same residue *)
  set (len := Z.of_nat (length log)).
  set (j := len - 1 - (first + len - 1 - e) mod 6).
  assert (0 ≤ (first + len - 1 - e) mod 6 < 6) as Hd by (apply Z.mod_pos_bound; lia).
  assert ((first + j) mod 6 = e mod 6) as Hj.
  { unfold j. pose proof (Z.div_mod (first + len - 1 - e) 6 ltac:(lia)) as Hdm.
    replace (first + (len - 1 - (first + len - 1 - e) mod 6)) with (e + (first + len - 1 - e) / 6 * 6) by lia.
    by apply Z.mod_add. }
  destruct (decide (0 ≤ j)) as [Hj0|Hj0].
  - left. destruct (lookup_lt_is_Some_2 log (Z.to_nat j)) as [s Hs]; [unfold j, len in *; lia|].
    exists (Z.to_nat j), s. rewrite Z2Nat.id by done. split_and!; [done|unfold j, len in *; lia|done|].
    pose proof (w_recent _ _ _ Hw _ _ Hs) as Hr. rewrite Z2Nat.id, Hj in Hr by done. apply Hr. unfold j, len in *. lia.
  - right. assert (∀ i, (i < length log)%nat → (first + Z.of_nat i) mod 6 ≠ e mod 6) as Hno.
    { intros i Hi Hmod. assert (((first + Z.of_nat i) - (first + j)) mod 6 = 0) as Hz
        by (rewrite Zminus_mod, Hmod, Hj, Z.sub_diag; done).
      apply Z.mod_divide in Hz as [q Hq]; [|lia]. unfold j, len in *. lia. }
    split; [done|]. apply (w_unused _ _ _ Hw); [lia|]. intros i Hi. rewrite Z2Nat.id by lia. by apply Hno.
Qed.

(** The snapshot of the next epoch always has its place. *)
Lemma set_next st first log s : windowed st first log → first + Z.of_nat (length log) < 2 ^ 32 →
  height s = (first + Z.of_nat (length log)) * L →
  ∃ st', _setSnapshot L st s = Done (st', first + Z.of_nat (length log)) ∧ windowed st' first (log ++ [s]) ∧
    _epoch st' = first + Z.of_nat (length log).
Proof using HL.
  intros Hw Hb Hs. set (e := first + Z.of_nat (length log)) in *.
  assert (1 ≤ e) as He by (pose proof (w_first _ _ _ Hw); lia).
  unfold _setSnapshot, buffer_set. rewrite Hs, epoch_of_end by lia. cbn [sbind].
  assert (∃ old, buffer_get (_snapshots st) e = Done old ∧ height old < e * L) as (old & -> & Hold).
  { destruct (slot_cases st first log e Hw) as [(j & old & Hj & _ & _ & Hslot)|[_ Hslot]].
    - exists old. split; [by apply slot_get; [lia|]|]. rewrite (w_heights _ _ _ Hw _ _ Hj).
      apply lookup_lt_Some in Hj. unfold e. nia.
    - exists zero_snapshot. split; [by apply slot_get; [lia|]|]. change (height zero_snapshot) with 0. nia. }
  cbn [sbind]. rewrite (proj2 (Z.leb_gt _ _)) by lia. cbn [revert_if sbind].
  rewrite slot_set by (try lia; apply (w_size _ _ _ Hw)). cbn [sbind fst snd].
  eexists. split; [done|]. split; [|done].
  assert (0 ≤ e mod 6 < 6) as Hm by (apply Z.mod_pos_bound; lia).
  split; simpl.
  - apply (w_first _ _ _ Hw).
  - rewrite decide_False by (by destruct log). rewrite length_app. simpl. unfold e. lia.
  - by rewrite length_insert, (w_size _ _ _ Hw).
  - intros j x Hx. apply lookup_app_Some in Hx as [Hx|[Hj Hx]]; [by apply (w_heights _ _ _ Hw)|].
    apply list_lookup_singleton_Some in Hx as [Hx <-]. rewrite Hs. unfold e. do 2 f_equal. lia.
  - rewrite length_app. simpl. intros j x Hx Hj. apply lookup_app_Some in Hx as [Hx|[Hlen Hx]].
    + rewrite list_lookup_insert_ne; [apply (w_recent _ _ _ Hw); [done|lia]|].
      intros Heq. apply lookup_lt_Some in Hx. apply (f_equal Z.of_nat) in Heq.
      assert (0 ≤ (first + Z.of_nat j) mod 6 < 6) by (apply Z.mod_pos_bound; lia).
      rewrite !Z2Nat.id in Heq by lia.
      assert ((e - (first + Z.of_nat j)) mod 6 = 0) as Hz by (by rewrite Zminus_mod, Heq, Z.sub_diag).
      apply Z.mod_divide in Hz as [q Hq]; [|lia]. unfold e in Hq. lia.
    + apply list_lookup_singleton_Some in Hx as [Hx <-].
      replace (first + Z.of_nat j) with e by (unfold e; lia).
      apply list_lookup_insert_eq. rewrite (w_size _ _ _ Hw). lia.
  - rewrite length_app. simpl. intros i Hi Hno. rewrite list_lookup_insert_ne.
    + apply (w_unused _ _ _ Hw); [done|]. intros j Hj. apply Hno. lia.
    + intros Heq. apply (Hno (length log)); [lia|]. fold e. lia.
  - rewrite length_app. simpl. unfold e in Hb. lia.
Qed.

(** Setting the register again, as the callers do, changes nothing. *)
Lemma with_buffer_id st e : _epoch st = e → with_buffer st (_snapshots st) e = st.
Proof using Type. destruct st. by intros <-. Qed.

(** Reading: the epochs of the last six snapshots, and no other. *)
Lemma read_recent st first log j s : windowed st first log → log !! j = Some s → (length log ≤ j + 6)%nat →
  _getSnapshot L st (first + Z.of_nat j) = Done s.
Proof using HL.
  intros Hw Hs Hj. pose proof (w_first _ _ _ Hw). pose proof (w_bound _ _ _ Hw). apply lookup_lt_Some in Hs as Hlt.
  unfold _getSnapshot. rewrite (proj2 (Z.eqb_neq _ 0)) by lia.
  rewrite (slot_get _ _ s); [|lia|by apply (w_recent _ _ _ Hw)]. cbn [sbind].
  rewrite (w_heights _ _ _ Hw _ _ Hs), epoch_of_end by lia. cbn [sbind]. by rewrite Z.eqb_refl.
Qed.

Lemma read_other st first log e : windowed st first log → 2 ≤ e →
  (∀ j, (j < length log)%nat → (length log ≤ j + 6)%nat → first + Z.of_nat j ≠ e) →
  _getSnapshot L st e = Reverts (Revert "SnapshotsNotInBuffer" [e]).
Proof using HL.
  intros Hw He Hno. pose proof (w_first _ _ _ Hw). pose proof (w_bound _ _ _ Hw).
  unfold _getSnapshot. rewrite (proj2 (Z.eqb_neq e 0)) by lia.
  destruct (slot_cases st first log e Hw) as [(j & s & Hs & Hj & _ & Hslot)|[_ Hslot]].
  - rewrite (slot_get _ e s ltac:(lia) Hslot). cbn [sbind]. apply lookup_lt_Some in Hs as Hlt.
    rewrite (w_heights _ _ _ Hw _ _ Hs), epoch_of_end by lia. cbn [sbind].
    rewrite (proj2 (Z.eqb_neq _ _)) by (by apply Hno). done.
  - rewrite (slot_get _ e zero_snapshot ltac:(lia) Hslot). cbn [sbind]. unfold _getEpochFromHeight.
    change (height zero_snapshot) with 0. rewrite (proj2 (Z.leb_le 0 L)) by lia. cbn [sbind].
    by rewrite (proj2 (Z.eqb_neq 1 e)) by lia.
Qed.

(** Epoch 1, when it is not among the last six: its slot may still be empty,
    and then reads as a snapshot of epoch 1. *)
Lemma read_first st first log : windowed st first log →
  (∀ j, (j < length log)%nat → (length log ≤ j + 6)%nat → first + Z.of_nat j ≠ 1) →
  ((∀ j, (j < length log)%nat → (first + Z.of_nat j) mod 6 ≠ 1) → _getSnapshot L st 1 = Done zero_snapshot) ∧
  (∀ j, (j < length log)%nat → (first + Z.of_nat j) mod 6 = 1 →
     _getSnapshot L st 1 = Reverts (Revert "SnapshotsNotInBuffer" [1])).
Proof using HL.
  intros Hw Hno. pose proof (w_first _ _ _ Hw). pose proof (w_bound _ _ _ Hw). unfold _getSnapshot. cbn [Z.eqb].
  destruct (slot_cases st first log 1 Hw) as [(j & s & Hs & Hj & Hm & Hslot)|[Hm Hslot]];
    rewrite (slot_get _ 1 _ ltac:(lia) Hslot); cbn [sbind].
  - apply lookup_lt_Some in Hs as Hlt. change (1 mod 6) with 1 in Hm. split; [by intros Ha%(λ F, F j Hlt)|].
    intros _ _ _. rewrite (w_heights _ _ _ Hw _ _ Hs), epoch_of_end by lia. cbn [sbind].
    rewrite (proj2 (Z.eqb_neq _ _)) by (by apply Hno). done.
  - split; [|intros j Hj Hm'; by destruct (Hm j Hj)]. intros _. unfold _getEpochFromHeight.
    change (height zero_snapshot) with 0. by rewrite (proj2 (Z.leb_le 0 L)) by lia.
Qed.
End Window.
