(* ===== verification/Epochs.v ===== *)
(** * Snapshots and dynamic values together

    The two contracts as one system: transactions reach either of them, a
    snapshot moves the dynamic values on, and scheduling asks the Snapshots
    contract for the epoch.  The theorems speak of what can be observed: the
    events of a history and what is read after it. *)

From S2P Require Import Prelude Solidity LinkedList Parsers Dynamics Snapshots.
From stdpp Require Import options.
Local Open Scope Z_scope.

Record System := { sys_sn : Snapshots; sys_dy : Dynamics }.

Definition new_system : System := {| sys_sn := new_snapshots; sys_dy := new_dynamics |}.

Inductive sys_call :=
  | TakeSnapshot (groupSignature_ bClaims_ : list Z)
  | MigrateSnapshots (groupSignature_ bClaims_ : list (list Z))
  | SnInitialize (desperationDelay_ desperationFactor_ : Z)
  | SetDesperationDelay (desperationDelay_ : Z)
  | SetDesperationFactor (desperationFactor_ : Z)
  | SetMinimumInterval (interval : Z)
  | OnDynamics (c : dyn_call).

(** The snapshots of a history, with their epochs. *)
Definition taken (es : list sn_event) : list (Z * BClaims) :=
  omap (λ e, match e with SnapshotTaken epoch _ _ _ _ _ claims => Some (epoch, claims) | _ => None end) es.

(** The changes of the dynamic values a history announced. *)
Definition changes (es : list sn_event) : list (Z * list Z) :=
  es ≫= λ e, match e with DynamicsEvents ds => announced ds | _ => [] end.

(** The newest announced change whose epoch is not after the given one. *)
Definition newest (epoch : Z) (cs : list (Z * list Z)) : option (list Z) :=
  snd <$> last (filter (λ c, c.1 ≤ epoch) cs).

Lemma filter_prefix {A} (P : A → Prop) `{∀ x, Decision (P x)} (l : list A) : ∀ n,
  (∀ i x, l !! i = Some x → (i < n)%nat → P x) → (∀ i x, l !! i = Some x → (n ≤ i)%nat → ¬ P x) →
  filter P l = take n l.
Proof.
  induction l as [|x l IH]; intros n Hyes Hno; [by destruct n|]. rewrite filter_cons.
  destruct n as [|n].
  - rewrite decide_False by (apply (Hno 0%nat); [done|lia]). rewrite (IH 0%nat); [done|lia|].
    intros i y Hi _. apply (Hno (S i)); [done|lia].
  - rewrite decide_True by (apply (Hyes 0%nat); [done|lia]). simpl. f_equal. apply IH.
    + intros i y Hi Hlt. apply (Hyes (S i)); [done|lia].
    + intros i y Hi Hle. apply (Hno (S i)); [done|lia].
Qed.

Section Epochs.
Context (_chainId L factory snapshots : Z).
Context (keccak : list Z → Z) (verifySignature : Z → list Z → list Z → bool).
Context (create_address : Z → Z) (accepts_code : list Z → bool).
Local Notation snapshot := (take_snapshot _chainId L keccak verifySignature).
Local Notation migrate := (migrateSnapshots L factory keccak verifySignature).

Definition on_snapshots (sys : System) (r : sol Snapshots) : sol (System * list sn_event) :=
  sn <! r ;; Done ({| sys_sn := sn; sys_dy := sys_dy sys |}, []).

Definition sys_exec (o : Outside) (c : sys_call) (sys : System) : sol (System * list sn_event) :=
  match c with
  | TakeSnapshot sig claims =>
      r <! snapshot o (sys_sn sys) sig claims ;;
      d <! updateHead snapshots snapshots (sys_dy sys) r.1.1.2 ;;
      Done ({| sys_sn := r.1.1.1; sys_dy := d.1 |}, r.1.2 ++ [DynamicsEvents d.2])
  | MigrateSnapshots sigs claims =>
      r <! migrate o (sys_sn sys) sigs claims ;;
      Done ({| sys_sn := r.1; sys_dy := sys_dy sys |}, r.2)
  | SnInitialize d f => on_snapshots sys (sn_initialize L factory o (sys_sn sys) d f)
  | SetDesperationDelay d => on_snapshots sys (setSnapshotDesperationDelay factory o (sys_sn sys) d)
  | SetDesperationFactor f => on_snapshots sys (setSnapshotDesperationFactor factory o (sys_sn sys) f)
  | SetMinimumInterval i => on_snapshots sys (setMinimumIntervalBetweenSnapshots factory o (sys_sn sys) i)
  | OnDynamics c =>
      d <! dyn_exec factory snapshots create_address accepts_code (o_sender o) (_epoch (sys_sn sys)) c (sys_dy sys) ;;
      Done ({| sys_sn := sys_sn sys; sys_dy := d.1 |}, [DynamicsEvents d.2])
  end.

(** A reverted transaction leaves nothing. *)
Definition sys_tx (acc : System * list sn_event) (t : Outside * sys_call) : System * list sn_event :=
  match sys_exec t.1 t.2 acc.1 with
  | Done (sys, es) => (sys, acc.2 ++ es)
  | Reverts _ => acc
  end.

Definition history (txs : list (Outside * sys_call)) : System * list sn_event :=
  foldl sys_tx (new_system, []) txs.

(** The block claims of a migration are those of consecutive epochs. *)
Definition consecutive (first : Z) (claims : list (list Z)) : Prop :=
  ∀ i b c, claims !! i = Some b → extractBClaims b = Done c →
    c_height c = (first + Z.of_nat i) * L ∧ c_height c < 2 ^ 32.

Definition careful_migration (c : sys_call) : Prop :=
  match c with
  | MigrateSnapshots _ claims => ∃ first, 1 ≤ first < 2 ^ 32 ∧ consecutive first claims
  | _ => True
  end.

(** ** The snapshots of a history *)

Context (HL : 1 ≤ L).

Definition numbered (first : Z) (log : list Snapshot) : list (Z * BClaims) :=
  imap (λ j s, (first + Z.of_nat j, blockClaims s)) log.

Lemma numbered_snoc first log s :
  numbered first (log ++ [s]) = numbered first log ++ [(first + Z.of_nat (length log), blockClaims s)].
Proof using Type. unfold numbered. rewrite imap_app. simpl. by rewrite Nat.add_0_r. Qed.

Lemma taken_app es1 es2 : taken (es1 ++ es2) = taken es1 ++ taken es2.
Proof using Type. apply omap_app. Qed.

Record recorded (sn : Snapshots) (es : list sn_event) : Prop := {
  rec_log : ∃ first log, windowed L sn first log ∧ taken es = numbered first log;
  rec_empty : taken es = [] → _epoch sn = 0 ∧ _snapshots sn = replicate 6 zero_snapshot }.

(** The log, to be continued at the epoch after the current one. *)
Lemma recorded_next sn es : recorded sn es → 0 ≤ _epoch sn < 2 ^ 32 - 1 →
  ∃ first log, windowed L sn first log ∧ taken es = numbered first log ∧
    _epoch sn + 1 = first + Z.of_nat (length log).
Proof using Type.
  intros [(first & log & Hw & Ht) He] Hb. destruct (decide (log = [])) as [->|Hne].
  - destruct (He Ht) as [Hz Hs]. exists 1, []. split_and!; [by apply windowed_new|by rewrite Ht|]. rewrite Hz. done.
  - exists first, log. split_and!; [done..|]. rewrite (w_epoch _ _ _ _ Hw), decide_False by done. lia.
Qed.

Lemma recorded_snoc sn es first log s e h sender safe key sig : windowed L sn first (log ++ [s]) →
  taken es = numbered first log → e = first + Z.of_nat (length log) → 
  recorded sn (es ++ [SnapshotTaken e h sender safe key sig (blockClaims s)]).
Proof using Type.
  intros Hw Ht ->. split.
  - exists first, (log ++ [s]). split; [done|]. rewrite taken_app, Ht, numbered_snoc. done.
  - rewrite taken_app. simpl. by destruct (taken es).
Qed.

(** A snapshot that was not refused continues the log. *)
Lemma snapshot_recorded o sn sig claims es0 sn' e es b : recorded sn es0 → 0 ≤ _epoch sn →
  snapshot o sn sig claims = Done (sn', e, es, b) →
  recorded sn' (es0 ++ es) ∧ e = _epoch sn + 1 ∧ _epoch sn' = e ∧ e < 2 ^ 32 ∧ changes es = [].
Proof using HL.
  intros Hr H0 Ht. unfold take_snapshot in Ht. sol_inv.
  repeat match goal with H : context [let '(_, _) := ?p in _] |- _ => destruct p end. sol_inv.
  match goal with H : _parseAndValidateBClaims _ _ _ _ = Done ?x |- _ => rename x into bc, H into Hp end.
  match goal with H : _setSnapshot _ _ _ = Done ?x |- _ => rename x into r, H into Hset end.
  unfold word in *.
  assert (c_height bc = (_epoch sn + 1) * L) as Hh.
  { unfold _parseAndValidateBClaims in Hp. sol_inv. rewrite !negb_false_iff, !Z.eqb_eq in *. by subst. }
  destruct (recorded_next sn es0 Hr) as (first & log & Hw & Hlog & He); [lia|].
  destruct (set_next L HL sn first log {| committedAt := o_block o; blockClaims := bc |} Hw) as (sn1 & E1 & Hw1 & He1);
    [lia|unfold height; simpl; rewrite Hh, He; done|].
  rewrite E1 in Hset. injection Hset as <-. cbn [fst snd]. rewrite with_buffer_id by lia.
  split_and!; [|done|lia|lia|by destruct (o_maintenance o)].
  rewrite (assoc_L (++)). apply (recorded_snoc sn1 (es0 ++ if o_maintenance o then [ConsensusPaused] else []) first log
    {| committedAt := o_block o; blockClaims := bc |}); [done| |lia].
  rewrite taken_app, Hlog. destruct (o_maintenance o); by rewrite app_nil_r.
Qed.

(** One round of a migration. *)
Lemma migrate_one_run o sn e0 es0 sc first log sn' e es : windowed L sn first log →
  (∀ c, extractBClaims sc.2 = Done c → c_height c = (first + Z.of_nat (length log)) * L ∧ c_height c < 2 ^ 32) →
  migrate_one L keccak verifySignature o (sn, e0, es0) sc = Done (sn', e, es) →
  ∃ s ev, windowed L sn' first (log ++ [s]) ∧ e = first + Z.of_nat (length log) ∧ _epoch sn' = e ∧
    es = es0 ++ [ev] ∧ taken [ev] = [(e, blockClaims s)] ∧ changes [ev] = [] ∧
    extractBClaims sc.2 = Done (blockClaims s).
Proof using HL.
  intros Hw Hc Hm. unfold migrate_one in Hm. sol_inv.
  match goal with H : extractBClaims _ = Done ?x |- _ => rename x into bc, H into Hx end.
  match goal with H : _setSnapshot _ _ _ = Done ?x |- _ => rename x into r, H into Hset end.
  match goal with H : _getEpochFromHeight _ _ = Done _ |- _ => rename H into He end.
  destruct (Hc _ Hx) as [Hh Hb]. pose proof (w_first _ _ _ _ Hw) as Hf.
  assert (first + Z.of_nat (length log) < 2 ^ 32) as Hlt by nia.
  destruct (set_next L HL sn first log {| committedAt := o_block o; blockClaims := bc |} Hw Hlt Hh)
    as (sn1 & E1 & Hw1 & He1).
  rewrite E1 in Hset. injection Hset as <-.
  rewrite cast_word, Hh, epoch_of_end in He by (unfold word; nia). injection He as <-.
  cbn [fst snd]. by eexists _, _.
Qed.

Lemma numbered_app first log log' :
  numbered first (log ++ log') = numbered first log ++ numbered (first + Z.of_nat (length log)) log'.
Proof using Type.
  unfold numbered. rewrite imap_app. f_equal. apply imap_ext. intros i x _. simpl. f_equal. lia.
Qed.

Lemma migrate_loop o scs : ∀ sn e0 es0 first log sn' e es,
  windowed L sn first log → consecutive (first + Z.of_nat (length log)) scs.*2 →
  sol_foldl (migrate_one L keccak verifySignature o) scs (sn, e0, es0) = Done (sn', e, es) →
  ∃ log', Forall2 (λ sc s, extractBClaims sc.2 = Done (blockClaims s)) scs log' ∧
    windowed L sn' first (log ++ log') ∧
    taken es = taken es0 ++ numbered (first + Z.of_nat (length log)) log' ∧ changes es = changes es0 ∧
    (scs ≠ [] → _epoch sn' = e).
Proof using HL.
  induction scs as [|sc scs IH]; intros sn e0 es0 first log sn' e es Hw Hc Hm; cbn [sol_foldl] in Hm.
  { injection Hm as <- <- <-. exists []. by rewrite !app_nil_r. }
  apply sbind_Done in Hm as ([[sn1 e1] es1] & H1 & Hm).
  assert (∀ c, extractBClaims sc.2 = Done c →
    c_height c = (first + Z.of_nat (length log)) * L ∧ c_height c < 2 ^ 32) as Hc0.
  { intros c Hx. destruct (Hc 0%nat _ c eq_refl Hx) as [-> ?]. split; [f_equal; lia|done]. }
  destruct (migrate_one_run _ _ _ _ _ _ _ _ _ _ Hw Hc0 H1) as (s & ev & Hw1 & He1 & Hep & -> & Ht & Hch & Hx1).
  destruct (IH sn1 e1 (es0 ++ [ev]) first (log ++ [s]) sn' e es Hw1) as (log' & Hl & Hw' & Ht' & Hch' & He').
  { rewrite length_app. intros i b c Hi Hx. destruct (Hc (S i) b c Hi Hx) as [-> ?]. split; [|done].
    f_equal. simpl. lia. }
  { done. }
  exists (s :: log'). split_and!.
  - by constructor.
  - by rewrite <-(assoc_L (++)) in Hw'.
  - rewrite Ht', taken_app, Ht, He1, length_app. cbn [length]. unfold numbered. rewrite imap_cons, <-(assoc_L (++)).
    simpl. rewrite Z.add_0_r. do 2 f_equal. apply imap_ext. intros i x _. simpl. f_equal. lia.
  - rewrite Hch'. unfold changes. rewrite bind_app. rewrite <-(app_nil_r (es0 ≫= _)) at 2. f_equal. exact Hch.
  - intros _. destruct scs as [|sc' scs]; [|by apply He']. simpl in Hm. injection Hm as <- <- <-. done.
Qed.

Lemma migrate_recorded o sn sigs claims sn' es0 es : recorded sn es0 →
  careful_migration (MigrateSnapshots sigs claims) → migrate o sn sigs claims = Done (sn', es) →
  recorded sn' (es0 ++ es) ∧ _epoch sn = 0 ∧ 0 ≤ _epoch sn' < 2 ^ 32 ∧ changes es = [].
Proof using HL.
  intros [(first0 & log0 & Hw0 & Ht0) Hemp] (first & Hf & Hc) Hm. unfold migrateSnapshots in Hm. sol_inv.
  repeat match goal with H : context [let '(_, _) := ?p in _] |- _ => destruct p end. sol_inv.
  match goal with H : sol_foldl _ _ _ = Done _ |- _ => rename H into Hloop end.
  match goal with H : negb (_epoch sn =? 0) = false |- _ => rename H into He end.
  match goal with H : _ || _ = false |- _ => apply orb_false_iff in H as [Hlen Hne] end.
  apply negb_false_iff, Z.eqb_eq in He. apply negb_false_iff, Nat.eqb_eq in Hlen. apply Nat.eqb_neq in Hne.
  assert (log0 = []) as ->.
  { rewrite (w_epoch _ _ _ _ Hw0) in He. pose proof (w_first _ _ _ _ Hw0).
    destruct (decide (log0 = [])); [done|]. destruct log0; [done|]. simpl in He. lia. }
  assert (taken es0 = []) as Ht1 by (by rewrite Ht0). destruct (Hemp Ht1) as [_ Hs].
  assert ((zip sigs claims).*2 = claims) as Hz by (apply snd_zip; lia).
  destruct (migrate_loop o (zip sigs claims) sn 0 [] first [] _ _ _ (windowed_new L first sn ltac:(lia) He Hs)
    ltac:(rewrite Z.add_0_r, Hz; exact Hc) Hloop) as (log' & Hl%Forall2_length & Hw' & Ht & Hch & Hep).
  assert (zip sigs claims ≠ []) as Hnz.
  { intros E. apply (f_equal length) in E. rewrite length_zip_with in E. simpl in E. lia. }
  specialize (Hep Hnz). simpl in Ht, Hw', Hch. rewrite Z.add_0_r in Ht.
  assert (log' ≠ []) as Hln by (intros ->; by destruct (zip sigs claims)).
  pose proof (w_epoch _ _ _ _ Hw') as Hw'e. rewrite decide_False in Hw'e by done.
  pose proof (w_bound _ _ _ _ Hw') as Hwb.
  assert (0 < Z.of_nat (length log')) as Hlp by (destruct log'; [done|simpl; lia]).
  rewrite cast_word by (unfold word; lia). rewrite with_buffer_id by done.
  split_and!; [|done|lia|lia|done]. split.
  - exists first, log'. split; [done|]. by rewrite taken_app, Ht1, Ht.
  - rewrite taken_app, Ht. intros E. apply (f_equal length) in E. rewrite length_app in E. unfold numbered in E.
    rewrite length_imap in E. simpl in E. lia.
Qed.

Lemma recorded_ext sn sn' es es' : _epoch sn' = _epoch sn → _snapshots sn' = _snapshots sn → taken es' = [] →
  recorded sn es → recorded sn' (es ++ es').
Proof using Type.
  intros He Hs Ht [(first & log & [W1 W2 W3 W4 W5 W6 W7] & Hl) Hemp]. split.
  - exists first, log. split; [|by rewrite taken_app, Ht, app_nil_r]. split; rewrite ?He, ?Hs; done.
  - rewrite taken_app, Ht, app_nil_r, He, Hs. done.
Qed.

(** The storage of Snapshots after one transaction. *)
Lemma exec_recorded o c sys es sys' es' : recorded (sys_sn sys) es → 0 ≤ _epoch (sys_sn sys) < 2 ^ 32 →
  careful_migration c → sys_exec o c sys = Done (sys', es') →
  recorded (sys_sn sys') (es ++ es') ∧ 0 ≤ _epoch (sys_sn sys') < 2 ^ 32.
Proof using HL.
  intros Hr H0 Hc Hx. destruct c as [sig claims|sigs claims|d f|d|f|i|dc]; cbn [sys_exec] in Hx;
    unfold on_snapshots, sn_initialize, setSnapshotDesperationDelay, setSnapshotDesperationFactor,
      setMinimumIntervalBetweenSnapshots in Hx; sol_inv;
    try (split; [by apply (recorded_ext (sys_sn sys))|done]).
  - match goal with H : take_snapshot _ _ _ _ _ _ _ _ = Done ?r |- _ => destruct r as [[[sn e] es1] b]; rename H into Ht end.
    cbn [fst snd sys_sn] in *. destruct (snapshot_recorded _ _ _ _ _ _ _ _ _ Hr (proj1 H0) Ht) as (Hr' & He & He' & Hlt & _).
    split; [|lia]. rewrite (assoc_L (++)). by apply (recorded_ext sn).
  - match goal with H : migrateSnapshots _ _ _ _ _ _ _ _ = Done ?r |- _ => destruct r as [sn es1]; rename H into Ht end.
    cbn [fst snd sys_sn] in *. destruct (migrate_recorded _ _ _ _ _ _ _ Hr Hc Ht) as (Hr' & _ & He & _). done.
Qed.

Lemma history_snoc txs t : history (txs ++ [t]) = sys_tx (history txs) t.
Proof using Type. unfold history. by rewrite foldl_app. Qed.

Lemma history_recorded txs : Forall (λ t, careful_migration t.2) txs →
  recorded (sys_sn (history txs).1) (history txs).2 ∧ 0 ≤ _epoch (sys_sn (history txs).1) < 2 ^ 32.
Proof using HL.
  induction txs as [|t txs IH] using rev_ind; intros Hc.
  { split; [|done]. split; [|done]. exists 1, []. split; [|done]. by apply windowed_new. }
  rewrite history_snoc. apply Forall_app in Hc as [Hc [Ht _]%Forall_cons]. destruct (IH Hc) as [Hr H0].
  unfold sys_tx. destruct (sys_exec _ _ _) as [[sys es]|] eqn:E; [|done]. simpl. by eapply exec_recorded.
Qed.

(** The snapshots that can still be read. *)
Definition last_six {A} (log : list A) : list A := drop (length log - 6) log.

Lemma numbered_lookup first log j : numbered first log !! j = (λ s, (first + Z.of_nat j, blockClaims s)) <$> log !! j.
Proof using Type. unfold numbered. by rewrite list_lookup_imap. Qed.

Lemma length_numbered first log : length (numbered first log) = length log.
Proof using Type. apply length_imap. Qed.

(** The epochs that cannot be read: all but 0 and 1 revert; epoch 1 does so
    once a snapshot has been put into its slot. *)
Definition unread (log : list (Z * BClaims)) (e : Z) : sol Snapshot :=
  if bool_decide (e = 0 ∨ e = 1 ∧ Forall (λ x, x.1 mod 6 ≠ 1) log) then Done zero_snapshot
  else Reverts (Revert "SnapshotsNotInBuffer" [e]).

Lemma numbered_epochs first log : (numbered first log).*1 = seqZ first (Z.of_nat (length (numbered first log))).
Proof using Type.
  apply list_eq. intros j. rewrite list_lookup_fmap, numbered_lookup, length_numbered.
  destruct (log !! j) eqn:E; simpl.
  - symmetry. apply lookup_seqZ. apply lookup_lt_Some in E. lia.
  - apply lookup_ge_None in E. symmetry. apply lookup_seqZ_ge. lia.
Qed.

(** The position of an epoch in the log. *)
Lemma not_last_six first log e : e ∉ (last_six (numbered first log)).*1 →
  ∀ j, (j < length log)%nat → (length log ≤ j + 6)%nat → first + Z.of_nat j ≠ e.
Proof using Type.
  intros Hno j Hj Hj6 <-. apply Hno. destruct (lookup_lt_is_Some_2 log j Hj) as [s Hs].
  apply list_elem_of_fmap. exists (first + Z.of_nat j, blockClaims s). split; [done|].
  apply list_elem_of_lookup. exists (j - (length log - 6))%nat. unfold last_six.
  rewrite lookup_drop, numbered_lookup, length_numbered.
  replace (length log - 6 + (j - (length log - 6)))%nat with j by lia. by rewrite Hs.
Qed.

Lemma numbered_residue first log :
  Forall (λ x, x.1 mod 6 ≠ 1) (numbered first log) ↔ ∀ j, (j < length log)%nat → (first + Z.of_nat j) mod 6 ≠ 1.
Proof using Type.
  rewrite Forall_lookup. split.
  - intros Hall j Hj. destruct (lookup_lt_is_Some_2 log j Hj) as [s Hs].
    apply (Hall j (first + Z.of_nat j, blockClaims s)). by rewrite numbered_lookup, Hs.
  - intros Hall j x Hx. rewrite numbered_lookup in Hx. apply fmap_Some in Hx as (s & Hs & ->).
    apply Hall. by apply lookup_lt_Some in Hs.
Qed.

Lemma unread_reads sn first log e : windowed L sn first log → 0 ≤ e →
  e ∉ (last_six (numbered first log)).*1 → _getSnapshot L sn e = unread (numbered first log) e.
Proof using HL.
  intros Hw He Hno. pose proof (not_last_six _ _ _ Hno) as Hj. unfold unread.
  destruct (decide (e = 0)) as [->|H0]; [by rewrite bool_decide_true by (by left)|].
  destruct (decide (e = 1)) as [->|H1].
  - destruct (read_first L HL sn first log Hw Hj) as [Hz Hr].
    destruct (decide (Forall (λ x, x.1 mod 6 ≠ 1) (numbered first log))) as [Hall|Hall].
    + rewrite bool_decide_true by auto. by apply Hz, numbered_residue.
    + rewrite bool_decide_false by (intros [|[_ ?]]; done).
      rewrite numbered_residue in Hall.
      destruct (decide (Exists (λ j, (first + Z.of_nat j) mod 6 = 1) (seq 0 (length log)))) as [Hx|Hx].
      * apply Exists_exists in Hx as (j & Hin%elem_of_seq & Hm). apply (Hr j); [lia|done].
      * destruct Hall. intros j Hlt Hm. apply Hx, Exists_exists. exists j. split; [apply elem_of_seq; lia|done].
  - rewrite bool_decide_false by (intros [|[? _]]; done). apply (read_other L HL sn first log); [done|lia|done].
Qed.

(** C14: snapshots and the ring buffer, over every history in which the block
    claims of each migration are those of consecutive epochs.  The snapshots
    the history announced are those of consecutive epochs and the register
    holds the last of them.  [getSnapshot] returns the announced claims, of
    the height at the end of the epoch, for exactly the last six.  It reverts
    for every other epoch from two on; epoch 0, and epoch 1 while nothing is
    in its slot, read as an empty snapshot instead. *)
Theorem snapshot_window txs : Forall (λ t, careful_migration t.2) txs →
  let sn := sys_sn (history txs).1 in
  let log := taken (history txs).2 in
  _epoch sn = default 0 (fst <$> last log) ∧
  (∃ first, 1 ≤ first ∧ log.*1 = seqZ first (Z.of_nat (length log))) ∧
  (∀ e c, (e, c) ∈ last_six log → c_height c = e * L ∧
     ∃ s, getSnapshot L sn e = Done s ∧ blockClaims s = c) ∧
  (∀ e, 0 ≤ e < 2 ^ 32 → e ∉ (last_six log).*1 → getSnapshot L sn e = unread log e).
Proof using HL.
  intros Hc. destruct (history_recorded txs Hc) as [[(first & log & Hw & Ht) _] H0]. cbv zeta. rewrite Ht.
  set (sn := sys_sn _) in *. pose proof (w_first _ _ _ _ Hw) as Hf. pose proof (w_bound _ _ _ _ Hw) as Hb.
  split_and!.
  - rewrite (w_epoch _ _ _ _ Hw). destruct log as [|s log _] using rev_ind; [done|].
    rewrite decide_False by (by destruct log). rewrite numbered_snoc, last_snoc, length_app. simpl. lia.
  - exists first. split; [done|]. by apply numbered_epochs.
  - intros e c (i & Hi)%list_elem_of_lookup. unfold last_six in Hi. rewrite lookup_drop, numbered_lookup, length_numbered in Hi.
    set (j := (length log - 6 + i)%nat) in *. destruct (log !! j) as [s|] eqn:Hs; [|done]. injection Hi as <- <-.
    split; [by apply (w_heights _ _ _ _ Hw)|]. exists s. split; [|done]. unfold getSnapshot.
    apply lookup_lt_Some in Hs as Hlt. rewrite cast_word by (unfold word; lia).
    apply (read_recent L HL sn first log); [done..|unfold j; lia].
  - intros e He Hno. unfold getSnapshot. rewrite cast_word by (unfold word; lia).
    apply (unread_reads _ first); [exact Hw|lia|exact Hno].
Qed.

(** ** The values in force *)

Context (create_inj : ∀ m n, 1 ≤ m → 1 ≤ n → create_address m = create_address n → m = n).
Context (create_nonzero : ∀ n, create_address n ≠ 0).
Context (accepts_values : ∀ v, valid_values v → encoderVersion v = 0 → accepts_code (_encodeDynamicValues v) = true).

(** Up to the current entry the epochs have come, after it they have not. *)
Record in_force (E : Z) (s : spec) : Prop := {
  if_current : (s_current s < length (s_schedule s))%nat;
  if_sorted i j a b : s_schedule s !! i = Some a → s_schedule s !! j = Some b → (i < j)%nat → a.1 < b.1;
  if_past i a : s_schedule s !! i = Some a → (i ≤ s_current s)%nat → a.1 ≤ Z.max 1 E;
  if_future i a : s_schedule s !! i = Some a → (s_current s < i)%nat → Z.max 1 E < a.1;
  if_positive i a : s_schedule s !! i = Some a → 1 ≤ a.1;
  if_config : 1 ≤ minEpochsBetweenUpdates (s_config s);
  if_initialized : s_initialized s = true }.

(** Every entry is at most the last one. *)
Lemma entry_le_last E s i a : in_force E s → s_schedule s !! i = Some a → a.1 ≤ last_epoch s.
Proof using Type.
  intros Hf Ha. unfold last_epoch. rewrite last_lookup. pose proof (lookup_lt_Some _ _ _ Ha) as Hlt.
  destruct (lookup_lt_is_Some_2 (s_schedule s) (pred (length (s_schedule s)))) as [b Hb]; [lia|]. rewrite Hb. simpl.
  destruct (decide (i = pred (length (s_schedule s)))) as [->|Hne].
  - rewrite Ha in Hb. by injection Hb as ->.
  - pose proof (if_sorted _ _ Hf _ _ _ _ Ha Hb ltac:(lia)). lia.
Qed.

(** Scheduling for a later epoch. *)
Lemma in_force_snoc E s s' e v : in_force E s → last_epoch s < e → Z.max 1 E < e →
  s_schedule s' = s_schedule s ++ [(e, v)] → s_current s' = s_current s → s_config s' = s_config s →
  s_initialized s' = s_initialized s → in_force E s'.
Proof using Type.
  intros Hf Hl He Hs Hc Hcf Hin. split; rewrite ?Hs, ?Hc, ?Hcf, ?Hin.
  - rewrite length_app. pose proof (if_current _ _ Hf). lia.
  - intros i j a b Ha Hb Hij. apply lookup_app_Some in Hb as [Hb|[Hj Hb]].
    + rewrite lookup_app_l in Ha by (apply lookup_lt_Some in Hb; lia). by apply (if_sorted _ _ Hf i j).
    + apply list_lookup_singleton_Some in Hb as [? <-]. rewrite lookup_app_l in Ha by lia.
      pose proof (entry_le_last _ _ _ _ Hf Ha). simpl. lia.
  - intros i a Ha Hi. pose proof (if_current _ _ Hf). rewrite lookup_app_l in Ha by lia. by apply (if_past _ _ Hf i).
  - intros i a Ha Hi. apply lookup_app_Some in Ha as [Ha|[_ Ha]]; [by apply (if_future _ _ Hf i)|].
    by apply list_lookup_singleton_Some in Ha as [_ <-].
  - intros i a Ha. apply lookup_app_Some in Ha as [Ha|[_ Ha]]; [by apply (if_positive _ _ Hf i)|].
    apply list_lookup_singleton_Some in Ha as [_ <-]. simpl. lia.
  - apply (if_config _ _ Hf).
  - apply (if_initialized _ _ Hf).
Qed.

(** The next epoch. *)
Lemma in_force_advance E s : 0 ≤ E → in_force E s → in_force (E + 1) (advance s (E + 1)).
Proof using Type.
  intros H0 Hf. pose proof (if_current _ _ Hf) as Hc. unfold advance.
  destruct (s_schedule s !! S (s_current s)) as [[e v]|] eqn:En.
  - pose proof (if_future _ _ Hf _ _ En ltac:(lia)) as He. simpl in He.
    destruct (decide (e ≤ E + 1)) as [Hle|Hgt]; split; simpl;
      try apply (if_sorted _ _ Hf); try apply (if_positive _ _ Hf); try apply (if_config _ _ Hf);
      try apply (if_initialized _ _ Hf).
    + by eapply lookup_lt_Some.
    + intros i a Ha Hi. destruct (decide (i = S (s_current s))) as [->|]; [rewrite En in Ha; injection Ha as <-; simpl; lia|].
      pose proof (if_past _ _ Hf _ _ Ha ltac:(lia)). lia.
    + intros i a Ha Hi. pose proof (if_sorted _ _ Hf _ _ _ _ En Ha Hi) as Hs. simpl in Hs. lia.
    + done.
    + intros i a Ha Hi. pose proof (if_past _ _ Hf _ _ Ha Hi). lia.
    + intros i a Ha Hi. destruct (decide (i = S (s_current s))) as [->|]; [rewrite En in Ha; injection Ha as <-; simpl; lia|].
      pose proof (if_sorted _ _ Hf _ _ _ _ En Ha ltac:(lia)) as Hs. simpl in Hs. lia.
  - apply lookup_ge_None in En. split; try apply (if_sorted _ _ Hf); try apply (if_positive _ _ Hf);
      try apply (if_config _ _ Hf); try apply (if_initialized _ _ Hf); [done|..].
    + intros i a Ha Hi. pose proof (if_past _ _ Hf _ _ Ha Hi). lia.
    + intros i a Ha Hi. apply lookup_lt_Some in Ha. lia.
Qed.

(** The transactions that keep the values in time: whoever calls, the Snapshots
    contract itself sends none, changes take effect in a later epoch, and no
    migration moves the epoch on. *)
Definition careful (t : Outside * sys_call) : Prop :=
  match t.2 with
  | OnDynamics c =>
      valid_call c ∧
      match c with
      | UpdateHead _ => o_sender t.1 ≠ snapshots
      | SetConfiguration cf => 1 ≤ minEpochsBetweenUpdates cf
      | _ => True
      end
  | MigrateSnapshots _ _ => False
  | _ => True
  end.

(** The state with the changes announced so far. *)
Definition on_time (sys : System) (es : list sn_event) (s : spec) : Prop :=
  implements create_address (sys_dy sys) s ∧ changes es = encoded <$> s_schedule s ∧
  in_force (_epoch (sys_sn sys)) s.

Lemma changes_app es1 es2 : changes (es1 ++ es2) = changes es1 ++ changes es2.
Proof using Type. apply bind_app. Qed.

Lemma changes_dynamics ds : changes [DynamicsEvents ds] = announced ds.
Proof using Type. unfold changes. simpl. by rewrite app_nil_r. Qed.

(** A call of the dynamic values, in time. *)
Lemma call_on_time E sender c s s' : 0 ≤ E → in_force E s →
  (∀ cf, c = SetConfiguration cf → 1 ≤ minEpochsBetweenUpdates cf) → (∀ e, c ≠ UpdateHead e ∨ sender ≠ snapshots) →
  spec_exec factory snapshots accepts_code sender E c s = Some s' →
  in_force E s' ∧ s_schedule s' = s_schedule s ++ scheduled_by E c.
Proof using Type.
  intros H0 Hf Hcf Hu Hx. destruct c as [|r v|e|r ma mi pa hash|cf|data]; cbn [spec_exec] in Hx;
    try (destruct (decide (sender = factory)); [|done]).
  - by rewrite (if_initialized _ _ Hf) in Hx.
  - destruct (decide (may_schedule s E r)) as [[Hr _]|]; [|done].
    apply schedule_inv in Hx as (Hl & Hs & Hc & Hcfg & Hin). split; [|done].
    pose proof (if_config _ _ Hf). apply (in_force_snoc E s s' (r + E) v); try done.
    destruct (lookup_lt_is_Some_2 _ _ (if_current _ _ Hf)) as [a Ha].
    pose proof (entry_le_last _ _ _ _ Hf Ha). pose proof (if_positive _ _ Hf _ _ Ha). lia.
  - destruct (Hu e); [done|]. by rewrite decide_False in Hx.
  - destruct (decide _); [|done]. injection Hx as <-. rewrite app_nil_r. split; [|done].
    destruct Hf. by split.
  - injection Hx as <-. rewrite app_nil_r. split; [|done]. destruct Hf. split; try done. by apply Hcf.
  - destruct (accepts_code data); [|done]. injection Hx as <-. by rewrite app_nil_r.
Qed.

Lemma newest_in_force E s : in_force E s →
  newest (Z.max 1 E) (encoded <$> s_schedule s) =
  (λ sv, _encodeDynamicValues sv.2) <$> s_schedule s !! s_current s.
Proof using Type.
  intros Hf. unfold newest. rewrite (filter_prefix _ _ (S (s_current s))).
  - rewrite last_lookup, length_take_le by (rewrite length_fmap; pose proof (if_current _ _ Hf); lia).
    simpl. rewrite lookup_take_lt by lia. rewrite list_lookup_fmap. by destruct (s_schedule s !! s_current s).
  - intros i x Hx Hi. apply list_lookup_fmap_Some in Hx as (a & -> & Ha). apply (if_past _ _ Hf i a Ha). lia.
  - intros i x Hx Hi. apply list_lookup_fmap_Some in Hx as (a & -> & Ha).
    pose proof (if_future _ _ Hf i a Ha). simpl. lia.
Qed.

(** Before anything but the first values is scheduled, the epoch may jump. *)
Lemma in_force_jump E E' s : 0 ≤ E' → in_force E s → E = 0 → length (s_schedule s) = 1%nat → in_force E' s.
Proof using Type.
  intros H0 [H1 H2 H3 H4 H5 H6 H7] -> Hl. split; try done.
  - intros i a Ha Hi. pose proof (H3 i a Ha Hi). lia.
  - intros i a Ha Hi. apply lookup_lt_Some in Ha. lia.
Qed.

Lemma exec_on_time o c sys es s sys' es' : on_time sys es s → recorded (sys_sn sys) es →
  0 ≤ _epoch (sys_sn sys) < 2 ^ 32 → careful (o, c) → sys_exec o c sys = Done (sys', es') →
  ∃ s', on_time sys' (es ++ es') s'.
Proof using HL create_inj create_nonzero accepts_values.
  intros (Hi & Hch & Hf) Hr H0 Hc Hx. destruct c as [sig claims|sigs claims|d f|d|f|i|dc]; [|done|..];
    cbn [sys_exec] in Hx; unfold on_snapshots, sn_initialize, setSnapshotDesperationDelay,
      setSnapshotDesperationFactor, setMinimumIntervalBetweenSnapshots in Hx; sol_inv;
    try (exists s; unfold on_time; by rewrite app_nil_r).
  - match goal with H : take_snapshot _ _ _ _ _ _ _ _ = Done ?r |- _ => destruct r as [[[sn e] es1] b]; rename H into Ht end.
    match goal with H : updateHead _ _ _ _ = Done ?r |- _ => destruct r as [dy ds]; rename H into Hu end.
    cbn [fst snd sys_sn sys_dy] in *.
    destruct (snapshot_recorded _ _ _ _ _ _ _ _ _ Hr (proj1 H0) Ht) as (_ & -> & He & Hlt & Hcs).
    pose proof (updateHead_refines snapshots create_address (sys_dy sys) s snapshots (_epoch (sys_sn sys) + 1) Hi
      ltac:(unfold word; lia)) as Hh.
    rewrite Hu, decide_True in Hh by done. cbn [refines] in Hh. exists (advance s (_epoch (sys_sn sys) + 1)).
    assert (announced ds = []) as Hds.
    { apply (exec_events factory snapshots create_address accepts_code snapshots 0 (UpdateHead (_epoch (sys_sn sys) + 1))
        (sys_dy sys) dy); [done|exact Hu]. }
    split_and!; [done| |simpl; rewrite He; apply in_force_advance; [lia|done]].
    rewrite !changes_app, changes_dynamics, Hcs, Hds, Hch, app_nil_r. f_equal. unfold advance.
    destruct (s_schedule s !! _) as [[e' v]|]; [|done]. by destruct (decide _).
  - match goal with H : dyn_exec _ _ _ _ _ _ _ _ = Done ?r |- _ => destruct r as [dy ds]; rename H into Hd end.
    destruct Hc as [Hv Hc]. cbn [fst snd] in *.
    pose proof (dyn_exec_refines factory snapshots create_address accepts_code create_inj create_nonzero accepts_values
      (sys_dy sys) s (o_sender o) (_epoch (sys_sn sys)) dc Hi Hv H0) as Hrf.
    rewrite Hd in Hrf. destruct (spec_exec _ _ _ _ _ _ _) as [s'|] eqn:Hs; [|done]. cbn [refines] in Hrf.
    destruct (call_on_time (_epoch (sys_sn sys)) (o_sender o) dc s s' (proj1 H0) Hf) as [Hf' Hs'];
      [by intros cf ->|intros e; destruct dc; try (by left); by right|done|].
    exists s'. split_and!; [done| |done].
    rewrite changes_app, changes_dynamics, Hch, Hs', fmap_app. f_equal. by eapply exec_events.
Qed.

(** *** The histories of the theorems: the first values, migrations, then careful transactions *)

Definition migrating (t : Outside * sys_call) : Prop :=
  (∃ sigs claims, t.2 = MigrateSnapshots sigs claims) ∧ careful_migration t.2.

Record steady (h : System * list sn_event) : Prop := {
  steady_values : ∃ s, on_time h.1 h.2 s;
  steady_log : recorded (sys_sn h.1) h.2;
  steady_epoch : 0 ≤ _epoch (sys_sn h.1) < 2 ^ 32 }.

Lemma initial_steady o : o_sender o = factory →
  let h := sys_tx (new_system, []) (o, OnDynamics Initialize) in
  steady h ∧ length (changes h.2) = 1%nat.
Proof using create_inj create_nonzero accepts_values.
  intros Ho h. subst h.
  pose proof (dyn_exec_refines factory snapshots create_address accepts_code create_inj create_nonzero accepts_values
    new_dynamics new_spec (o_sender o) 0 Initialize (implements_new _) I ltac:(done)) as Hr.
  unfold sys_tx. cbn [sys_exec fst snd sys_sn sys_dy new_system]. change (_epoch new_snapshots) with 0.
  cbn [spec_exec s_initialized new_spec] in Hr. rewrite decide_True in Hr by done.
  destruct (dyn_exec _ _ _ _ _ _ _ _) as [[dy ds]|] eqn:Hd; [|done]. cbn [sbind refines fst snd] in *.
  apply exec_events in Hd; [|done]. change (scheduled_by 0 Initialize) with [(1, INITIAL_VALUES)] in Hd.
  split; [split; cbn [fst snd sys_sn sys_dy app]|].
  - eexists. split_and!; [exact Hr|by rewrite changes_dynamics, Hd|]. simpl.
    split; simpl; try done; [lia|..].
    + intros i j a b Ha%list_lookup_singleton_Some Hb%list_lookup_singleton_Some. lia.
    + intros i a [_ <-]%list_lookup_singleton_Some. simpl. lia.
    + intros i a [-> _]%list_lookup_singleton_Some. lia.
    + intros i a [_ <-]%list_lookup_singleton_Some. done.
  - split; [|done]. exists 1, []. split; [|done]. by apply windowed_new.
  - done.
  - cbn [fst snd app]. by rewrite changes_dynamics, Hd.
Qed.

Lemma migrating_steady h t : steady h → length (changes h.2) = 1%nat → migrating t →
  steady (sys_tx h t) ∧ length (changes (sys_tx h t).2) = 1%nat.
Proof using HL.
  intros [(s & Hi & Hch & Hf) Hr He] Hl [(sigs & claims & Ht) Hc]. destruct t as [o c], h as [sys es]. cbn [fst snd] in *.
  subst c. unfold sys_tx. cbn [fst snd].
  destruct (sys_exec o (MigrateSnapshots sigs claims) sys) as [[sys' es']|] eqn:Hx;
    [|split; [split; [by exists s|done..]|done]].
  pose proof Hx as Hx'. cbn [sys_exec] in Hx'. sol_inv.
  match goal with H : migrateSnapshots _ _ _ _ _ _ _ _ = Done ?r |- _ => destruct r as [sn es1]; rename H into Hm end.
  destruct (migrate_recorded _ _ _ _ _ _ _ Hr Hc Hm) as (Hr' & H0 & He' & Hcs). cbn [fst snd sys_sn sys_dy] in *.
  rewrite changes_app, Hcs, app_nil_r. split; [|done]. split; cbn [fst snd sys_sn sys_dy]; [|done..].
  exists s. split_and!; [done|by rewrite changes_app, Hcs, app_nil_r|]. cbn [sys_sn].
  apply (in_force_jump (_epoch (sys_sn sys))); [lia|done|done|]. by rewrite Hch, length_fmap in Hl.
Qed.

Lemma careful_steady h t : steady h → careful t → steady (sys_tx h t).
Proof using HL create_inj create_nonzero accepts_values.
  intros [(s & Hs) Hr He] Hc. destruct t as [o c], h as [sys es]. unfold sys_tx. cbn [fst snd] in *.
  destruct (sys_exec o c sys) as [[sys' es']|] eqn:Hx; [|split; [by exists s|done..]].
  assert (careful_migration c) as Hcm by (destruct c; done).
  destruct (exec_recorded _ _ _ _ _ _ Hr He Hcm Hx) as [Hr' He'].
  split; [by eapply exec_on_time|done..].
Qed.

Definition ordinary (txs : list (Outside * sys_call)) : Prop :=
  ∃ o migrations rest, txs = (o, OnDynamics Initialize) :: migrations ++ rest ∧ o_sender o = factory ∧
    Forall migrating migrations ∧ Forall careful rest.

Lemma ordinary_steady txs : ordinary txs → steady (history txs).
Proof using HL create_inj create_nonzero accepts_values.
  intros (o & ms & rest & -> & Ho & Hms & Hrest). unfold history. cbn [foldl]. rewrite foldl_app.
  destruct (initial_steady o Ho) as [Hs Hl]. revert Hs Hl. generalize (sys_tx (new_system, []) (o, OnDynamics Initialize)).
  intros h Hs Hl. assert (steady (foldl sys_tx h ms)) as Hm.
  { revert h Hs Hl. induction Hms as [|t ms Ht _ IH]; intros h Hs Hl; [done|]. cbn [foldl].
    destruct (migrating_steady h t Hs Hl Ht) as [Hs' Hl']. by apply IH. }
  revert Hm. generalize (foldl sys_tx h ms). clear h Hs Hl. induction Hrest as [|t rest Ht _ IH]; intros h Hs; [done|].
  cbn [foldl]. apply IH. by apply careful_steady.
Qed.

(** C13: the values in force.  In every history that starts with
    [initialize], migrates block claims of consecutive epochs before anything
    else is scheduled and never lets a change take effect in the epoch it is
    made in, the latest values [Dynamics.sol] reads back are the newest ones
    announced for an epoch that has been reached. *)
Theorem head_is_current txs : ordinary txs →
  let h := history txs in
  ∃ v, getLatestDynamicValues (sys_dy h.1) = Done v ∧
    newest (Z.max 1 (_epoch (sys_sn h.1))) (changes h.2) = Some (_encodeDynamicValues v).
Proof using HL create_inj create_nonzero accepts_values.
  intros [(s & Hi & Hch & Hf) _ _]%ordinary_steady. cbv zeta.
  destruct (lookup_lt_is_Some_2 _ _ (if_current _ _ Hf)) as [[e v] Hv]. exists v. split.
  - rewrite (latest_reads _ create_nonzero _ s Hi). unfold spec_latest. by rewrite Hv.
  - rewrite Hch, (newest_in_force _ s Hf), Hv. done.
Qed.

(** C16: no state stops the side chain.  In every history that starts with
    [initialize], migrates block claims of consecutive epochs before anything
    else is scheduled and never lets a change take effect in the epoch it is
    made in, the latest snapshot can be read, and a snapshot of the next epoch
    is accepted as soon as its own checks pass: well-formed claims, the
    interval, an elected validator, a valid signature, and a pause of the
    consensus that does not revert when maintenance is scheduled.  Neither the
    ring buffer nor the update of the dynamic values can refuse it. *)
Theorem snapshot_accepted txs : ordinary txs →
  let sys := (history txs).1 in
  let E := _epoch (sys_sn sys) in
  ∃ latest, _getLatestSnapshot L (sys_sn sys) = Done latest ∧
    ∀ o sig claims bc ks, o_isValidator o (o_sender o) = true → o_consensusRunning o = true → E + 1 < 2 ^ 32 →
      _parseAndValidateBClaims _chainId L (E + 1) claims = Done bc →
      _checkSnapshotMinimumInterval (sys_sn sys) o (committedAt latest) = Done tt →
      _isValidatorElectedToPerformSnapshot (sys_sn sys) o (o_sender o) (committedAt latest) (keccak sig) = Done tt →
      _checkBClaimsSignature keccak verifySignature o sig claims = Done ks →
      (o_maintenance o = true → o_pauses o = true) →
      ∃ sys' es, sys_exec o (TakeSnapshot sig claims) sys = Done (sys', es) ∧ _epoch (sys_sn sys') = E + 1.
Proof using HL create_inj create_nonzero accepts_values.
  intros [(s & Hi & _ & _) Hr He]%ordinary_steady. cbv zeta. destruct (history txs) as [sys es0]. cbn [fst snd] in *.
  assert (∃ latest, _getLatestSnapshot L (sys_sn sys) = Done latest) as [latest Hlatest].
  { destruct Hr as [(first & log & Hw & _) _]. unfold _getLatestSnapshot. rewrite (w_epoch _ _ _ _ Hw).
    destruct log as [|x log _] using rev_ind; [by eexists|]. rewrite decide_False by (by destruct log).
    exists x. rewrite length_app. simpl.
    replace (first + Z.of_nat (length log + 1) - 1) with (first + Z.of_nat (length log)) by lia.
    apply (read_recent L HL _ first (log ++ [x])); [done|by apply list_lookup_middle|rewrite length_app; simpl; lia]. }
  exists latest. split; [done|]. intros o sig claims bc ks Hval Hcon Hb Hp Hint Hel Hsig Hpause.
  cbn [sys_exec]. unfold take_snapshot. rewrite Hval, Hcon. cbn [negb revert_if sbind].
  rewrite checked_ok by (unfold word; lia). cbn [sbind]. rewrite Hp. cbn [sbind]. rewrite Hlatest. cbn [sbind].
  rewrite Hint. cbn [sbind]. rewrite Hel. cbn [sbind]. rewrite Hsig. cbn [sbind]. destruct ks as [key sg].
  assert (o_maintenance o && negb (o_pauses o) = false) as -> by (destruct (o_maintenance o); [by rewrite Hpause|done]).
  cbn [revert_if sbind].
  assert (c_height bc = (_epoch (sys_sn sys) + 1) * L) as Hh.
  { unfold _parseAndValidateBClaims in Hp. sol_inv. rewrite !negb_false_iff, !Z.eqb_eq in *. by subst. }
  destruct (recorded_next (sys_sn sys) es0 Hr) as (first & log & Hw & _ & Hnext); [lia|].
  destruct (set_next L HL _ first log {| committedAt := o_block o; blockClaims := bc |} Hw) as (sn1 & -> & _ & _);
    [lia|unfold height; simpl; rewrite Hh, Hnext; done|].
  cbn [sbind fst snd].
  pose proof (updateHead_refines snapshots create_address (sys_dy sys) s snapshots (_epoch (sys_sn sys) + 1) Hi
    ltac:(unfold word; lia)) as Hu. rewrite decide_True in Hu by done.
  destruct (updateHead snapshots snapshots (sys_dy sys) (_epoch (sys_sn sys) + 1)) as [[dy ds]|]; [|done].
  cbn [sbind fst snd]. by eexists _, _.
Qed.
End Epochs.

(** ** Witnesses: a side chain with epochs of four blocks *)

Definition le4 (n : Z) : list Z := [n mod 256; n / 256 mod 256; n / 2 ^ 16 mod 256; n / 2 ^ 24 mod 256].
Definition claims_ex (height : Z) : list Z :=
  [0; 0; 0; 0; 2; 0; 4; 0] ++ le4 21 ++ le4 height ++ le4 1 ++ replicate 164 0.
Definition sig_ex : list Z := replicate 192 0.
Definition keccak_ex (l : list Z) : Z := Z.of_nat (length l).
Definition outside_ex (sender : Z) : Outside :=
  {| o_sender := sender; o_block := 1000; o_isValidator := λ a, a =? 5; o_consensusRunning := true;
     o_maintenance := false; o_pauses := true; o_participantIndex := λ _, 1; o_validators := 1;
     o_masterKeyHash := keccak_ex (replicate 128 0) |}.
Definition snapshot_ex (e : Z) : Outside * sys_call := (outside_ex 5, TakeSnapshot sig_ex (claims_ex (4 * e))).
Definition change_ex (r n : Z) : Outside * sys_call :=
  (outside_ex 7, OnDynamics (ChangeDynamicValues r (values_ex n))).
Definition initialize_ex : Outside * sys_call := (outside_ex 7, OnDynamics Initialize).
Definition migrate_ex (es : list Z) : Outside * sys_call :=
  (outside_ex 7, MigrateSnapshots ((λ _, sig_ex) <$> es) ((λ e, claims_ex (4 * e)) <$> es)).

Notation history_ex := (history 21 4 7 8 keccak_ex (λ _ _ _, true) create_ex accepts_ex).

(** Epoch 3 migrated, a change for epoch 5, snapshots up to it. *)
Definition txs_system : list (Outside * sys_call) :=
  [initialize_ex; migrate_ex [3]; change_ex 2 50; snapshot_ex 4; snapshot_ex 5].

Lemma migrate_ex_careful : careful_migration 4 (migrate_ex [3]).2.
Proof.
  exists 3. split; [split; [discriminate|reflexivity]|]. intros [|i] b c Hb Hc; [|done].
  injection Hb as <-; vm_compute in Hc; injection Hc as <-; split; reflexivity.
Qed.

Lemma txs_system_ordinary : ordinary 4 7 8 txs_system.
Proof.
  exists (outside_ex 7), [migrate_ex [3]], [change_ex 2 50; snapshot_ex 4; snapshot_ex 5].
  split_and!; [done|done|..].
  - repeat constructor; [by eexists _, _|apply migrate_ex_careful].
  - repeat (constructor; [vm_compute; repeat split; discriminate|]). constructor.
Qed.

Lemma snapshot_window_witness :
  let sn := sys_sn (history_ex txs_system).1 in
  _epoch sn = 5 ∧ (∃ s, getSnapshot 4 sn 4 = Done s ∧ c_height (blockClaims s) = 16) ∧
  getSnapshot 4 sn 2 = Reverts (Revert "SnapshotsNotInBuffer" [2]) ∧ getSnapshot 4 sn 1 = Done zero_snapshot.
Proof.
  assert (Forall (λ t, careful_migration 4 t.2) txs_system) as Hc.
  { repeat constructor. apply migrate_ex_careful. }
  destruct (snapshot_window 21 4 7 8 keccak_ex (λ _ _ _, true) create_ex accepts_ex ltac:(discriminate) txs_system Hc)
    as (H1 & _ & H2 & H3).
  cbv zeta. split; [rewrite H1; vm_compute; reflexivity|]. split.
  - destruct (H2 4 (blockClaims {| committedAt := 0; blockClaims :=
      {| c_chainId := 21; c_height := 16; c_txCount := 1; c_prevBlock := 0; c_txRoot := 0; c_stateRoot := 0;
         c_headerRoot := 0 |} |})) as [_ (s & Hs & Hb)].
    + apply (list_elem_of_lookup_2 _ 1). vm_compute. reflexivity.
    + exists s. split; [exact Hs|]. rewrite Hb. reflexivity.
  - split; (etrans; [apply H3; [split; [discriminate|reflexivity]|]|vm_compute; reflexivity]);
      apply (bool_decide_unpack _); vm_compute; exact I.
Defined.

Lemma create_ex_inj m n : 1 ≤ m → 1 ≤ n → create_ex m = create_ex n → m = n.
Proof. intros Hm Hn. unfold create_ex. rewrite !decide_True by done. lia. Qed.
Lemma create_ex_nonzero n : create_ex n ≠ 0.
Proof. unfold create_ex. destruct (decide (1 ≤ n)); lia. Qed.

Lemma head_is_current_witness :
  ∃ v, getLatestDynamicValues (sys_dy (history_ex txs_system).1) = Done v ∧
    _encodeDynamicValues v = _encodeDynamicValues (values_ex 50).
Proof.
  destruct (head_is_current 21 4 7 8 keccak_ex (λ _ _ _, true) create_ex accepts_ex ltac:(discriminate)
    create_ex_inj create_ex_nonzero accepts_ex_values txs_system txs_system_ordinary) as (v & Hv & Hn).
  exists v. split; [exact Hv|]. cbv zeta in Hn.
  assert (newest (Z.max 1 (_epoch (sys_sn (history_ex txs_system).1))) (changes (history_ex txs_system).2) =
    Some (_encodeDynamicValues (values_ex 50))) as E by (vm_compute; reflexivity).
  rewrite E in Hn. symmetry. exact (inj Some _ _ Hn).
Defined.

Lemma first_ordinary : ordinary 4 7 8 [initialize_ex].
Proof. exists (outside_ex 7), [], []. split_and!; [done|done|constructor|constructor]. Qed.

Lemma snapshot_accepted_witness :
  ∃ sys' es, sys_exec 21 4 7 8 keccak_ex (λ _ _ _, true) create_ex accepts_ex (outside_ex 5)
    (TakeSnapshot sig_ex (claims_ex 4)) (history_ex [initialize_ex]).1 = Done (sys', es) ∧ _epoch (sys_sn sys') = 1.
Proof.
  destruct (snapshot_accepted 21 4 7 8 keccak_ex (λ _ _ _, true) create_ex accepts_ex ltac:(discriminate)
    create_ex_inj create_ex_nonzero accepts_ex_values [initialize_ex] first_ordinary) as (latest & Hl & Hacc).
  assert (sys_sn (history_ex [initialize_ex]).1 = new_snapshots) as E by (vm_compute; reflexivity).
  cbv zeta in Hl, Hacc. rewrite E in Hl, Hacc. injection Hl as <-.
  refine (Hacc (outside_ex 5) sig_ex (claims_ex 4) _ (replicate 4 0, replicate 2 0) _ _ _ _ _ _ _ _);
    try (vm_compute; reflexivity); done.
Defined.

(** A migration after changes were scheduled leaves the values behind: two
    changes are due, and only one of them is in force. *)
Example migration_lags :
  let h := history_ex [initialize_ex; change_ex 2 50; change_ex 3 60; migrate_ex [5]; snapshot_ex 6] in
  _epoch (sys_sn h.1) = 6 ∧ getLatestDynamicValues (sys_dy h.1) = Done (values_ex 50) ∧
  newest 6 (changes h.2) = Some (_encodeDynamicValues (values_ex 60)).
Proof. vm_compute. repeat split. Qed.

(** A migration of epochs that are not consecutive stops the side chain: the
    slot of the next epoch already holds a later one. *)
Example migration_gap :
  let h := history_ex [initialize_ex; migrate_ex [10; 3]] in
  _epoch (sys_sn h.1) = 3 ∧
  sys_exec 21 4 7 8 keccak_ex (λ _ _ _, true) create_ex accepts_ex (snapshot_ex 4).1 (snapshot_ex 4).2 h.1 =
  Reverts (Revert "InvalidRingBufferBlockHeight" [16; 40]).
Proof. vm_compute. repeat split. Qed.

(** Before the first snapshot, epoch 1 already reads as an empty one. *)
Example first_epoch_reads : getSnapshot 4 new_snapshots 1 = Done zero_snapshot.
Proof. reflexivity. Qed.
