(* ===== verification/JsValue.v ===== *)
(** * JavaScript values, objects, [parseInt] and [Array.prototype.sort]

    The parts of the language and its standard library that the scripts use:
    dynamically typed configuration values ([any] in the sources), property
    access with the properties every object inherits, the order in which
    [for ... in] visits the keys of an object, [parseInt], and the stable
    array sort. *)

From S2P Require Import Prelude.
From stdpp Require Import options.
Local Open Scope Z_scope.

(** ** Values *)

(** An address is represented by its 160-bit value; the scripts carry it as
    the checksummed hex text ethers gives it, one text per value. *)
Notation address := Z (only parsing).

Inductive jsval :=
  | JUndefined
  | JNull
  | JBool (b : bool)
  | JNum (z : Z)                      (* an integral number *)
  | JBig (z : Z)                      (* an ethers BigNumber *)
  | JStr (s : string)
  | JAddr (a : Z)                     (* an Ethereum address, see [address] *)
  | JArr (l : list jsval)
  | JObj (o : list (string * jsval))  (* properties in insertion order *)
  | JFun (name : string).             (* a function inherited from Object.prototype *)

(** ** Objects as ordered property lists *)

Section Objects.
Context {A : Type}.
Implicit Types (o : list (string * A)) (k : string) (v : A).

Fixpoint obj_get o k : option A :=
  match o with
  | [] => None
  | (k', v) :: o => if decide (k' = k) then Some v else obj_get o k
  end.

(** Assignment keeps the position of an existing property and appends a
    new one. *)
Fixpoint obj_set o k v : list (string * A) :=
  match o with
  | [] => [(k, v)]
  | (k', v') :: o =>
      if decide (k' = k) then (k, v) :: o else (k', v') :: obj_set o k v
  end.

Lemma obj_get_set_eq o k v : obj_get (obj_set o k v) k = Some v.
Proof.
  induction o as [|[k' v'] o IH]; simpl; [by rewrite decide_True|].
  case_decide; simpl; [by rewrite decide_True|by rewrite decide_False].
Qed.

Lemma obj_get_set_ne o k k' v :
  k ≠ k' → obj_get (obj_set o k v) k' = obj_get o k'.
Proof.
  intros Hne. induction o as [|[k1 v1] o IH]; simpl; [by rewrite decide_False|].
  case_decide; subst; simpl; [by rewrite !decide_False|].
  by case_decide.
Qed.

Lemma obj_get_set o k k' v :
  obj_get (obj_set o k v) k' = if decide (k = k') then Some v else obj_get o k'.
Proof.
  case_decide; subst; [apply obj_get_set_eq|by apply obj_get_set_ne].
Qed.

Lemma obj_set_set o k v v' : obj_set (obj_set o k v) k v' = obj_set o k v'.
Proof.
  induction o as [|[k1 v1] o IH]; simpl; [by rewrite decide_True|].
  case_decide; simpl; [by rewrite decide_True|]. by rewrite decide_False, IH.
Qed.

Lemma obj_set_keys o k v :
  (obj_set o k v).*1 = if decide (k ∈ o.*1) then o.*1 else o.*1 ++ [k].
Proof.
  induction o as [|[k' v'] o IH]; cbn [obj_set fmap list_fmap fst].
  { by rewrite decide_False by apply not_elem_of_nil. }
  destruct (decide (k' = k)) as [->|Hne]; cbn [fmap list_fmap fst].
  - rewrite decide_True; [done|]. apply elem_of_cons; by left.
  - rewrite IH. destruct (decide (k ∈ o.*1)), (decide (k ∈ k' :: o.*1)) as [Hin|Hin];
      try done; exfalso.
    + apply Hin. apply elem_of_cons; by right.
    + apply elem_of_cons in Hin as [?|?]; [congruence|done].
Qed.

Lemma obj_set_NoDup o k v : NoDup o.*1 → NoDup (obj_set o k v).*1.
Proof.
  intros H. rewrite obj_set_keys. case_decide; [done|].
  apply NoDup_app; split_and!; [done| |apply NoDup_singleton].
  intros x Hx ->%list_elem_of_singleton. done.
Qed.

Lemma obj_get_None o k : obj_get o k = None ↔ k ∉ o.*1.
Proof.
  induction o as [|[k' v'] o IH]; simpl; [split; [intros _; apply not_elem_of_nil|done]|].
  rewrite elem_of_cons. case_decide; subst; [naive_solver|].
  rewrite IH. naive_solver.
Qed.

Lemma obj_get_elem o k v : obj_get o k = Some v → (k, v) ∈ o.
Proof.
  induction o as [|[k' v'] o IH]; simpl; [done|].
  case_decide; subst; intros; simplify_eq; set_solver.
Qed.

Lemma obj_get_NoDup o k v : NoDup o.*1 → (k, v) ∈ o → obj_get o k = Some v.
Proof.
  induction o as [|[k' v'] o IH]; simpl; [by intros _ ?%elem_of_nil|].
  intros [Hn Ho]%NoDup_cons [?|Hin]%elem_of_cons; simplify_eq.
  { by rewrite decide_True. }
  rewrite decide_False; [auto|]. intros ->. apply Hn.
  by apply (list_elem_of_fmap_2 fst) in Hin.
Qed.
End Objects.

(** ** Key order of [for ... in] and [Object.keys]

    Canonical array indices come first, in increasing order; the other keys
    follow in insertion order. *)

Definition digit_val (c : ascii) : option Z :=
  let n := Z.of_N (N_of_ascii c) in
  if (48 <=? n) && (n <=? 57) then Some (n - 48)
  else if (97 <=? n) && (n <=? 122) then Some (n - 87)
  else if (65 <=? n) && (n <=? 90) then Some (n - 55)
  else None.

(** The value of the longest prefix of digits in base [radix]; [None] when
    there is no digit.  [acc] is the value read so far. *)
Fixpoint digits_go (radix : Z) (acc : option Z) (s : string) : option Z :=
  match s with
  | EmptyString => acc
  | String c s =>
      match digit_val c with
      | Some d => if d <? radix then digits_go radix (Some (default 0 acc * radix + d)) s
                  else acc
      | None => acc
      end
  end.

Fixpoint all_digits (s : string) : bool :=
  match s with
  | EmptyString => true
  | String c s => match digit_val c with Some d => (d <? 10) | None => false end && all_digits s
  end.

Definition index_key (s : string) : option Z :=
  match s with
  | EmptyString => None
  | String c s' =>
      if all_digits s && (negb (bool_decide (c = "0"%char)) || bool_decide (s' = EmptyString))
      then match digits_go 10 None s with
           | Some n => if n <? 2 ^ 32 - 1 then Some n else None
           | None => None
           end
      else None
  end.

(** The property names an object inherits from [Object.prototype]. *)
Definition proto_names : list string :=
  ["constructor"; "__defineGetter__"; "__defineSetter__"; "hasOwnProperty";
   "__lookupGetter__"; "__lookupSetter__"; "isPrototypeOf";
   "propertyIsEnumerable"; "toString"; "valueOf"; "__proto__"; "toLocaleString"].

Definition is_proto (k : string) : bool := bool_decide (k ∈ proto_names).

(** [v[k]]; numbers, booleans, addresses and functions have none of the
    properties the scripts read. *)
Definition js_get (v : jsval) (k : string) : res jsval :=
  match v with
  | JUndefined => Throw (TypeError ("Cannot read properties of undefined (reading '" ++s k ++s "')"))
  | JNull => Throw (TypeError ("Cannot read properties of null (reading '" ++s k ++s "')"))
  | JObj o =>
      Ok (match obj_get o k with
          | Some x => x
          | None => if is_proto k then JFun k else JUndefined
          end)
  | JArr l =>
      Ok (if decide (k = "length") then JNum (Z.of_nat (length l))
          else match index_key k with
               | Some i => default JUndefined (l !! Z.to_nat i)
               | None => if is_proto k then JFun k else JUndefined
               end)
  | JStr s =>
      Ok (if decide (k = "length") then JNum (Z.of_nat (String.length s))
          else match index_key k with
               | Some i => match String.get (Z.to_nat i) s with
                           | Some c => JStr (String c EmptyString)
                           | None => JUndefined
                           end
               | None => if is_proto k then JFun k else JUndefined
               end)
  | _ => Ok (if is_proto k then JFun k else JUndefined)
  end.

(** [v[k] = x] in strict mode: [undefined], [null] and primitive values have
    no properties to set; a named property of an array or a function is not
    part of this model and is ignored. *)
Definition js_set (v : jsval) (k : string) (x : jsval) : res jsval :=
  match v with
  | JUndefined => Throw (TypeError ("Cannot set properties of undefined (setting '" ++s k ++s "')"))
  | JNull => Throw (TypeError ("Cannot set properties of null (setting '" ++s k ++s "')"))
  | JObj o => Ok (JObj (obj_set o k x))
  | JArr _ | JFun _ => Ok v
  | _ => Throw (TypeError ("Cannot create property '" ++s k ++s "'"))
  end.

Definition is_undefined (v : jsval) : bool :=
  match v with JUndefined => true | _ => false end.

(** [v === undefined || v === null] *)
Definition is_nullish (v : jsval) : bool :=
  match v with JUndefined | JNull => true | _ => false end.

Lemma nullish_defined v : is_nullish v = false → is_undefined v = false.
Proof. by destruct v. Qed.

Lemma js_get_own o k v : obj_get o k = Some v → js_get (JObj o) k = Ok v.
Proof. intros H. simpl. by rewrite H. Qed.

Lemma js_get_absent o k :
  is_proto k = false → obj_get o k = None → js_get (JObj o) k = Ok JUndefined.
Proof. intros Hp H. simpl. by rewrite H, Hp. Qed.

Lemma js_get_set_eq o k v : js_get (JObj (obj_set o k v)) k = Ok v.
Proof. simpl. by rewrite obj_get_set_eq. Qed.

Lemma js_get_set_ne o k k' v :
  k ≠ k' → js_get (JObj (obj_set o k v)) k' = js_get (JObj o) k'.
Proof. intros. simpl. by rewrite obj_get_set_ne. Qed.

(** ** [parseInt] *)

Fixpoint trim_start (s : string) : string :=
  match s with
  | String c s' => if Ascii.is_space c then trim_start s' else s
  | EmptyString => EmptyString
  end.

Definition has_0x (s : string) : bool := startsWith "0x" s || startsWith "0X" s.

(** [parseInt(s)] is [parseInt None s] and [parseInt(s, r)] is
    [parseInt (Some r) s] for the radices 10 and 16 the scripts use; [None]
    is NaN.  Values above 2^53 are kept exact. *)
Definition parseInt (radix : option Z) (s : string) : option Z :=
  let s := trim_start s in
  let neg := startsWith "-" s in
  let s := if neg || startsWith "+" s then slice 1 s else s in
  let strip := match radix with None => true | Some r => r =? 16 end in
  let hex := strip && has_0x s in
  let base := if hex then 16 else default 10 radix in
  let s := if hex then slice 2 s else s in
  (λ n, if neg then - n else n) <$> digits_go base None s.

Example parseInt_dec : parseInt None "42abc" = Some 42.
Proof. reflexivity. Qed.
Example parseInt_nan : parseInt None "abc" = None.
Proof. reflexivity. Qed.
Example parseInt_hex : parseInt (Some 16) "10" = Some 16.
Proof. reflexivity. Qed.

(** ** [Array.prototype.sort]

    Stable, and determined by the comparator when it is consistent.  The
    comparator returns a number; NaN ([None]) counts as +0. *)

Section Sort.
Context {A : Type} (cmp : A → A → option Z).

Definition cmp_neg (x y : A) : bool :=
  match cmp x y with Some d => d <? 0 | None => false end.

Fixpoint sort_insert (x : A) (l : list A) : list A :=
  match l with
  | [] => [x]
  | y :: l => if cmp_neg x y then x :: y :: l else y :: sort_insert x l
  end.

Definition js_sort (l : list A) : list A :=
  foldl (λ acc x, sort_insert x acc) [] l.

Lemma sort_insert_perm x l : sort_insert x l ≡ₚ x :: l.
Proof.
  induction l as [|y l IH]; simpl; [done|].
  case_match; [done|]. rewrite IH. apply Permutation_swap.
Qed.

Lemma js_sort_perm_acc acc l :
  foldl (λ acc x, sort_insert x acc) acc l ≡ₚ acc ++ l.
Proof.
  revert acc; induction l as [|x l IH]; intros acc; simpl.
  { by rewrite app_nil_r. }
  rewrite IH, sort_insert_perm. apply Permutation_middle.
Qed.

Lemma js_sort_perm l : js_sort l ≡ₚ l.
Proof. apply js_sort_perm_acc. Qed.
End Sort.

(** The comparator [(a, b) => a.key - b.key]; a NaN key gives NaN. *)
Definition cmp_key {A} (key : A → option Z) (a b : A) : option Z :=
  match key a, key b with Some x, Some y => Some (x - y) | _, _ => None end.

Section SortByKey.
Context {A : Type} (key : A → option Z).
Implicit Types (x y : A) (l : list A).

Definition key_le x y : Prop :=
  match key x, key y with Some a, Some b => a ≤ b | _, _ => False end.
Definition keyed x : Prop := is_Some (key x).

Notation ins := (sort_insert (cmp_key key)).

Lemma cmp_neg_key x y a b :
  key x = Some a → key y = Some b → cmp_neg (cmp_key key) x y = (a <? b).
Proof. intros Hx Hy. unfold cmp_neg, cmp_key. rewrite Hx, Hy. apply eq_true_iff_eq. lia. Qed.

Lemma sort_insert_sorted x l :
  keyed x → Forall keyed l → StronglySorted key_le l →
  StronglySorted key_le (ins x l).
Proof.
  intros [a Hx] Hl Hs. induction Hs as [|y l Hs IH Hy]; simpl.
  { repeat constructor. }
  apply Forall_cons in Hl as [[b Hb] Hl].
  rewrite (cmp_neg_key _ _ a b) by done. destruct (Z.ltb_spec a b).
  - constructor; [by constructor|]. constructor.
    { unfold key_le. rewrite Hx, Hb. lia. }
    eapply Forall_impl; [exact Hy|]. intros z. unfold key_le. rewrite Hx, Hb.
    destruct (key z); [lia|done].
  - constructor; [by apply IH|]. rewrite (sort_insert_perm _ x l).
    constructor; [|done]. unfold key_le. rewrite Hx, Hb. lia.
Qed.

Lemma sort_insert_keyed x l : keyed x → Forall keyed l → Forall keyed (ins x l).
Proof. intros. rewrite sort_insert_perm. by constructor. Qed.

Lemma js_sort_sorted_acc acc l :
  Forall keyed acc → Forall keyed l → StronglySorted key_le acc →
  StronglySorted key_le (foldl (λ acc x, ins x acc) acc l).
Proof.
  revert acc; induction l as [|x l IH]; intros acc Ha Hl Hs; simpl; [done|].
  apply Forall_cons in Hl as [Hx Hl].
  apply IH; auto using sort_insert_keyed, sort_insert_sorted.
Qed.

(** With a number for every key the result is sorted ... *)
Lemma js_sort_sorted l :
  Forall keyed l → StronglySorted key_le (js_sort (cmp_key key) l).
Proof. intros. apply js_sort_sorted_acc; by try constructor. Qed.

(** ... and elements of equal key keep their order. *)
Lemma sort_insert_stable (k : Z) x l :
  keyed x → Forall keyed l → StronglySorted key_le l →
  filter (λ y, key y = Some k) (ins x l) =
  filter (λ y, key y = Some k) (l ++ [x]).
Proof.
  intros [a Hx] Hl Hs. induction Hs as [|y l Hs IH Hy]; simpl; [done|].
  apply Forall_cons in Hl as [[b Hb] Hl].
  rewrite (cmp_neg_key _ _ a b) by done. destruct (Z.ltb_spec a b).
  - rewrite !filter_cons, filter_app, filter_cons, filter_nil.
    destruct (decide (key x = Some k)) as [Hk|]; [|by rewrite app_nil_r].
    rewrite Hx in Hk; injection Hk as <-.
    rewrite !decide_False by (rewrite Hb; intros [= ?]; lia).
    assert (filter (λ z, key z = Some a) l = []) as ->; [|done].
    apply filter_none, Forall_forall. intros z Hz Hk. rewrite Forall_forall in Hy.
    specialize (Hy z Hz). unfold key_le in Hy. rewrite Hb, Hk in Hy. lia.
  - rewrite !filter_cons. by rewrite IH.
Qed.

Lemma js_sort_stable_acc (k : Z) acc l :
  Forall keyed acc → Forall keyed l → StronglySorted key_le acc →
  filter (λ y, key y = Some k) (foldl (λ acc x, ins x acc) acc l) =
  filter (λ y, key y = Some k) (acc ++ l).
Proof.
  revert acc; induction l as [|x l IH]; intros acc Ha Hl Hs; simpl.
  { by rewrite app_nil_r. }
  apply Forall_cons in Hl as [Hx Hl].
  rewrite IH by auto using sort_insert_keyed, sort_insert_sorted.
  rewrite filter_app, sort_insert_stable by done.
  by rewrite !filter_app, <-assoc_L, <-filter_app by apply _.
Qed.

Lemma js_sort_stable (k : Z) l :
  Forall keyed l →
  filter (λ y, key y = Some k) (js_sort (cmp_key key) l) =
  filter (λ y, key y = Some k) l.
Proof. intros. unfold js_sort. rewrite js_sort_stable_acc; by try constructor. Qed.

(** In a sorted list an element of smaller key comes first. *)
Lemma sorted_precedes l x y :
  StronglySorted key_le l → x ∈ l → y ∈ l →
  default 0 (key x) < default 0 (key y) →
  ∃ p q r, l = p ++ x :: q ++ y :: r.
Proof.
  intros Hs. induction Hs as [|z l Hs IH Hz]; [by intros ?%elem_of_nil|].
  rewrite Forall_forall in Hz. intros Hx Hy Hlt.
  apply elem_of_cons in Hx as [<-|Hx]; apply elem_of_cons in Hy as [->|Hy].
  - lia.
  - apply list_elem_of_split in Hy as (q & r & ->). by exists [], q, r.
  - specialize (Hz x Hx). unfold key_le in Hz.
    destruct (key z), (key x); simpl in Hlt; (done || lia).
  - destruct (IH Hx Hy Hlt) as (p & q & r & ->). by exists (z :: p), q, r.
Qed.
End SortByKey.

(** ** Key order *)

Definition own_keys {A} (o : list (string * A)) : list string :=
  let idx := filter (λ k, is_Some (index_key k)) o.*1 in
  let str := filter (λ k, index_key k = None) o.*1 in
  js_sort (cmp_key index_key) idx ++ str.

Lemma own_keys_perm {A} (o : list (string * A)) : own_keys o ≡ₚ o.*1.
Proof.
  unfold own_keys. rewrite js_sort_perm. apply filter_split.
  intros k. rewrite <-not_eq_None_Some. split; [tauto|]. apply dec_stable.
Qed.

(** Without array-index keys the order is the insertion order. *)
Lemma own_keys_insertion {A} (o : list (string * A)) :
  Forall (λ k, index_key k = None) o.*1 → own_keys o = o.*1.
Proof.
  intros H. unfold own_keys.
  rewrite filter_none, filter_all; [done|done|].
  eapply Forall_impl; [exact H|]. intros k Hk [? ?]. congruence.
Qed.

Example own_keys_ex :
  own_keys [("b", 1); ("10", 2); ("general", 3); ("2", 4)] = ["2"; "10"; "b"; "general"].
Proof. reflexivity. Qed.
