(* ===== verification/Numbers.v ===== *)
(** * Texts of numbers

    [Number.prototype.toString] in bases 10 and 16 and [parseInt]: what is
    written is read back, and how the two readings of a text compare. *)

From S2P Require Import Prelude JsValue.
From stdpp Require Import options.
Local Open Scope Z_scope.

(** ** Numbers in hexadecimal: [n.toString(16)] *)

Definition hex_digit (d : Z) : ascii :=
  ascii_of_nat (Z.to_nat (if d <? 10 then 48 + d else 87 + d)).

Fixpoint hex_go (fuel : nat) (n : Z) (acc : string) : string :=
  match fuel with
  | O => acc
  | S fuel =>
      let acc := String (hex_digit (n mod 16)) acc in
      if n <? 16 then acc else hex_go fuel (n / 16) acc
  end.

Definition toString16 (n : Z) : string :=
  let digits m := hex_go (S (Z.to_nat (Z.log2 m))) m EmptyString in
  if n <? 0 then "-" ++s digits (- n) else digits n.

(** ["0x" + n.toString(16)]; [None] is NaN. *)
Definition hex_quantity (n : option Z) : string :=
  "0x" ++s match n with Some n => toString16 n | None => "NaN" end.

Definition MAX_SAFE_INTEGER : Z := 2 ^ 53 - 1.

(** ** Hexadecimal texts are read back *)

Lemma digit_val_hex d : 0 ≤ d < 16 → digit_val (hex_digit d) = Some d.
Proof.
  intros Hd. assert (d ∈ seqZ 0 16) as Hin by (apply elem_of_seqZ; lia). clear Hd. revert d Hin.
  apply Forall_forall. change (seqZ 0 16) with [0; 1; 2; 3; 4; 5; 6; 7; 8; 9; 10; 11; 12; 13; 14; 15].
  repeat (apply Forall_cons; split; [vm_compute; reflexivity|]). apply Forall_nil; done.
Qed.

Lemma digits_go_hex v d s :
  0 ≤ d < 16 → digits_go 16 v (String (hex_digit d) s) = digits_go 16 (Some (default 0 v * 16 + d)) s.
Proof.
  intros Hd. cbn [digits_go]. rewrite digit_val_hex by done. by rewrite (proj2 (Z.ltb_lt _ _)) by lia.
Qed.

Lemma hex_go_read fuel : ∀ n acc, 0 ≤ n < 16 ^ Z.of_nat fuel → (0 < fuel)%nat →
  digits_go 16 None (hex_go fuel n acc) = digits_go 16 (Some n) acc.
Proof.
  induction fuel as [|fuel IH]; intros n acc Hn Hf; [lia|]. cbn [hex_go].
  pose proof (Z.mod_pos_bound n 16). pose proof (Z.div_mod n 16).
  destruct (Z.ltb_spec n 16) as [Hlt|Hge].
  - rewrite digits_go_hex by lia. rewrite Z.mod_small by lia. done.
  - rewrite Nat2Z.inj_succ, Z.pow_succ_r in Hn by lia.
    assert (0 < 16 ^ Z.of_nat fuel) by (apply Z.pow_pos_nonneg; lia).
    rewrite IH.
    + rewrite digits_go_hex by lia. f_equal. f_equal. simpl. lia.
    + split; [apply Z.div_pos; lia|apply Z.div_lt_upper_bound; lia].
    + destruct fuel; [simpl in Hn; lia|lia].
Qed.

Lemma toString16_read n : 0 ≤ n → digits_go 16 None (toString16 n) = Some n.
Proof.
  intros Hn. unfold toString16. rewrite (proj2 (Z.ltb_ge _ _) Hn).
  rewrite hex_go_read; [done| |lia]. split; [done|].
  rewrite Nat2Z.inj_succ, Z2Nat.id by apply Z.log2_nonneg.
  apply Z.lt_le_trans with (2 ^ Z.succ (Z.log2 n)).
  - destruct (decide (n = 0)) as [->|]; [done|]. apply Z.log2_spec. lia.
  - apply Z.pow_le_mono_l. pose proof (Z.log2_nonneg n). lia.
Qed.

Lemma hex_quantity_read n : 0 ≤ n → parseInt (Some 16) (hex_quantity (Some n)) = Some n.
Proof.
  intros Hn. unfold parseInt, hex_quantity.
  change (trim_start ("0x" ++s toString16 n)) with ("0x" ++s toString16 n).
  cbn [String.append startsWith has_0x slice]. simpl. rewrite toString16_read by done. done.
Qed.

(** ** Decimal texts *)

Lemma decimal_nonneg c d : digit_val c = Some d → 0 ≤ d.
Proof.
  unfold digit_val. intros Hd. pose proof (N2Z.is_nonneg (N_of_ascii c)).
  repeat (case_match; simplify_eq; try lia).
Qed.

Lemma hex_above_decimal s : all_digits s = true → ∀ a b, 0 ≤ a ≤ b → ∃ m n,
  digits_go 10 (Some a) s = Some m ∧ digits_go 16 (Some b) s = Some n ∧
  0 ≤ m ≤ n ∧ (a < b ∨ a < 10 → 10 ≤ m → m < n).
Proof.
  induction s as [|c s IH]; cbn [all_digits digits_go]; [intros _ a b Hab; exists a, b; naive_solver lia|].
  destruct (digit_val c) as [d|] eqn:Hd; [|done]. intros [Hlt%Z.ltb_lt Hs]%andb_true_iff a b Hab.
  pose proof (decimal_nonneg _ _ Hd). rewrite (proj2 (Z.ltb_lt d 10)), (proj2 (Z.ltb_lt d 16)) by lia.
  change (default 0 (Some a)) with a. change (default 0 (Some b)) with b.
  destruct (IH Hs (a * 10 + d) (b * 16 + d)) as (m & n & -> & -> & Hmn & Hm); [lia|].
  exists m, n. split_and!; [done|done|lia|lia|]. intros [?|?] ?; apply Hm; lia.
Qed.

Lemma decimal_digit c d : digit_val c = Some d → (d <? 10) = true →
  Ascii.is_space c = false ∧ c ≠ "-"%char ∧ c ≠ "+"%char ∧ c ≠ "x"%char ∧ c ≠ "X"%char.
Proof.
  intros Hd Hlt. destruct c as [[][][][][][][][]]; vm_compute in Hd; simplify_eq;
    vm_compute in Hlt; simplify_eq; split_and!; done.
Qed.

Lemma parseInt_digits s r : all_digits s = true → s ≠ EmptyString →
  parseInt (Some r) s = digits_go r None s.
Proof.
  destruct s as [|c s]; [done|]. cbn [all_digits]. intros [Hc Hs]%andb_true_iff _.
  destruct (digit_val c) as [d|] eqn:Hd; [|done].
  destruct (decimal_digit c d Hd Hc) as (Hsp & Hm & Hp & Hx & HX).
  unfold parseInt. cbn [trim_start]. rewrite Hsp. cbn [startsWith].
  rewrite !bool_decide_false by congruence. cbn [andb orb default].
  assert (has_0x (String c s) = false) as ->.
  { unfold has_0x. cbn [startsWith]. destruct s as [|c2 s]; [by rewrite !andb_false_r|].
    cbn [all_digits] in Hs. apply andb_true_iff in Hs as [Hc2 _].
    destruct (digit_val c2) as [d2|] eqn:Hd2; [|done].
    destruct (decimal_digit c2 d2 Hd2 Hc2) as (_ & _ & _ & Hx2 & HX2). cbn [startsWith].
    rewrite (bool_decide_false ("x"%char = c2)), (bool_decide_false ("X"%char = c2)) by congruence.
    by rewrite !andb_false_r. }
  rewrite andb_false_r. change (id r) with r. by destruct (digits_go r None (String c s)).
Qed.

(** The hexadecimal reading of a decimal number of two digits or more. *)
Lemma hex_reading s m n :
  all_digits s = true → parseInt (Some 10) s = Some m → parseInt (Some 16) s = Some n →
  0 ≤ m ≤ n ∧ (10 ≤ m → m < n).
Proof.
  intros Hs Hm Hn. destruct (decide (s = EmptyString)) as [->|Hne]; [done|].
  rewrite parseInt_digits in Hm, Hn by done. destruct s as [|c s]; [done|].
  cbn [all_digits digits_go] in *. apply andb_true_iff in Hs as [Hc Hs].
  destruct (digit_val c) as [d|] eqn:Hd; [|done]. apply Z.ltb_lt in Hc.
  pose proof (decimal_nonneg _ _ Hd).
  rewrite (proj2 (Z.ltb_lt d 10)) in Hm by lia. rewrite (proj2 (Z.ltb_lt d 16)) in Hn by lia.
  destruct (hex_above_decimal s Hs d d) as (m' & n' & E1 & E2 & Hmn & Hlt); [lia|].
  assert (Some m = Some m') as [= ->] by (rewrite <-Hm; exact E1).
  assert (Some n = Some n') as [= ->] by (rewrite <-Hn; exact E2). split; [lia|].
  intros ?. apply Hlt; lia.
Qed.


(** ** [n.toString()] is read back *)

Lemma digit_val_pretty d : (d < 10)%N → digit_val (pretty_N_char d) = Some (Z.of_N d).
Proof.
  intros Hm.
  assert (d = 0 ∨ d = 1 ∨ d = 2 ∨ d = 3 ∨ d = 4 ∨ d = 5 ∨ d = 6 ∨ d = 7 ∨ d = 8 ∨ d = 9)%N as Hc by lia.
  by repeat destruct Hc as [->|Hc]; subst.
Qed.

Lemma digits_go_pretty x : ∀ s, (0 < x)%N →
  digits_go 10 None (pretty_N_go x s) = digits_go 10 (Some (Z.of_N x)) s.
Proof.
  induction (N.lt_wf_0 x) as [x _ IH]; intros s Hx. rewrite pretty_N_go_step by done.
  pose proof (N.mod_lt x 10 ltac:(done)) as Hm. pose proof (digit_val_pretty _ Hm) as Hd.
  assert (Z.of_N (x mod 10) <? 10 = true) as Hlt by (apply Z.ltb_lt; lia).
  pose proof (N.div_mod x 10 ltac:(done)) as Hdm.
  destruct (decide (x / 10 = 0)%N) as [E|E].
  - rewrite E, pretty_N_go_0. cbn [digits_go]. rewrite Hd, Hlt. simpl default. f_equal. f_equal. lia.
  - rewrite IH by first [by apply N.div_lt | by apply N.neq_0_lt_0]. cbn [digits_go]. rewrite Hd, Hlt. f_equal. simpl. f_equal. lia.
Qed.

Lemma digits_go_dec n : 0 ≤ n → digits_go 10 None (pretty n) = Some n.
Proof.
  intros Hn. destruct n as [|p|p]; [done| |done].
  change (pretty (Z.pos p)) with (pretty (N.pos p)). unfold pretty, pretty_N. case_decide; [done|].
  by rewrite digits_go_pretty.
Qed.

Lemma pretty_all_digits x : ∀ s, all_digits s = true → all_digits (pretty_N_go x s) = true.
Proof.
  induction (N.lt_wf_0 x) as [x _ IH]; intros s Hs.
  destruct (decide (x = 0)%N) as [->|]; [done|]. rewrite pretty_N_go_step by lia.
  apply IH; [apply N.div_lt; lia|]. cbn [all_digits]. rewrite Hs.
  pose proof (N.mod_lt x 10 ltac:(done)) as Hm. rewrite digit_val_pretty by done.
  rewrite (proj2 (Z.ltb_lt _ _)) by lia. done.
Qed.

Lemma pretty_digits n : 0 ≤ n → all_digits (pretty n) = true ∧ pretty n ≠ EmptyString.
Proof.
  intros Hn. split.
  - destruct n as [|p|p]; [done| |done].
    change (pretty (Z.pos p)) with (pretty (N.pos p)). unfold pretty, pretty_N.
    case_decide; [done|]. by apply pretty_all_digits.
  - intros E. pose proof (digits_go_dec n Hn) as H. by rewrite E in H.
Qed.

Lemma parseInt_pretty n : parseInt (Some 10) (pretty n) = Some n.
Proof.
  destruct (Z.le_gt_cases 0 n) as [Hn|Hn].
  - destruct (pretty_digits n Hn). rewrite parseInt_digits by done. by apply digits_go_dec.
  - destruct n as [|p|p]; [lia|lia|]. unfold parseInt.
    change (pretty (Z.neg p)) with (String "-"%char (pretty (Z.pos p))).
    cbn [trim_start]. change (Ascii.is_space "-"%char) with false. cbv iota.
    cbn [startsWith slice]. simpl. by rewrite (digits_go_dec (Z.pos p)).
Qed.

(** No leading zero. *)
Lemma pretty_no_zero n : 0 < n → startsWith "0" (pretty n) = false.
Proof.
  assert (∀ x, (0 < x)%N → ∀ s, startsWith "0" (pretty_N_go x s) = false) as Hgo.
  { intros x. induction (N.lt_wf_0 x) as [x _ IH]; intros Hx s. rewrite pretty_N_go_step by done.
    destruct (decide (x / 10 = 0)%N) as [E|E].
    - rewrite E, pretty_N_go_0. apply N.div_small_iff in E; [|done]. rewrite N.mod_small by done.
      assert (x = 1 ∨ x = 2 ∨ x = 3 ∨ x = 4 ∨ x = 5 ∨ x = 6 ∨ x = 7 ∨ x = 8 ∨ x = 9)%N as Hc by lia.
      by repeat destruct Hc as [->|Hc]; subst.
    - apply IH; [by apply N.div_lt|by apply N.neq_0_lt_0]. }
  intros Hn. destruct n as [|p|p]; [done| |done]. change (pretty (Z.pos p)) with (pretty (N.pos p)).
  unfold pretty, pretty_N. rewrite decide_False by done. by apply Hgo.
Qed.
