(* ===== verification/Json.v ===== *)
(** * JSON.stringify and JSON.parse

    The part of the language's JSON support the scripts use, on integral
    numbers.  What is written, compact or indented, is read back
    ([json_roundtrip]). *)

From S2P Require Import Prelude JsValue Numbers.
From stdpp Require Import options.
Local Open Scope Z_scope.

Inductive json :=
  | JsNull
  | JsBool (b : bool)
  | JsNum (z : Z)
  | JsStr (s : string)
  | JsArr (l : list json)
  | JsObj (o : list (string * json)).

Section JsonInd.
Context (P : json → Prop).
Context (Hnull : P JsNull) (Hb : ∀ b, P (JsBool b)) (Hn : ∀ z, P (JsNum z)) (Hs : ∀ s, P (JsStr s))
  (Hl : ∀ l, Forall P l → P (JsArr l)) (Ho : ∀ o, Forall (λ kv, P kv.2) o → P (JsObj o)).

Fixpoint json_ind_nested (j : json) : P j :=
  match j with
  | JsNull => Hnull | JsBool b => Hb b | JsNum z => Hn z | JsStr s => Hs s
  | JsArr l => Hl l ((fix go l := match l return Forall P l with
                      | [] => Forall_nil_2 P
                      | x :: l => Forall_cons_2 P x l (json_ind_nested x) (go l) end) l)
  | JsObj o => Ho o ((fix go o := match o return Forall (λ kv, P kv.2) o with
                      | [] => Forall_nil_2 _
                      | kv :: o => Forall_cons_2 _ kv o (json_ind_nested kv.2) (go o) end) o)
  end.
End JsonInd.

(** ** Writing *)

Definition bs_char : ascii := ascii_of_nat 92.
Definition bs : string := String bs_char EmptyString.

(** The short escapes, by the letter that follows the backslash. *)
Definition short_escapes : list (ascii * ascii) :=
  [(dq_char, dq_char); (bs_char, bs_char); (ascii_of_nat 8, "b"%char); (ascii_of_nat 12, "f"%char);
   (nl_char, "n"%char); (ascii_of_nat 13, "r"%char); (ascii_of_nat 9, "t"%char)].

Definition is_control (c : ascii) : bool := (N_of_ascii c <? 32)%N.

Definition escape (c : ascii) : string :=
  match list_find (λ e, e.1 = c) short_escapes with
  | Some (_, (_, e)) => bs ++s String e EmptyString
  | None =>
      let n := Z.of_N (N_of_ascii c) in
      if is_control c
      then bs ++s "u00" ++s String (hex_digit (n / 16)) (String (hex_digit (n mod 16)) EmptyString)
      else String c EmptyString
  end.

Fixpoint escape_all (s : string) : string :=
  match s with EmptyString => EmptyString | String c s => escape c ++s escape_all s end.

Definition quote (s : string) : string := dq ++s escape_all s ++s dq.

(** Line break and indentation; nothing without a [gap]. *)
Definition line (gap ind : string) : string :=
  if decide (gap = EmptyString) then EmptyString else nl ++s ind.

Definition colon (gap : string) : string := if decide (gap = EmptyString) then ":" else ": ".

(** Brackets around members, one per line. *)
Definition enclose (gap ind opening closing : string) (l : list string) : string :=
  match l with
  | [] => opening ++s closing
  | l => opening ++s line gap (ind ++s gap) ++s join ("," ++s line gap (ind ++s gap)) l ++s
         line gap ind ++s closing
  end.

Fixpoint json_text (gap ind : string) (j : json) : string :=
  match j with
  | JsNull => "null"
  | JsBool b => if b then "true" else "false"
  | JsNum z => pretty z
  | JsStr s => quote s
  | JsArr l => enclose gap ind "[" "]" (json_text gap (ind ++s gap) <$> l)
  | JsObj o =>
      enclose gap ind "{" "}" ((λ kv, quote kv.1 ++s colon gap ++s json_text gap (ind ++s gap) kv.2) <$> o)
  end.

(** ** Reading *)

Definition json_space (c : ascii) : bool :=
  bool_decide (c ∈ [" "%char; ascii_of_nat 9; nl_char; ascii_of_nat 13]).

Fixpoint skip_ws (s : string) : string :=
  match s with
  | String c s' => if json_space c then skip_ws s' else s
  | EmptyString => EmptyString
  end.

(** The bytes of a code point of the basic plane. *)
Definition utf8 (n : Z) : string :=
  let byte z := ascii_of_N (Z.to_N z) in
  if n <? 128 then String (byte n) EmptyString
  else if n <? 2048 then
    String (byte (192 + Z.shiftr n 6)) (String (byte (128 + Z.land n 63)) EmptyString)
  else
    String (byte (224 + Z.shiftr n 12))
      (String (byte (128 + Z.land (Z.shiftr n 6) 63)) (String (byte (128 + Z.land n 63)) EmptyString)).

Definition hex4 (h1 h2 h3 h4 : ascii) : option Z :=
  let h c := d ← digit_val c; if d <? 16 then Some d else None in
  a ← h h1; b ← h h2; c ← h h3; d ← h h4; Some (((a * 16 + b) * 16 + c) * 16 + d).

(** The characters of a string up to the closing quote, and what follows.
    Surrogates are not read. *)
Fixpoint p_chars (s : string) : option (string * string) :=
  match s with
  | EmptyString => None
  | String c s =>
      if decide (c = dq_char) then Some (EmptyString, s)
      else if decide (c = bs_char) then
        match s with
        | EmptyString => None
        | String d s =>
            if decide (d = "u"%char) then
              match s with
              | String h1 (String h2 (String h3 (String h4 s))) =>
                  n ← hex4 h1 h2 h3 h4;
                  if (55296 <=? n) && (n <? 57344) then None
                  else prod_map (String.append (utf8 n)) id <$> p_chars s
              | _ => None
              end
            else if decide (d = "/"%char) then prod_map (String d) id <$> p_chars s
            else match list_find (λ e, e.2 = d) short_escapes with
                 | Some (_, (e, _)) => prod_map (String e) id <$> p_chars s
                 | None => None
                 end
        end
      else if is_control c then None
      else prod_map (String c) id <$> p_chars s
  end.

Definition is_digit (c : ascii) : bool :=
  match digit_val c with Some d => d <? 10 | None => false end.

Fixpoint take_digits (s : string) : string * string :=
  match s with
  | String c s' => if is_digit c then prod_map (String c) id (take_digits s') else (EmptyString, s)
  | EmptyString => (EmptyString, EmptyString)
  end.

(** An integer: no leading zeros. *)
Definition p_nat (s : string) : option (Z * string) :=
  let '(ds, r) := take_digits s in
  if startsWith "0" ds && negb (bool_decide (ds = "0")) then None
  else n ← digits_go 10 None ds; Some (n, r).

Definition p_number (s : string) : option (Z * string) :=
  match strip_prefix "-" s with
  | Some s => '(n, r) ← p_nat s; Some (- n, r)
  | None => p_nat s
  end.

Definition p_literal (s : string) : option (json * string) :=
  match strip_prefix "null" s with
  | Some r => Some (JsNull, r)
  | None =>
      match strip_prefix "true" s with
      | Some r => Some (JsBool true, r)
      | None => r ← strip_prefix "false" s; Some (JsBool false, r)
      end
  end.

Fixpoint p_value (fuel : nat) (s : string) : option (json * string) :=
  match fuel with
  | O => None
  | S fuel =>
      match skip_ws s with
      | EmptyString => None
      | String c r =>
          if decide (c = dq_char) then '(t, r) ← p_chars r; Some (JsStr t, r)
          else if decide (c = "["%char) then
            match strip_prefix "]" (skip_ws r) with
            | Some r => Some (JsArr [], r)
            | None => '(l, r) ← p_elems fuel r; Some (JsArr l, r)
            end
          else if decide (c = "{"%char) then
            match strip_prefix "}" (skip_ws r) with
            | Some r => Some (JsObj [], r)
            | None => '(o, r) ← p_members fuel r; Some (JsObj o, r)
            end
          else if is_digit c || bool_decide (c = "-"%char) then
            '(n, r) ← p_number (String c r); Some (JsNum n, r)
          else p_literal (String c r)
      end
  end
with p_elems (fuel : nat) (s : string) : option (list json * string) :=
  match fuel with
  | O => None
  | S fuel =>
      '(v, r) ← p_value fuel s;
      match strip_prefix "," (skip_ws r) with
      | Some r => '(l, r) ← p_elems fuel r; Some (v :: l, r)
      | None => r ← strip_prefix "]" (skip_ws r); Some ([v], r)
      end
  end
with p_members (fuel : nat) (s : string) : option (list (string * json) * string) :=
  match fuel with
  | O => None
  | S fuel =>
      r ← strip_prefix dq (skip_ws s);
      '(k, r) ← p_chars r;
      r ← strip_prefix ":" (skip_ws r);
      '(v, r) ← p_value fuel r;
      match strip_prefix "," (skip_ws r) with
      | Some r => '(o, r) ← p_members fuel r; Some ((k, v) :: o, r)
      | None => r ← strip_prefix "}" (skip_ws r); Some ([(k, v)], r)
      end
  end.

(** Every call reads a character or follows one that does: the length of the
    text is enough fuel. *)
Definition parse_json (s : string) : option json :=
  '(j, r) ← p_value (S (String.length s)) s;
  if decide (skip_ws r = EmptyString) then Some j else None.

(** ** Reading what was written: characters *)

Definition blank (s : string) : bool := all_char " "%char s.

Lemma blank_app s t : blank s = true → blank t = true → blank (s ++s t) = true.
Proof.
  unfold blank. induction s as [|c s IH]; simpl; [done|]. intros [Hc Hs]%andb_true_iff Ht.
  by rewrite Hc, IH.
Qed.

Lemma skip_ws_blank s t : blank s = true → skip_ws (s ++s t) = skip_ws t.
Proof.
  unfold blank. induction s as [|c s IH]; simpl; [done|].
  intros [Hc%bool_decide_eq_true Hs]%andb_true_iff. subst c. by apply IH.
Qed.

Lemma skip_ws_line gap ind t : blank ind = true → skip_ws (line gap ind ++s t) = skip_ws t.
Proof.
  intros Hi. unfold line. case_decide; [done|].
  change (skip_ws (ind ++s t) = skip_ws t). by apply skip_ws_blank.
Qed.

Lemma skip_ws_colon gap t : ∃ u, colon gap ++s t = ":" ++s u ∧ skip_ws u = skip_ws t.
Proof. unfold colon. case_decide; eexists; by split. Qed.

Lemma p_chars_escape c t :
  p_chars (escape c ++s t) = prod_map (String c) id <$> p_chars t.
Proof. destruct c as [[][][][][][][][]]; reflexivity. Qed.

Lemma p_chars_all s t : p_chars (escape_all s ++s dq ++s t) = Some (s, t).
Proof.
  induction s as [|c s IH]; [done|]. cbn [escape_all]. rewrite app_assoc_s, p_chars_escape, IH. done.
Qed.

(** *** Numbers *)

Definition no_digit (s : string) : Prop :=
  match s with String c _ => is_digit c = false | EmptyString => True end.

Lemma take_digits_app ds r : all_digits ds = true → no_digit r → take_digits (ds ++s r) = (ds, r).
Proof.
  intros Hd Hr. induction ds as [|c ds IH]; simpl.
  - destruct r as [|c r]; [done|]. simpl in *. by rewrite Hr.
  - cbn [all_digits] in Hd. apply andb_true_iff in Hd as [Hc Hd]. unfold is_digit. rewrite Hc.
    by rewrite (IH Hd).
Qed.

Lemma p_nat_pretty n r : 0 ≤ n → no_digit r → p_nat (pretty n ++s r) = Some (n, r).
Proof.
  intros Hn Hr. destruct (pretty_digits n Hn) as [Hd _]. unfold p_nat.
  rewrite take_digits_app by done. rewrite digits_go_dec by done.
  destruct (decide (n = 0)) as [->|]; [done|]. by rewrite pretty_no_zero by lia.
Qed.

Lemma strip_minus_digits ds r : all_digits ds = true → ds ≠ EmptyString → strip_prefix "-" (ds ++s r) = None.
Proof.
  intros Hd Hne. destruct ds as [|c ds]; [done|]. simpl. case_decide; [|done]. subst c. done.
Qed.

Lemma p_number_pretty z r : no_digit r → p_number (pretty z ++s r) = Some (z, r).
Proof.
  intros Hr. unfold p_number. destruct (Z.le_gt_cases 0 z) as [Hz|Hz].
  - destruct (pretty_digits z Hz). rewrite strip_minus_digits by done. by apply p_nat_pretty.
  - destruct z as [|p|p]; [lia|lia|].
    change (pretty (Z.neg p)) with ("-" ++s pretty (Z.pos p)).
    rewrite app_assoc_s, strip_prefix_app, p_nat_pretty by done. done.
Qed.

(** *** Values *)

Fixpoint size (j : json) : nat :=
  match j with
  | JsArr l => S (foldr (λ x n, S (size x + n)) 0%nat l)
  | JsObj o => S (foldr (λ kv n, S (size kv.2 + n)) 0%nat o)
  | _ => 1
  end.

Lemma size_pos j : (0 < size j)%nat.
Proof. destruct j; simpl; lia. Qed.

(** The first character of a text is not white space and closes nothing. *)
Definition opens (s : string) : Prop :=
  match s with
  | EmptyString => False
  | String c _ => json_space c = false ∧ c ≠ "]"%char ∧ c ≠ "}"%char ∧ c ≠ ","%char
  end.

Lemma opens_app s t : opens s → opens (s ++s t).
Proof. by destruct s. Qed.

Lemma digit_opens c s : is_digit c = true → opens (String c s).
Proof. destruct c as [[][][][][][][][]]; intros E; try discriminate E; by split_and!. Qed.

Lemma pretty_opens (z : Z) : opens (pretty z).
Proof.
  destruct (Z.le_gt_cases 0 z) as [Hz|Hz].
  - destruct (pretty_digits z Hz) as [Hd Hne]. destruct (pretty z) as [|c s]; [done|].
    apply digit_opens. by apply andb_true_iff in Hd as [? _].
  - by destruct z.
Qed.

Lemma text_opens gap ind j : opens (json_text gap ind j).
Proof.
  destruct j as [|[]|z|s|l|o]; try (by split_and!); [apply pretty_opens| |].
  - cbn [json_text]. by destruct (json_text gap (ind ++s gap) <$> l).
  - cbn [json_text]. by destruct ((λ kv, _) <$> o).
Qed.

Lemma skip_ws_opens s : opens s → skip_ws s = s.
Proof. destruct s as [|c s]; [done|]. intros [Hc _]. cbn [skip_ws]. by rewrite Hc. Qed.

(** What may follow a value. *)
Definition follows (r : string) : Prop := no_digit r.

Section Read.
Context (gap : string) (Hgap : blank gap = true).

Definition reads (j : json) : Prop :=
  ∀ fuel ind r, blank ind = true → follows r → (size j ≤ fuel)%nat →
    p_value fuel (json_text gap ind j ++s r) = Some (j, r).

Lemma follows_comma r : follows ("," ++s r).
Proof. done. Qed.
Lemma follows_line ind c r :
  is_digit c = false → blank ind = true → follows (line gap ind ++s String c r).
Proof. intros Hc Hi. unfold line. by case_decide. Qed.

Lemma p_value_line fuel ind t : blank ind = true → p_value fuel (line gap ind ++s t) = p_value fuel t.
Proof. intros Hi. destruct fuel; [done|]. cbn [p_value]. by rewrite skip_ws_line. Qed.

Lemma join_cons2 sep x y l : join sep (x :: y :: l) = x ++s sep ++s join sep (y :: l).
Proof. done. Qed.

Lemma p_elems_read l : ∀ fuel ind out r, l ≠ [] → blank ind = true → blank out = true →
  Forall reads l → (foldr (λ x n, S (size x + n)) 0 l ≤ fuel)%nat →
  p_elems fuel (join ("," ++s line gap ind) (json_text gap ind <$> l) ++s line gap out ++s "]" ++s r)
  = Some (l, r).
Proof.
  induction l as [|j l IH]; intros fuel ind out r Hne Hi Ho Hl Hf; [done|].
  apply Forall_cons in Hl as [Hj Hl]. destruct fuel as [|fuel]; simpl in Hf; [lia|]. cbn [p_elems].
  destruct l as [|j2 l].
  - cbn [fmap list_fmap join]. rewrite Hj; [|done|by apply follows_line|lia]. cbn [mbind option_bind].
    rewrite skip_ws_line by done. done.
  - rewrite !fmap_cons, join_cons2, <-fmap_cons, !app_assoc_s. rewrite Hj; [|done|done|lia]. cbn [mbind option_bind].
    change (skip_ws ("," ++s ?x)) with ("," ++s x). rewrite strip_prefix_app.
    match goal with |- context [p_elems fuel (line gap ind ++s ?x)] => set (t := x) end.
    assert (p_elems fuel (line gap ind ++s t) = p_elems fuel t) as ->.
    { destruct fuel as [|fuel]; [done|]. cbn [p_elems]. by rewrite p_value_line. }
    unfold t. rewrite IH; [done|done|done|done|done|lia].
Qed.
Definition member_text (ind : string) (kv : string * json) : string :=
  quote kv.1 ++s colon gap ++s json_text gap ind kv.2.

Lemma p_members_step fuel ind kv r :
  blank ind = true → reads kv.2 → follows r → (size kv.2 ≤ fuel)%nat →
  p_members (S fuel) (member_text ind kv ++s r) =
  match strip_prefix "," (skip_ws r) with
  | Some r => '(o, r) ← p_members fuel r; Some (kv :: o, r)
  | None => r ← strip_prefix "}" (skip_ws r); Some ([kv], r)
  end.
Proof.
  intros Hi Hv Hr Hf. destruct kv as [k v]. unfold member_text, quote. cbn [p_members fst snd] in *.
  rewrite !app_assoc_s. change (skip_ws (dq ++s ?x)) with (dq ++s x). rewrite strip_prefix_app.
  cbn [mbind option_bind]. rewrite p_chars_all. cbn [mbind option_bind].
  destruct (skip_ws_colon gap (json_text gap ind v ++s r)) as (u & -> & Hu).
  change (skip_ws (":" ++s u)) with (":" ++s u). rewrite strip_prefix_app. cbn [mbind option_bind].
  assert (p_value fuel u = Some (v, r)) as ->; [|done].
  rewrite <-(Hv fuel ind r Hi Hr Hf). destruct fuel; [done|]. cbn [p_value]. by rewrite Hu.
Qed.

Lemma p_members_read o : ∀ fuel ind out r, o ≠ [] → blank ind = true → blank out = true →
  Forall (λ kv, reads kv.2) o → (foldr (λ kv n, S (size kv.2 + n)) 0 o ≤ fuel)%nat →
  p_members fuel (join ("," ++s line gap ind) (member_text ind <$> o) ++s line gap out ++s "}" ++s r)
  = Some (o, r).
Proof.
  induction o as [|kv o IH]; intros fuel ind out r Hne Hi Ho Hl Hf; [done|].
  apply Forall_cons in Hl as [Hj Hl]. destruct fuel as [|fuel]; simpl in Hf; [lia|].
  destruct o as [|kv2 o].
  - rewrite fmap_cons. cbn [fmap list_fmap join].
    rewrite p_members_step; [|done|done|by apply follows_line|lia]. by rewrite skip_ws_line.
  - rewrite !fmap_cons, join_cons2, <-fmap_cons, !app_assoc_s.
    rewrite p_members_step; [|done|done|done|lia].
    change (skip_ws ("," ++s ?x)) with ("," ++s x). rewrite strip_prefix_app.
    match goal with |- context [p_members fuel (line gap ind ++s ?x)] => set (t := x) end.
    assert (p_members fuel (line gap ind ++s t) = p_members fuel t) as ->.
    { destruct fuel as [|fuel]; [done|]. cbn [p_members]. by rewrite skip_ws_line. }
    unfold t. rewrite IH; [done|done|done|done|done|lia].
Qed.

Lemma number_char c : is_digit c || bool_decide (c = "-"%char) = true →
  c ≠ dq_char ∧ c ≠ "["%char ∧ c ≠ "{"%char ∧ json_space c = false.
Proof using Type. destruct c as [[][][][][][][][]]; intros E; try discriminate E; by split_and!. Qed.

Lemma pretty_head (z : Z) : ∃ c s, pretty z = String c s ∧ is_digit c || bool_decide (c = "-"%char) = true.
Proof using Type.
  destruct (Z.le_gt_cases 0 z) as [Hz|Hz].
  - destruct (pretty_digits z Hz) as [Hd Hne]. destruct (pretty z) as [|c s]; [done|].
    exists c, s. split; [done|]. apply andb_true_iff in Hd as [Hd _]. unfold is_digit. by rewrite Hd.
  - destruct z as [|p|p]; [done|done|]. by eexists _, _.
Qed.

Lemma p_value_number fuel z r : follows r → p_value (S fuel) (pretty z ++s r) = Some (JsNum z, r).
Proof using Type.
  intros Hr. destruct (pretty_head z) as (c & s & E & Hc).
  pose proof (p_number_pretty z r Hr) as Hp. rewrite E in *. cbn [String.append] in *.
  destruct (number_char c Hc) as (H1 & H2 & H3 & H4). cbn [p_value skip_ws]. rewrite H4.
  rewrite !decide_False by done. rewrite Hc, Hp. done.
Qed.

Lemma enclose_some {A} ind opening closing (f : A → string) x l :
  enclose gap ind opening closing (f <$> x :: l) =
  opening ++s line gap (ind ++s gap) ++s join ("," ++s line gap (ind ++s gap)) (f <$> x :: l) ++s
  line gap ind ++s closing.
Proof using Type. done. Qed.

(** A bracket that encloses something. *)
Lemma inner_opens closing s : opens s → closing = "]" ∨ closing = "}" →
  strip_prefix closing (skip_ws s) = None.
Proof using Type.
  intros Hs Hc. rewrite skip_ws_opens by done. destruct s as [|c s]; [done|].
  destruct Hs as (_ & ? & ? & _). destruct Hc as [-> | ->]; simpl; by rewrite decide_False by congruence.
Qed.

Lemma join_opens sep x l : opens x → opens (join sep (x :: l)).
Proof using Type. intros Hx. destruct l; [done|]. rewrite join_cons2. by apply opens_app. Qed.

Lemma reads_all j : reads j.
Proof using Hgap.
  induction j as [|b|z|s|l IH|o IH] using json_ind_nested; intros fuel ind r Hi Hr Hf;
    (destruct fuel as [|fuel]; [pose proof (size_pos JsNull); simpl in Hf; lia|]).
  - done.
  - by destruct b.
  - by apply p_value_number.
  - cbn [json_text]. unfold quote. rewrite !app_assoc_s.
    change (dq ++s ?x) with (String dq_char x) at 1. cbn [p_value].
    change (skip_ws (String dq_char ?x)) with (String dq_char x). cbv iota.
    rewrite decide_True by done. by rewrite p_chars_all.
  - destruct l as [|j l]; [done|].
    cbn [json_text]. rewrite enclose_some, !app_assoc_s. change ("[" ++s ?x) with (String "["%char x). cbn [p_value].
    change (skip_ws (String "["%char ?x)) with (String "["%char x). cbv iota.
    rewrite decide_False, decide_True by done. rewrite skip_ws_line by by apply blank_app.
    rewrite inner_opens; [|apply opens_app, join_opens, text_opens|by left].
    assert (∀ f t, p_elems f (line gap (ind ++s gap) ++s t) = p_elems f t) as Hl.
    { intros f t. destruct f; [done|]. cbn [p_elems]. rewrite p_value_line by by apply blank_app. done. }
    rewrite Hl, p_elems_read; [done|done|by apply blank_app|done|done|simpl in *; lia].
  - destruct o as [|kv o]; [done|].
    cbn [json_text]. fold (member_text (ind ++s gap)). rewrite enclose_some, !app_assoc_s. change ("{" ++s ?x) with (String "{"%char x). cbn [p_value].
    change (skip_ws (String "{"%char ?x)) with (String "{"%char x). cbv iota.
    do 2 rewrite decide_False by done. rewrite decide_True by done. rewrite skip_ws_line by by apply blank_app.
    rewrite inner_opens; [|apply opens_app, join_opens; by split_and!|by right].
    assert (∀ f t, p_members f (line gap (ind ++s gap) ++s t) = p_members f t) as Hl.
    { intros f t. destruct f; [done|]. cbn [p_members]. rewrite skip_ws_line by by apply blank_app. done. }
    rewrite Hl, p_members_read; [done|done|by apply blank_app|done|done|simpl in *; lia].
Qed.
End Read.

(** ** The length of the text is enough fuel *)

Lemma length_join sep (l : list string) :
  (foldr (λ s n, String.length s + n) 0 l ≤ String.length (join sep l))%nat.
Proof.
  induction l as [|x l IH]; simpl; [lia|]. destruct l as [|y l]; [simpl; lia|].
  rewrite !length_app_s. lia.
Qed.

(** Members are separated by a comma at least. *)
Lemma enclose_length gap ind opening closing x l :
  (0 < String.length opening)%nat → (0 < String.length closing)%nat →
  (S (foldr (λ s n, S (String.length s + n)) 0 (x :: l)) ≤
   String.length (enclose gap ind opening closing (x :: l)))%nat.
Proof.
  intros Ho Hc. unfold enclose. rewrite !length_app_s.
  assert (∀ sep, (foldr (λ s n, S (String.length s + n)) 0 (x :: l) ≤
           S (String.length (join ("," ++s sep) (x :: l))))%nat) as Hj; [|pose proof (Hj (line gap (ind ++s gap))); lia].
  intros sep. revert x. induction l as [|y l IH]; intros x; [simpl; lia|].
  rewrite join_cons2, !length_app_s. specialize (IH y). simpl in *. lia.
Qed.

Lemma size_length gap j : ∀ ind, (size j ≤ String.length (json_text gap ind j))%nat.
Proof.
  induction j as [|b|z|s|l IH|o IH] using json_ind_nested; intros ind.
  1-4: pose proof (text_opens gap ind) as Ht; simpl in *.
  - lia.
  - destruct b; simpl; lia.
  - specialize (Ht (JsNum z)). simpl in Ht. destruct (pretty z); [done|simpl; lia].
  - unfold quote. rewrite length_app_s. simpl. lia.
  - destruct l as [|j l]; [simpl; lia|]. cbn [json_text size]. rewrite fmap_cons.
    etrans; [|apply enclose_length; simpl; lia]. rewrite <-fmap_cons. apply le_n_S.
    clear -IH. induction IH as [|x l' Hx _ IH']; [done|]. rewrite fmap_cons. cbn [foldr].
    specialize (Hx (ind ++s gap)). lia.
  - destruct o as [|kv o]; [simpl; lia|]. cbn [json_text size]. fold (member_text gap (ind ++s gap)).
    rewrite fmap_cons. etrans; [|apply enclose_length; simpl; lia]. rewrite <-fmap_cons. apply le_n_S.
    clear -IH. induction IH as [|x o' Hx _ IH']; [done|]. rewrite fmap_cons. cbn [foldr].
    specialize (Hx (ind ++s gap)). unfold member_text at 1. rewrite !length_app_s. lia.
Qed.

Lemma json_text_read gap j : blank gap = true → parse_json (json_text gap EmptyString j) = Some j.
Proof.
  intros Hg. unfold parse_json. rewrite <-(app_empty_r (json_text gap EmptyString j)) at 2.
  rewrite (reads_all gap Hg j); [done|done|done|]. pose proof (size_length gap j EmptyString). lia.
Qed.

(** ** Values of the language *)

(** What [JSON.stringify] makes of a value: [undefined] and functions are
    left out of objects, and are [null] in arrays; a bigint throws.  The
    members of an object come in the order of its keys. *)
Section Stringify.
Context (address_text : Z → string).

Fixpoint to_json (v : jsval) : res (option json) :=
  match v with
  | JUndefined | JFun _ => Ok None
  | JNull => Ok (Some JsNull)
  | JBool b => Ok (Some (JsBool b))
  | JNum z => Ok (Some (JsNum z))
  | JBig _ => Throw (TypeError "Do not know how to serialize a BigInt")
  | JStr s => Ok (Some (JsStr s))
  | JAddr a => Ok (Some (JsStr (address_text a)))
  | JArr l => js <~ res_mapM to_json l ;; Ok (Some (JsArr (default JsNull <$> js)))
  | JObj o =>
      kvs <~ res_mapM (λ kv, j <~ to_json kv.2 ;; Ok (kv.1, j)) o ;;
      let members := omap (λ kv, (λ j, (kv.1, j)) <$> kv.2) kvs in
      Ok (Some (JsObj (omap (λ k, (λ j, (k, j)) <$> obj_get members k) (own_keys members))))
  end.

(** [JSON.stringify(v, null, gap)]; [None] is undefined. *)
Definition JSON_stringify (gap : string) (v : jsval) : res (option string) :=
  j <~ to_json v ;; Ok (json_text gap EmptyString <$> j).
End Stringify.

(** A repeated key is assigned again. *)
Fixpoint of_json (j : json) : jsval :=
  match j with
  | JsNull => JNull
  | JsBool b => JBool b
  | JsNum z => JNum z
  | JsStr s => JStr s
  | JsArr l => JArr (of_json <$> l)
  | JsObj o => JObj (foldl (λ acc kv, obj_set acc kv.1 kv.2) [] ((λ kv, (kv.1, of_json kv.2)) <$> o))
  end.

Definition JSON_parse (s : string) : res jsval :=
  j <~ of_option (LibError "JSON" "SyntaxError") (parse_json s) ;; Ok (of_json j).

(** What is written, compact or indented by blanks, is read back. *)
Lemma json_roundtrip address_text gap v j :
  blank gap = true → to_json address_text v = Ok (Some j) →
  ∃ s, JSON_stringify address_text gap v = Ok (Some s) ∧ JSON_parse s = Ok (of_json j).
Proof.
  intros Hg Hj. exists (json_text gap EmptyString j). unfold JSON_stringify, JSON_parse.
  rewrite Hj, json_text_read by done. done.
Qed.

(** *** What comes back *)

Section Survives.
Context (address_text : Z → string).

(** [v] is written and comes back as [v']. *)
Definition survives (v v' : jsval) : Prop :=
  ∃ j, to_json address_text v = Ok (Some j) ∧ of_json j = v'.

Lemma survives_str s : survives (JStr s) (JStr s).
Proof. by eexists. Qed.

(** Elements that are left out of objects are [null] in arrays. *)
Lemma survives_arr l l' :
  Forall2 (λ v v', survives v v' ∨ to_json address_text v = Ok None ∧ v' = JNull) l l' →
  survives (JArr l) (JArr l').
Proof.
  intros Hl. assert (∃ js, res_mapM (to_json address_text) l = Ok js ∧
    of_json <$> (default JsNull <$> js) = l') as (js & E & <-).
  { induction Hl as [|v v' l l' Hv _ (js & E & <-)]; [by exists []|]. cbn [res_mapM].
    destruct Hv as [(j & -> & <-)|[-> ->]]; simpl; rewrite E; by eexists. }
  exists (JsArr (default JsNull <$> js)). cbn [to_json]. by rewrite E.
Qed.

Lemma obj_members {A} (o : list (string * A)) :
  NoDup o.*1 → omap (λ k, (λ j, (k, j)) <$> obj_get o k) o.*1 = o.
Proof.
  induction o as [|[k v] o IH]; [done|]. intros [Hk Ho]%NoDup_cons. cbn [fmap list_fmap fst].
  change (omap ?f (k :: ?l)) with (from_option (λ y, y :: omap f l) (omap f l) (f k)).
  cbn [obj_get]. rewrite decide_True by done. simpl. f_equal. etrans; [|by apply IH].
  apply list_omap_ext, Forall_Forall2_diag, Forall_forall. intros k' Hin.
  rewrite decide_False; [done|]. by intros ->.
Qed.

Lemma obj_set_new {A} (o : list (string * A)) k v : k ∉ o.*1 → obj_set o k v = o ++ [(k, v)].
Proof.
  induction o as [|[k' v'] o IH]; [done|]. cbn [fmap list_fmap fst obj_set]. intros [Hk Ho]%not_elem_of_cons.
  rewrite decide_False by done. by rewrite IH.
Qed.

Lemma obj_build {A} (o acc : list (string * A)) :
  NoDup (acc ++ o).*1 → foldl (λ acc kv, obj_set acc kv.1 kv.2) acc o = acc ++ o.
Proof.
  revert acc. induction o as [|[k v] o IH]; intros acc Hn; [by rewrite app_nil_r|]. simpl.
  rewrite obj_set_new.
  - rewrite IH, <-(assoc_L (++)); [done|]. by rewrite <-(assoc_L (++)).
  - rewrite fmap_app, NoDup_app in Hn. cbn [fmap list_fmap fst] in Hn. set_solver.
Qed.

(** An object with distinct names, none of them an array index. *)
Lemma survives_obj o o' :
  NoDup o.*1 → Forall (λ k, index_key k = None) o.*1 →
  Forall2 (λ kv kv', kv'.1 = kv.1 ∧ survives kv.2 kv'.2) o o' → survives (JObj o) (JObj o').
Proof.
  intros Hn Hi Ho. assert (∃ js, res_mapM (λ kv, j <~ to_json address_text kv.2 ;; Ok (kv.1, j)) o
    = Ok ((λ kv, (kv.1, Some kv.2)) <$> js) ∧ js.*1 = o.*1 ∧
    (λ kv, (kv.1, of_json kv.2)) <$> js = o') as (js & E & Hk & <-).
  { clear Hn Hi. induction Ho as [|[k v] [k' v'] o o' (Ek & j & Hj & Hv) _ (js & E & Hk & <-)]; [by exists []|].
    cbn [fst snd] in *. subst. exists ((k, j) :: js). cbn [res_mapM fst snd]. rewrite Hj. cbn [rbind]. rewrite E.
    rewrite !fmap_cons. split_and!; [done| |done]. by rewrite Hk. }
  exists (JsObj js). cbn [to_json]. rewrite E. simpl.
  assert (omap (λ kv : string * option json, (λ j, (kv.1, j)) <$> kv.2) ((λ kv, (kv.1, Some kv.2)) <$> js) = js) as ->.
  { clear. induction js as [|[k v] js IH]; [done|]. rewrite fmap_cons. cbn. f_equal. exact IH. }
  rewrite (own_keys_insertion js) by by rewrite Hk. rewrite obj_members by by rewrite Hk. split; [done|].
  cbn [of_json]. rewrite obj_build; [done|]. simpl. rewrite <-list_fmap_compose.
  rewrite (list_fmap_ext _ fst) by done. by rewrite Hk.
Qed.
End Survives.

Example json_ex : JSON_stringify pretty EmptyString (JObj [("b", JArr [JStr "x"; JUndefined]); ("2", JNum (-3))])
  = Ok (Some ("{" ++s quote "2" ++s ":-3," ++s quote "b" ++s ":[" ++s quote "x" ++s ",null]}")).
Proof. vm_compute. reflexivity. Qed.
