(* ===== verification/Constants.v ===== *)
(** * Names and paths shared by the scripts ([scripts/lib/constants.ts]) *)

From S2P Require Import Prelude.
From stdpp Require Import options.
Local Open Scope Z_scope.

(** [BigNumber.from(MULTICALL_GAS_LIMIT)]: the source keeps it as decimal text. *)
Definition MULTICALL_GAS_LIMIT : Z := 10000000.
Definition DEPLOYMENT_LIST_FPATH : string := "/deploymentList".
Definition DEPLOYMENT_ARGS_TEMPLATE_FPATH : string := "/deploymentArgsTemplate".
Definition DEFAULT_CONFIG_OUTPUT_DIR : string := "../scripts/base-files".
Definition CONTRACT_ADDR : string := "contractAddr".
Definition DEPLOY_CREATE : string := "deployCreate".
Definition DEPLOY_PROXY : string := "deployProxy".
Definition DEPLOYED_PROXY : string := "DeployedProxy".
Definition DEPLOYED_RAW : string := "DeployedRaw".
Definition DEPLOYMENT_ARG_PATH : string := "../scripts/base-files/deploymentArgs".
Definition DEPLOYMENT_LIST_PATH : string := "../scripts/base-files/deploymentList".
Definition FACTORY_STATE_PATH : string := "../scripts/generated/factoryState".
Definition ALICENET_FACTORY : string := "AliceNetFactory".
Definition ONLY_PROXY : string := "onlyProxy".
Definition PROXY : string := "Proxy".
Definition UPGRADE_PROXY : string := "upgradeProxy".
Definition UPGRADEABLE_DEPLOYMENT : string := "deployUpgradeable".
Definition INITIALIZER : string := "initialize".
Definition HARDHAT_CHAIN_ID : Z := 1337.
