(* ===== verification/Artifacts.v ===== *)
(** * Build artifacts and what the scripts read from them

    [hre.artifacts] (hardhat) gives the names of the compiled contracts and,
    for each, the compiler's build info: ABI and developer documentation.
    The scripts find a contract by name, read its NatSpec [@custom:] tags
    (salt, deploy-type, deploy-group, deploy-group-index) and inspect its ABI.
    The artifact store is a parameter ([Artifacts]); the functions below are
    those of [deploymentUtil.ts] and [deployArgUtil.ts] that read it, together
    with the private copies in [alicenetFactory.ts], [alicenetFactoryTasks.ts]
    and [generateImmutableAuth.ts]. *)

From S2P Require Import Prelude JsValue Constants.
From stdpp Require Import options.
Local Open Scope Z_scope.

(** ** The artifact store *)

Record abi_input := { in_name : string; in_type : string }.

(** An ABI entry: constructors have no name, fallback and receive entries
    neither name nor inputs. *)
Record abi_entry := {
  m_type : string;
  m_name : option string;
  m_inputs : option (list abi_input) }.

Record contract_output := {
  co_abi : list abi_entry;
  co_devdoc : gmap string string }.

(** [buildInfo.output.contracts], by source path and contract name. *)
Definition build_info := gmap string (gmap string contract_output).

Record Artifacts := {
  getAllFullyQualifiedNames : list string;
  art_getBuildInfo : string → res (option build_info);
  readArtifact_sourceName : string → res string }.

(** ** Qualified names *)

(** [fullName.split(':')[0]] *)
Definition extractPath (fullName : string) : string :=
  default EmptyString (split_on ":"%char fullName !! 0%nat).

(** [fullName.split(':')[1]], undefined without a colon *)
Definition extractName (fullName : string) : option string :=
  split_on ":"%char fullName !! 1%nat.

(** A property key computed from a string or undefined. *)
Definition to_key (o : option string) : string := default "undefined" o.

Definition qualified (path name : string) : string := path ++s ":" ++s name.

Section Queries.
Context (art : Artifacts).

(** [buildInfo.output.contracts[path][name]], then a property of it: both
    a missing path and a missing name end in a TypeError. *)
Definition contract_at (bi : build_info) (fullName : string) : res contract_output :=
  byName <~ of_option (TypeError "Cannot read properties of undefined")
                     (bi !! extractPath fullName) ;;
  of_option (TypeError "Cannot read properties of undefined")
            (byName !! to_key (extractName fullName)).

(** [deploymentUtil.ts: getCustomNSTag] *)
Definition getCustomNSTag (fullName tagName : string) : res (option string) :=
  bi <~ art_getBuildInfo art fullName ;;
  match bi with
  | Some bi => info <~ contract_at bi fullName ;;
               Ok (co_devdoc info !! ("custom:" ++s tagName))
  | None => Throw (Error ("Failed to get natspec tag " ++s tagName))
  end.

Definition getSaltTag (fullName : string) : res (option string) :=
  getCustomNSTag fullName "salt".
Definition getDeployType (fullName : string) : res (option string) :=
  getCustomNSTag fullName "deploy-type".
Definition getDeployGroup (fullName : string) : res (option string) :=
  getCustomNSTag fullName "deploy-group".
Definition getDeployGroupIndex (fullName : string) : res (option string) :=
  getCustomNSTag fullName "deploy-group-index".

(** [deploymentUtil.ts: getFullyQualifiedName] *)
Definition getFullyQualifiedName (contractName : string) : res string :=
  path <~ readArtifact_sourceName art contractName ;;
  Ok (path ++s ":" ++s contractName).

(** [deploymentUtil.ts: getContract], a linear search *)
Fixpoint find_named (name : string) (l : list string) : option string :=
  match l with
  | [] => None
  | p :: l => if decide (split_on ":"%char p !! 1%nat = Some name) then Some p
              else find_named name l
  end.

Definition getContract (name : string) : option string :=
  find_named name (getAllFullyQualifiedNames art).

Definition getAllContracts : list string := getAllFullyQualifiedNames art.

(** [deploymentUtil.ts: isInitializable]: [buildInfo] is used unchecked. *)
Definition buildInfo_any (fullName : string) : res build_info :=
  bi <~ art_getBuildInfo art fullName ;;
  of_option (TypeError "Cannot read properties of undefined (reading 'output')") bi.

Fixpoint has_initializer (methods : list abi_entry) : bool :=
  match methods with
  | [] => false
  | m :: ms => if decide (m_name m = Some INITIALIZER) then true else has_initializer ms
  end.

Definition isInitializable (fullName : string) : res bool :=
  bi <~ buildInfo_any fullName ;;
  c <~ contract_at bi fullName ;;
  Ok (has_initializer (co_abi c)).

(** [method.inputs.length] *)
Definition inputs_length (m : abi_entry) : res Z :=
  ins <~ of_option (TypeError "Cannot read properties of undefined (reading 'length')")
                  (m_inputs m) ;;
  Ok (Z.of_nat (length ins)).

Fixpoint constructor_inputs (methods : list abi_entry) : res bool :=
  match methods with
  | [] => Ok false
  | m :: ms => if decide (m_type m = "constructor")
               then n <~ inputs_length m ;; Ok (bool_decide (0 < n))
               else constructor_inputs ms
  end.

(** [deploymentUtil.ts: hasConstructorArgs] *)
Definition hasConstructorArgs (fullName : string) : res bool :=
  bi <~ buildInfo_any fullName ;;
  c <~ contract_at bi fullName ;;
  constructor_inputs (co_abi c).

(** [deployArgUtil.ts: getContractABI] *)
Definition getContractABI (fullName : string) : res (list abi_entry) :=
  bi <~ art_getBuildInfo art fullName ;;
  match bi with
  | Some bi => c <~ contract_at bi fullName ;; Ok (co_abi c)
  | None => Throw (Error ("failed to fetch " ++s fullName ++s " abi"))
  end.
End Queries.

(** ** Lemmas *)

Lemma extractPath_qualified p n :
  string_elem ":"%char p = false → extractPath (qualified p n) = p.
Proof. intros H. unfold extractPath, qualified. simpl. by rewrite split_on_app. Qed.

Lemma extractName_qualified p n :
  string_elem ":"%char p = false → string_elem ":"%char n = false →
  extractName (qualified p n) = Some n.
Proof.
  intros Hp Hn. unfold extractName, qualified. simpl.
  by rewrite split_on_app, (split_on_none _ n).
Qed.

Lemma find_named_elem name l p :
  find_named name l = Some p → p ∈ l ∧ extractName p = Some name.
Proof.
  induction l as [|q l IH]; simpl; [done|]. case_decide; intros; simplify_eq.
  - split; [set_solver|done].
  - destruct IH; [done|]. set_solver.
Qed.

Lemma has_initializer_spec ms :
  has_initializer ms = true ↔ ∃ m, m ∈ ms ∧ m_name m = Some INITIALIZER.
Proof.
  induction ms as [|m ms IH]; simpl; [set_solver|].
  case_decide; [|rewrite IH]; set_solver.
Qed.
