(* ===== verification/Fixtures.v ===== *)
(** * A concrete artifact store

    The NatSpec tags and ABI shapes of some contracts of the repository, used
    to evaluate the definitions on real inputs. *)

From S2P Require Import Prelude JsValue Constants Artifacts.
From stdpp Require Import options.

Record fixture := {
  fx_path : string; fx_name : string;
  fx_tags : list (string * string); fx_abi : list abi_entry }.

Definition fx_full (f : fixture) : string := qualified (fx_path f) (fx_name f).

Definition fx_output (f : fixture) : contract_output :=
  {| co_abi := fx_abi f;
     co_devdoc := list_to_map (prod_map (String.append "custom:") id <$> fx_tags f) |}.

Definition fx_build (l : list fixture) : build_info :=
  foldr (λ f (m : build_info),
           <[fx_path f := <[fx_name f := fx_output f]> (default ∅ (m !! fx_path f))]> m) ∅ l.

Definition fx_artifacts (l : list fixture) : Artifacts :=
  {| getAllFullyQualifiedNames := fx_full <$> l;
     art_getBuildInfo n := Ok (if bool_decide (n ∈ fx_full <$> l) then Some (fx_build l) else None);
     readArtifact_sourceName n :=
       match filter (λ f, fx_name f = n) l with
       | f :: _ => Ok (fx_path f)
       | [] => Throw (LibError "hardhat" "HH700: Artifact not found")
       end |}.

Definition fn (name : string) (ins : list string) : abi_entry :=
  {| m_type := "function"; m_name := Some name;
     m_inputs := Some ((λ n, {| in_name := n; in_type := "uint256" |}) <$> ins) |}.
Definition ctor (ins : list string) : abi_entry :=
  {| m_type := "constructor"; m_name := None;
     m_inputs := Some ((λ n, {| in_name := n; in_type := "uint256" |}) <$> ins) |}.

Definition tags (salt : string) : list (string * string) :=
  [("salt", salt); ("deploy-type", UPGRADEABLE_DEPLOYMENT)].
Definition gtags (salt group idx : string) : list (string * string) :=
  tags salt ++ [("deploy-group", group); ("deploy-group-index", idx)].

Definition fx_ETHDKG : fixture :=
  {| fx_path := "contracts/ETHDKG.sol"; fx_name := "ETHDKG";
     fx_tags := gtags "ETHDKG" "ethdkg" "2";
     fx_abi := [ctor []; fn "initialize" ["phaseLength_"; "confirmationLength_"]] |}.
Definition fx_Snapshots : fixture :=
  {| fx_path := "contracts/Snapshots.sol"; fx_name := "Snapshots";
     fx_tags := tags "Snapshots";
     fx_abi := [ctor ["chainID_"; "epochLength_"];
                fn "initialize" ["desperationDelay_"; "desperationFactor_"];
                fn "getEpoch" []] |}.
Definition fx_Accusations : fixture :=
  {| fx_path := "contracts/libraries/ethdkg/ETHDKGAccusations.sol";
     fx_name := "ETHDKGAccusations";
     fx_tags := gtags "ETHDKGAccusations" "ethdkg" "0"; fx_abi := [ctor []] |}.
Definition fx_Phases : fixture :=
  {| fx_path := "contracts/libraries/ethdkg/ETHDKGPhases.sol";
     fx_name := "ETHDKGPhases";
     fx_tags := gtags "ETHDKGPhases" "ethdkg" "1"; fx_abi := [ctor []] |}.
Definition fx_Proxy : fixture :=
  {| fx_path := "contracts/Proxy.sol"; fx_name := "Proxy"; fx_tags := []; fx_abi := [ctor []] |}.
Definition fx_MultipleProposal : fixture :=
  {| fx_path := "contracts/MultipleProposalAccusation.sol";
     fx_name := "MultipleProposalAccusation";
     fx_tags := tags "MultipleProposalAccusation" ++ [("salt-type", "Accusation")];
     fx_abi := [ctor []] |}.
Definition fx_ValidatorPool : fixture :=
  {| fx_path := "contracts/ValidatorPool.sol"; fx_name := "ValidatorPool";
     fx_tags := tags "ValidatorPool";
     fx_abi := [ctor []; fn "initialize" ["stakeAmount_"; "maxNumValidators_";
                                          "disputerReward_"; "maxIntervalWithoutSnapshots"]] |}.

Definition fx_ATokenBurner : fixture :=
  {| fx_path := "contracts/ATokenBurner.sol"; fx_name := "ATokenBurner";
     fx_tags := tags "ATokenBurner"; fx_abi := [ctor []; fn "burn" ["to"; "amount"]] |}.

Definition fx_all : list fixture :=
  [fx_ATokenBurner; fx_ETHDKG; fx_MultipleProposal; fx_Proxy; fx_Snapshots; fx_ValidatorPool;
   fx_Accusations; fx_Phases].

Definition art_ex : Artifacts := fx_artifacts fx_all.
