(* ===== verification/DeployList.v ===== *)
(** * The deployment list ([scripts/lib/deployment/deploymentListUtil.ts])

    [getSortedDeployList] groups the deployable contracts by their
    [@custom:deploy-group] tag and sorts each group but ["general"] by
    [@custom:deploy-group-index]; [transformDeploymentList] flattens the
    groups into the order in which the contracts are deployed.  Reading and
    writing the list file is in [DeployConfig]. *)

From S2P Require Import Prelude JsValue Constants Artifacts Fixtures.
From stdpp Require Import options.
Local Open Scope Z_scope.

(** [index] is a number: [None] is the NaN that [parseInt] gives. *)
Record ContractDeploymentInfo := { contract : string; index : option Z }.

Definition DeploymentList := list (string * list ContractDeploymentInfo).

Section DeployList.
Context (art : Artifacts).

(** The group and entry the loop computes for a contract; [None] for a
    contract without a deploy-type tag. *)
Definition deploy_entry (c : string) :
    res (option (string * ContractDeploymentInfo)) :=
  deployType <~ getDeployType art c ;;
  group <~ getDeployGroup art c ;;
  gi <~ match group with
       | Some g =>
           indexString <~ getDeployGroupIndex art c ;;
           match indexString with
           | None => Throw (Error "If deploy-group-index is specified a deploy-group-index also should be!")
           | Some s => Ok (g, parseInt None s)   (* parseInt does not throw *)
           end
       | None => Ok ("general", Some (-1))
       end ;;
  Ok (match deployType with
        | Some _ => Some (gi.1, {| contract := c; index := gi.2 |})
        | None => None
        end).

(** [if (deploymentList[group] === undefined) deploymentList[group] = [];
    deploymentList[group].push(entry)]: an inherited property is not
    undefined and has no [push]. *)
Definition push_entry (dl : DeploymentList) (g : string) (x : ContractDeploymentInfo) :
    res DeploymentList :=
  match obj_get dl g with
  | Some l => Ok (obj_set dl g (l ++ [x]))
  | None => if is_proto g
            then Throw (TypeError "deploymentList[group].push is not a function")
            else Ok (obj_set dl g [x])
  end.

Definition add_contract (dl : DeploymentList) (c : string) : res DeploymentList :=
  e <~ deploy_entry c ;;
  match e with
  | Some (g, x) => push_entry dl g x
  | None => Ok dl
  end.

(** The comparator [contractA.index - contractB.index]. *)
Definition sort_group (key : string) (l : list ContractDeploymentInfo) :=
  if decide (key = "general") then l else js_sort (cmp_key index) l.

Fixpoint sort_groups (dl : DeploymentList) : DeploymentList :=
  match dl with
  | [] => []
  | (key, l) :: dl => (key, sort_group key l) :: sort_groups dl
  end.

Definition getSortedDeployList (contracts : list string) : res DeploymentList :=
  dl <~ res_foldl add_contract contracts [] ;;
  Ok (sort_groups dl).

Definition transformDeploymentList (dl : DeploymentList) : list string :=
  own_keys dl ≫= λ group, contract <$> default [] (obj_get dl group).

(** [scripts/generateDeployList.ts: main], up to the write. *)
Definition generateDeployList : res (list string) :=
  dl <~ getSortedDeployList (getAllContracts art) ;;
  Ok (transformDeploymentList dl).

(** ** Specification vocabulary *)

(** Contracts the list must contain: those with a deploy-type tag. *)
Definition deployable (c : string) : Prop :=
  ∃ t, getDeployType art c = Ok (Some t).

Global Instance deployable_dec c : Decision (deployable c).
Proof.
  unfold deployable. destruct (getDeployType art c) as [[t|]|e];
    [left; by exists t|right; naive_solver..].
Defined.

(** The entries of a group, in artifact order. *)
Definition members (g : string) (items : list (string * ContractDeploymentInfo)) :=
  (filter (λ it, it.1 = g) items).*2.

(** The entries the loop pushes for a list of contracts. *)
Definition entries (contracts : list string) :
    res (list (string * ContractDeploymentInfo)) :=
  os <~ res_mapM deploy_entry contracts ;; Ok (omap id os).

(** ** Grouping lemmas *)

Definition grouped (dl : DeploymentList) (items : list (string * ContractDeploymentInfo)) :=
  NoDup dl.*1 ∧
  ∀ g, obj_get dl g = match members g items with [] => None | l => Some l end.

Lemma members_snoc g items h x :
  members g (items ++ [(h, x)]) =
  if decide (h = g) then members g items ++ [x] else members g items.
Proof.
  unfold members. rewrite filter_app, fmap_app, filter_cons, filter_nil. simpl.
  case_decide; simpl; [done|by rewrite app_nil_r].
Qed.

Lemma grouped_nil : grouped [] [].
Proof. split; [constructor|done]. Qed.

Lemma push_entry_grouped dl g x dl' items :
  grouped dl items → push_entry dl g x = Ok dl' → grouped dl' (items ++ [(g, x)]).
Proof.
  intros [Hnd Hg] Hpush. unfold push_entry in Hpush. rewrite Hg in Hpush.
  destruct (members g items) as [|y l] eqn:Hm.
  - destruct (is_proto g); [done|]. simplify_eq/=. split; [by apply obj_set_NoDup|].
    intros h. rewrite obj_get_set, members_snoc. case_decide; subst; [|done].
    by rewrite Hm.
  - simplify_eq/=. split; [by apply obj_set_NoDup|].
    intros h. rewrite obj_get_set, members_snoc. case_decide; subst; [|done].
    by rewrite Hm.
Qed.

Lemma fold_grouped contracts dl dl' items :
  grouped dl items → res_foldl add_contract contracts dl = Ok dl' →
  ∃ new, entries contracts = Ok new ∧ grouped dl' (items ++ new).
Proof.
  revert dl items; induction contracts as [|c cs IH]; simpl; intros dl items Hg H.
  { simplify_eq. exists []. by rewrite app_nil_r. }
  apply res_bind_Ok_inv in H as (dl1 & Hadd & H).
  unfold add_contract in Hadd. apply res_bind_Ok_inv in Hadd as (e & He & Hadd).
  unfold entries; simpl. rewrite He. simpl.
  destruct e as [[g x]|].
  - destruct (IH _ _ (push_entry_grouped _ _ _ _ _ Hg Hadd) H) as (new & Hnew & Hg').
    unfold entries in Hnew. res_inv.
    match goal with E : res_mapM _ cs = Ok ?os |- _ => rewrite E; simpl end.
    eexists; split; [done|]. by rewrite <-app_assoc in Hg'.
  - simplify_eq. destruct (IH _ _ Hg H) as (new & Hnew & Hg').
    unfold entries in Hnew. res_inv.
    match goal with E : res_mapM _ cs = Ok ?os |- _ => rewrite E; simpl end. eauto.
Qed.

Lemma obj_get_fmap_sort (dl : DeploymentList) g :
  obj_get (sort_groups dl) g = sort_group g <$> obj_get dl g.
Proof.
  induction dl as [|[h l] dl IH]; simpl; [done|]. case_decide; subst; [done|apply IH].
Qed.

Lemma sort_groups_keys (dl : DeploymentList) : (sort_groups dl).*1 = dl.*1.
Proof.
  induction dl as [|[h l] dl IH]; [done|]. cbn [sort_groups].
  by rewrite !fmap_cons, IH.
Qed.

Lemma sort_group_perm g l : sort_group g l ≡ₚ l.
Proof. unfold sort_group. case_decide; [done|apply js_sort_perm]. Qed.

(** The groups of the result. *)
Lemma getSortedDeployList_groups contracts dl :
  getSortedDeployList contracts = Ok dl →
  ∃ items, entries contracts = Ok items ∧ NoDup dl.*1 ∧
    ∀ g, obj_get dl g = match members g items with
                        | [] => None | l => Some (sort_group g l) end.
Proof.
  unfold getSortedDeployList. intros H. apply res_bind_Ok_inv in H as (dl0 & Hf & Hd).
  apply (fold_grouped _ _ _ [] grouped_nil) in Hf as (new & Hnew & [Hnd Hg]).
  injection Hd as <-. exists new. split_and!; [done| |].
  - by rewrite sort_groups_keys.
  - intros g. rewrite obj_get_fmap_sort, Hg. simpl. by destruct (members g new).
Qed.

Lemma bind_members_cons ks g x items :
  NoDup ks → g ∈ ks →
  (ks ≫= λ h, members h ((g, x) :: items)) ≡ₚ x :: (ks ≫= λ h, members h items).
Proof.
  assert (∀ ks, g ∉ ks →
    (ks ≫= λ h, members h ((g, x) :: items)) = ks ≫= λ h, members h items) as Hskip.
  { intros l Hl. apply Forall_bind_ext, Forall_forall. intros h Hh. unfold members.
    rewrite filter_cons_False; [done|]. simpl. intros ->. done. }
  induction 1 as [|k ks Hk Hnd IH]; [by intros ?%elem_of_nil|].
  intros [->|Hin]%elem_of_cons; simpl.
  - unfold members at 1. rewrite filter_cons_True by done. simpl. by rewrite Hskip.
  - unfold members at 1. rewrite filter_cons_False by (simpl; intros ->; done).
    rewrite (IH Hin). symmetry. apply Permutation_middle.
Qed.

Lemma bind_members_perm ks items :
  NoDup ks → (∀ it, it ∈ items → it.1 ∈ ks) →
  (ks ≫= λ h, members h items) ≡ₚ items.*2.
Proof.
  intros Hnd. induction items as [|[g x] items IH]; intros Hin; simpl.
  { clear. induction ks; [done|]. simpl. done. }
  rewrite bind_members_cons by (try done; apply (Hin (g, x)); set_solver).
  constructor. apply IH. set_solver.
Qed.

Lemma entries_contracts contracts items :
  entries contracts = Ok items →
  contract <$> items.*2 = filter deployable contracts.
Proof.
  unfold entries. intros H. apply res_bind_Ok_inv in H as (os & Hos & [= <-]).
  apply res_mapM_Ok in Hos. induction Hos as [|c o cs os Hc Hos IH]; [done|].
  unfold deploy_entry in Hc. apply res_bind_Ok_inv in Hc as (ty & Hty & Hc).
  apply res_bind_Ok_inv in Hc as (gr & _ & Hc).
  apply res_bind_Ok_inv in Hc as ([g i] & _ & [= <-]).
  destruct ty as [t|]; cbn [omap list_omap id fst snd].
  - rewrite filter_cons_True by (by exists t). cbn. f_equal. apply IH.
  - rewrite filter_cons_False by (intros [t Ht]; congruence). apply IH.
Qed.

(** ** Properties *)

(** C19: the deployment list is a permutation of the contracts that carry a
    deploy-type tag: grouping and sorting lose, add and duplicate none. *)
Theorem deploy_list_complete contracts dl :
  getSortedDeployList contracts = Ok dl →
  transformDeploymentList dl ≡ₚ filter deployable contracts.
Proof.
  intros H. destruct (getSortedDeployList_groups _ _ H) as (items & Hi & Hnd & Hg).
  rewrite <-(entries_contracts _ _ Hi). unfold transformDeploymentList.
  rewrite (own_keys_perm dl).
  trans (contract <$> (dl.*1 ≫= λ g, members g items)).
  - rewrite list_fmap_bind_comm. apply bind_perm_ext. intros g _. rewrite Hg.
    destruct (members g items) eqn:E; [done|]. simpl. by rewrite sort_group_perm.
  - apply fmap_Permutation, bind_members_perm; [done|].
    intros [g x] Hin. apply dec_stable. rewrite <-obj_get_None, Hg. simpl.
    destruct (members g items) eqn:E; [|by intros ?].
    assert (x ∈ members g items) as Hx; [|by rewrite E in Hx; apply elem_of_nil in Hx].
    unfold members. apply list_elem_of_fmap. exists (g, x). split; [done|].
    by apply list_elem_of_filter.
Qed.

(** C20: each group lists exactly its members; ["general"] keeps the
    artifact order, and every other group whose indices are numbers is
    ordered by index, members of equal index keeping the artifact order. *)
Theorem deploy_groups_sorted contracts dl items g l :
  getSortedDeployList contracts = Ok dl → entries contracts = Ok items →
  obj_get dl g = Some l →
  l ≡ₚ members g items ∧
  (g = "general" → l = members g items) ∧
  (g ≠ "general" → Forall (keyed index) (members g items) →
     StronglySorted (key_le index) l ∧
     ∀ k, filter (λ x, index x = Some k) l =
          filter (λ x, index x = Some k) (members g items)).
Proof.
  intros H Hi Hl. destruct (getSortedDeployList_groups _ _ H) as (items' & Hi' & _ & Hg).
  rewrite Hi in Hi'. injection Hi' as <-. rewrite Hg in Hl.
  assert (l = sort_group g (members g items)) as ->
    by (revert Hl; destruct (members g items); by intros [= <-]).
  split_and!.
  - apply sort_group_perm.
  - intros ->. done.
  - intros Hne Hk. unfold sort_group. rewrite decide_False by done.
    split; [by apply js_sort_sorted|]. intros k. by apply js_sort_stable.
Qed.

(** A contract whose tags can be read, with an index if it has a group, the
    group not being a property name every object inherits. *)
Definition well_tagged (c : string) : Prop :=
  ∃ ty g i, getDeployType art c = Ok ty ∧ getDeployGroup art c = Ok g ∧
    getDeployGroupIndex art c = Ok i ∧ (is_Some g → is_Some i) ∧
    (∀ x, g = Some x → is_proto x = false).

Lemma deploy_entry_total c :
  well_tagged c → ∃ o, deploy_entry c = Ok o ∧
    ∀ g x, o = Some (g, x) → is_proto g = false.
Proof.
  intros (ty & g & i & Hty & Hg & Hi & Hgi & Hp). unfold deploy_entry.
  rewrite Hty, Hg, Hi. simpl. destruct g as [g|].
  - destruct Hgi as [s ->]; [done|]. simpl. eexists; split; [done|].
    intros h x Hx. destruct ty; simplify_eq. by apply Hp.
  - simpl. eexists; split; [done|]. intros h x Hx. by destruct ty; simplify_eq.
Qed.

Lemma push_entry_total dl g x :
  is_proto g = false → ∃ dl', push_entry dl g x = Ok dl'.
Proof. intros Hp. unfold push_entry. rewrite Hp. case_match; eauto. Qed.

Lemma fold_total contracts dl :
  Forall well_tagged contracts → ∃ dl', res_foldl add_contract contracts dl = Ok dl'.
Proof.
  intros H. revert dl. induction H as [|c cs Hc _ IH]; intros dl; simpl; [eauto|].
  destruct (deploy_entry_total c Hc) as (o & Ho & Hp). unfold add_contract at 1.
  rewrite Ho. simpl. destruct o as [[g x]|]; simpl; [|apply IH].
  destruct (push_entry_total dl g x) as [dl1 ->]; [by eapply Hp|]. apply IH.
Qed.

Lemma res_foldl_app {A B} (f : B → A → res B) l1 l2 b :
  res_foldl f (l1 ++ l2) b = (b' <~ res_foldl f l1 b ;; res_foldl f l2 b').
Proof.
  revert b; induction l1 as [|x l1 IH]; intros b; simpl; [done|].
  destruct (f b x); simpl; [apply IH|done].
Qed.

(** the list is produced whenever the tags can be read and every
    grouped contract has an index tag.  Nothing requires the index text to
    be an integer: the catch around [parseInt] is never reached. *)
Theorem deploy_list_total contracts :
  Forall well_tagged contracts → ∃ dl, getSortedDeployList contracts = Ok dl.
Proof.
  intros H. unfold getSortedDeployList.
  destruct (fold_total contracts [] H) as [dl ->]. simpl. eauto.
Qed.

(** The first contract with a deploy-group but no deploy-group-index
    aborts the generation with the script's error. *)
Theorem deploy_list_missing_index pre c post ty g :
  Forall well_tagged pre →
  getDeployType art c = Ok ty → getDeployGroup art c = Ok (Some g) →
  getDeployGroupIndex art c = Ok None →
  getSortedDeployList (pre ++ c :: post) =
  Throw (Error "If deploy-group-index is specified a deploy-group-index also should be!").
Proof.
  intros Hpre Hty Hg Hi. unfold getSortedDeployList. rewrite res_foldl_app.
  destruct (fold_total pre [] Hpre) as [dl ->]. simpl.
  unfold add_contract, deploy_entry. rewrite Hty, Hg, Hi. done.
Qed.

(** inside a group other than ["general"] with numeric indices, the
    contract of smaller index comes first in the deployment order. *)
Theorem deploy_order contracts dl items g a b :
  getSortedDeployList contracts = Ok dl → entries contracts = Ok items →
  g ≠ "general" → Forall (keyed index) (members g items) →
  a ∈ members g items → b ∈ members g items →
  (default 0 (index a) < default 0 (index b)) →
  ∃ l1 l2 l3, transformDeploymentList dl = l1 ++ contract a :: l2 ++ contract b :: l3.
Proof.
  intros H Hi Hne Hk Ha Hb Hlt.
  destruct (getSortedDeployList_groups _ _ H) as (items' & Hi' & Hnd & Hg).
  rewrite Hi in Hi'. injection Hi' as <-.
  assert (obj_get dl g = Some (js_sort (cmp_key index) (members g items))) as Hl.
  { rewrite Hg. destruct (members g items); [by apply elem_of_nil in Ha|].
    unfold sort_group. by rewrite decide_False. }
  pose proof (js_sort_sorted index _ Hk) as Hs.
  pose proof (js_sort_perm (cmp_key index) (members g items)) as Hp.
  assert (g ∈ own_keys dl) as Hgk.
  { rewrite own_keys_perm. apply dec_stable. rewrite <-obj_get_None. by rewrite Hl. }
  apply list_elem_of_split in Hgk as (k1 & k2 & Hkeys).
  destruct (sorted_precedes index _ a b Hs) as (p & q & r & Hpqr);
    [by rewrite Hp|by rewrite Hp|done|].
  unfold transformDeploymentList. rewrite Hkeys, bind_app, bind_cons, Hl.
  cbn [default from_option]. unfold id. rewrite Hpqr.
  rewrite fmap_app, fmap_cons, fmap_app, fmap_cons.
  set (f := λ group, contract <$> _).
  exists ((k1 ≫= f) ++ (contract <$> p)), (contract <$> q), ((contract <$> r) ++ (k2 ≫= f)).
  by repeat (rewrite <-app_assoc; simpl).
Qed.
End DeployList.

(** ** The definitions on the artifacts of the repository *)

Definition ex_contracts : list string := getAllContracts art_ex.
Definition ex_entries : list (string * ContractDeploymentInfo) :=
  Eval vm_compute in match entries art_ex ex_contracts with Ok l => l | Throw _ => [] end.

(** The order of [scripts/base-files/deploymentList]: the general contracts,
    then the ethdkg group by index. *)
Example ethdkg_order :
  generateDeployList art_ex = Ok [
    "contracts/ATokenBurner.sol:ATokenBurner";
    "contracts/MultipleProposalAccusation.sol:MultipleProposalAccusation";
    "contracts/Snapshots.sol:Snapshots"; "contracts/ValidatorPool.sol:ValidatorPool";
    "contracts/libraries/ethdkg/ETHDKGAccusations.sol:ETHDKGAccusations";
    "contracts/libraries/ethdkg/ETHDKGPhases.sol:ETHDKGPhases";
    "contracts/ETHDKG.sol:ETHDKG"].
Proof. vm_compute. reflexivity. Qed.

Lemma deploy_list_complete_witness :
  ∃ dl, getSortedDeployList art_ex ex_contracts = Ok dl ∧
        transformDeploymentList dl ≡ₚ filter (deployable art_ex) ex_contracts.
Proof.
  eexists; split; [vm_compute; reflexivity|].
  apply (deploy_list_complete art_ex ex_contracts). vm_compute. reflexivity.
Defined.

Lemma deploy_groups_sorted_witness :
  ∃ dl l, getSortedDeployList art_ex ex_contracts = Ok dl ∧
    obj_get dl "ethdkg" = Some l ∧ StronglySorted (key_le index) l.
Proof.
  eexists _, _. split; [vm_compute; reflexivity|]. split; [vm_compute; reflexivity|].
  eapply (deploy_groups_sorted art_ex ex_contracts _ ex_entries "ethdkg");
    [vm_compute; reflexivity..|done|].
  repeat (constructor; [eexists; vm_compute; reflexivity|]). constructor.
Defined.

Lemma well_tagged_ethdkg : well_tagged art_ex "contracts/ETHDKG.sol:ETHDKG".
Proof.
  eexists _, _, _. split_and!; [vm_compute; reflexivity..|by eexists|].
  intros x [= <-]. reflexivity.
Defined.

Lemma deploy_list_total_witness :
  ∃ dl, getSortedDeployList art_ex ["contracts/ETHDKG.sol:ETHDKG"] = Ok dl.
Proof.
  apply (deploy_list_total art_ex). constructor; [exact well_tagged_ethdkg|constructor].
Defined.

(** A contract with a group and no index. *)
Definition fx_noindex : fixture :=
  {| fx_path := "contracts/X.sol"; fx_name := "X";
     fx_tags := tags "X" ++ [("deploy-group", "ethdkg")]; fx_abi := [] |}.

Lemma deploy_list_missing_index_witness :
  getSortedDeployList (fx_artifacts [fx_noindex]) ([] ++ ["contracts/X.sol:X"]) =
  Throw (Error "If deploy-group-index is specified a deploy-group-index also should be!").
Proof.
  eapply (deploy_list_missing_index (fx_artifacts [fx_noindex]) []);
    [constructor|vm_compute; reflexivity..].
Defined.

Lemma deploy_order_witness :
  ∃ dl l1 l2 l3, getSortedDeployList art_ex ex_contracts = Ok dl ∧
    transformDeploymentList dl =
      l1 ++ "contracts/libraries/ethdkg/ETHDKGAccusations.sol:ETHDKGAccusations"
         :: l2 ++ "contracts/ETHDKG.sol:ETHDKG" :: l3.
Proof.
  eexists.
  destruct (deploy_order art_ex ex_contracts _ ex_entries "ethdkg"
    {| contract := "contracts/libraries/ethdkg/ETHDKGAccusations.sol:ETHDKGAccusations"; index := Some 0 |}
    {| contract := "contracts/ETHDKG.sol:ETHDKG"; index := Some 2 |}
    eq_refl eq_refl) as (l1 & l2 & l3 & E); [done| | | |simpl; lia|].
  - repeat (constructor; [eexists; vm_compute; reflexivity|]). constructor.
  - vm_compute. repeat constructor.
  - vm_compute. repeat constructor.
  - exists l1, l2, l3. split; [vm_compute; reflexivity|exact E].
Defined.
