(* ===== verification/Ethers.v ===== *)
(** * The libraries the scripts call

    ethers, hardhat's contract factories and the TOML package are not part of
    the repository: they are parameters of the model, one class per library,
    and what the scripts rely on is stated in the classes of laws next to
    them.  [Instances] gives a concrete instance that satisfies the laws. *)

From S2P Require Import Prelude JsValue Constants.
From stdpp Require Import options.
Local Open Scope Z_scope.

(** ** ethers

    [bytes] values (call data, byte code, bytes32) are ["0x..."] texts, as
    [BytesLike] values are in the scripts.  [None] stands for an exception. *)
Class Ethers := {
  formatBytes32String : string → option string;
  parseBytes32String : string → option string;
  keccak256 : string → string;
  (** [getContractAddress({from, nonce})]: the CREATE address. *)
  getContractAddress : address → Z → address;
  (** [getCreate2Address(from, salt, initCodeHash)]: the CREATE2 address,
      the low 160 bits of keccak256(0xff . from . salt . initCodeHash). *)
  getCreate2Address : address → string → string → address;
  (** [getContractFactory(name)] succeeds. *)
  hasContractFactory : string → bool;
  (** [(await getContractFactory(name)).interface.encodeFunctionData(fn, args)] *)
  encodeFunctionData : string → string → list jsval → option string;
  (** [factory.getDeployTransaction(...args).data], which may be undefined. *)
  getDeployData : string → list jsval → option (option string);
  (** [BigNumber.toNumber()] throws above 2^53 - 1. *)
  bn_toNumber : Z → option Z;
  (** [BigNumber.from(n)] of a number; NaN is [None]. *)
  bn_fromNumber : option Z → option Z;
  (** [parseEther(s)], in wei. *)
  parseEther : string → option Z;
  (** The text of an address in a template literal. *)
  addr_text : address → string;
}.

(** A BigNumber is the integer it denotes. *)
Definition safe_integer (z : Z) : Prop := 0 ≤ z ≤ 2 ^ 53 - 1.

Class EthersLaws `{Ethers} : Prop := {
  (** A bytes32 text keeps the string apart from the others. *)
  formatBytes32String_inj s t x :
    formatBytes32String s = Some x → formatBytes32String t = Some x → s = t;
  parse_formatBytes32String s x :
    formatBytes32String s = Some x → parseBytes32String x = Some s;
  bn_toNumber_safe z : safe_integer z → bn_toNumber z = Some z;
  bn_fromNumber_safe z : Z.abs z < 2 ^ 53 - 1 → bn_fromNumber (Some z) = Some z;
  (** A whole number of ether. *)
  parseEther_whole z : parseEther (pretty z) = Some (z * 10 ^ 18);
  getContractAddress_range a n : 0 ≤ getContractAddress a n < 2 ^ 160;
}.

(** ** @iarna/toml

    [toml_canon v] is what is left of [v] after a write and a read: the keys
    may be reordered, properties that are [undefined] or [null] are dropped. *)
Class Toml := {
  toml_stringify : jsval → option string;
  toml_parse : string → option jsval;
  toml_canon : jsval → jsval;
}.

Class TomlLaws `{Toml} : Prop := {
  toml_roundtrip v s : toml_stringify v = Some s → toml_parse s = Some (toml_canon v);
  (** Comment lines are skipped. *)
  toml_comment line s :
    startsWith "#" line = true → string_elem nl_char line = false →
    toml_parse (line ++s nl ++s s) = toml_parse s;
  toml_canon_idem v : toml_canon (toml_canon v) = toml_canon v;
  toml_canon_str s : toml_canon (JStr s) = JStr s;
  toml_canon_addr a : toml_canon (JAddr a) = JAddr a;
  toml_canon_arr l :
    Forall (λ v, is_nullish v = false) l → toml_canon (JArr l) = JArr (toml_canon <$> l);
  toml_canon_obj o : ∃ o', toml_canon (JObj o) = JObj o' ∧
    ∀ k, obj_get o' k = match obj_get o k with
                        | None | Some (JUndefined | JNull) => None
                        | Some v => Some (toml_canon v)
                        end;
  (** Nothing else is lost. *)
  toml_canon_defined v : is_nullish v = false → is_nullish (toml_canon v) = false;
}.

(** Property access commutes with the round trip. *)
Lemma toml_canon_get `{TomlLaws} o k v :
  js_get (JObj o) k = Ok v → is_proto k = false →
  (is_nullish v = true ∧ js_get (toml_canon (JObj o)) k = Ok JUndefined) ∨
  (is_nullish v = false ∧ js_get (toml_canon (JObj o)) k = Ok (toml_canon v)).
Proof.
  intros Hv Hp. destruct (toml_canon_obj o) as (o' & -> & Ho).
  simpl in *. rewrite Hp in *. rewrite Ho. destruct (obj_get o k) as [x|]; simplify_eq.
  - destruct v; simpl; eauto.
  - by left.
Qed.

Lemma toml_canon_get_own `{TomlLaws} o k v :
  obj_get o k = Some v → is_nullish v = false →
  js_get (toml_canon (JObj o)) k = Ok (toml_canon v).
Proof.
  intros Hv Hu. destruct (toml_canon_obj o) as (o' & -> & Ho).
  simpl. rewrite Ho, Hv. by destruct v.
Qed.

Lemma toml_canon_defined_list `{TomlLaws} l :
  Forall (λ v, is_nullish v = false) l →
  Forall (λ v, is_nullish v = false) (toml_canon <$> l).
Proof. intros Hl. apply Forall_fmap. eapply Forall_impl; [exact Hl|]. apply toml_canon_defined. Qed.
