(* ===== verification/Factory.v ===== *)
(** * The AliceNet factory and its proxies on chain

    [contracts/libraries/factory/AliceNetFactoryBase.sol],
    [contracts/AliceNetFactory.sol], [contracts/Proxy.sol],
    [contracts/libraries/proxy/*.sol] and [contracts/utils/DeterministicAddress.sol]:
    the contract the deployment tasks drive.  The EVM is represented by the
    accounts the factory creates, their nonces and the event log; the code of
    the other contracts is a parameter ([Evm]) that says whether a call or a
    constructor succeeds and which events it emits.  Ether balances are not
    tracked. *)

From S2P Require Import Prelude JsValue Constants Ethers.
From stdpp Require Import options.
Local Open Scope Z_scope.

(** ** The proxy's implementation slot ([Proxy.sol], [ProxyInternalUpgradeLock.sol],
    [ProxyInternalUpgradeUnlock.sol])

    One 256-bit storage word: the low 160 bits hold the implementation, the
    high 96 bits the lock pattern. *)
Module ProxySlot.
Definition LOCK : Z := 0xca11c0de15dead10cced0000.
Definition LOCK_WORD : Z := 0xca11c0de15dead10cced00000000000000000000000000000000000000000000.
Definition ADDR_MASK : Z := 0x000000000000000000000000ffffffffffffffffffffffffffffffffffffffff.

(** [getImplementationAddress] *)
Definition getImplementationAddress (slot : Z) : address := Z.land slot ADDR_MASK.

(** [admin]: [calldataload(0x04)] is a 256-bit word; [None] is the revert
    with ["imploc"]. *)
Definition admin (slot word : Z) : option Z :=
  let newImpl := Z.shiftr (Z.shiftl word 96 mod 2 ^ 256) 96 in
  if Z.shiftr slot 160 =? LOCK then None else Some newImpl.

Definition __lockImplementation (slot : Z) : Z := Z.lor LOCK_WORD slot.
Definition __unlockImplementation (slot : Z) : Z := Z.land ADDR_MASK slot.

Definition locked (slot : Z) : bool := Z.shiftr slot 160 =? LOCK.

Lemma mask_mod z : Z.land z ADDR_MASK = z mod 2 ^ 160.
Proof. change ADDR_MASK with (Z.ones 160). by rewrite Z.land_ones by lia. Qed.

Lemma admin_word word : Z.shiftr (Z.shiftl word 96 mod 2 ^ 256) 96 = word mod 2 ^ 160.
Proof.
  rewrite Z.shiftl_mul_pow2, Z.shiftr_div_pow2 by lia.
  change (2 ^ 256) with (2 ^ 160 * 2 ^ 96). rewrite Z.mul_mod_distr_r by lia.
  by rewrite Z.div_mul by lia.
Qed.

Lemma admin_unlocked slot a :
  locked slot = false → 0 ≤ a < 2 ^ 160 → admin slot a = Some a.
Proof.
  intros Hl Ha. unfold admin, locked in *. rewrite Hl, admin_word.
  by rewrite Z.mod_small by done.
Qed.

Lemma lock_shift slot : 0 ≤ slot < 2 ^ 160 → Z.shiftr (__lockImplementation slot) 160 = LOCK.
Proof.
  intros Hs. unfold __lockImplementation. rewrite Z.shiftr_lor.
  rewrite (Z.shiftr_div_pow2 slot), Z.div_small by lia. reflexivity.
Qed.

Lemma small_unlocked slot : 0 ≤ slot < 2 ^ 160 → locked slot = false.
Proof.
  intros Hs. unfold locked. by rewrite Z.shiftr_div_pow2, Z.div_small by lia.
Qed.

Lemma getImpl_small a : 0 ≤ a < 2 ^ 160 → getImplementationAddress a = a.
Proof. intros. unfold getImplementationAddress. rewrite mask_mod. by apply Z.mod_small. Qed.

Lemma lock_impl slot :
  getImplementationAddress (__lockImplementation slot) = getImplementationAddress slot.
Proof.
  unfold getImplementationAddress, __lockImplementation.
  rewrite Z.land_lor_distr_l.
  change (Z.land LOCK_WORD ADDR_MASK) with 0. by rewrite Z.lor_0_l.
Qed.

(** Locking a proxy keeps its implementation and makes every internal
    upgrade revert; unlocking brings back the slot it had, after which an
    upgrade stores exactly the new address. *)
Lemma proxy_lock_cycle (slot a : Z) :
  0 ≤ slot < 2 ^ 160 → 0 ≤ a < 2 ^ 160 →
  getImplementationAddress (__lockImplementation slot) = slot ∧
  (∀ word, admin (__lockImplementation slot) word = None) ∧
  __unlockImplementation (__lockImplementation slot) = slot ∧
  admin (__unlockImplementation (__lockImplementation slot)) a = Some a ∧
  getImplementationAddress a = a.
Proof.
  intros Hs Ha.
  assert (__unlockImplementation (__lockImplementation slot) = slot) as Hun.
  { unfold __unlockImplementation. rewrite Z.land_comm.
    etrans; [apply lock_impl|by apply getImpl_small]. }
  split_and!.
  - rewrite lock_impl. by apply getImpl_small.
  - intros word. unfold admin. by rewrite lock_shift, Z.eqb_refl.
  - done.
  - rewrite Hun. by apply admin_unlocked; [apply small_unlocked|].
  - by apply getImpl_small.
Qed.
End ProxySlot.

(** ** Accounts, calls and events *)

Record event := {
  ev_address : address;
  ev_name : option string;                     (* undefined when the log is not in the ABI *)
  ev_args : option (list (string * jsval));
  ev_topics : list string }.

(** Storage of [AliceNetFactoryBase]; the immutables are kept with it. *)
Record FactoryState := {
  f_owner : address;
  f_contracts : list string;
  f_implementation : address;
  f_proxyTemplate : address;
  f_aTokenAddress : address;
  f_externalContractRegistry : gmap string address }.

Inductive account :=
  | KFactory (st : FactoryState)
  | KProxy (factory : address) (slot : Z)   (* made by _deployProxy *)
  | KTemplate                     (* the proxy template: Proxy's creation code *)
  | KCode (code : string).        (* any other contract, by its creation code *)

Record chain := {
  accounts : gmap address account;
  nonces : gmap address Z }.

Record MultiCallArgs := { target : address; value : Z; data : string }.

(** The external functions of [AliceNetFactory.sol] and
    [AliceNetFactoryBase.sol] that change state. *)
Inductive factory_call :=
  | FCallAny (target_ : address) (value_ : Z) (cdata_ : string)
  | FDelegateCallAny (target_ : address) (cdata_ : string)
  | FDeployCreate (deployCode_ : string)
  | FDeployCreate2 (value_ : Z) (salt_ : string) (deployCode_ : string)
  | FDeployProxy (salt_ : string)
  | FInitializeContract (contract_ : address) (initCallData_ : string)
  | FMultiCall (cdata_ : list MultiCallArgs)
  | FUpgradeProxy (salt_ : string) (newImpl_ : address) (initCallData_ : string)
  | FSetImplementation (newImplementationAddress_ : address)
  | FAddNewExternalContract (salt_ : string) (newContractAddress_ : address)
  | FSetOwner (newOwner_ : address).

(** Code outside the factory, and the ABI coding of calls.  During a call
    such code emits events, leaves the slot of the proxy or the storage of the
    factory it runs on, or reverts.  What else it may do (create contracts,
    call others, destroy itself) is not part of the call here; [FactoryHistory]
    treats it as changes of the chain of their own. *)
Class Evm := {
  (** Runs creation code at the new address: [None] when it reverts. *)
  run_constructor : chain → address → string → option (list event);
  (** The creation code leaves a contract with code. *)
  has_code : string → bool;
  (** Calls code that is neither the factory's nor the proxy's own. *)
  call_code : chain → address → address → Z → string → option (list event);
  (** An implementation run by a proxy, [proxied_code c from proxy impl value
      data slot]: the implementation slot it leaves, and its events. *)
  proxied_code : chain → address → address → address → Z → string → Z → option (Z * list event);
  (** Code run on the factory's storage, [delegated_code c factory target
      data st]: the storage it leaves, and its events. *)
  delegated_code : chain → address → address → string → FactoryState → option (FactoryState * list event);
  (** The factory's dispatcher: [None] selects its fallback. *)
  decode_call : string → option factory_call;
  (** [abi.encodeWithSelector(0xca11c0de, a)] and its recognition: 0x24 bytes
      that start with the selector. *)
  encode_upgrade : address → string;
  decode_upgrade : string → option Z;
  gas_used : chain → factory_call → Z;
  estimate_gas : chain → factory_call → Z;
  estimate_deploy_gas : chain → Z;
  (** AToken's creation code with the factory's constructor argument, the
      address of the legacy token, appended. *)
  atoken_creation : jsval → string;
}.

Class EvmLaws `{Ethers, Evm} : Prop := {
  decode_deployCreate code d :
    encodeFunctionData ALICENET_FACTORY DEPLOY_CREATE [JStr code] = Some d →
    decode_call d = Some (FDeployCreate code);
  decode_deployProxy salt d :
    encodeFunctionData ALICENET_FACTORY DEPLOY_PROXY [JStr salt] = Some d →
    decode_call d = Some (FDeployProxy salt);
  decode_upgradeProxy salt a init d :
    encodeFunctionData ALICENET_FACTORY UPGRADE_PROXY [JStr salt; JAddr a; JStr init] = Some d →
    decode_call d = Some (FUpgradeProxy salt a init);
  decode_encode_upgrade a : 0 ≤ a < 2 ^ 160 → decode_upgrade (encode_upgrade a) = Some a;
}.

Definition METAMORPHIC_CODE : string := "0x6020363636335afa1536363636515af43d36363e3d36f3".
Definition METAMORPHIC_HASH : string :=
  "0x1c0bf703a3415cada9785e89e9d70314c3111ae7d8e04f33bb42eb1d264088be".
Definition ATOKEN_SALT : string :=
  "0x41546f6b656e0000000000000000000000000000000000000000000000000000".

(** The empty byte string. *)
Definition EMPTY : string := "0x".

Definition factory_event (self : address) (name : string) (a : address) : event :=
  {| ev_address := self; ev_name := Some name;
     ev_args := Some [(CONTRACT_ADDR, JAddr a)]; ev_topics := [] |}.

(** ** Execution: state and log, [None] is a revert *)

Definition X (A : Type) : Type := chain * list event → option (A * (chain * list event)).
Definition xret {A} (a : A) : X A := λ s, Some (a, s).
Definition revert {A} : X A := λ _, None.
Definition xbind {A B} (m : X A) (k : A → X B) : X B :=
  λ s, match m s with Some (a, s') => k a s' | None => None end.
Notation "x <<- m ;; k" := (xbind m (λ x, k))
  (at level 100, m at next level, right associativity) : js_scope.
Definition require (b : bool) : X unit := if b then xret tt else revert.
Definition xchain : X chain := λ s, Some (s.1, s).
Definition emit (es : list event) : X unit := λ s, Some (tt, (s.1, s.2 ++ es)).
Definition xof_option {A} (o : option A) : X A :=
  match o with Some a => xret a | None => revert end.

Definition set_account (a : address) (k : account) : X unit :=
  λ s, Some (tt, ({| accounts := <[a := k]> (accounts s.1); nonces := nonces s.1 |}, s.2)).
Definition set_nonce (a : address) (n : Z) : X unit :=
  λ s, Some (tt, ({| accounts := accounts s.1; nonces := <[a := n]> (nonces s.1) |}, s.2)).
Definition nonce_of (c : chain) (a : address) : Z := default 0 (nonces c !! a).

(** An address with neither code nor transactions. *)
Definition fresh (c : chain) (a : address) : bool :=
  bool_decide (accounts c !! a = None) && (nonce_of c a =? 0).

(** A new contract at [a]; its nonce starts at 1.  The creation fails on an
    address that is in use. *)
Definition create_at (self a : address) (k : account) : X (option address) :=
  c <<- xchain ;;
  _ <<- set_nonce self (nonce_of c self + 1) ;;
  if fresh c a
  then _ <<- set_account a k ;; _ <<- set_nonce a 1 ;; xret (Some a)
  else xret None.

(** The EVM's limit on nested calls. *)
Definition CALL_DEPTH : nat := 1024.
Lemma CALL_DEPTH_SS : CALL_DEPTH = S (S 1022).
Proof. reflexivity. Qed.
#[global] Opaque CALL_DEPTH.

Section Contracts.
Context `{Ethers, Evm}.

(** The CREATE and CREATE2 opcodes: [None] is the zero address. *)
Definition create (self : address) (code : string) : X (option address) :=
  c <<- xchain ;;
  let a := getContractAddress self (nonce_of c self) in
  match run_constructor c a code with
  | Some es => _ <<- emit es ;; create_at self a (KCode code)
  | None => xret None
  end.

Definition create2 (self : address) (salt code : string) : X (option address) :=
  c <<- xchain ;;
  let a := getCreate2Address self salt (keccak256 code) in
  match run_constructor c a code with
  | Some es => _ <<- emit es ;; create_at self a (KCode code)
  | None => xret None
  end.

(** [DeterministicAddress.sol] *)
Definition getMetamorphicContractAddress (salt : string) (factory : address) : address :=
  getCreate2Address factory salt METAMORPHIC_HASH.

(** [Proxy.sol: _fallback]: calls by the factory with the upgrade selector
    reach [admin], all others are delegated to the implementation. *)
Definition proxy_fallback (from self : address) (v : Z) (d : string)
    (factory : address) (slot : Z) : X unit :=
  match (if from =? factory then decode_upgrade d else None) with
  | Some word =>
      slot' <<- xof_option (ProxySlot.admin slot word) ;;
      set_account self (KProxy factory slot')
  | None =>
      c <<- xchain ;;
      let impl := ProxySlot.getImplementationAddress slot in
      match accounts c !! impl with
      | Some _ =>
          r <<- xof_option (proxied_code c from self impl v d slot) ;;
          _ <<- set_account self (KProxy factory r.1) ;;
          emit r.2
      | None => xret tt       (* no code to run *)
      end
  end.

Section Functions.
(** [call from to value data]: the CALL opcode one level deeper. *)
Context (call : address → address → Z → string → X unit).
Context (self : address).

Definition get_state : X FactoryState :=
  c <<- xchain ;;
  match accounts c !! self with Some (KFactory st) => xret st | _ => revert end.
Definition put_state (st : FactoryState) : X unit := set_account self (KFactory st).

(** [onlyOwner] *)
Definition onlyOwner (sender : address) : X unit :=
  st <<- get_state ;; require ((sender =? self) || (sender =? f_owner st)).

Definition _callAny (target_ : address) (value_ : Z) (cdata_ : string) : X unit :=
  call self target_ value_ cdata_.

(** What delegated code leaves; [_proxyTemplate] and [_aTokenAddress] are
    immutables, part of the factory's code. *)
Definition delegated_state (st st' : FactoryState) : FactoryState :=
  {| f_owner := f_owner st'; f_contracts := f_contracts st';
     f_implementation := f_implementation st'; f_proxyTemplate := f_proxyTemplate st;
     f_aTokenAddress := f_aTokenAddress st;
     f_externalContractRegistry := f_externalContractRegistry st' |}.

Definition _delegateCallAny (target_ : address) (cdata_ : string) : X unit :=
  st <<- get_state ;;
  c <<- xchain ;;
  match accounts c !! target_ with
  | Some _ =>
      r <<- xof_option (delegated_code c self target_ cdata_ st) ;;
      _ <<- put_state (delegated_state st r.1) ;;
      emit r.2
  | None => xret tt
  end.

Definition push_salt (salt : string) : X unit :=
  st <<- get_state ;;
  put_state {| f_owner := f_owner st; f_contracts := f_contracts st ++ [salt];
               f_implementation := f_implementation st;
               f_proxyTemplate := f_proxyTemplate st;
               f_aTokenAddress := f_aTokenAddress st;
               f_externalContractRegistry := f_externalContractRegistry st |}.

Definition set_implementation (a : address) : X unit :=
  st <<- get_state ;;
  put_state {| f_owner := f_owner st; f_contracts := f_contracts st;
               f_implementation := a; f_proxyTemplate := f_proxyTemplate st;
               f_aTokenAddress := f_aTokenAddress st;
               f_externalContractRegistry := f_externalContractRegistry st |}.

(** The new account is known by its code alone, also when that is the code of
    a proxy: [KProxy] are the proxies of [_deployProxy]. *)
Definition _deployCreate (deployCode_ : string) : X address :=
  r <<- create self deployCode_ ;;
  a <<- xof_option r ;;
  _ <<- require (has_code deployCode_) ;;   (* _codeSizeZeroRevert *)
  _ <<- emit [factory_event self DEPLOYED_RAW a] ;;
  xret a.

Definition _deployCreate2 (salt_ deployCode_ : string) : X address :=
  r <<- create2 self salt_ deployCode_ ;;
  a <<- xof_option r ;;
  _ <<- push_salt salt_ ;;
  _ <<- emit [factory_event self DEPLOYED_RAW a] ;;
  xret a.

(** The metamorphic creation code asks the factory's fallback for
    [_implementation] and delegates to it; the template there builds a
    proxy that belongs to the factory. *)
Definition metamorphic_create2 (salt_ : string) : X (option address) :=
  st <<- get_state ;;
  c <<- xchain ;;
  match accounts c !! f_implementation st with
  | Some KTemplate =>
      create_at self (getCreate2Address self salt_ (keccak256 METAMORPHIC_CODE))
                (KProxy self 0)
  | _ => xret None
  end.

Definition _deployProxy (salt_ : string) : X address :=
  st <<- get_state ;;
  _ <<- set_implementation (f_proxyTemplate st) ;;
  r <<- metamorphic_create2 salt_ ;;
  a <<- xof_option r ;;
  _ <<- push_salt salt_ ;;
  _ <<- emit [factory_event self DEPLOYED_PROXY a] ;;
  xret a.

Definition _initializeContract (contract_ : address) (initCallData_ : string) : X unit :=
  if bool_decide (initCallData_ = EMPTY) then xret tt
  else call self contract_ 0 initCallData_.

Fixpoint _multiCall (cdata_ : list MultiCallArgs) : X unit :=
  match cdata_ with
  | [] => xret tt
  | m :: ms => _ <<- _callAny (target m) (value m) (data m) ;; _multiCall ms
  end.

(** [assert(IProxy(proxy).getImplementationAddress() == newImpl_)]: a
    view call to an account without code reverts. *)
Definition check_implementation (proxy newImpl_ : address) : X unit :=
  c <<- xchain ;;
  match accounts c !! proxy with
  | Some (KProxy _ slot) => require (ProxySlot.getImplementationAddress slot =? newImpl_)
  | _ => revert
  end.

Definition _upgradeProxy (salt_ : string) (newImpl_ : address) (initCallData_ : string) : X unit :=
  let proxy := getMetamorphicContractAddress salt_ self in
  _ <<- call self proxy 0 (encode_upgrade newImpl_) ;;    (* __upgrade *)
  _ <<- check_implementation proxy newImpl_ ;;
  _initializeContract proxy initCallData_.

(** Functions that are not payable reject ether. *)
Definition payable (fc : factory_call) : bool :=
  match fc with
  | FCallAny _ _ _ | FDelegateCallAny _ _ | FDeployCreate2 _ _ _ => true
  | _ => false
  end.

Definition factory_exec (sender : address) (v : Z) (fc : factory_call) : X unit :=
  _ <<- require (payable fc || (v =? 0)) ;;
  _ <<- onlyOwner sender ;;
  match fc with
  | FCallAny t w d => _callAny t w d
  | FDelegateCallAny t d => _delegateCallAny t d
  | FDeployCreate code => _ <<- _deployCreate code ;; xret tt
  | FDeployCreate2 _ salt code => _ <<- _deployCreate2 salt code ;; xret tt
  | FDeployProxy salt => _ <<- _deployProxy salt ;; xret tt
  | FInitializeContract a d => _initializeContract a d
  | FMultiCall l => _multiCall l
  | FUpgradeProxy salt a d => _upgradeProxy salt a d
  | FSetImplementation a => set_implementation a
  | FAddNewExternalContract salt a =>
      st <<- get_state ;;
      if bool_decide (is_Some (f_externalContractRegistry st !! salt)) then revert
      else put_state {| f_owner := f_owner st; f_contracts := f_contracts st;
             f_implementation := f_implementation st; f_proxyTemplate := f_proxyTemplate st;
             f_aTokenAddress := f_aTokenAddress st;
             f_externalContractRegistry := <[salt := a]> (f_externalContractRegistry st) |}
  | FSetOwner a =>
      st <<- get_state ;;
      put_state {| f_owner := a; f_contracts := f_contracts st;
         f_implementation := f_implementation st; f_proxyTemplate := f_proxyTemplate st;
         f_aTokenAddress := f_aTokenAddress st;
         f_externalContractRegistry := f_externalContractRegistry st |}
  end.
End Functions.

(** The CALL opcode; [depth] is what is left of the EVM's 1024 levels. *)
Fixpoint call (depth : nat) (from to : address) (v : Z) (d : string) : X unit :=
  match depth with
  | O => revert
  | S depth =>
      c <<- xchain ;;
      match accounts c !! to with
      | None => xret tt
      | Some (KProxy f slot) => proxy_fallback from to v d f slot
      | Some (KFactory _) =>
          match decode_call d with
          | Some fc => factory_exec (call depth) to from v fc
          | None => require (v =? 0)          (* fallback() *)
          end
      | Some _ => es <<- xof_option (call_code c from to v d) ;; emit es
      end
  end.


(** A transaction from [from] to the factory: rolled back when it reverts. *)
Definition factory_tx (c : chain) (from factory : address) (fc : factory_call) :
    option (chain * list event) :=
  snd <$> factory_exec (call CALL_DEPTH) factory from 0 fc (c, []).

(** [lookup] *)
Definition lookup (self : address) (st : FactoryState) (salt_ : string) : address :=
  if decide (salt_ = ATOKEN_SALT) then f_aTokenAddress st
  else match f_externalContractRegistry st !! salt_ with
       | Some a => a
       | None => getMetamorphicContractAddress salt_ self
       end.

(** The constructor of [AliceNetFactoryBase] at address [self]: the proxy
    template is created with CREATE, AToken with CREATE2. *)
Definition factory_constructor (self deployer : address) (atokenCode : string) : X unit :=
  _ <<- set_nonce self 1 ;;
  c <<- xchain ;;
  let t := getContractAddress self (nonce_of c self) in
  r <<- create_at self t KTemplate ;;
  template <<- xof_option r ;;
  r <<- create2 self ATOKEN_SALT atokenCode ;;
  atoken <<- xof_option r ;;
  _ <<- require (has_code atokenCode) ;;
  set_account self (KFactory {| f_owner := deployer; f_contracts := [];
    f_implementation := 0; f_proxyTemplate := template; f_aTokenAddress := atoken;
    f_externalContractRegistry := ∅ |}).
End Contracts.
