(* ===== verification/Instances.v ===== *)
(** * A concrete instance of the libraries

    Executable stand-ins for ethers, the TOML package and the code behind the
    factory, for which the laws of [Ethers] and [Factory] are proved.  They show
    that the laws can hold together and let the theorems be evaluated on
    concrete deployments; no theorem about the scripts depends on them. *)

From S2P Require Import Prelude JsValue Numbers Constants Ethers Factory.
From stdpp Require Import options.
Local Open Scope Z_scope.

(** ** Values as text *)

Section JsInd.
Context (P : jsval → Prop).
Context (Hu : P JUndefined) (Hnull : P JNull) (Hb : ∀ b, P (JBool b)) (Hn : ∀ z, P (JNum z))
  (Hg : ∀ z, P (JBig z)) (Hs : ∀ s, P (JStr s)) (Ha : ∀ a, P (JAddr a))
  (Hl : ∀ l, Forall P l → P (JArr l)) (Ho : ∀ o, Forall (λ kv, P kv.2) o → P (JObj o))
  (Hf : ∀ n, P (JFun n)).

Fixpoint jsval_ind_nested (v : jsval) : P v :=
  match v with
  | JUndefined => Hu | JNull => Hnull | JBool b => Hb b | JNum z => Hn z | JBig z => Hg z
  | JStr s => Hs s | JAddr a => Ha a
  | JArr l => Hl l ((fix go l := match l return Forall P l with
                     | [] => Forall_nil_2 P
                     | x :: l => Forall_cons_2 P x l (jsval_ind_nested x) (go l) end) l)
  | JObj o => Ho o ((fix go o := match o return Forall (λ kv, P kv.2) o with
                     | [] => Forall_nil_2 _
                     | kv :: o => Forall_cons_2 _ kv o (jsval_ind_nested kv.2) (go o) end) o)
  | JFun n => Hf n
  end.
End JsInd.

Definition leaf : Type := (unit + bool + Z) + (Z + string) + (Z + string).

Fixpoint to_tree (v : jsval) : gen_tree leaf :=
  match v with
  | JUndefined => GenLeaf (inl (inl (inl (inl ()))))
  | JNull => GenNode 3 []
  | JBool b => GenLeaf (inl (inl (inl (inr b))))
  | JNum z => GenLeaf (inl (inl (inr z)))
  | JBig z => GenLeaf (inl (inr (inl z)))
  | JStr s => GenLeaf (inl (inr (inr s)))
  | JAddr a => GenLeaf (inr (inl a))
  | JFun n => GenLeaf (inr (inr n))
  | JArr l => GenNode 0 (to_tree <$> l)
  | JObj o => GenNode 1 ((λ kv, GenNode 2 [GenLeaf (inr (inr kv.1)); to_tree kv.2]) <$> o)
  end.

Fixpoint of_tree (t : gen_tree leaf) : jsval :=
  match t with
  | GenLeaf (inl (inl (inl (inl ())))) => JUndefined
  | GenLeaf (inl (inl (inl (inr b)))) => JBool b
  | GenLeaf (inl (inl (inr z))) => JNum z
  | GenLeaf (inl (inr (inl z))) => JBig z
  | GenLeaf (inl (inr (inr s))) => JStr s
  | GenLeaf (inr (inl a)) => JAddr a
  | GenLeaf (inr (inr n)) => JFun n
  | GenNode 1 ts =>
      JObj ((λ t, match t with
                  | GenNode _ [GenLeaf (inr (inr k)); v] => (k, of_tree v)
                  | _ => (EmptyString, JUndefined)
                  end) <$> ts)
  | GenNode 3 _ => JNull
  | GenNode _ ts => JArr (of_tree <$> ts)
  end.

Lemma of_to_tree v : of_tree (to_tree v) = v.
Proof.
  induction v as [| | | | | | |l IH|o IH|] using jsval_ind_nested; try done.
  - change (JArr (of_tree <$> (to_tree <$> l)) = JArr l). f_equal.
    induction IH as [|x l Hx _ IH]; [done|]. rewrite !fmap_cons. by rewrite Hx, IH.
  - cbn [to_tree of_tree]. f_equal.
    induction IH as [|[k x] o Hx _ IH]; [done|]. rewrite !fmap_cons. cbn [fst snd] in *.
    by rewrite Hx, IH.
Qed.

(** A positive number as text of ["0"] and ["1"]. *)
Fixpoint pos_str (p : positive) : string :=
  match p with
  | xH => EmptyString
  | xO p => String "0" (pos_str p)
  | xI p => String "1" (pos_str p)
  end.

Fixpoint str_pos (s : string) : positive :=
  match s with
  | EmptyString => xH
  | String c s => if decide (c = "1"%char) then xI (str_pos s) else xO (str_pos s)
  end.

Lemma str_pos_str p : str_pos (pos_str p) = p.
Proof. induction p; simpl; congruence. Qed.

Lemma pos_str_clean p c :
  c ≠ "0"%char → c ≠ "1"%char → string_elem c (pos_str p) = false.
Proof. intros. induction p; simpl; rewrite ?bool_decide_false by done; done. Qed.

Definition js_text (v : jsval) : string := pos_str (encode (to_tree v)).
Definition js_untext (s : string) : option jsval := of_tree <$> decode (str_pos s).

Lemma js_untext_text v : js_untext (js_text v) = Some v.
Proof. unfold js_untext, js_text. rewrite str_pos_str, decode_encode. simpl. by rewrite of_to_tree. Qed.

(** ** TOML *)

Definition drop_key (k : string) (o : list (string * jsval)) := filter (λ kv, kv.1 ≠ k) o.

Fixpoint canon (v : jsval) : jsval :=
  match v with
  | JArr l => JArr (canon <$> l)
  | JObj o =>
      JObj ((fix go o := match o with
             | [] => []
             | (k, v) :: o => if is_nullish v then drop_key k (go o)
                              else (k, canon v) :: drop_key k (go o)
             end) o)
  | v => v
  end.

Definition canon_obj (o : list (string * jsval)) : list (string * jsval) :=
  match canon (JObj o) with JObj o' => o' | _ => [] end.

Lemma canon_obj_cons k v o :
  canon_obj ((k, v) :: o) =
  if is_nullish v then drop_key k (canon_obj o) else (k, canon v) :: drop_key k (canon_obj o).
Proof. done. Qed.

Lemma canon_JObj o : canon (JObj o) = JObj (canon_obj o).
Proof. done. Qed.

Lemma drop_key_get k o k' :
  obj_get (drop_key k o) k' = if decide (k = k') then None else obj_get o k'.
Proof.
  unfold drop_key. induction o as [|[k1 v1] o IH]; [by case_decide|].
  rewrite filter_cons. simpl. destruct (decide (k1 ≠ k)) as [Hk|Hk%dec_stable]; simpl; rewrite IH;
    repeat case_decide; subst; done.
Qed.

Lemma drop_key_notin k o : k ∉ o.*1 → drop_key k o = o.
Proof.
  intros Hk. apply filter_all, Forall_forall. intros [k' v] Hin E. apply Hk. simpl in E. subst.
  by apply (list_elem_of_fmap_2 fst) in Hin.
Qed.

Lemma drop_key_keys k o : k ∉ (drop_key k o).*1.
Proof.
  intros ([k' v] & E & [Hk _]%list_elem_of_filter)%list_elem_of_fmap. simpl in *. congruence.
Qed.

Lemma canon_undefined v : is_nullish v = false → is_nullish (canon v) = false.
Proof. by destruct v. Qed.

Lemma drop_key_NoDup k o : NoDup o.*1 → NoDup (drop_key k o).*1.
Proof.
  unfold drop_key. induction o as [|[k' v] o IH]; [done|]. intros [Hn Ho]%NoDup_cons.
  rewrite filter_cons. case_decide; [|auto]. cbn [fmap list_fmap fst]. constructor; [|auto].
  intros ([k1 v1] & E & [_ Hin]%list_elem_of_filter)%list_elem_of_fmap. apply Hn. simpl in E. subst.
  by apply (list_elem_of_fmap_2 fst) in Hin.
Qed.

Lemma canon_obj_canonical o :
  Forall (λ kv, canon (canon kv.2) = canon kv.2) o →
  NoDup (canon_obj o).*1 ∧
  Forall (λ kv, is_nullish kv.2 = false ∧ canon kv.2 = kv.2) (canon_obj o).
Proof.
  induction 1 as [|[k v] o Hv _ [IH1 IH2]]; [split; constructor|]. rewrite canon_obj_cons.
  assert (Forall (λ kv, is_nullish kv.2 = false ∧ canon kv.2 = kv.2) (drop_key k (canon_obj o)))
    as Hd by (rewrite Forall_forall in *; intros x [_ Hx]%list_elem_of_filter; by apply IH2).
  destruct (is_nullish v) eqn:E.
  - split; [by apply drop_key_NoDup|done].
  - split; [|by constructor; [split; [apply canon_undefined|]|]].
    cbn [fmap list_fmap fst]. constructor; [apply drop_key_keys|by apply drop_key_NoDup].
Qed.

Lemma canon_obj_fixed o :
  NoDup o.*1 → Forall (λ kv, is_nullish kv.2 = false ∧ canon kv.2 = kv.2) o →
  canon_obj o = o.
Proof.
  intros Hn Hf. induction Hf as [|[k v] o [Hu Hc] _ IH]; [done|].
  rewrite canon_obj_cons. simpl in *. rewrite Hu, Hc.
  apply NoDup_cons in Hn as [Hk Hn]. rewrite IH, drop_key_notin; done.
Qed.

Lemma canon_idem v : canon (canon v) = canon v.
Proof.
  induction v as [| | | | | | |l IH|o IH|] using jsval_ind_nested; try done.
  - change (JArr (canon <$> (canon <$> l)) = JArr (canon <$> l)). f_equal.
    induction IH as [|x l Hx _ IHl]; [done|]. rewrite !fmap_cons. by rewrite Hx, IHl.
  - rewrite !canon_JObj. f_equal. apply canon_obj_canonical in IH as []. by apply canon_obj_fixed.
Qed.

Lemma canon_obj_get o k :
  obj_get (canon_obj o) k =
  match obj_get o k with None | Some (JUndefined | JNull) => None | Some v => Some (canon v) end.
Proof.
  induction o as [|[k' v] o IH]; [done|]. rewrite canon_obj_cons.
  destruct (is_nullish v) eqn:E; simpl; rewrite drop_key_get, IH; case_decide; subst; try done;
    by destruct v.
Qed.

(** The lines that are not comments. *)
Definition uncomment (s : string) : string :=
  join nl (filter (λ l, startsWith "#" l = false) (split_on nl_char s)).

Lemma uncomment_text v : uncomment (js_text v) = js_text v.
Proof.
  unfold uncomment. rewrite split_on_none by (by apply pos_str_clean).
  rewrite filter_cons_True; [done|]. unfold js_text. by destruct (encode (to_tree v)).
Qed.

#[local] Instance toml_model : Toml := {|
  toml_stringify v := match v with JObj _ => Some (js_text (canon v)) | _ => None end;
  toml_parse s := js_untext (uncomment s);
  toml_canon := canon |}.

#[local] Instance toml_model_laws : TomlLaws.
Proof.
  split; simpl; intros.
  - destruct v; simplify_eq. by rewrite uncomment_text, js_untext_text.
  - unfold uncomment. change (nl ++s s) with (String nl_char s).
    rewrite split_on_app by done. rewrite filter_cons_False; [done|]. simpl in *. congruence.
  - apply canon_idem.
  - done.
  - done.
  - done.
  - exists (canon_obj o). split; [done|]. apply canon_obj_get.
  - by apply canon_undefined.
Qed.

(** ** ethers *)

#[local] Instance ethers_model : Ethers := {|
  formatBytes32String s := if (String.length s <=? 31)%nat then Some ("0x" ++s s) else None;
  parseBytes32String s := if startsWith "0x" s then Some (slice 2 s) else None;
  keccak256 s := if decide (s = METAMORPHIC_CODE) then METAMORPHIC_HASH else "0xk" ++s s;
  getContractAddress a n := (a * 1000003 + n * 7919 + 1) mod 2 ^ 160;
  getCreate2Address a salt h :=
    (a * 1000033 + Z.pos (encode salt) * 7907 + Z.pos (encode h)) mod 2 ^ 160;
  hasContractFactory name := negb (bool_decide (name = EmptyString));
  encodeFunctionData c fn args := Some ("0x" ++s js_text (JArr [JStr c; JStr fn; JArr args]));
  getDeployData name args := Some (Some ("0x60" ++s js_text (JArr (JStr name :: args))));
  bn_toNumber z := if z <=? 2 ^ 53 - 1 then Some z else None;
  bn_fromNumber n := n ≫= λ z, if Z.abs z <? 2 ^ 53 - 1 then Some z else None;
  parseEther s := (λ z, z * 10 ^ 18) <$> parseInt (Some 10) s;
  addr_text a := "0x" ++s pretty a |}.

#[local] Instance ethers_model_laws : EthersLaws.
Proof.
  split; simpl; intros.
  - repeat case_match; simplify_eq. done.
  - case_match; simplify_eq. done.
  - unfold safe_integer in *. rewrite (proj2 (Z.leb_le _ _)); [done|lia].
  - by rewrite (proj2 (Z.ltb_lt _ _)).
  - by rewrite parseInt_pretty.
  - apply Z.mod_pos_bound. lia.
Qed.

(** ** Contracts other than the factory: all calls succeed, creation code is
    accepted when it starts like a constructor; multicalls are estimated at
    [est] gas. *)

Definition decode_factory_call (fn : string) (args : list jsval) : option factory_call :=
  match args with
  | [JStr x] => if decide (fn = DEPLOY_CREATE) then Some (FDeployCreate x)
                else if decide (fn = DEPLOY_PROXY) then Some (FDeployProxy x) else None
  | [JStr salt; JAddr a; JStr d] =>
      if decide (fn = UPGRADE_PROXY) then Some (FUpgradeProxy salt a d) else None
  | _ => None
  end.

Definition evm_model (est : Z) : Evm := {|
  run_constructor _ _ code := if startsWith "0x60" code then Some [] else None;
  has_code _ := true;
  call_code _ _ _ _ _ := Some [];
  proxied_code _ _ _ _ _ _ slot := Some (slot, []);
  delegated_code _ _ _ _ st := Some (st, []);
  decode_call d :=
    match js_untext (slice 2 d) with
    | Some (JArr [JStr c; JStr fn; JArr args]) =>
        if decide (c = ALICENET_FACTORY) then decode_factory_call fn args else None
    | _ => None
    end;
  encode_upgrade a := "0xca11c0de" ++s pos_str (encode a);
  decode_upgrade d := if startsWith "0xca11c0de" d then decode (str_pos (slice 10 d)) else None;
  gas_used _ _ := 21000;
  estimate_gas _ _ := est;
  estimate_deploy_gas _ := 5000000;
  atoken_creation v := "0x60" ++s js_text v |}.

Lemma evm_model_laws est : @EvmLaws ethers_model (evm_model est).
Proof.
  split; intros.
  1-3: cbn [encodeFunctionData ethers_model] in *; simplify_eq; cbn [decode_call evm_model];
    change (slice 2 ("0x" ++s ?t)) with t; rewrite js_untext_text; done.
  cbn [encode_upgrade decode_upgrade evm_model].
  change (slice 10 ("0xca11c0de" ++s ?t)) with t. change (startsWith _ _) with true. cbv iota.
  by rewrite str_pos_str, decode_encode.
Qed.
