(* ===== verification/World.v ===== *)
(** * What a script can observe and change

    node's synchronous file system, the chain behind the provider, and the
    trace of console output and provider requests.  The fixed part of the
    hardhat runtime environment (network, signers, artifacts, process
    environment) is the record [Hre].  A script is a state-passing function:
    an exception keeps the effects that happened before it. *)

From S2P Require Import Prelude JsValue Constants Artifacts Ethers Factory.
From stdpp Require Import options.
Local Open Scope Z_scope.

(** ** File system *)

Inductive node := File (content : string) | Dir.
Notation path := (list string).
Notation filesystem := (gmap (list string) node).

(** The segments of a path: empty segments and ["."] are dropped, [".."]
    removes the segment before it.  Symbolic links are not modelled; the
    first segment of an absolute path is ["/"]. *)
Definition push_seg (acc : path) (s : string) : path :=
  if decide (s = EmptyString ∨ s = ".") then acc
  else if decide (s = "..") then
    match last acc with
    | None => [".."]
    | Some x => if decide (x = "..") then acc ++ [s]
                else if decide (x = "/") then acc else removelast acc
    end
  else acc ++ [s].

Definition resolve (p : string) : path :=
  foldl push_seg (if startsWith "/" p then ["/"] else []) (split_on "/"%char p).

(** The working directory and the root are always directories. *)
Definition fs_at (fs : filesystem) (p : path) : option node :=
  if decide (p = [] ∨ p = ["/"]) then Some Dir else fs !! p.

(** Some proper ancestor is a regular file: nothing is found below it. *)
Fixpoint below_file (fs : filesystem) (pre p : path) : bool :=
  match p with
  | [] => false
  | s :: p =>
      match fs_at fs pre with Some (File _) => true | _ => below_file fs (pre ++ [s]) p end
  end.

Definition fs_lookup (fs : filesystem) (p : path) : option node :=
  if below_file fs [] p then None else fs_at fs p.

Definition is_dir (fs : filesystem) (p : path) : bool :=
  match fs_lookup fs p with Some Dir => true | _ => false end.

Definition fs_exists (fs : filesystem) (p : path) : bool :=
  bool_decide (is_Some (fs_lookup fs p)).

Definition fs_read (fs : filesystem) (p : string) : res string :=
  if is_dir fs (resolve p) then Throw (FsError "EISDIR" p)
  else match fs_lookup fs (resolve p) with
       | Some (File s) => Ok s
       | _ => Throw (FsError "ENOENT" p)
       end.

Definition fs_write (fs : filesystem) (p s : string) : res filesystem :=
  match fs_lookup fs (resolve p) with
  | Some Dir => Throw (FsError "EISDIR" p)
  | Some (File _) => Ok (<[resolve p := File s]> fs)
  | None => if is_dir fs (removelast (resolve p)) then Ok (<[resolve p := File s]> fs)
            else Throw (FsError "ENOENT" p)
  end.

Definition fs_mkdir (fs : filesystem) (p : string) : res filesystem :=
  if fs_exists fs (resolve p) then Throw (FsError "EEXIST" p)
  else if is_dir fs (removelast (resolve p)) then Ok (<[resolve p := Dir]> fs)
  else Throw (FsError "ENOENT" p).

(** ** Console, requests and transactions *)

(** Fee overrides of a transaction. *)
Record Fees := { maxPriorityFeePerGas : Z; maxFeePerGas : Z }.

Inductive io :=
  | ILog (msg : string)                      (* console.log of a text *)
  | ILogValues (vs : list jsval)             (* console.log of values *)
  | IErr (msg : string)                      (* console.error *)
  | IRpc (method : string)                   (* hre.network.provider.send *)
  | IRequest (method : string) (params : list jsval)   (* the same, with its parameters *)
  | IDeploy (from : address) (name : string) (args : list jsval) (fees : Fees)
  | ITx (from to : address) (fc : factory_call) (fees : option Fees)
  | ICall (from to : address) (value : Z) (data : string)   (* a call of another contract *)
  | ISend (from : address) (to : jsval) (value : Z)    (* a transfer of ether *)
  | ICreate (from : address) (name : string) (args : list jsval) (overrides : list (string * jsval))
                                             (* the creation of another contract *)
  | IWait (confirmations : option Z)         (* wait(n) on a transaction *)
  | IVerify (a : address)
  | IHttp (url : string) (body : jsval)      (* axios.post *)
  | IDelay (ms : Z)                          (* setTimeout, awaited *)
  | ISpawn (command : string) (args : list string)   (* child_process.spawn in a shell *)
  | IKill (signal : Z).                      (* a signal to the child process *)

(** ** The hardhat runtime environment *)

Record Hre := {
  hre_network : string;                      (* hre.network.name *)
  hre_chainId : Z;
  hre_gasPrice : Z;                          (* eth_gasPrice *)
  hre_maxPriorityFee : Z;                    (* eth_maxPriorityFeePerGas *)
  hre_signers : list address;
  hre_artifacts : Artifacts;
  hre_env : string → option string;          (* process.env *)
  hre_block : nat → Z;                       (* answers to eth_blockNumber, in order *)
  hre_sigGroup : Z → option string;          (* SigGroup of the side chain's block header *)
  (* The node's answers after the requests of a trace: balances of an account
     and of a token's holder, and whether it accepts a transfer of ether. *)
  hre_balance : list io → jsval → res Z;
  hre_tokenBalance : list io → address → jsval → res Z;
  hre_accepts : list io → address → jsval → Z → bool;
  hre_verify : address → option jserror }.   (* outcome of the "verify" task *)

Record world := {
  w_fs : filesystem;
  w_chain : chain;
  w_trace : list io }.

(** ** Scripts *)

Definition M (A : Type) : Type := world → res A * world.

Definition ret {A} (a : A) : M A := λ w, (Ok a, w).
Definition throw {A} (e : jserror) : M A := λ w, (Throw e, w).
Definition mbind_js {A B} (m : M A) (k : A → M B) : M B :=
  λ w, match m w with (Ok a, w') => k a w' | (Throw e, w') => (Throw e, w') end.
Definition lift {A} (r : res A) : M A := λ w, (r, w).

Notation "x <- m ;; k" := (mbind_js m (λ x, k))
  (at level 100, m at next level, right associativity) : js_scope.
Notation "m ;;; k" := (mbind_js m (λ _, k))
  (at level 100, right associativity) : js_scope.

(** [try { m } catch (e) { h(e) }] *)
Definition try_catch {A} (m : M A) (h : jserror → M A) : M A :=
  λ w, match m w with (Throw e, w') => h e w' | r => r end.

(** [for (const x of l) { ... }] *)
Fixpoint forM {A} (l : list A) (f : A → M unit) : M unit :=
  match l with
  | [] => ret tt
  | x :: l => f x ;;; forM l f
  end.

Fixpoint foldM {A B} (f : B → A → M B) (l : list A) (b : B) : M B :=
  match l with
  | [] => ret b
  | x :: l => b' <- f b x ;; foldM f l b'
  end.

Definition get_fs : M filesystem := λ w, (Ok (w_fs w), w).
Definition put_fs (fs : filesystem) : M unit :=
  λ w, (Ok tt, {| w_fs := fs; w_chain := w_chain w; w_trace := w_trace w |}).
Definition get_chain : M chain := λ w, (Ok (w_chain w), w).
Definition put_chain (c : chain) : M unit :=
  λ w, (Ok tt, {| w_fs := w_fs w; w_chain := c; w_trace := w_trace w |}).
Definition output (i : io) : M unit :=
  λ w, (Ok tt, {| w_fs := w_fs w; w_chain := w_chain w; w_trace := w_trace w ++ [i] |}).

Definition existsSync (p : string) : M bool :=
  fs <- get_fs ;; ret (fs_exists fs (resolve p)).
Definition readFileSync (p : string) : M string := fs <- get_fs ;; lift (fs_read fs p).
Definition writeFileSync (p s : string) : M unit :=
  fs <- get_fs ;; fs' <- lift (fs_write fs p s) ;; put_fs fs'.
Definition mkdirSync (p : string) : M unit :=
  fs <- get_fs ;; fs' <- lift (fs_mkdir fs p) ;; put_fs fs'.

(** [fs.statSync(p).isFile()] *)
Definition statIsFile (p : string) : M bool :=
  fs <- get_fs ;;
  if is_dir fs (resolve p) then ret false
  else match fs_lookup fs (resolve p) with
       | Some _ => ret true
       | None => throw (FsError "ENOENT" p)
       end.

Definition console_log (msg : string) : M unit := output (ILog msg).
Definition console_error (msg : string) : M unit := output (IErr msg).

(** Quiet mode: [process.env.silencer] is set and not ["false"]. *)
Definition silenced (hre : Hre) : bool :=
  match hre_env hre "silencer" with
  | None => false
  | Some s => negb (bool_decide (s = "false"))
  end.

(** [showState] of [alicenetFactoryTasks.ts] *)
Definition showState (hre : Hre) (message : string) : M unit :=
  if silenced hre then ret tt else console_log message.

(** Text of a value in a template literal or [Array.prototype.toString]. *)
Section Text.
Context `{Ethers}.
Fixpoint js_str (v : jsval) : string :=
  match v with
  | JUndefined => "undefined"
  | JNull => "null"
  | JBool b => if b then "true" else "false"
  | JNum z | JBig z => pretty z
  | JStr s => s
  | JAddr a => addr_text a
  | JArr l => join "," ((λ x, if is_nullish x then EmptyString else js_str x) <$> l)
  | JObj _ => "[object Object]"
  | JFun name => "function " ++s name ++s "() { [native code] }"
  end.
End Text.

(** ** Lemmas: sequencing *)

Lemma mbind_Ok {A B} (m : M A) (k : A → M B) w a w' :
  m w = (Ok a, w') → mbind_js m k w = k a w'.
Proof. unfold mbind_js. by intros ->. Qed.

Lemma mbind_Throw {A B} (m : M A) (k : A → M B) w e w' :
  m w = (Throw e, w') → mbind_js m k w = (Throw e, w').
Proof. unfold mbind_js. by intros ->. Qed.

Lemma mbind_inv {A B} (m : M A) (k : A → M B) w b w' :
  mbind_js m k w = (Ok b, w') → ∃ a w1, m w = (Ok a, w1) ∧ k a w1 = (Ok b, w').
Proof. unfold mbind_js. destruct (m w) as [[a|e] w1]; naive_solver. Qed.

Lemma mbind_lift {A B} (r : res A) (k : A → M B) w a :
  r = Ok a → mbind_js (lift r) k w = k a w.
Proof. by intros ->. Qed.

Lemma mbind_lift_ok {A B} (a : A) (k : A → M B) w : mbind_js (lift (Ok a)) k w = k a w.
Proof. reflexivity. Qed.

Lemma mbind_assoc {A B C} (m : M A) (k : A → M B) (h : B → M C) w :
  mbind_js (mbind_js m k) h w = mbind_js m (λ a, mbind_js (k a) h) w.
Proof. unfold mbind_js. by destruct (m w) as [[a|e] w1]. Qed.

Lemma mbind_ret {A B} (a : A) (k : A → M B) w : mbind_js (ret a) k w = k a w.
Proof. reflexivity. Qed.

Lemma mbind_ext {A B} (m : M A) (k k' : A → M B) w :
  (∀ a w', m w = (Ok a, w') → k a w' = k' a w') → mbind_js m k w = mbind_js m k' w.
Proof. intros Hk. unfold mbind_js. destruct (m w) as [[a|e] w'] eqn:E; [by apply Hk|done]. Qed.

(** Runs a computation whose first step is known. *)
Ltac mstep H := rewrite (mbind_Ok _ _ _ _ _ H).

(** *** Computations that leave the world alone, on every outcome *)

Definition pure_M {A} (m : M A) : Prop := ∀ w, (m w).2 = w.

Lemma pure_ret {A} (a : A) : pure_M (ret a).
Proof. done. Qed.
Lemma pure_throw {A} e : pure_M (@throw A e).
Proof. done. Qed.
Lemma pure_lift {A} (r : res A) : pure_M (lift r).
Proof. done. Qed.
Lemma pure_get_fs : pure_M get_fs.
Proof. done. Qed.
Lemma pure_get_chain : pure_M get_chain.
Proof. done. Qed.
Lemma pure_bind {A B} (m : M A) (k : A → M B) :
  pure_M m → (∀ a, pure_M (k a)) → pure_M (mbind_js m k).
Proof.
  intros Hm Hk w. unfold mbind_js. specialize (Hm w).
  destruct (m w) as [[a|e] w1]; simpl in *; subst; [apply Hk|done].
Qed.
#[export] Hint Resolve pure_ret pure_throw pure_lift pure_get_fs pure_get_chain : bridge.

Ltac mpure :=
  repeat first
    [ progress auto with bridge
    | match goal with
      | |- pure_M (mbind_js _ _) => apply pure_bind; [|intros ?]
      | |- pure_M (match ?x with _ => _ end) => destruct x
      end ].

Lemma pure_existsSync p : pure_M (existsSync p).
Proof. unfold existsSync. mpure. Qed.
Lemma readFileSync_run w p s : fs_read (w_fs w) p = Ok s → readFileSync p w = (Ok s, w).
Proof. intros Hr. unfold readFileSync, get_fs, mbind_js, lift. by rewrite Hr. Qed.

Lemma pure_readFileSync p : pure_M (readFileSync p).
Proof. unfold readFileSync. mpure. Qed.
#[export] Hint Resolve pure_existsSync pure_readFileSync : bridge.

(** ** Lemmas: paths *)

Lemma push_seg_name acc s :
  s ≠ EmptyString → s ≠ "." → s ≠ ".." → push_seg acc s = acc ++ [s].
Proof.
  intros. unfold push_seg. rewrite decide_False by naive_solver. by rewrite decide_False.
Qed.

Lemma split_on_snoc c s t :
  string_elem c t = false → split_on c (s ++s String c t) = split_on c s ++ [t].
Proof.
  intros Ht. induction s as [|d s IH]; simpl.
  { rewrite bool_decide_true by done. by rewrite split_on_none. }
  case_bool_decide; rewrite IH; [done|].
  destruct (split_on c s) eqn:E; [|done]. by destruct (split_on_cons_nonempty c s).
Qed.

Lemma startsWith_app_r c s t :
  s ≠ EmptyString → startsWith (String c EmptyString) (s ++s t) = startsWith (String c EmptyString) s.
Proof. by destruct s. Qed.

(** A file directly below a directory. *)
Lemma resolve_child p n :
  p ≠ EmptyString → string_elem "/"%char n = false → n ≠ EmptyString → n ≠ "." → n ≠ ".." →
  resolve (p ++s "/" ++s n) = resolve p ++ [n].
Proof.
  intros Hp Hn H1 H2 H3. unfold resolve. change ("/" ++s n) with (String "/"%char n).
  rewrite split_on_snoc, foldl_snoc, push_seg_name by done.
  change "/"%string with (String "/"%char EmptyString). by rewrite startsWith_app_r.
Qed.

(** ** Lemmas: reading what was written *)

Lemma below_file_app fs pre p s :
  below_file fs pre (p ++ [s]) =
  below_file fs pre p || match fs_at fs (pre ++ p) with Some (File _) => true | _ => false end.
Proof.
  revert pre; induction p as [|x p IH]; intros pre; simpl.
  { rewrite app_nil_r. by destruct (fs_at fs pre) as [[]|]. }
  rewrite IH, <-(assoc_L (++)). by destruct (fs_at fs pre) as [[]|].
Qed.

Lemma fs_at_insert_ne fs p q n : p ≠ q → fs_at (<[q := n]> fs) p = fs_at fs p.
Proof. intros. unfold fs_at. case_decide; [done|]. by rewrite lookup_insert_ne. Qed.

Lemma below_file_insert fs pre p q n :
  (length (pre ++ p) ≤ length q)%nat →
  below_file (<[q := n]> fs) pre p = below_file fs pre p.
Proof.
  revert pre; induction p as [|x p IH]; intros pre Hl; simpl; [done|].
  rewrite fs_at_insert_ne by (intros ->; rewrite length_app in Hl; simpl in Hl; lia).
  rewrite IH; [done|]. by rewrite <-(assoc_L (++)).
Qed.

(** Nothing exists below a regular file. *)
Lemma fs_lookup_below fs p s content :
  fs_lookup fs p = Some (File content) → fs_lookup fs (p ++ [s]) = None.
Proof.
  unfold fs_lookup. destruct (below_file fs [] p) eqn:E; [done|]. intros Hp.
  by rewrite below_file_app, E, app_nil_l, Hp.
Qed.

Lemma is_dir_below fs p s : is_dir fs p = true → below_file fs [] (p ++ [s]) = false.
Proof.
  unfold is_dir, fs_lookup. destruct (below_file fs [] p) eqn:E; [done|]. intros Hp.
  rewrite below_file_app, E, app_nil_l. by destruct (fs_at fs p) as [[]|].
Qed.

Lemma fs_write_inv fs fs' p s :
  fs_write fs p s = Ok fs' →
  is_dir fs (resolve p) = false ∧ fs' = <[resolve p := File s]> fs ∧
  below_file fs [] (resolve p) = false.
Proof.
  unfold fs_write, is_dir at 2. destruct (fs_lookup fs (resolve p)) as [[]|] eqn:E1.
  - intros [= <-]. split_and!; [done|done|].
    unfold fs_lookup in E1. by destruct (below_file fs [] (resolve p)).
  - done.
  - destruct (is_dir fs (removelast (resolve p))) eqn:E2; [|done]. intros [= <-].
    split_and!; [done|done|].
    destruct (resolve p) as [|x l _] using rev_ind; [done|].
    rewrite removelast_last in E2. by apply is_dir_below.
Qed.

Lemma not_dir_at fs p :
  is_dir fs p = false → below_file fs [] p = false → ¬ (p = [] ∨ p = ["/"]).
Proof.
  unfold is_dir, fs_lookup, fs_at. intros H Hb. rewrite Hb in H. by case_decide.
Qed.

(** Reading back a write, and reading anything else. *)
Lemma fs_write_lookup fs fs' p s :
  fs_write fs p s = Ok fs' → fs_lookup fs' (resolve p) = Some (File s).
Proof.
  intros (Hd & -> & Hb)%fs_write_inv. unfold fs_lookup, fs_at.
  rewrite below_file_insert by done. rewrite Hb, decide_False by (by eapply not_dir_at).
  apply lookup_insert_eq.
Qed.

Lemma fs_read_lookup fs p s :
  fs_lookup fs (resolve p) = Some (File s) → fs_read fs p = Ok s.
Proof. intros H. unfold fs_read, is_dir. by rewrite H. Qed.

Lemma fs_read_inv fs p s :
  fs_read fs p = Ok s → fs_lookup fs (resolve p) = Some (File s).
Proof.
  unfold fs_read, is_dir. destruct (fs_lookup fs (resolve p)) as [[]|]; naive_solver.
Qed.

Lemma fs_read_write fs fs' p s : fs_write fs p s = Ok fs' → fs_read fs' p = Ok s.
Proof. intros. by eapply fs_read_lookup, fs_write_lookup. Qed.

(** Replacing the contents of a file changes no other path. *)
Lemma fs_rewrite_lookup fs p q s0 s :
  fs_lookup fs p = Some (File s0) → p ≠ q →
  fs_lookup (<[p := File s]> fs) q = fs_lookup fs q.
Proof.
  intros Hp Hne. unfold fs_lookup in *. destruct (below_file fs [] p) eqn:Hb; [done|].
  rewrite fs_at_insert_ne by done.
  assert (∀ pre l, below_file (<[p := File s]> fs) pre l = below_file fs pre l) as Hall; [|by rewrite Hall].
  intros pre l; revert pre; induction l as [|x l IH]; intros pre; simpl; [done|].
  rewrite IH. destruct (decide (pre = p)) as [->|].
  - rewrite Hp. unfold fs_at in *. case_decide; [done|]. by rewrite lookup_insert_eq.
  - by rewrite fs_at_insert_ne.
Qed.

(** An existing file can be rewritten. *)
Lemma fs_write_existing fs p s0 s :
  fs_lookup fs (resolve p) = Some (File s0) →
  fs_write fs p s = Ok (<[resolve p := File s]> fs).
Proof. intros Hp. unfold fs_write. by rewrite Hp. Qed.

(** Writing at [p] changes nothing outside of [p] and what is below it. *)
Lemma fs_insert_beside fs p q n :
  ¬ p `prefix_of` q → fs_lookup (<[p := n]> fs) q = fs_lookup fs q.
Proof.
  intros Hpq. unfold fs_lookup.
  rewrite fs_at_insert_ne by (intros ->; by apply Hpq).
  assert (∀ pre l, q = pre ++ l →
    below_file (<[p := n]> fs) pre l = below_file fs pre l) as Hall; [|by rewrite Hall].
  intros pre l; revert pre; induction l as [|x l IH]; intros pre Hq; simpl; [done|].
  rewrite IH by (by rewrite <-(assoc_L (++))).
  rewrite fs_at_insert_ne; [done|]. intros ->. apply Hpq. by exists (x :: l).
Qed.

Lemma existsSync_true p w : is_Some (fs_lookup (w_fs w) (resolve p)) → existsSync p w = (Ok true, w).
Proof. intros [n Hn]. unfold existsSync, fs_exists, get_fs, mbind_js, ret. by rewrite Hn. Qed.

(** A file in a directory that exists can be written. *)
Lemma fs_write_ok fs p s :
  is_dir fs (resolve p) = false → is_dir fs (removelast (resolve p)) = true →
  fs_write fs p s = Ok (<[resolve p := File s]> fs).
Proof.
  intros Hp Hd. unfold fs_write. unfold is_dir in Hp.
  destruct (fs_lookup fs (resolve p)) as [[]|]; [done|done|by rewrite Hd].
Qed.

(** ** Worlds that differ in the trace or the chain *)

Definition traced (w : world) (l : list io) : world :=
  {| w_fs := w_fs w; w_chain := w_chain w; w_trace := w_trace w ++ l |}.
Definition on_chain (w : world) (c : chain) : world :=
  {| w_fs := w_fs w; w_chain := c; w_trace := w_trace w |}.

Lemma traced_nil w : traced w [] = w.
Proof. destruct w. unfold traced. simpl. by rewrite app_nil_r. Qed.
Lemma traced_app w l1 l2 : traced (traced w l1) l2 = traced w (l1 ++ l2).
Proof. unfold traced. simpl. by rewrite (assoc_L (++)). Qed.
Lemma on_chain_traced w l c : on_chain (traced w l) c = traced (on_chain w c) l.
Proof. done. Qed.
#[export] Hint Rewrite traced_nil traced_app on_chain_traced : bridge.

Lemma output_run i w : output i w = (Ok tt, traced w [i]).
Proof. done. Qed.

(** The console lines of [showState]. *)
Definition shown (hre : Hre) (msg : string) : list io :=
  if silenced hre then [] else [ILog msg].

Lemma showState_run hre msg w : showState hre msg w = (Ok tt, traced w (shown hre msg)).
Proof. unfold showState, shown. destruct (silenced hre); [by rewrite traced_nil|done]. Qed.
