(* ===== verification/Scenario.v ===== *)
(** * A concrete deployment scenario

    The environment and worlds the witnesses are evaluated in: the artifact
    store of [Fixtures], one signer, a working directory with the default
    configuration folders, and a chain with or without a deployed factory. *)

From S2P Require Import Prelude JsValue Constants Artifacts Fixtures Ethers Factory Instances World.
From stdpp Require Import options.
Local Open Scope Z_scope.

#[local] Existing Instances toml_model ethers_model.

Definition owner_ex : address := 0x546F99F244b7B58B855330AE0E2BC1b30b41302F.
Definition factory_ex : address := 0x0b1F9c2b7bED6Db83295c7B5158E3806d67eC5bc.

Definition evm_ex : Evm := evm_model 2000000.
#[local] Existing Instance evm_ex.

Definition hre_ex (silencer : option string) : Hre := {|
  hre_network := "dev"; hre_chainId := HARDHAT_CHAIN_ID;
  hre_gasPrice := 1000000000; hre_maxPriorityFee := 3000000000;
  hre_signers := [owner_ex]; hre_artifacts := art_ex;
  hre_env := λ k, if decide (k = "silencer") then silencer else None;
  hre_block := λ k, 100 + Z.of_nat k;
  hre_sigGroup := λ h, Some ("ab" ++s pretty h);
  hre_balance := λ _ a, Ok (match a with JStr s => if decide (s = "0xrich") then 95 * 10 ^ 18
                                            else if decide (s = "0xlow") then 10 ^ 18 else 0
                                | _ => 0 end);
  hre_tokenBalance := λ _ _ _, Ok 7;
  hre_accepts := λ _ _ _ v, v <=? 10 ^ 24;
  hre_verify := λ _, None |}.

Definition chain0 : chain := {| accounts := ∅; nonces := ∅ |}.

(** The chain after the factory's constructor. *)
Definition chain_ex : chain :=
  match factory_constructor factory_ex owner_ex "0x60atoken" (chain0, []) with
  | Some (_, (c, _)) => c
  | None => chain0
  end.

Definition fs_ex : filesystem :=
  <[[".."] := Dir]> (<[[".."; "scripts"] := Dir]>
  (<[[".."; "scripts"; "generated"] := Dir]> (<[[".."; "scripts"; "base-files"] := Dir]>
  (<[["out"] := Dir]> ∅)))).

Definition world_ex : world := {| w_fs := fs_ex; w_chain := chain_ex; w_trace := [] |}.

Example chain_ex_factory :
  (match accounts chain_ex !! factory_ex with
   | Some (KFactory st) => (f_owner st =? owner_ex) && bool_decide (f_contracts st = [])
   | _ => false
   end) = true.
Proof. vm_compute. reflexivity. Qed.
