(* ===== verification/FactoryProofs.v ===== *)
(** * Correctness of the factory contract

    What a deployment transaction leaves on chain, and who may send one. *)

From S2P Require Import Prelude JsValue Constants Ethers Factory Instances World Scenario.
From stdpp Require Import options.
Local Open Scope Z_scope.

(** Unfolds the execution monad. *)
Ltac xrun :=
  unfold xbind, xret, xchain, emit, set_account, set_nonce, require, xof_option;
  cbn [fst snd accounts nonces].

#[local] Arguments create_at : simpl never.

Section Exec.
Context `{Ethers, Evm}.
Implicit Types (c : chain) (lg : list event) (f : address).

Lemma xbind_Some {A B} (m : X A) (k : A → X B) s a s' :
  m s = Some (a, s') → xbind m k s = k a s'.
Proof. unfold xbind. by intros ->. Qed.

Lemma xbind_inv {A B} (m : X A) (k : A → X B) s b s' :
  xbind m k s = Some (b, s') → ∃ a s1, m s = Some (a, s1) ∧ k a s1 = Some (b, s').
Proof. unfold xbind. destruct (m s) as [[a s1]|]; naive_solver. Qed.

(** The chain after a creation. *)
Definition created (c : chain) (self a : address) (k : account) : chain :=
  {| accounts := <[a := k]> (accounts c);
     nonces := <[a := 1]> (<[self := nonce_of c self + 1]> (nonces c)) |}.

Definition with_state (c : chain) (f : address) (st : FactoryState) : chain :=
  {| accounts := <[f := KFactory st]> (accounts c); nonces := nonces c |}.

Definition add_salt (st : FactoryState) (salt : string) : FactoryState :=
  {| f_owner := f_owner st; f_contracts := f_contracts st ++ [salt];
     f_implementation := f_implementation st; f_proxyTemplate := f_proxyTemplate st;
     f_aTokenAddress := f_aTokenAddress st;
     f_externalContractRegistry := f_externalContractRegistry st |}.

Definition use_template (st : FactoryState) : FactoryState :=
  {| f_owner := f_owner st; f_contracts := f_contracts st;
     f_implementation := f_proxyTemplate st; f_proxyTemplate := f_proxyTemplate st;
     f_aTokenAddress := f_aTokenAddress st;
     f_externalContractRegistry := f_externalContractRegistry st |}.

Lemma fresh_spec c a : fresh c a = true ↔ accounts c !! a = None ∧ nonce_of c a = 0.
Proof. unfold fresh. rewrite andb_true_iff, bool_decide_eq_true, Z.eqb_eq. done. Qed.

Lemma fresh_ne c a b k : fresh c a = true → accounts c !! b = Some k → b ≠ a.
Proof. intros [Ha _]%fresh_spec Hb ->. congruence. Qed.

Lemma fresh_created c self a k p :
  fresh c p = true → p ≠ a → p ≠ self → fresh (created c self a k) p = true.
Proof.
  rewrite !fresh_spec. intros [Hp Hn] Ha Hs. unfold nonce_of in *. simpl.
  by rewrite !lookup_insert_ne by done.
Qed.

Lemma fresh_with_state c f st p :
  fresh c p = true → f ≠ p → fresh (with_state c f st) p = true.
Proof.
  rewrite !fresh_spec. intros [Hp Hn] Ha. unfold nonce_of in *. simpl.
  by rewrite !lookup_insert_ne by done.
Qed.

Lemma create_at_run c lg self a k :
  fresh c a = true →
  create_at self a k (c, lg) = Some (Some a, (created c self a k, lg)).
Proof. intros Ha. unfold create_at. xrun. by rewrite Ha. Qed.

Lemma get_state_run c lg f st :
  accounts c !! f = Some (KFactory st) → get_state f (c, lg) = Some (st, (c, lg)).
Proof. intros Hf. unfold get_state. xrun. by rewrite Hf. Qed.

Lemma onlyOwner_run c lg f st sender :
  accounts c !! f = Some (KFactory st) →
  (sender =? f) || (sender =? f_owner st) = true →
  onlyOwner f sender (c, lg) = Some (tt, (c, lg)).
Proof.
  intros Hf Hs. unfold onlyOwner. rewrite (xbind_Some _ _ _ _ _ (get_state_run _ _ _ _ Hf)).
  unfold require. by rewrite Hs.
Qed.

(** The owner, or the factory calling itself. *)
Definition authorized (f : address) (st : FactoryState) (sender : address) : bool :=
  (sender =? f) || (sender =? f_owner st).

Lemma factory_exec_auth call c lg f st sender v fc :
  accounts c !! f = Some (KFactory st) →
  (sender =? f) || (sender =? f_owner st) = false →
  factory_exec call f sender v fc (c, lg) = None.
Proof.
  intros Hf Hs. unfold factory_exec. unfold xbind at 1. unfold require at 1.
  destruct (payable fc || (v =? 0)); [|done]. cbn [xret].
  unfold xret. unfold xbind at 1, onlyOwner.
  rewrite (xbind_Some _ _ _ _ _ (get_state_run _ _ _ _ Hf)).
  unfold require. by rewrite Hs.
Qed.

Lemma call_factory k from f v d c lg st fc :
  accounts c !! f = Some (KFactory st) → decode_call d = Some fc →
  call (S k) from f v d (c, lg) = factory_exec (call k) f from v fc (c, lg).
Proof. intros Hf Hd. cbn [call]. xrun. by rewrite Hf, Hd. Qed.

Lemma call_proxy k from p v d c lg f slot :
  accounts c !! p = Some (KProxy f slot) →
  call (S k) from p v d (c, lg) = proxy_fallback from p v d f slot (c, lg).
Proof. intros Hp. cbn [call]. xrun. by rewrite Hp. Qed.

Lemma exec_guard c lg f st sender fc :
  accounts c !! f = Some (KFactory st) →
  (sender =? f) || (sender =? f_owner st) = true →
  ∀ B (k : unit → X B),
  xbind (require (payable fc || (0 =? 0))) (λ _, xbind (onlyOwner f sender) k) (c, lg)
  = k tt (c, lg).
Proof.
  intros Hf Hs B k. rewrite orb_true_r. unfold require at 1, xbind at 1, xret.
  by rewrite (xbind_Some _ _ _ _ _ (onlyOwner_run _ _ _ _ _ Hf Hs)).
Qed.

(** [deployCreate] from the owner or the factory itself. *)
Lemma exec_deployCreate call c lg f st sender code es :
  let a := getContractAddress f (nonce_of c f) in
  accounts c !! f = Some (KFactory st) → fresh c a = true →
  (sender =? f) || (sender =? f_owner st) = true →
  run_constructor c a code = Some es → has_code code = true →
  factory_exec call f sender 0 (FDeployCreate code) (c, lg) =
  Some (tt, (created c f a (KCode code), (lg ++ es) ++ [factory_event f DEPLOYED_RAW a])).
Proof.
  intros a Hf Ha Hs Hes Hco. unfold factory_exec. rewrite (exec_guard _ _ _ _ _ _ Hf Hs).
  unfold _deployCreate, create. unfold xbind, xchain, emit, xret; cbn [fst snd].
  fold a. rewrite Hes. simpl. rewrite (create_at_run _ _ _ _ _ Ha). simpl. by rewrite Hco.
Qed.

Lemma with_state_lookup c f st : accounts (with_state c f st) !! f = Some (KFactory st).
Proof. simpl. by rewrite lookup_insert_eq. Qed.

Lemma set_implementation_run c lg f st :
  accounts c !! f = Some (KFactory st) →
  set_implementation f (f_proxyTemplate st) (c, lg) =
  Some (tt, (with_state c f (use_template st), lg)).
Proof.
  intros Hf. unfold set_implementation.
  by rewrite (xbind_Some _ _ _ _ _ (get_state_run _ _ _ _ Hf)).
Qed.

Lemma push_salt_run c lg f st salt :
  accounts c !! f = Some (KFactory st) →
  push_salt f salt (c, lg) = Some (tt, (with_state c f (add_salt st salt), lg)).
Proof.
  intros Hf. unfold push_salt.
  by rewrite (xbind_Some _ _ _ _ _ (get_state_run _ _ _ _ Hf)).
Qed.

Lemma metamorphic_run c lg f st salt :
  let p := getCreate2Address f salt (keccak256 METAMORPHIC_CODE) in
  accounts c !! f = Some (KFactory st) → fresh c p = true →
  accounts c !! f_implementation st = Some KTemplate →
  metamorphic_create2 f salt (c, lg) = Some (Some p, (created c f p (KProxy f 0), lg)).
Proof.
  intros p Hf Hp Ht. unfold metamorphic_create2.
  rewrite (xbind_Some _ _ _ _ _ (get_state_run _ _ _ _ Hf)).
  unfold xbind at 1, xchain. cbn [fst snd]. rewrite Ht. by apply create_at_run.
Qed.

(** The chain after [deployProxy]. *)
Definition proxied (c : chain) (f : address) (st : FactoryState) (salt : string) (p : address) : chain :=
  with_state (created (with_state c f (use_template st)) f p (KProxy f 0)) f
             (add_salt (use_template st) salt).

(** [deployProxy] from the owner or the factory itself. *)
Lemma exec_deployProxy call c lg f st sender salt :
  let p := getCreate2Address f salt (keccak256 METAMORPHIC_CODE) in
  accounts c !! f = Some (KFactory st) → fresh c p = true →
  accounts c !! f_proxyTemplate st = Some KTemplate →
  (sender =? f) || (sender =? f_owner st) = true →
  factory_exec call f sender 0 (FDeployProxy salt) (c, lg) =
  Some (tt, (proxied c f st salt p, lg ++ [factory_event f DEPLOYED_PROXY p])).
Proof.
  intros p Hf Hp Ht Hs.
  assert (f ≠ p) as Hfp by eauto using fresh_ne.
  assert (f ≠ f_proxyTemplate st) as Hft by congruence.
  unfold factory_exec. rewrite (exec_guard _ _ _ _ _ _ Hf Hs).
  unfold _deployProxy.
  erewrite xbind_Some; [reflexivity|].
  erewrite xbind_Some by (by apply get_state_run).
  erewrite xbind_Some by (by apply set_implementation_run).
  erewrite xbind_Some by (apply (metamorphic_run _ _ _ (use_template st));
    [apply with_state_lookup|by apply fresh_with_state|simpl; by rewrite lookup_insert_ne]).
  erewrite xbind_Some by reflexivity.
  erewrite xbind_Some by (apply (push_salt_run _ _ _ (use_template st));
    simpl; rewrite lookup_insert_ne by done; apply lookup_insert_eq).
  reflexivity.
Qed.

Lemma proxied_proxy c f st salt p :
  f ≠ p → accounts (proxied c f st salt p) !! p = Some (KProxy f 0).
Proof. intros. simpl. rewrite lookup_insert_ne by done. apply lookup_insert_eq. Qed.

Lemma proxied_other c f st salt p a :
  a ≠ f → a ≠ p → accounts (proxied c f st salt p) !! a = accounts c !! a.
Proof. intros. simpl. by rewrite !lookup_insert_ne by done. Qed.

(** The chain after a proxy has been pointed at [a]. *)
Definition upgraded (c : chain) (f p a : address) : chain :=
  {| accounts := <[p := KProxy f a]> (accounts c); nonces := nonces c |}.

Context `{!EvmLaws}.

Lemma upgrade_run k c lg f p slot a :
  accounts c !! p = Some (KProxy f slot) → ProxySlot.locked slot = false →
  0 ≤ a < 2 ^ 160 →
  call (S k) f p 0 (encode_upgrade a) (c, lg) = Some (tt, (upgraded c f p a, lg)).
Proof using Type*.
  intros Hp Hl Ha. rewrite (call_proxy _ _ _ _ _ _ _ _ _ Hp).
  unfold proxy_fallback. rewrite Z.eqb_refl, (decode_encode_upgrade _ Ha).
  unfold xbind. by rewrite ProxySlot.admin_unlocked.
Qed.

(** What initialising the proxy emits: nothing without call data or
    without code behind the proxy; [None] when the initializer reverts or
    writes to the implementation slot. *)
Definition init_events (c : chain) (f proxy impl : address) (d : string) : option (list event) :=
  if bool_decide (d = EMPTY) then Some []
  else match accounts c !! impl with
       | Some _ =>
           match proxied_code c f proxy impl 0 d impl with
           | Some (slot, es) => if slot =? impl then Some es else None
           | None => None
           end
       | None => Some []
       end.

(** [upgradeProxy] from the owner or the factory itself. *)
Lemma exec_upgradeProxy k c lg f st sender salt slot a d es :
  let p := getMetamorphicContractAddress salt f in
  accounts c !! f = Some (KFactory st) →
  accounts c !! p = Some (KProxy f slot) → ProxySlot.locked slot = false →
  0 ≤ a < 2 ^ 160 → decode_upgrade d = None →
  init_events (upgraded c f p a) f p a d = Some es →
  (sender =? f) || (sender =? f_owner st) = true →
  factory_exec (call (S k)) f sender 0 (FUpgradeProxy salt a d) (c, lg) =
  Some (tt, (upgraded c f p a, lg ++ es)).
Proof using Type*.
  intros p Hf Hp Hl Ha Hd Hes Hs.
  unfold factory_exec. rewrite (exec_guard _ _ _ _ _ _ Hf Hs).
  unfold _upgradeProxy. fold p.
  erewrite xbind_Some by (by eapply upgrade_run).
  assert (accounts (upgraded c f p a) !! p = Some (KProxy f a)) as Hp'
    by (simpl; apply lookup_insert_eq).
  erewrite xbind_Some; [|unfold check_implementation, xbind, xchain; cbn [fst snd];
    rewrite Hp', ProxySlot.getImpl_small, Z.eqb_refl by done; reflexivity].
  unfold _initializeContract, init_events in *. case_bool_decide.
  { simplify_eq. rewrite app_nil_r. reflexivity. }
  rewrite (call_proxy _ _ _ _ _ _ _ _ _ Hp'). unfold proxy_fallback.
  rewrite Z.eqb_refl, Hd, ProxySlot.getImpl_small by done.
  unfold xbind, xchain. cbn [fst snd].
  revert Hes. destruct (accounts (upgraded c f p a) !! a); intros Hes.
  - destruct (proxied_code _ _ _ _ _ _ _) as [[slot' es']|]; [|done]. cbn [xof_option xret fst snd].
    destruct (Z.eqb_spec slot' a) as [->|]; [|done]. injection Hes as ->.
    unfold set_account, emit, upgraded. cbn [fst snd accounts nonces]. by rewrite insert_insert_eq.
  - simplify_eq. by rewrite app_nil_r.
Qed.

(** A locked proxy refuses, and the factory reverts. *)
Lemma exec_upgrade_locked k c lg f st sender salt slot a d :
  accounts c !! f = Some (KFactory st) →
  accounts c !! getMetamorphicContractAddress salt f = Some (KProxy f slot) →
  ProxySlot.locked slot = true → 0 ≤ a < 2 ^ 160 →
  (sender =? f) || (sender =? f_owner st) = true →
  factory_exec (call (S k)) f sender 0 (FUpgradeProxy salt a d) (c, lg) = None.
Proof using Type*.
  intros Hf Hp Hl Ha Hs. unfold factory_exec. rewrite (exec_guard _ _ _ _ _ _ Hf Hs).
  unfold _upgradeProxy. cbv zeta. unfold xbind at 1.
  rewrite (call_proxy _ _ _ _ _ _ _ _ _ Hp). unfold proxy_fallback.
  rewrite Z.eqb_refl, decode_encode_upgrade by done. unfold xbind at 1, ProxySlot.admin.
  unfold ProxySlot.locked in Hl. by rewrite Hl.
Qed.

(** ** The deployment transaction *)

(** The three calls [getDeployUpgradeableMultiCallArgs] builds, in order. *)
Definition deploy_calls (f : address) (dCreate dProxy dUpgrade : string) : list MultiCallArgs :=
  [{| target := f; value := 0; data := dCreate |};
   {| target := f; value := 0; data := dProxy |};
   {| target := f; value := 0; data := dUpgrade |}].

(** The chain the transaction must leave: logic contract [la] with the
    deployed code, proxy [pa] of the factory pointing at it. *)
Definition deployed (c : chain) (f : address) (st : FactoryState) (salt code : string)
    (la pa : address) : chain :=
  upgraded (proxied (created c f la (KCode code)) f st salt pa) f pa la.

Lemma multiCall_cons call f m ms s :
  _multiCall call f (m :: ms) s =
  match call f (target m) (value m) (data m) s with
  | Some (_, s') => _multiCall call f ms s'
  | None => None
  end.
Proof using Type. unfold _multiCall at 1, xbind, _callAny. fold (_multiCall call f). done. Qed.

Lemma self_auth f st : (f =? f) || (f =? f_owner st) = true.
Proof using Type. by rewrite Z.eqb_refl. Qed.
Lemma owner_auth f st owner : f_owner st = owner → (owner =? f) || (owner =? f_owner st) = true.
Proof using Type. intros ->. rewrite Z.eqb_refl. apply orb_true_r. Qed.

(** The last two calls, which [multiCallDeployProxy] also sends. *)
Definition proxy_calls (f : address) (dProxy dUpgrade : string) : list MultiCallArgs :=
  [{| target := f; value := 0; data := dProxy |};
   {| target := f; value := 0; data := dUpgrade |}].

Lemma proxy_calls_run k c lg f st salt la d dProxy dUpgrade es :
  let pa := getMetamorphicContractAddress salt f in
  accounts c !! f = Some (KFactory st) →
  accounts c !! f_proxyTemplate st = Some KTemplate →
  fresh c pa = true → 0 ≤ la < 2 ^ 160 → keccak256 METAMORPHIC_CODE = METAMORPHIC_HASH →
  decode_call dProxy = Some (FDeployProxy salt) →
  decode_call dUpgrade = Some (FUpgradeProxy salt la d) →
  decode_upgrade d = None →
  init_events (upgraded (proxied c f st salt pa) f pa la) f pa la d = Some es →
  _multiCall (call (S (S k))) f (proxy_calls f dProxy dUpgrade) (c, lg) =
  Some (tt, (upgraded (proxied c f st salt pa) f pa la,
             (lg ++ [factory_event f DEPLOYED_PROXY pa]) ++ es)).
Proof using Type*.
  intros pa Hf Ht Hpa Hr Hk Hp Hu Hd He.
  assert (f ≠ pa) as Hfpa by eauto using fresh_ne.
  unfold proxy_calls. rewrite multiCall_cons. cbn [target value data].
  rewrite (call_factory _ _ _ _ _ _ _ _ _ Hf Hp).
  assert (getCreate2Address f salt (keccak256 METAMORPHIC_CODE) = pa) as Hpaddr by (by rewrite Hk).
  rewrite (exec_deployProxy _ _ _ _ _ _ _ Hf); rewrite ?Hpaddr; [|done..|apply self_auth].
  rewrite multiCall_cons. cbn [target value data].
  assert (accounts (proxied c f st salt pa) !! f =
          Some (KFactory (add_salt (use_template st) salt))) as Hf2 by apply with_state_lookup.
  rewrite (call_factory _ _ _ _ _ _ _ _ _ Hf2 Hu).
  rewrite (exec_upgradeProxy _ _ _ _ _ _ _ 0 _ _ _ Hf2) by
    (first [done|by apply proxied_proxy|apply self_auth]). done.
Qed.

Lemma deployed_run k c f st owner salt code d dCreate dProxy dUpgrade es1 es2 :
  let la := getContractAddress f (nonce_of c f) in
  let pa := getMetamorphicContractAddress salt f in
  accounts c !! f = Some (KFactory st) → f_owner st = owner →
  accounts c !! f_proxyTemplate st = Some KTemplate →
  fresh c la = true → fresh c pa = true → la ≠ pa →
  0 ≤ la < 2 ^ 160 → keccak256 METAMORPHIC_CODE = METAMORPHIC_HASH →
  decode_call dCreate = Some (FDeployCreate code) →
  decode_call dProxy = Some (FDeployProxy salt) →
  decode_call dUpgrade = Some (FUpgradeProxy salt la d) →
  decode_upgrade d = None → run_constructor c la code = Some es1 → has_code code = true →
  init_events (deployed c f st salt code la pa) f pa la d = Some es2 →
  factory_exec (call (S (S k))) f owner 0
    (FMultiCall (deploy_calls f dCreate dProxy dUpgrade)) (c, []) =
  Some (tt, (deployed c f st salt code la pa,
    ((es1 ++ [factory_event f DEPLOYED_RAW la]) ++ [factory_event f DEPLOYED_PROXY pa]) ++ es2)).
Proof using Type*.
  intros la pa Hf Ho Ht Hla Hpa Hne Hr Hk Hc Hp Hu Hd He1 Hco He2.
  assert (f ≠ la) as Hfla by eauto using fresh_ne.
  assert (f ≠ pa) as Hfpa by eauto using fresh_ne.
  assert (f_proxyTemplate st ≠ la) as Htla by eauto using fresh_ne.
  unfold factory_exec at 1. rewrite (exec_guard _ _ _ _ _ _ Hf (owner_auth _ _ _ Ho)).
  unfold deploy_calls. rewrite multiCall_cons. cbn [target value data].
  rewrite (call_factory _ _ _ _ _ _ _ _ _ Hf Hc).
  rewrite (exec_deployCreate _ _ _ _ _ _ _ _ Hf Hla (self_auth _ _) He1 Hco). fold la.
  apply (proxy_calls_run k (created c f la (KCode code))
    (es1 ++ [factory_event f DEPLOYED_RAW la]) f st salt la d); try done.
  - simpl. by rewrite lookup_insert_ne.
  - simpl. by rewrite lookup_insert_ne.
  - by apply fresh_created.
Qed.

(** What a deployment leaves on chain. *)
Lemma deployed_accounts c f st salt code la pa :
  f ≠ la → f ≠ pa → la ≠ pa →
  accounts (deployed c f st salt code la pa) !! la = Some (KCode code) ∧
  accounts (deployed c f st salt code la pa) !! pa = Some (KProxy f la) ∧
  accounts (deployed c f st salt code la pa) !! f =
    Some (KFactory (add_salt (use_template st) salt)) ∧
  ∀ x, x ≠ la → x ≠ pa → x ≠ f →
    accounts (deployed c f st salt code la pa) !! x = accounts c !! x.
Proof using Type.
  intros Hfl Hfp Hlp. unfold deployed, upgraded, proxied, with_state, created. cbn [accounts].
  split_and!.
  - rewrite !(lookup_insert_ne _ pa la), (lookup_insert_ne _ f la), ?lookup_insert_ne by done.
    apply lookup_insert_eq.
  - apply lookup_insert_eq.
  - rewrite lookup_insert_ne by done. apply lookup_insert_eq.
  - intros x Hxl Hxp Hxf. by rewrite !lookup_insert_ne by done.
Qed.
End Exec.

(** ** The owner's guard *)

Section Guard.
Context `{Ethers, Evm}.

(** Where [deployProxy] puts the proxy of a salt. *)
Definition proxy_address (f : address) (salt : string) : address :=
  getCreate2Address f salt (keccak256 METAMORPHIC_CODE).

(** C26: only the owner, or the factory itself inside a multicall, gets
    past the factory's guard: any other sender's transaction reverts,
    whatever it calls. *)
Theorem only_owner c f st from fc :
  accounts c !! f = Some (KFactory st) → authorized f st from = false →
  factory_tx c from f fc = None.
Proof.
  intros Hf Ha. unfold factory_tx. by erewrite factory_exec_auth.
Qed.
End Guard.

(** ** Witness: a stranger at the scenario's factory *)

#[local] Existing Instances ethers_model evm_ex.

Lemma only_owner_witness : factory_tx chain_ex 7 factory_ex (FDeployProxy "0xETHDKG") = None.
Proof.
  assert (∃ st, accounts chain_ex !! factory_ex = Some (KFactory st) ∧
                authorized factory_ex st 7 = false) as (st & Hst & Ha)
    by (eexists; split; vm_compute; reflexivity).
  exact (only_owner chain_ex factory_ex st 7 (FDeployProxy "0xETHDKG") Hst Ha).
Defined.
