(* ===== verification/FactoryHistory.v ===== *)
(** * What every history of the chain keeps

    The accounts of [Factory.v] change by transactions to a factory, by calls
    of any other account, by the deployment of further factories, by contracts
    that other code creates and by contracts that destroy themselves.  This
    file follows the proxies and the factories through arbitrary sequences of
    such changes.

    Code that is not in the repository shows up twice.  Within a transaction
    it emits events, leaves the proxy's slot or the factory's storage
    ([Factory.Evm]) or reverts.  What else it does to the chain is a change of
    its own: a creation, a call it makes, or its self-destruction, which the
    EVM carries out after the transaction.  A raw deployment of the proxy's
    code ([deployCreate]) is an account with code like any other; the proxies
    here are those of [deployProxy]. *)

From S2P Require Import Prelude JsValue Constants Ethers Factory Instances World Scenario FactoryProofs.
From stdpp Require Import options.
Local Open Scope Z_scope.

#[local] Arguments create_at : simpl never.

(** What is claimed of a factory's list of salts from one state to the next,
    and of the salt of a proxy. *)
Record SaltRule := {
  grown : list string → list string → Prop;
  held : string → list string → Prop;
  grown_preorder : PreOrder grown;
  grown_snoc l s : grown l (l ++ [s]);
  held_snoc l s : held s (l ++ [s]);
  held_grown s l l' : held s l → grown l l' → held s l' }.

#[local] Existing Instance grown_preorder.

(** Salts are only appended, and those of the proxies are there. *)
Program Definition recording : SaltRule := {| grown := prefix; held s l := s ∈ l |}.
Next Obligation. intros l s. by eexists. Qed.
Next Obligation. intros l s. simpl. set_solver. Qed.
Next Obligation. intros s l l'. simpl. by eauto using elem_of_prefix. Qed.

(** Salts are only appended. *)
Program Definition appending : SaltRule := {| grown := prefix; held _ _ := True |}.
Next Obligation. intros l s. by eexists. Qed.
Solve Obligations with done.

(** Nothing is claimed of the list. *)
Program Definition unconstrained : SaltRule := {| grown _ _ := True; held _ _ := True |}.
Solve Obligations with done.

Section Invariant.
Context `{Ethers, Evm} (R : SaltRule).

(** Every proxy belongs to a factory that recorded its salt. *)
Definition inv (c : chain) : Prop :=
  ∀ a f slot, accounts c !! a = Some (KProxy f slot) →
  ∃ st salt, accounts c !! f = Some (KFactory st) ∧ held R salt (f_contracts st) ∧
             a = proxy_address f salt.

(** What an account may become: code never changes, a proxy keeps its
    factory, a factory keeps its immutables and its salts. *)
Definition keeps (k k' : account) : Prop :=
  match k, k' with
  | KFactory st, KFactory st' =>
      grown R (f_contracts st) (f_contracts st') ∧ f_proxyTemplate st = f_proxyTemplate st' ∧
      f_aTokenAddress st = f_aTokenAddress st'
  | KProxy f _, KProxy f' _ => f = f'
  | KTemplate, KTemplate => True
  | KCode x, KCode y => x = y
  | _, _ => False
  end.

Definition grows (c c' : chain) : Prop :=
  ∀ a k, accounts c !! a = Some k → ∃ k', accounts c' !! a = Some k' ∧ keeps k k'.

Definition preserves {A} (m : X A) : Prop :=
  ∀ s a s', m s = Some (a, s') → inv s.1 → inv s'.1 ∧ grows s.1 s'.1.

Global Instance keeps_preorder : PreOrder keeps.
Proof.
  split.
  - intros []; simpl; [split_and!|..]; done.
  - intros [] [] []; simpl; try tauto; [|congruence..].
    intros (? & ? & ?) (? & ? & ?). split_and!; [by etrans|congruence..].
Qed.

Global Instance grows_preorder : PreOrder grows.
Proof.
  split.
  - intros c a k Ha. exists k. split; [done|reflexivity].
  - intros c1 c2 c3 H12 H23 a k Ha. destruct (H12 a k Ha) as (k2 & Ha2 & Hk2).
    destruct (H23 a k2 Ha2) as (k3 & Ha3 & Hk3). exists k3. split; [done|by etrans].
Qed.

Lemma preserves_same {A} (m : X A) :
  (∀ s a s', m s = Some (a, s') → accounts s'.1 = accounts s.1) → preserves m.
Proof.
  intros Hm s a s' E Hi. specialize (Hm _ _ _ E). unfold inv, grows in *. rewrite Hm.
  split; [done|]. intros b k Hb. exists k. split; [done|reflexivity].
Qed.

Lemma preserves_ret {A} (a : A) : preserves (xret a).
Proof. apply preserves_same. intros s x s' [= <- <-]. done. Qed.
Lemma preserves_revert {A} : preserves (@revert A).
Proof. by intros s a s' E. Qed.
Lemma preserves_chain : preserves xchain.
Proof. apply preserves_same. intros s x s' [= <- <-]. done. Qed.
Lemma preserves_emit es : preserves (emit es).
Proof. apply preserves_same. intros s x s' [= <- <-]. done. Qed.
Lemma preserves_nonce a n : preserves (set_nonce a n).
Proof. apply preserves_same. intros s x s' [= <- <-]. done. Qed.
Lemma preserves_require b : preserves (require b).
Proof. destruct b; [apply preserves_ret|apply preserves_revert]. Qed.
Lemma preserves_of_option {A} (o : option A) : preserves (xof_option o).
Proof. destruct o; [apply preserves_ret|apply preserves_revert]. Qed.
Lemma preserves_get_state f : preserves (get_state f).
Proof.
  apply preserves_same. intros s x s' E. unfold get_state, xbind, xchain, xret, revert in E.
  cbn [fst snd] in E. destruct (accounts s.1 !! f) as [[]|]; by simplify_eq.
Qed.

Lemma preserves_bind {A B} (m : X A) (k : A → X B) :
  preserves m → (∀ a, preserves (k a)) → preserves (xbind m k).
Proof.
  intros Hm Hk s b s' (a & s1 & E1 & E2)%xbind_inv Hi.
  destruct (Hm _ _ _ E1 Hi) as [Hi1 G1]. destruct (Hk _ _ _ _ E2 Hi1) as [Hi2 G2].
  split; [done|by etrans].
Qed.

(** Replacing a non-proxy account, or a proxy by a proxy of the same
    factory, keeps the invariant. *)
Lemma inv_set_account c a k n :
  inv c → (∀ k0, accounts c !! a = Some k0 → keeps k0 k) →
  (∀ f slot, k = KProxy f slot → is_Some (accounts c !! a)) →
  let c' := {| accounts := <[a := k]> (accounts c); nonces := n |} in
  inv c' ∧ grows c c'.
Proof.
  intros Hi Hk Hp c'.
  assert (grows c c') as Hg.
  { intros b k0 Hb. simpl. destruct (decide (a = b)) as [->|].
    - rewrite lookup_insert_eq. eauto.
    - rewrite lookup_insert_ne by done. exists k0. split; [done|reflexivity]. }
  split; [|done]. intros b f slot Hb.
  assert (∃ slot0, accounts c !! b = Some (KProxy f slot0)) as [slot0 Hb0].
  { simpl in Hb. destruct (decide (a = b)) as [->|].
    - rewrite lookup_insert_eq in Hb. simplify_eq.
      destruct (Hp f slot eq_refl) as [k0 Hk0]. specialize (Hk k0 Hk0).
      destruct k0; simpl in Hk; try done. subst. eauto.
    - rewrite lookup_insert_ne in Hb by done. eauto. }
  destruct (Hi _ _ _ Hb0) as (st & salt & Hf & Hin & ->).
  destruct (Hg _ _ Hf) as ([st'| | |] & Hf' & Hk'); simpl in Hk'; try done.
  exists st', salt. split_and!; [done| |done]. destruct Hk' as [Hgr _]. by eapply held_grown.
Qed.

(** Guarded read-modify-write of the factory's storage. *)
Lemma preserves_update_if f (b : FactoryState → bool) (g : FactoryState → FactoryState) :
  (∀ st, grown R (f_contracts st) (f_contracts (g st))) →
  (∀ st, f_proxyTemplate (g st) = f_proxyTemplate st ∧ f_aTokenAddress (g st) = f_aTokenAddress st) →
  preserves (st <<- get_state f ;; if b st then revert else put_state f (g st)).
Proof.
  intros Hg Ht s a s' E Hi.
  unfold get_state, put_state, set_account, xbind, xchain, xret, revert in E.
  cbn [fst snd] in E. destruct (accounts s.1 !! f) as [[st| | |]|] eqn:Hf; try done.
  destruct (b st); simplify_eq/=.
  apply inv_set_account; [done| |done].
  intros k0 Hk0. simplify_eq. simpl. destruct (Ht st) as [-> ->]. split_and!; [apply Hg|done..].
Qed.

Lemma preserves_update f (g : FactoryState → FactoryState) :
  (∀ st, grown R (f_contracts st) (f_contracts (g st))) →
  (∀ st, f_proxyTemplate (g st) = f_proxyTemplate st ∧ f_aTokenAddress (g st) = f_aTokenAddress st) →
  preserves (st <<- get_state f ;; put_state f (g st)).
Proof. apply (preserves_update_if f (λ _, false)). Qed.

Lemma preserves_push_salt f salt : preserves (push_salt f salt).
Proof. apply (preserves_update f (λ st, add_salt st salt)); [|done]. intros st. apply grown_snoc. Qed.
Lemma preserves_set_implementation f a : preserves (set_implementation f a).
Proof.
  apply (preserves_update f (λ st, {| f_owner := f_owner st; f_contracts := f_contracts st;
    f_implementation := a; f_proxyTemplate := f_proxyTemplate st;
    f_aTokenAddress := f_aTokenAddress st;
    f_externalContractRegistry := f_externalContractRegistry st |})); done.
Qed.

Lemma preserves_create_at self a k :
  (∀ f slot, k ≠ KProxy f slot) → preserves (create_at self a k).
Proof.
  intros Hk s b s' E Hi. unfold create_at, xbind, xchain, set_nonce, set_account, xret in E.
  cbn [fst snd] in E. destruct (fresh s.1 a) eqn:Hf; simplify_eq/=.
  - apply fresh_spec in Hf as [Hf _].
    apply inv_set_account; [done|congruence|]. intros f slot ->. by destruct (Hk f slot).
  - split; [done|]. intros x k0 Hx. exists k0. split; [done|reflexivity].
Qed.

Hint Resolve preserves_ret preserves_revert preserves_chain preserves_emit preserves_nonce
  preserves_require preserves_of_option preserves_get_state preserves_push_salt
  preserves_set_implementation : xpres.

(** Splits sequences, reads of the chain and case distinctions. *)
Ltac xpres :=
  repeat first
    [ progress auto with xpres
    | progress cbv zeta
    | match goal with |- preserves (xbind _ _) => apply preserves_bind; [|intros ?] end
    | apply preserves_create_at; discriminate
    | match goal with |- preserves (match ?x with _ => _ end) => destruct x end ].

Lemma preserves_create self code : preserves (create self code).
Proof. unfold create. xpres. Qed.
Lemma preserves_create2 self salt code : preserves (create2 self salt code).
Proof. unfold create2. xpres. Qed.
Hint Resolve preserves_create preserves_create2 : xpres.

(** The salt is recorded together with the proxy. *)
Lemma preserves_deployProxy f salt : preserves (_deployProxy f salt).
Proof.
  unfold _deployProxy. do 2 (apply preserves_bind; [by auto with xpres|intros ?]).
  intros s b s' E Hi. unfold metamorphic_create2, create_at in E.
  unfold get_state, push_salt, put_state, set_account, set_nonce, emit, get_state,
    xof_option, xbind, xchain, xret, revert in E.
  cbn [fst snd accounts nonces] in E.
  destruct (accounts s.1 !! f) as [[st| | |]|] eqn:Hf; try done.
  destruct (accounts s.1 !! f_implementation st) as [[]|] eqn:Ht; try done.
  change (getCreate2Address f salt (keccak256 METAMORPHIC_CODE))
    with (proxy_address f salt) in E.
  destruct (fresh s.1 (proxy_address f salt)) eqn:Hfr; [|done].
  pose proof (fresh_ne _ _ _ _ Hfr Hf) as Hne.
  apply fresh_spec in Hfr as [Hfr _].
  cbn [fst snd accounts nonces] in E.
  rewrite lookup_insert_ne, Hf in E by done. simplify_eq/=.
  match goal with |- inv ?c' ∧ _ => assert (grows s.1 c') as Hg end.
  { intros x k Hx. simpl. destruct (decide (f = x)) as [<-|].
    - rewrite lookup_insert_eq. simplify_eq. eexists; split; [done|].
      simpl. split_and!; [apply grown_snoc|done..].
    - rewrite !lookup_insert_ne by congruence. exists k. split; [done|reflexivity]. }
  split; [|done]. intros x g slot Hx. simpl in Hx.
  destruct (decide (f = x)) as [<-|]; [by rewrite lookup_insert_eq in Hx|].
  rewrite lookup_insert_ne in Hx by done.
  destruct (decide (proxy_address f salt = x)) as [<-|].
  - rewrite lookup_insert_eq in Hx. simplify_eq. eexists _, salt. split_and!.
    + simpl. apply lookup_insert_eq.
    + simpl. apply held_snoc.
    + done.
  - rewrite lookup_insert_ne in Hx by done.
    destruct (Hi _ _ _ Hx) as (st1 & salt1 & Hg1 & Hin & ->).
    destruct (Hg _ _ Hg1) as ([st2| | |] & Hg2 & Hk); simpl in Hk; try done.
    exists st2, salt1. split_and!; [done| |done]. destruct Hk as [Hk _]. by eapply held_grown.
Qed.
Hint Resolve preserves_deployProxy : xpres.

(** A creation never lands on the creator. *)
Lemma create_at_self self a k s r s' :
  create_at self a k s = Some (r, s') →
  accounts s.1 !! self = None → 0 < nonce_of s.1 self →
  accounts s'.1 !! self = None ∧ 0 < nonce_of s'.1 self.
Proof.
  intros E Ha Hn. unfold create_at, xbind, xchain, set_nonce, set_account, xret in E.
  cbn [fst snd] in E. destruct (fresh s.1 a) eqn:Hf.
  - assert (self ≠ a) as Hne by (intros ->; apply fresh_spec in Hf as [_ Hf]; lia).
    injection E as <- <-. cbn [fst accounts nonces]. unfold nonce_of. cbn [nonces].
    rewrite lookup_insert_ne, lookup_insert_ne, lookup_insert_eq by done.
    split; [done|]. unfold nonce_of in Hn. simpl. lia.
  - injection E as <- <-. cbn [fst accounts nonces]. unfold nonce_of. cbn [nonces].
    rewrite lookup_insert_eq. split; [done|]. unfold nonce_of in Hn. simpl. lia.
Qed.

(** Code the factory delegates to obeys the rule. *)
Context (Hdel : ∀ c f t d st st' es,
  delegated_code c f t d st = Some (st', es) → grown R (f_contracts st) (f_contracts st')).

Section Call.
Context (call : address → address → Z → string → X unit).
Context (Hcall : ∀ a b v d, preserves (call a b v d)).

Lemma preserves_initialize f a d : preserves (_initializeContract call f a d).
Proof using Hcall. unfold _initializeContract. xpres. Qed.
Hint Resolve preserves_initialize : xpres.

Lemma preserves_upgradeProxy f salt a d : preserves (_upgradeProxy call f salt a d).
Proof using Hcall. unfold _upgradeProxy, check_implementation. xpres. Qed.

Lemma preserves_multiCall f l : preserves (_multiCall call f l).
Proof using Hcall. induction l; simpl; unfold _callAny; xpres. Qed.
Hint Resolve preserves_upgradeProxy preserves_multiCall : xpres.

Lemma preserves_delegate f t d : preserves (_delegateCallAny f t d).
Proof using Hdel.
  unfold _delegateCallAny. intros s b s' E Hi.
  unfold get_state, put_state, set_account, emit, xof_option, xbind, xchain, xret, revert in E.
  cbn [fst snd] in E. destruct (accounts s.1 !! f) as [[st| | |]|] eqn:Hf; try done.
  destruct (accounts s.1 !! t); [|injection E as <- <-; split; [done|reflexivity]].
  destruct (delegated_code s.1 f t d st) as [[st' es]|] eqn:Ed; [|done]. simplify_eq/=.
  apply inv_set_account; [done| |done].
  intros k0 Hk0. simplify_eq. simpl. split_and!; [by eapply Hdel|done..].
Qed.
Hint Resolve preserves_delegate : xpres.

Lemma preserves_exec f sender v fc : preserves (factory_exec call f sender v fc).
Proof using Hcall Hdel.
  unfold factory_exec, onlyOwner.
  apply preserves_bind; [by auto with xpres|intros _].
  apply preserves_bind; [xpres|intros _].
  destruct fc; unfold _callAny, _deployCreate, _deployCreate2; try by xpres.
  - apply (preserves_update_if f
      (λ st, bool_decide (is_Some (f_externalContractRegistry st !! salt_)))
      (λ st, {| f_owner := f_owner st; f_contracts := f_contracts st;
         f_implementation := f_implementation st; f_proxyTemplate := f_proxyTemplate st;
         f_aTokenAddress := f_aTokenAddress st;
         f_externalContractRegistry :=
           <[salt_ := newContractAddress_]> (f_externalContractRegistry st) |})); done.
  - apply (preserves_update f (λ st, {| f_owner := newOwner_; f_contracts := f_contracts st;
         f_implementation := f_implementation st; f_proxyTemplate := f_proxyTemplate st;
         f_aTokenAddress := f_aTokenAddress st;
         f_externalContractRegistry := f_externalContractRegistry st |})); done.
Qed.
End Call.

Lemma preserves_call k from to v d : preserves (call k from to v d).
Proof using Hdel.
  revert from to v d; induction k as [|k IH]; intros from to v d;
    [apply preserves_revert|].
  intros s a s' E Hi. cbn [call] in E. unfold xbind at 1, xchain in E.
  cbn [fst snd] in E.
  assert (∀ m : X unit, preserves m → m s = Some (a, s') → inv s'.1 ∧ grows s.1 s'.1)
    as Hgo by (intros m Hm Em; by eapply Hm).
  destruct (accounts s.1 !! to) as [[st|f slot| |code]|] eqn:Hto.
  - destruct (decode_call d); eapply Hgo; try exact E; [by apply preserves_exec|].
    apply preserves_require.
  - unfold proxy_fallback in E.
    destruct (if from =? f then decode_upgrade d else None) as [word|].
    + destruct (ProxySlot.admin slot word) as [slot'|]; [|done].
      unfold xbind, xof_option, xret, set_account in E. simplify_eq/=.
      apply inv_set_account; [done| |eauto]. intros k0 Hk0. by simplify_eq.
    + unfold xbind at 1, xchain in E. cbn [fst snd] in E.
      destruct (accounts s.1 !! ProxySlot.getImplementationAddress slot); [|by injection E as <- <-].
      destruct (proxied_code _ _ _ _ _ _ _) as [[slot' es]|]; [|done].
      unfold xbind, xof_option, xret, set_account, emit in E. simplify_eq/=.
      apply inv_set_account; [done| |eauto]. intros k0 Hk0. by simplify_eq.
  - eapply Hgo; [|exact E]. xpres.
  - eapply Hgo; [|exact E]. xpres.
  - eapply Hgo; [|exact E]. xpres.
Qed.

Lemma constructor_inv c self deployer code c' lg :
  inv c → fresh c self = true →
  factory_constructor self deployer code (c, []) = Some (tt, (c', lg)) → inv c' ∧ grows c c'.
Proof.
  intros Hi Hfr E. unfold factory_constructor in E.
  apply xbind_inv in E as ([] & s1 & E1 & E).
  apply xbind_inv in E as (c1 & s2 & E2 & E).
  apply xbind_inv in E as (r & s3 & E3 & E).
  apply xbind_inv in E as (template & s4 & E4 & E).
  apply xbind_inv in E as (r' & s5 & E5 & E).
  apply xbind_inv in E as (atoken & s6 & E6 & E).
  apply xbind_inv in E as ([] & s7 & E7 & E).
  assert (s7 = s6) as -> by (unfold require, xret, revert in E7; destruct (has_code code); by simplify_eq).
  destruct (preserves_nonce _ _ _ _ _ E1 Hi) as [P1 G1].
  destruct (preserves_chain _ _ _ E2 P1) as [P2 G2].
  destruct (preserves_create_at _ _ KTemplate ltac:(intros ? ?; discriminate) _ _ _ E3 P2) as [P3 G3].
  destruct (preserves_of_option _ _ _ _ E4 P3) as [P4 G4].
  destruct (preserves_create2 _ _ _ _ _ _ E5 P4) as [P5 G5].
  destruct (preserves_of_option _ _ _ _ E6 P5) as [P6 G6].
  assert (accounts s6.1 !! self = None) as Hself.
  { assert (accounts s1.1 !! self = None ∧ nonce_of s1.1 self = 1) as [Ha1 Hn1].
    { unfold set_nonce in E1. injection E1 as <-. apply fresh_spec in Hfr as [Ha _].
      unfold nonce_of. simpl. by rewrite lookup_insert_eq. }
    unfold xchain in E2. injection E2 as <- <-.
    assert (accounts s3.1 !! self = None ∧ 0 < nonce_of s3.1 self) as [Ha3 Hn3]
      by (eapply create_at_self; [exact E3|done|lia]).
    assert (s4 = s3) as -> by (destruct r; unfold xof_option, xret, revert in E4; by simplify_eq).
    assert (s6 = s5) as -> by (destruct r'; unfold xof_option, xret, revert in E6; by simplify_eq).
    unfold create2, xbind at 1, xchain in E5. cbn [fst snd] in E5.
    destruct (run_constructor _ _ _); [|by injection E5 as <- <-].
    unfold xbind, emit in E5. eapply create_at_self; [exact E5|done|done]. }
  unfold set_account in E. injection E as <- _.
  assert (grows c s6.1) as G.
  { transitivity s1.1; [exact G1|]. transitivity s2.1; [done|]. transitivity s3.1; [done|].
    transitivity s4.1; [done|]. by transitivity s5.1. }
  match goal with |- inv ?x ∧ _ => assert (inv x ∧ grows s6.1 x) as [P7 G7] end.
  { apply inv_set_account; [done|congruence|done]. }
  split; [done|by etrans].
Qed.

End Invariant.

(** ** Changes of the chain *)

Inductive change :=
  | NewFactory (self deployer : address) (atokenCode : string)
  | FactoryTx (from factory : address) (fc : factory_call)
  | Call (from to : address) (v : Z) (d : string)
  | Creation (creator a : address) (code : string)
  | SelfDestruct (a : address).

(** Neither the factory's own code nor the template's destroys itself. *)
Definition destructible (k : account) : bool :=
  match k with KProxy _ _ | KCode _ => true | KFactory _ | KTemplate => false end.

(** [None] is a change that does not happen. *)
Definition apply_change `{Ethers, Evm} (c : chain) (ch : change) : option chain :=
  match ch with
  | NewFactory self deployer code =>
      if fresh c self then (λ r, r.2.1) <$> factory_constructor self deployer code (c, []) else None
  | FactoryTx from f fc => fst <$> factory_tx c from f fc
  | Call from to v d => (λ r, r.2.1) <$> call CALL_DEPTH from to v d (c, [])
  | Creation creator a code => if fresh c a then Some (created c creator a (KCode code)) else None
  | SelfDestruct a =>
      match accounts c !! a with
      | Some k => if destructible k
                  then Some {| accounts := delete a (accounts c); nonces := delete a (nonces c) |}
                  else None
      | None => None
      end
  end.

(** A change keeps every account but the one that destroys itself. *)
Definition keeps_others (R : SaltRule) (ch : change) (c c' : chain) : Prop :=
  ∀ a k, accounts c !! a = Some k → ch ≠ SelfDestruct a →
  ∃ k', accounts c' !! a = Some k' ∧ keeps R k k'.

Lemma change_invariant `{Ethers, Evm} R c ch c' :
  (∀ c f t d st st' es, delegated_code c f t d st = Some (st', es) →
     grown R (f_contracts st) (f_contracts st')) →
  inv R c → apply_change c ch = Some c' → inv R c' ∧ keeps_others R ch c c'.
Proof.
  intros Hdel Hi Hc. destruct ch as [self dep code|from f fc|from to v d|creator a code|a]; cbn [apply_change] in Hc.
  - destruct (fresh c self) eqn:Hf; [|done].
    apply fmap_Some in Hc as ([[] [c1 lg]] & Hx & ->).
    destruct (constructor_inv R _ _ _ _ _ _ Hi Hf Hx) as [Hi' Hg].
    split; [done|]. intros a k Ha _. by apply Hg.
  - apply fmap_Some in Hc as ([c1 lg] & Hx & ->). unfold factory_tx in Hx.
    apply fmap_Some in Hx as ([[] s] & Hx & [= ->]).
    destruct (preserves_exec R Hdel (call CALL_DEPTH) (preserves_call R Hdel _) _ _ _ _ _ _ _ Hx Hi) as [Hi' Hg].
    split; [done|]. intros a k Ha _. by apply Hg.
  - apply fmap_Some in Hc as ([[] s] & Hx & ->).
    destruct (preserves_call R Hdel _ _ _ _ _ _ _ _ Hx Hi) as [Hi' Hg].
    split; [done|]. intros a k Ha _. by apply Hg.
  - destruct (fresh c a) eqn:Hf; [|done]. injection Hc as <-.
    destruct (preserves_create_at R creator a (KCode code) ltac:(discriminate) (c, []) _ _
      (create_at_run _ _ _ _ _ Hf) Hi) as [Hi' Hg].
    split; [done|]. intros b k Hb _. by apply Hg.
  - destruct (accounts c !! a) as [k|] eqn:Ha; [|done]. destruct (destructible k) eqn:Hk; [|done].
    injection Hc as <-. split.
    + intros b f slot Hb. simpl in Hb. apply lookup_delete_Some in Hb as [Hne Hb].
      destruct (Hi _ _ _ Hb) as (st & salt & Hf & Hs & ->). exists st, salt. split_and!; [|done..].
      simpl. rewrite lookup_delete_ne; [done|]. intros ->. rewrite Ha in Hf. by simplify_eq.
    + intros b k' Hb Hne. exists k'. split; [|reflexivity]. simpl. rewrite lookup_delete_ne; [done|]. congruence.
Qed.

(** The same code, except that a delegate call that removes a salt from the
    factory's list reverts. *)
Definition append_only (E : Evm) : Evm :=
  {| run_constructor := run_constructor; has_code := has_code; call_code := call_code;
     proxied_code := proxied_code;
     delegated_code c f t d st :=
       match delegated_code c f t d st with
       | Some (st', es) =>
           if bool_decide (f_contracts st `prefix_of` f_contracts st') then Some (st', es) else None
       | None => None
       end;
     decode_call := decode_call; encode_upgrade := encode_upgrade; decode_upgrade := decode_upgrade;
     gas_used := gas_used; estimate_gas := estimate_gas; estimate_deploy_gas := estimate_deploy_gas;
     atoken_creation := atoken_creation |}.

Section Histories.
Context `{!Ethers} (E : Evm).

(** No code that the owner lets the factory delegate to removes a salt in
    this change: it ends in the same way when doing so reverts. *)
Definition tame (c : chain) (ch : change) : Prop :=
  @apply_change _ (append_only E) c ch = apply_change c ch.

(** Any sequence of changes; the tame ones only, when [careful] is set. *)
Inductive reachable (careful : bool) : chain → Prop :=
  | reach_init : reachable careful {| accounts := ∅; nonces := ∅ |}
  | reach_change c ch c' :
      reachable careful c → (careful = true → tame c ch) → apply_change c ch = Some c' →
      reachable careful c'.

Definition rule (careful : bool) : SaltRule := if careful then recording else unconstrained.


Lemma append_only_delegates c f t d st st' es :
  @delegated_code (append_only E) c f t d st = Some (st', es) →
  f_contracts st `prefix_of` f_contracts st'.
Proof using Type.
  simpl. destruct (delegated_code c f t d st) as [[st1 es1]|]; [|done].
  case_bool_decide; [|done]. by intros [= <- _].
Qed.

Lemma reachable_inv careful c : reachable careful c → inv (rule careful) c.
Proof using Type.
  induction 1 as [|c ch c' _ IH Ht Hc]; [by intros a f slot Ha|].
  destruct careful; simpl in *.
  - rewrite <-(Ht eq_refl) in Hc.
    by apply (change_invariant (H0 := append_only E) recording _ _ _ append_only_delegates IH Hc).
  - by apply (change_invariant unconstrained _ _ _ (λ _ _ _ _ _ _ _ _, I) IH Hc).
Qed.

Lemma reachable_appending careful c : reachable careful c → inv appending c ∧ inv unconstrained c.
Proof using Type.
  intros Hi%reachable_inv. split; intros a f slot Ha;
    destruct (Hi a f slot Ha) as (st & salt & ? & _ & ?); by exists st, salt.
Qed.


(** C6: the only way a contract disappears is its own self-destruction.
    Every other change of the chain keeps each account and its kind: code
    stays the same, a proxy keeps its factory, a factory keeps its proxy
    template and AToken.  The factory's own functions only append to the list
    of salts: it grows by appending unless code that the owner made the
    factory delegate to removed some. *)
Theorem contracts_persist c ch c' a k :
  reachable false c → apply_change c ch = Some c' → accounts c !! a = Some k → ch ≠ SelfDestruct a →
  ∃ k', accounts c' !! a = Some k' ∧ keeps unconstrained k k' ∧ (tame c ch → keeps appending k k').
Proof using Type.
  intros Hr Hc Ha Hne. destruct (reachable_appending _ _ Hr) as [Hi Hi'].
  destruct (change_invariant unconstrained _ _ _ (λ _ _ _ _ _ _ _ _, I) Hi' Hc) as [_ Hk].
  destruct (Hk _ _ Ha Hne) as (k' & Ha' & Hk'). exists k'. split_and!; [done..|]. intros Ht.
  unfold tame in Ht. rewrite Hc in Ht.
  destruct (change_invariant (H0 := append_only E) appending _ _ _ append_only_delegates Hi Ht) as [_ Hk2].
  destruct (Hk2 _ _ Ha Hne) as (k2 & Ha2 & Hkk). congruence.
Qed.
End Histories.

(** ** Witnesses: the scenario's factory, a proxy, code that comes and goes *)

#[local] Existing Instance ethers_model.

Definition changes_ex : list change :=
  [NewFactory factory_ex owner_ex "0x60atoken"; FactoryTx owner_ex factory_ex (FDeployProxy "0xETHDKG");
   Creation 7 77 "0xcode"; SelfDestruct 77].

Definition after (n : nat) : chain :=
  foldl (λ c ch, default c (@apply_change _ evm_ex c ch)) chain0 (take n changes_ex).

(** No change of the example delegates. *)
Lemma changes_ex_apply i ch : changes_ex !! i = Some ch →
  @apply_change _ evm_ex (after i) ch = Some (after (S i)) ∧ tame evm_ex (after i) ch.
Proof.
  unfold tame. intros Hi. destruct i as [|i]; [injection Hi as <-; split; vm_compute; reflexivity|].
  destruct i as [|i]; [injection Hi as <-; split; vm_compute; reflexivity|].
  destruct i as [|i]; [injection Hi as <-; split; vm_compute; reflexivity|].
  destruct i as [|i]; [injection Hi as <-; split; vm_compute; reflexivity|].
  discriminate Hi.
Qed.

Lemma after_reachable careful n : (n ≤ 4)%nat → reachable evm_ex careful (after n).
Proof.
  induction n as [|n IH]; intros Hn; [apply reach_init|].
  destruct (lookup_lt_is_Some_2 changes_ex n) as [ch Hch]; [simpl; lia|].
  destruct (changes_ex_apply n ch Hch) as [Ha Ht].
  apply (reach_change evm_ex careful (after n) ch); [apply IH; lia|intros _; exact Ht|exact Ha].
Qed.


Lemma contracts_persist_witness :
  ∃ k', accounts (after 4) !! factory_ex = Some k' ∧
    ∀ k, accounts (after 3) !! factory_ex = Some k → keeps appending k k'.
Proof.
  destruct (accounts (after 3) !! factory_ex) as [k|] eqn:Hk; [|vm_compute in Hk; discriminate].
  destruct (contracts_persist evm_ex (after 3) (SelfDestruct 77) (after 4) factory_ex k) as (k' & Ha & _ & Hk').
  - apply after_reachable. lia.
  - exact (proj1 (changes_ex_apply 3 (SelfDestruct 77) eq_refl)).
  - exact Hk.
  - discriminate.
  - exists k'. split; [exact Ha|]. intros k2 [= <-]. apply Hk'. exact (proj2 (changes_ex_apply 3 (SelfDestruct 77) eq_refl)).
Defined.
