(* ===== verification/LockCycle.v ===== *)
(** * The upgrade lock of a proxy

    [contracts/libraries/proxy/ProxyInternalUpgradeLock.sol] and
    [ProxyInternalUpgradeUnlock.sol] run as the implementation behind a proxy
    of the factory: locking, upgrades refused meanwhile, unlocking. *)

From S2P Require Import Prelude JsValue Constants Ethers Factory Instances FactoryProofs World Scenario.
From stdpp Require Import options.
Local Open Scope Z_scope.

Section Lock.
Context `{Ethers, !EthersLaws, Evm, !EvmLaws}.

(** The chain with another word in the implementation slot. *)
Definition with_slot (c : chain) (f p : address) (slot : Z) : chain :=
  {| accounts := <[p := KProxy f slot]> (accounts c); nonces := nonces c |}.

(** A call relayed to a proxy runs its implementation on the slot. *)
Lemma callAny_proxy c f st sender p slot k d slot' es :
  accounts c !! f = Some (KFactory st) → authorized f st sender = true →
  accounts c !! p = Some (KProxy f slot) → decode_upgrade d = None →
  accounts c !! ProxySlot.getImplementationAddress slot = Some k →
  proxied_code c f p (ProxySlot.getImplementationAddress slot) 0 d slot = Some (slot', es) →
  factory_tx c sender f (FCallAny p 0 d) = Some (with_slot c f p slot', es).
Proof using Type.
  intros Hf Hs Hp Hd Hi Hc. unfold factory_tx. rewrite CALL_DEPTH_SS. unfold factory_exec.
  rewrite (exec_guard _ _ _ _ _ _ Hf Hs). unfold _callAny. rewrite (call_proxy _ _ _ _ _ _ _ _ _ Hp).
  unfold proxy_fallback. rewrite Z.eqb_refl, Hd. unfold xbind at 1, xchain. cbn [fst snd].
  by rewrite Hi, Hc.
Qed.

Lemma upgrade_refused c f st salt slot sender a d :
  accounts c !! f = Some (KFactory st) →
  accounts c !! getMetamorphicContractAddress salt f = Some (KProxy f slot) →
  ProxySlot.locked slot = true → 0 ≤ a < 2 ^ 160 →
  factory_tx c sender f (FUpgradeProxy salt a d) = None.
Proof using Type*.
  intros Hf Hp Hl Ha. unfold factory_tx. rewrite CALL_DEPTH_SS.
  destruct ((sender =? f) || (sender =? f_owner st)) eqn:Hs.
  - by rewrite (exec_upgrade_locked _ _ _ _ _ _ _ _ _ _ Hf Hp Hl Ha Hs).
  - by rewrite (factory_exec_auth _ _ _ _ _ _ _ _ Hf Hs).
Qed.

Lemma upgrade_accepted c f st salt slot sender a :
  accounts c !! f = Some (KFactory st) → authorized f st sender = true →
  accounts c !! getMetamorphicContractAddress salt f = Some (KProxy f slot) →
  ProxySlot.locked slot = false → 0 ≤ a < 2 ^ 160 → decode_upgrade EMPTY = None →
  factory_tx c sender f (FUpgradeProxy salt a EMPTY) =
  Some (upgraded c f (getMetamorphicContractAddress salt f) a, []).
Proof using Type*.
  intros Hf Hs Hp Hl Ha Hd. unfold factory_tx. rewrite CALL_DEPTH_SS.
  by rewrite (exec_upgradeProxy _ _ _ _ _ _ _ _ _ _ [] Hf Hp Hl Ha Hd eq_refl Hs).
Qed.

(** C27: the life of the upgrade lock.  When the owner relays the lock call to
    a proxy whose implementation locks, the proxy still runs the same
    implementation, and from then on every upgrade of it reverts, whoever
    sends it and whatever it installs.  After the unlock call the chain is
    exactly as before the lock, and an upgrade installs its address. *)
Theorem lock_cycle c f st owner salt impl k lock unlock es1 es2 a :
  let p := getMetamorphicContractAddress salt f in
  accounts c !! f = Some (KFactory st) → f_owner st = owner → p ≠ f → p ≠ impl →
  accounts c !! p = Some (KProxy f impl) → 0 ≤ impl < 2 ^ 160 → accounts c !! impl = Some k →
  decode_upgrade lock = None → decode_upgrade unlock = None → decode_upgrade EMPTY = None →
  (∀ c slot, proxied_code c f p impl 0 lock slot = Some (ProxySlot.__lockImplementation slot, es1)) →
  (∀ c slot, proxied_code c f p impl 0 unlock slot = Some (ProxySlot.__unlockImplementation slot, es2)) →
  0 ≤ a < 2 ^ 160 →
  let slot := ProxySlot.__lockImplementation impl in
  let c1 := with_slot c f p slot in
  factory_tx c owner f (FCallAny p 0 lock) = Some (c1, es1) ∧
  ProxySlot.locked slot = true ∧ ProxySlot.getImplementationAddress slot = impl ∧
  (∀ sender new d, 0 ≤ new < 2 ^ 160 → factory_tx c1 sender f (FUpgradeProxy salt new d) = None) ∧
  factory_tx c1 owner f (FCallAny p 0 unlock) = Some (c, es2) ∧
  factory_tx c owner f (FUpgradeProxy salt a EMPTY) = Some (upgraded c f p a, []).
Proof using Type*.
  intros p Hf Ho Hpf Hpi Hp Hr Hk Hdl Hdu Hde Hlock Hunlock Ha slot c1. subst slot c1.
  assert (authorized f st owner = true) as Hs by (by apply owner_auth).
  pose proof (ProxySlot.getImpl_small impl Hr) as Hi.
  destruct (ProxySlot.proxy_lock_cycle impl a Hr Ha) as (Himpl & _ & Hback & _).
  assert (accounts (with_slot c f p (ProxySlot.__lockImplementation impl)) !! f = Some (KFactory st)) as Hf1
    by (simpl; by rewrite lookup_insert_ne).
  assert (accounts (with_slot c f p (ProxySlot.__lockImplementation impl)) !! p =
    Some (KProxy f (ProxySlot.__lockImplementation impl))) as Hp1 by apply lookup_insert_eq.
  assert (ProxySlot.locked (ProxySlot.__lockImplementation impl) = true) as Hl
    by (unfold ProxySlot.locked; by rewrite (ProxySlot.lock_shift impl Hr)).
  split_and!.
  - apply (callAny_proxy _ _ st _ _ impl k); rewrite ?Hi; done.
  - done.
  - done.
  - intros sender new d Hn. by apply (upgrade_refused _ _ st _ (ProxySlot.__lockImplementation impl)).
  - erewrite (callAny_proxy _ _ st _ _ (ProxySlot.__lockImplementation impl) k _ impl); try done.
    + unfold with_slot. cbn [accounts nonces]. rewrite insert_insert_eq, insert_id by done. by destruct c.
    + rewrite Himpl. simpl. by rewrite lookup_insert_ne.
    + by rewrite Himpl, Hunlock, Hback.
  - apply (upgrade_accepted _ _ st _ impl); try done. by apply ProxySlot.small_unlocked.
Qed.
End Lock.

(** ** Witness: an implementation with the two functions *)

#[local] Existing Instances ethers_model ethers_model_laws.

Definition evm_lock : Evm :=
  let _ := evm_ex in
  {| run_constructor := run_constructor; has_code := has_code; call_code := call_code;
     proxied_code _ _ _ _ _ d slot :=
       Some (if decide (d = "0xlock") then ProxySlot.__lockImplementation slot
             else if decide (d = "0xunlock") then ProxySlot.__unlockImplementation slot else slot, []);
     delegated_code := delegated_code; decode_call := decode_call;
     encode_upgrade := encode_upgrade; decode_upgrade := decode_upgrade;
     gas_used := gas_used; estimate_gas := estimate_gas; estimate_deploy_gas := estimate_deploy_gas;
     atoken_creation := atoken_creation |}.
#[local] Existing Instance evm_lock.
#[local] Instance evm_lock_laws : EvmLaws.
Proof.
  destruct (evm_model_laws 2000000) as [L1 L2 L3 L4]. split; [exact L1|exact L2|exact L3|exact L4].
Qed.

Definition lock_proxy : address := getMetamorphicContractAddress "0xETHDKG" factory_ex.
Definition chain_lock : chain :=
  {| accounts := <[lock_proxy := KProxy factory_ex 5]> (<[5 := KCode "logic"]> (accounts chain_ex));
     nonces := nonces chain_ex |}.

Lemma lock_cycle_witness :
  ∃ c1, factory_tx chain_lock owner_ex factory_ex (FCallAny lock_proxy 0 "0xlock") = Some (c1, []) ∧
    factory_tx c1 7 factory_ex (FUpgradeProxy "0xETHDKG" 9 EMPTY) = None ∧
    factory_tx c1 owner_ex factory_ex (FUpgradeProxy "0xETHDKG" 9 EMPTY) = None.
Proof.
  assert (∃ st, accounts chain_lock !! factory_ex = Some (KFactory st) ∧ f_owner st = owner_ex)
    as (st & Hst & Ho) by (eexists; split; vm_compute; reflexivity).
  destruct (lock_cycle chain_lock factory_ex st owner_ex "0xETHDKG" 5 (KCode "logic") "0xlock" "0xunlock"
    [] [] 9 Hst Ho) as (E & _ & _ & Href & _).
  - vm_compute. discriminate.
  - vm_compute. discriminate.
  - vm_compute. reflexivity.
  - split; [discriminate|reflexivity].
  - vm_compute. reflexivity.
  - reflexivity.
  - reflexivity.
  - reflexivity.
  - intros c slot. reflexivity.
  - intros c slot. reflexivity.
  - split; [discriminate|reflexivity].
  - eexists. split; [exact E|].
    assert (0 ≤ 9 < 2 ^ 160) as Hn by (split; [discriminate|reflexivity]).
    split; exact (Href _ 9 EMPTY Hn).
Defined.
