(* ===== verification/StateFile.v ===== *)
(** * The factory state file

    [scripts/lib/deployment/deploymentConfigUtil.ts] reads the TOML files of a
    deployment, [scripts/lib/deployment/factoryStateUtil.ts] keeps the record of
    what was deployed: one table per network with the default factory and the
    lists of deployed contracts.  Every update reads the file, changes one
    field and writes the file back. *)

From S2P Require Import Prelude JsValue Constants Artifacts Ethers Factory Instances World Scenario.
From stdpp Require Import options.
Local Open Scope Z_scope.

Section State.
Context `{Toml} (hre : Hre).

(** ** [deploymentConfigUtil.ts] *)

Definition readTOML (defaultPath : string) (usrPath : option string) : M jsval :=
  let path := default defaultPath usrPath in
  ex <- existsSync path ;;
  if ex : bool then
    rawData <- readFileSync path ;;
    lift (of_option (LibError "toml" "parse") (toml_parse rawData))
  else ret (JObj []).

Definition readDeploymentList (usrPath : option string) : M jsval :=
  readTOML DEPLOYMENT_LIST_PATH usrPath.
Definition readDeploymentArgs (usrPath : option string) : M jsval :=
  readTOML DEPLOYMENT_ARG_PATH usrPath.

(** The path every function of [factoryStateUtil.ts] computes. *)
Definition state_path (usrPath : option string) : string :=
  match usrPath with
  | None => FACTORY_STATE_PATH
  | Some p => strip_slashes p ++s "/factoryState"
  end.

Definition readFactoryState (usrPath : option string) : M jsval :=
  readTOML FACTORY_STATE_PATH (Some (state_path usrPath)).

(** ** [factoryStateUtil.ts] *)

Definition getDefaultFactoryAddress (network : string) (usrPath : option string) : M jsval :=
  let path := state_path usrPath in
  config <- readFactoryState (Some path) ;;
  net <- lift (js_get config network) ;;
  lift (js_get net "defaultFactoryAddress").

Definition writeFactoryState (network fieldName : string) (fieldData : jsval)
    (usrPath : option string) : M unit :=
  if silenced hre then ret tt
  else
    let filePath := state_path usrPath in
    ex <- existsSync filePath ;;
    factoryStateConfig <-
      (if ex : bool then
         config <- readFactoryState usrPath ;;
         net <- lift (js_get config network) ;;
         let net := if is_undefined net then JObj [] else net in
         net <- lift (js_set net fieldName fieldData) ;;
         lift (js_set config network net)
       else ret (JObj [(network, JObj [(fieldName, fieldData)])])) ;;
    data <- lift (of_option (LibError "toml" "stringify") (toml_stringify factoryStateConfig)) ;;
    writeFileSync filePath data.

Definition updateDefaultFactoryData (network : string) (data : jsval)
    (usrPath : option string) : M unit :=
  writeFactoryState network "defaultFactoryData" data usrPath ;;;
  address <- lift (js_get data "address") ;;
  writeFactoryState network "defaultFactoryAddress" address usrPath.

(** [data.receipt = undefined] when it is there.  [data] is the caller's
    object, so the caller sees the change: the result is the object after
    the call. *)
Definition drop_receipt (data : jsval) : res jsval :=
  receipt <~ js_get data "receipt" ;;
  if is_undefined receipt then Ok data else js_set data "receipt" JUndefined.

Definition updateList (network fieldName : string) (data : jsval)
    (usrPath : option string) : M jsval :=
  if silenced hre then ret data
  else
    factoryStateConfig <- readFactoryState usrPath ;;
    net <- lift (js_get factoryStateConfig network) ;;
    field <- lift (js_get net fieldName) ;;
    match (if is_undefined field then JArr [] else field) with
    | JArr l =>
        data <- lift (drop_receipt data) ;;
        writeFactoryState network fieldName (JArr (l ++ [data])) usrPath ;;;
        ret data
    | _ => throw (TypeError "output.push is not a function")
    end.

Definition updateDeployCreateList (network : string) (data : jsval) (usrPath : option string) :=
  updateList network "rawDeployments" data usrPath.
Definition updateTemplateList (network : string) (data : jsval) (usrPath : option string) :=
  updateList network "templates" data usrPath.
Definition updateProxyList (network : string) (data : jsval) (usrPath : option string) :=
  updateList network "proxies" data usrPath.
Definition updateMetaList (network : string) (data : jsval) (usrPath : option string) :=
  updateList network "staticContracts" data usrPath.

(** The search of the three functions below: the first entry with the
    given name; [undefined] when there is none. *)
Fixpoint find_entry (nameKey name addrKey : string) (l : list jsval) : res jsval :=
  match l with
  | [] => Ok JUndefined
  | e :: l =>
      n <~ js_get e nameKey ;;
      match n with
      | JStr s => if decide (s = name) then js_get e addrKey else find_entry nameKey name addrKey l
      | _ => find_entry nameKey name addrKey l
      end
  end.

Definition find_in_state (network field nameKey name addrKey : string) : M jsval :=
  config <- readFactoryState (Some FACTORY_STATE_PATH) ;;
  net <- lift (js_get config network) ;;
  entries <- lift (js_get net field) ;;
  match entries with
  | JArr l => lift (find_entry nameKey name addrKey l)
  | JUndefined | JNull => throw (TypeError "Cannot read properties of undefined (reading 'length')")
  | _ => ret JUndefined
  end.

Definition getATokenMinterAddress (network : string) : M jsval :=
  find_in_state network "proxies" "logicName" "ATokenMinter" "proxyAddress".
Definition getBTokenAddress (network : string) : M jsval :=
  find_in_state network "staticContracts" "templateName" "BToken" "metaAddress".
Definition getATokenAddress (network : string) : M jsval :=
  find_in_state network "staticContracts" "templateName" "AToken" "metaAddress".

(** ** Reading *)

Lemma pure_readTOML d u : pure_M (readTOML d u).
Proof. unfold readTOML. mpure. Qed.

Lemma readTOML_file w d p text v :
  fs_lookup (w_fs w) (resolve p) = Some (File text) → toml_parse text = Some v →
  readTOML d (Some p) w = (Ok v, w).
Proof.
  intros Hf Hv. unfold readTOML, existsSync, readFileSync, get_fs, mbind_js, ret, lift.
  simpl. unfold fs_exists. rewrite Hf. simpl. by rewrite (fs_read_lookup _ _ _ Hf), Hv.
Qed.

Lemma readTOML_missing w d p :
  fs_lookup (w_fs w) (resolve p) = None → readTOML d (Some p) w = (Ok (JObj []), w).
Proof.
  intros Hf. unfold readTOML, existsSync, get_fs, mbind_js, ret. simpl.
  unfold fs_exists. by rewrite Hf.
Qed.

(** ** The abstract state

    A factory state file stands for a finite map from network and field to
    value; a value is known up to [toml_canon], what a TOML file keeps of
    it. *)
Notation statemap := (gmap (string * string) jsval).

Definition view (c : list (string * jsval)) (net field : string) : option jsval :=
  match obj_get c net with Some (JObj o) => obj_get o field | _ => None end.

Definition represents (c : list (string * jsval)) (m : statemap) : Prop :=
  (∀ net v, obj_get c net = Some v → ∃ o, v = JObj o) ∧
  (∀ k v, m !! k = Some v → is_nullish v = false) ∧
  (∀ net f, view c net f = toml_canon <$> m !! (net, f)).

Definition holds_state (w : world) (usrPath : option string) (m : statemap) : Prop :=
  ∃ text c, fs_lookup (w_fs w) (resolve (state_path usrPath)) = Some (File text) ∧
            toml_parse text = Some (JObj c) ∧ represents c m.

(** Writing [undefined] or [null] removes the field. *)
Definition put (m : statemap) (net f : string) (v : jsval) : statemap :=
  if is_nullish v then delete (net, f) m else <[(net, f) := v]> m.

Lemma put_lookup m net f v net' f' :
  put m net f v !! (net', f') =
  if decide ((net, f) = (net', f')) then (if is_nullish v then None else Some v)
  else m !! (net', f').
Proof using Type.
  unfold put. destruct (is_nullish v); case_decide; simplify_eq;
    rewrite ?lookup_insert_eq, ?lookup_delete_eq, ?lookup_insert_ne, ?lookup_delete_ne by congruence;
    done.
Qed.

(** The table the update leaves under a network. *)
Definition set_field (c : list (string * jsval)) (net f : string) (v : jsval) :=
  obj_set c net (JObj (obj_set (match obj_get c net with Some (JObj o) => o | _ => [] end) f v)).

Lemma view_set_field c net f v net' f' :
  view (set_field c net f v) net' f' =
  if decide ((net, f) = (net', f')) then Some v else view c net' f'.
Proof using Type.
  unfold view, set_field. rewrite obj_get_set.
  destruct (decide (net = net')) as [<-|]; [|by rewrite decide_False by congruence].
  rewrite obj_get_set. destruct (decide (f = f')) as [<-|]; [by rewrite decide_True|].
  rewrite decide_False by congruence. by destruct (obj_get c net) as [[]|].
Qed.

Context `{!TomlLaws}.

Lemma view_canon c : (∀ net v, obj_get c net = Some v → ∃ o, v = JObj o) →
  ∃ c', toml_canon (JObj c) = JObj c' ∧
    (∀ net v, obj_get c' net = Some v → ∃ o, v = JObj o) ∧
    ∀ net f, view c' net f = match view c net f with
                             | None | Some (JUndefined | JNull) => None
                             | Some v => Some (toml_canon v)
                             end.
Proof using Type*.
  intros Ht. destruct (toml_canon_obj c) as (c' & Hc & Hg). exists c'. split; [done|].
  split; [|intros net f; unfold view]; [intros net v|]; rewrite Hg;
    destruct (obj_get c net) as [v0|] eqn:E; try done;
    destruct (Ht _ _ E) as [o ->]; destruct (toml_canon_obj o) as (o' & Ho & Hgo);
    rewrite Ho; [naive_solver|apply Hgo].
Qed.

(** One write of the file performs one [put]. *)
Lemma represents_put c m net f v :
  represents c m →
  ∃ c', toml_canon (JObj (set_field c net f v)) = JObj c' ∧ represents c' (put m net f v).
Proof using Type*.
  intros (Ht & Hu & Hv).
  destruct (view_canon (set_field c net f v)) as (c' & Hc & Ht' & Hv').
  { intros n x. unfold set_field. rewrite obj_get_set. case_decide; [naive_solver|apply Ht]. }
  exists c'. split; [done|]. split_and!; [done| |].
  - intros [n g] x. rewrite put_lookup. case_decide; [|apply Hu].
    destruct (is_nullish v) eqn:E; naive_solver.
  - intros n g. rewrite Hv', view_set_field, put_lookup. case_decide; [by destruct v|].
    rewrite Hv. destruct (m !! (n, g)) as [x|] eqn:E; [|done]. simpl.
    pose proof (toml_canon_defined x (Hu _ _ E)) as Hx.
    rewrite <-(toml_canon_idem x) at 2. by destruct (toml_canon x).
Qed.

Lemma represents_new net f v :
  ∃ c', toml_canon (JObj [(net, JObj [(f, v)])]) = JObj c' ∧ represents c' (put ∅ net f v).
Proof using Type*.
  apply (represents_put [] ∅ net f v). split_and!; [done|done|].
  intros n g. by rewrite lookup_empty.
Qed.

(** ** What the operations do to the abstract state *)

Definition rewrite_file (w : world) (p text : string) : world :=
  {| w_fs := <[resolve p := File text]> (w_fs w);
     w_chain := w_chain w; w_trace := w_trace w |}.

(** Only the state file may differ. *)
Definition only_file (p : string) (w w' : world) : Prop :=
  w_chain w' = w_chain w ∧ w_trace w' = w_trace w ∧
  ∀ q, q ≠ resolve p → fs_lookup (w_fs w') q = fs_lookup (w_fs w) q.

Lemma only_file_refl p w : only_file p w w.
Proof using Type. done. Qed.
Lemma only_file_trans p w1 w2 w3 : only_file p w1 w2 → only_file p w2 w3 → only_file p w1 w3.
Proof using Type.
  intros (C1 & T1 & F1) (C2 & T2 & F2). split_and!; [congruence..|].
  intros q Hq. by rewrite F2, F1.
Qed.

Lemma only_file_rewrite p w text0 text :
  fs_lookup (w_fs w) (resolve p) = Some (File text0) → only_file p w (rewrite_file w p text).
Proof using Type.
  intros Hf. split_and!; [done..|]. intros q Hq. simpl. by eapply fs_rewrite_lookup.
Qed.

Lemma represents_get c m net :
  represents c m → is_proto net = false →
  js_get (JObj c) net =
  Ok (match obj_get c net with Some (JObj o) => JObj o | _ => JUndefined end).
Proof using Type.
  intros (Ht & _) Hp. simpl. rewrite Hp. destruct (obj_get c net) as [v|] eqn:E; [|done].
  by destruct (Ht _ _ E) as [o ->].
Qed.

Lemma writeFactoryState_run w u text c m net f v :
  silenced hre = false → is_proto net = false →
  fs_lookup (w_fs w) (resolve (state_path u)) = Some (File text) →
  toml_parse text = Some (JObj c) → represents c m →
  writeFactoryState net f v u w =
  match toml_stringify (JObj (set_field c net f v)) with
  | Some s => (Ok tt, rewrite_file w (state_path u) s)
  | None => (Throw (LibError "toml" "stringify"), w)
  end.
Proof using Type.
  intros Hs Hp Hf Hc Hr. unfold writeFactoryState. rewrite Hs.
  assert (existsSync (state_path u) w = (Ok true, w)) as Hex.
  { unfold existsSync, fs_exists, get_fs, mbind_js, ret. by rewrite Hf. }
  mstep Hex. cbv iota. rewrite !mbind_assoc.
  unfold readFactoryState. mstep (readTOML_file w FACTORY_STATE_PATH _ _ _ Hf Hc).
  rewrite !mbind_assoc, (mbind_lift _ _ _ _ (represents_get _ _ _ Hr Hp)).
  set (o := match obj_get c net with Some (JObj o) => o | _ => [] end).
  assert ((if is_undefined (match obj_get c net with Some (JObj o) => JObj o | _ => JUndefined end)
           then JObj [] else match obj_get c net with Some (JObj o) => JObj o | _ => JUndefined end)
          = JObj o) as -> by (unfold o; by destruct (obj_get c net) as [[]|]).
  cbv zeta. rewrite !mbind_assoc.
  rewrite (mbind_lift (js_set (JObj o) f v) _ _ (JObj (obj_set o f v)) eq_refl).
  rewrite (mbind_lift (js_set (JObj c) net (JObj (obj_set o f v))) _ _
             (JObj (set_field c net f v)) eq_refl).
  unfold mbind_js, lift at 1. destruct (toml_stringify _) as [s|]; [|done]. simpl.
  unfold writeFileSync, get_fs, mbind_js, lift. simpl.
  by rewrite (fs_write_existing _ _ _ _ Hf).
Qed.

Lemma writeFactoryState_then {A} w u text c m net f v (a : A) :
  silenced hre = false → is_proto net = false →
  fs_lookup (w_fs w) (resolve (state_path u)) = Some (File text) →
  toml_parse text = Some (JObj c) → represents c m →
  (writeFactoryState net f v u ;;; ret a) w =
  match toml_stringify (JObj (set_field c net f v)) with
  | Some s => (Ok a, rewrite_file w (state_path u) s)
  | None => (Throw (LibError "toml" "stringify"), w)
  end.
Proof using Type.
  intros. unfold mbind_js. erewrite writeFactoryState_run by done.
  by destruct (toml_stringify _).
Qed.

Lemma rewrite_holds w u text0 c m text :
  fs_lookup (w_fs w) (resolve (state_path u)) = Some (File text0) →
  toml_parse text = Some (JObj c) → represents c m →
  holds_state (rewrite_file w (state_path u) text) u m.
Proof using Type.
  intros Hf Hp Hr. exists text, c. split_and!; [|done|done].
  eapply (fs_write_lookup (w_fs w)). by eapply fs_write_existing.
Qed.

(** A file with a single field. *)
Lemma holds_single w u net f v text :
  toml_stringify (JObj [(net, JObj [(f, v)])]) = Some text →
  fs_lookup (w_fs w) (resolve (state_path u)) = Some (File text) →
  holds_state w u (put ∅ net f v).
Proof using Type*.
  intros Ht Hf. destruct (represents_new net f v) as (c & Hc & Hr). exists text, c.
  split_and!; [done| |done]. apply toml_roundtrip in Ht. by rewrite Ht, Hc.
Qed.

(** C7: the state file is a faithful finite map.  While it holds the map
    [m], [writeFactoryState] replaces exactly the value of one field of one
    network, keeps every other field and network, and touches no other
    file, the chain or the console; when the value cannot be written as
    TOML it throws and leaves everything as it was. *)
Theorem write_state_refines w u m net f v :
  silenced hre = false → is_proto net = false → holds_state w u m →
  ∃ r w', writeFactoryState net f v u w = (r, w') ∧
    ((r = Ok tt ∧ holds_state w' u (put m net f v) ∧ only_file (state_path u) w w') ∨
     (r = Throw (LibError "toml" "stringify") ∧ w' = w)).
Proof using Type*.
  intros Hs Hp (text & c & Hf & Hc & Hr).
  rewrite (writeFactoryState_run _ _ _ _ _ _ _ _ Hs Hp Hf Hc Hr).
  destruct (toml_stringify _) as [s|] eqn:E; [|by eauto 10].
  eexists _, _. split; [done|]. left.
  destruct (represents_put _ _ net f v Hr) as (c' & Hc' & Hr').
  apply toml_roundtrip in E. rewrite Hc' in E.
  split_and!; [done|by eapply rewrite_holds|by eapply only_file_rewrite].
Qed.

Lemma represents_field c m net f o :
  represents c m → obj_get c net = Some (JObj o) →
  obj_get o f = toml_canon <$> m !! (net, f).
Proof using Type. intros (_ & _ & Hv) Ho. specialize (Hv net f). unfold view in Hv. by rewrite Ho in Hv. Qed.

(** The list a field holds; a field that is missing is an empty list. *)
Definition list_at (m : statemap) (net f : string) : option (list jsval) :=
  match m !! (net, f) with
  | None => Some []
  | Some (JArr l) => Some l
  | Some _ => None
  end.

Lemma updateList_run w u text c m net f data data' o l :
  silenced hre = false → is_proto net = false → is_proto f = false →
  fs_lookup (w_fs w) (resolve (state_path u)) = Some (File text) →
  toml_parse text = Some (JObj c) → represents c m →
  obj_get c net = Some (JObj o) → list_at m net f = Some l →
  Forall (λ v, is_nullish v = false) l → drop_receipt data = Ok data' →
  updateList net f data u w =
  (writeFactoryState net f (JArr ((toml_canon <$> l) ++ [data'])) u ;;; ret data') w.
Proof using Type*.
  intros Hs Hp Hpf Hf Hc Hr Ho Hl Hdef Hd. unfold updateList. rewrite Hs.
  unfold readFactoryState. mstep (readTOML_file w FACTORY_STATE_PATH _ _ _ Hf Hc).
  rewrite (mbind_lift _ _ _ _ (represents_get _ _ _ Hr Hp)), Ho.
  assert (js_get (JObj o) f = Ok (default JUndefined (toml_canon <$> m !! (net, f)))) as Hg.
  { simpl. rewrite (represents_field _ _ _ _ _ Hr Ho), Hpf. by destruct (m !! (net, f)). }
  rewrite (mbind_lift _ _ _ _ Hg). unfold list_at in Hl.
  destruct (m !! (net, f)) as [x|]; simpl.
  - destruct x; simplify_eq. rewrite toml_canon_arr by done. simpl. by rewrite (mbind_lift _ _ _ _ Hd).
  - simplify_eq. by rewrite (mbind_lift _ _ _ _ Hd).
Qed.

(** A network with some recorded field has a table. *)
Lemma represents_table c m net f v :
  represents c m → m !! (net, f) = Some v → ∃ o, obj_get c net = Some (JObj o).
Proof using Type.
  intros (Ht & _ & Hv) Hm. specialize (Hv net f). rewrite Hm in Hv. unfold view in Hv.
  destruct (obj_get c net) as [x|] eqn:E; [|done]. destruct (Ht _ _ E) as [o ->]. by eexists.
Qed.

(** Values that differ only in what a TOML file keeps are the same record. *)
Lemma represents_canon c m k v v' :
  represents c (<[k := v]> m) → toml_canon v = toml_canon v' → is_nullish v' = false →
  represents c (<[k := v']> m).
Proof using Type.
  intros (Ht & Hu & Hv) Hc Hv'. split_and!; [done| |].
  - intros k' x. destruct (decide (k = k')) as [<-|].
    + rewrite lookup_insert_eq. by intros [= <-].
    + rewrite lookup_insert_ne by done. intros Hx. eapply Hu. by rewrite lookup_insert_ne.
  - intros net f. rewrite Hv. destruct (decide (k = (net, f))) as [->|].
    + rewrite !lookup_insert_eq. simpl. by rewrite Hc.
    + by rewrite !lookup_insert_ne.
Qed.

Lemma holds_canon w u m k v v' :
  holds_state w u (<[k := v]> m) → toml_canon v = toml_canon v' → is_nullish v' = false →
  holds_state w u (<[k := v']> m).
Proof using Type. intros (t & c & ? & ? & ?) ? ?. exists t, c. eauto using represents_canon. Qed.

(** Nothing recorded yet, in a directory that exists. *)
Definition no_state (w : world) (u : option string) : Prop :=
  fs_lookup (w_fs w) (resolve (state_path u)) = None ∧
  is_dir (w_fs w) (removelast (resolve (state_path u))) = true.

Definition at_state (w : world) (u : option string) (m : statemap) : Prop :=
  holds_state w u m ∨ (no_state w u ∧ m = ∅).

(** Paths that are neither the state file nor below it keep what they had. *)
Definition beside_file (p : string) (w w' : world) : Prop :=
  w_chain w' = w_chain w ∧ w_trace w' = w_trace w ∧
  ∀ q, ¬ resolve p `prefix_of` q → fs_lookup (w_fs w') q = fs_lookup (w_fs w) q.

Lemma only_beside p w w' : only_file p w w' → beside_file p w w'.
Proof using Type. intros (? & ? & Hq). split_and!; [done..|]. intros q Hn. apply Hq. by intros ->. Qed.

Lemma beside_trans p w1 w2 w3 : beside_file p w1 w2 → beside_file p w2 w3 → beside_file p w1 w3.
Proof using Type.
  intros (C1 & T1 & F1) (C2 & T2 & F2). split_and!; [congruence..|].
  intros q Hq. by rewrite F2, F1.
Qed.

Lemma write_state_new w u net f v :
  silenced hre = false → no_state w u →
  ∃ r w', writeFactoryState net f v u w = (r, w') ∧
    ((r = Ok tt ∧ holds_state w' u (put ∅ net f v) ∧ beside_file (state_path u) w w') ∨
     (r = Throw (LibError "toml" "stringify") ∧ w' = w)).
Proof using Type*.
  intros Hs [Hf Hd]. unfold writeFactoryState. rewrite Hs.
  assert (existsSync (state_path u) w = (Ok false, w)) as Hex.
  { unfold existsSync, fs_exists, get_fs, mbind_js, ret. by rewrite Hf. }
  mstep Hex. cbv iota. rewrite mbind_ret.
  destruct (represents_new net f v) as (c' & Hc' & Hr').
  unfold mbind_js at 1, lift at 1. destruct (toml_stringify _) as [s|] eqn:E; [|by eauto 10].
  apply toml_roundtrip in E. rewrite Hc' in E. simpl.
  assert (fs_write (w_fs w) (state_path u) s =
          Ok (<[resolve (state_path u) := File s]> (w_fs w))) as Hw
    by (unfold fs_write; by rewrite Hf, Hd).
  unfold writeFileSync, get_fs, mbind_js, lift. simpl. rewrite Hw.
  eexists _, _. split; [done|]. left. split_and!; [done| |].
  - exists s, c'. split_and!; [|done..]. by eapply fs_write_lookup.
  - split_and!; [done..|]. intros q Hq. simpl. by apply fs_insert_beside.
Qed.

Lemma write_state_at w u m net f v :
  silenced hre = false → is_proto net = false → at_state w u m →
  ∃ r w', writeFactoryState net f v u w = (r, w') ∧
    ((r = Ok tt ∧ holds_state w' u (put m net f v) ∧ beside_file (state_path u) w w') ∨
     (r = Throw (LibError "toml" "stringify") ∧ w' = w)).
Proof using Type*.
  intros Hs Hp [(text & c & Hf & Hc & Hr)|[Hn ->]]; [|by apply write_state_new].
  rewrite (writeFactoryState_run _ _ _ _ _ _ _ _ Hs Hp Hf Hc Hr).
  destruct (toml_stringify _) as [s|] eqn:E; [|by eauto 10].
  eexists _, _. split; [done|]. left.
  destruct (represents_put _ _ net f v Hr) as (c' & Hc' & Hr').
  apply toml_roundtrip in E. rewrite Hc' in E.
  split_and!; [done|by eapply rewrite_holds|]. by eapply only_beside, only_file_rewrite.
Qed.

(** [updateDefaultFactoryData] records the factory, from scratch or on
    top of an existing state: both the data and the address of the network's
    default factory are replaced and everything else is kept.  It can only
    fail where a value cannot be written as TOML. *)
Theorem default_factory_recorded w u m net o a :
  silenced hre = false → is_proto net = false → at_state w u m →
  obj_get o "address" = Some a →
  ∃ r w', updateDefaultFactoryData net (JObj o) u w = (r, w') ∧
    beside_file (state_path u) w w' ∧
    ((r = Ok tt ∧ holds_state w' u
        (put (put m net "defaultFactoryData" (JObj o)) net "defaultFactoryAddress" a)) ∨
     r = Throw (LibError "toml" "stringify")).
Proof using Type*.
  intros Hs Hp Ha Ho. unfold updateDefaultFactoryData.
  destruct (write_state_at _ _ _ net "defaultFactoryData" (JObj o) Hs Hp Ha)
    as (r1 & w1 & E1 & [(-> & H1 & B1)|[-> ->]]).
  - mstep E1. rewrite (mbind_lift _ _ _ _ (js_get_own _ _ _ Ho)).
    destruct (write_state_at w1 u _ net "defaultFactoryAddress" a Hs Hp (or_introl H1))
      as (r2 & w2 & E2 & [(-> & H2 & B2)|[-> ->]]); rewrite E2; eexists _, _; split; try done.
    + split; [by eapply beside_trans|]. by left.
    + split; [done|]. by right.
  - rewrite (mbind_Throw _ _ _ _ _ E1). eexists _, _. split; [done|]. split; [done|by right].
Qed.

Lemma update_list_spec w u m net f f0 v0 data data' l :
  silenced hre = false → is_proto net = false → is_proto f = false →
  holds_state w u m → m !! (net, f0) = Some v0 → list_at m net f = Some l →
  Forall (λ v, is_nullish v = false) l →
  drop_receipt data = Ok data' → is_nullish data' = false →
  ∃ r w', updateList net f data u w = (r, w') ∧
    ((r = Ok data' ∧ holds_state w' u (<[(net, f) := JArr (l ++ [data'])]> m) ∧
      only_file (state_path u) w w') ∨
     (r = Throw (LibError "toml" "stringify") ∧ w' = w)).
Proof using Type*.
  intros Hs Hp Hpf Hh Hk Hl Hdef Hd Hd'. pose proof Hh as (text & c & Hf & Hc & Hr).
  destruct (represents_table _ _ _ _ _ Hr Hk) as [o Ho].
  rewrite (updateList_run _ _ _ _ _ _ _ _ _ _ _ Hs Hp Hpf Hf Hc Hr Ho Hl Hdef Hd).
  rewrite (writeFactoryState_then _ _ _ _ _ _ _ _ _ Hs Hp Hf Hc Hr).
  destruct (toml_stringify _) as [s|] eqn:E; [|by eauto 10].
  eexists _, _. split; [done|]. left. split; [done|].
  destruct (represents_put _ _ net f (JArr ((toml_canon <$> l) ++ [data'])) Hr) as (c' & Hc' & Hr').
  apply toml_roundtrip in E. rewrite Hc' in E.
  split; [|by eapply only_file_rewrite].
  unfold put in Hr'. cbn [is_nullish] in Hr'.
  eapply holds_canon; [by eapply rewrite_holds| |done].
  rewrite !toml_canon_arr by (apply Forall_app; auto using toml_canon_defined_list).
  rewrite !fmap_app, <-list_fmap_compose. do 2 f_equal.
  apply list_fmap_ext. intros. apply toml_canon_idem.
Qed.

(** C8: recording a deployment appends it.  In a state file that already
    knows the network, [updateList] adds the entry, without its receipt, at
    the end of the list of the field, which is created when it is missing;
    everything else in the file stays.  The caller's object is the entry
    that was written. *)
Theorem update_list_appends w u m net f f0 v0 data data' l :
  silenced hre = false → is_proto net = false → is_proto f = false →
  holds_state w u m → m !! (net, f0) = Some v0 → list_at m net f = Some l →
  Forall (λ v, is_nullish v = false) l →
  drop_receipt data = Ok data' → is_nullish data' = false →
  ∃ r w', updateList net f data u w = (r, w') ∧
    ((r = Ok data' ∧ holds_state w' u (<[(net, f) := JArr (l ++ [data'])]> m) ∧
      only_file (state_path u) w w') ∨
     (r = Throw (LibError "toml" "stringify") ∧ w' = w)).
Proof using Type*. apply update_list_spec. Qed.

(** The state of a network the file does not know, or of a missing file. *)
Definition unknown_network (w : world) (u : option string) (net : string) : Prop :=
  fs_lookup (w_fs w) (resolve (state_path u)) = None ∨
  ∃ text c, fs_lookup (w_fs w) (resolve (state_path u)) = Some (File text) ∧
            toml_parse text = Some (JObj c) ∧ obj_get c net = None.

(** [updateList] does not create a network.  Where the file is missing
    or has no table for the network, recording throws a TypeError and
    nothing is written. *)
Theorem update_list_unknown_network w u net f data :
  silenced hre = false → is_proto net = false → unknown_network w u net →
  ∃ msg, updateList net f data u w = (Throw (TypeError msg), w).
Proof using Type.
  intros Hs Hp Hn. unfold updateList. rewrite Hs. unfold readFactoryState.
  assert (∃ c, readTOML FACTORY_STATE_PATH (Some (state_path u)) w = (Ok (JObj c), w) ∧
               obj_get c net = None) as (c & Hrd & Hg).
  { destruct Hn as [Hn|(text & c & Hf & Hc & Hg)].
    - exists []. split; [by apply readTOML_missing|done].
    - exists c. split; [by eapply readTOML_file|done]. }
  mstep Hrd. rewrite (mbind_lift _ _ _ _ (js_get_absent _ _ Hp Hg)). by eexists.
Qed.

(** Quiet runs record nothing. *)
Lemma updateList_silenced w u net f data :
  silenced hre = true → updateList net f data u w = (Ok data, w).
Proof using Type. intros Hs. unfold updateList. by rewrite Hs. Qed.

(** ** Looking addresses up again *)

Lemma state_path_nonempty u : state_path u ≠ EmptyString.
Proof using Type. destruct u as [p|]; [|done]. simpl. by destruct (strip_slashes p). Qed.

Lemma state_path_strip u : strip_slashes (state_path u) = state_path u.
Proof using Type. destruct u; [|done]. simpl. by rewrite strip_slashes_app. Qed.

(** The path is extended a second time, below the file itself. *)
Lemma nested_path u :
  resolve (state_path (Some (state_path u))) = resolve (state_path u) ++ ["factoryState"].
Proof using Type.
  simpl. rewrite state_path_strip.
  apply (resolve_child _ "factoryState"); [apply state_path_nonempty|done..].
Qed.

Lemma readFactoryState_nested w u text :
  fs_lookup (w_fs w) (resolve (state_path u)) = Some (File text) →
  readFactoryState (Some (state_path u)) w = (Ok (JObj []), w).
Proof using Type.
  intros Hf. apply readTOML_missing. rewrite nested_path. by eapply fs_lookup_below.
Qed.

(** C28: once a state file has been written, no address can be looked up
    in it: the four getters append the file name twice, find nothing below
    the file and throw a TypeError, whatever the file records. *)
Theorem address_lookup_fails w u text net :
  is_proto net = false →
  fs_lookup (w_fs w) (resolve (state_path u)) = Some (File text) →
  (∃ msg, getDefaultFactoryAddress net u w = (Throw (TypeError msg), w)) ∧
  (u = None →
    (∃ msg, getATokenMinterAddress net w = (Throw (TypeError msg), w)) ∧
    (∃ msg, getBTokenAddress net w = (Throw (TypeError msg), w)) ∧
    (∃ msg, getATokenAddress net w = (Throw (TypeError msg), w))).
Proof using Type.
  intros Hp Hf. assert (js_get (JObj []) net = Ok JUndefined) as Hg by by apply js_get_absent.
  split.
  - unfold getDefaultFactoryAddress. mstep (readFactoryState_nested _ _ _ Hf).
    rewrite (mbind_lift _ _ _ _ Hg). by eexists.
  - intros ->. unfold getATokenMinterAddress, getBTokenAddress, getATokenAddress, find_in_state.
    split_and!; mstep (readFactoryState_nested _ _ _ Hf); rewrite (mbind_lift _ _ _ _ Hg);
      by eexists.
Qed.
End State.

(** ** Witnesses: a state file in the folder [out] with one known factory *)

#[local] Existing Instances toml_model toml_model_laws.

Definition state_text_ex : string :=
  default EmptyString (toml_stringify
    (JObj [("dev", JObj [("defaultFactoryAddress", JAddr factory_ex)])])).

Definition state_world_ex : world := rewrite_file world_ex "out/factoryState" state_text_ex.

Definition state_map_ex : gmap (string * string) jsval :=
  put ∅ "dev" "defaultFactoryAddress" (JAddr factory_ex).

Lemma state_world_holds : holds_state state_world_ex (Some "out/") state_map_ex.
Proof. eapply holds_single; vm_compute; reflexivity. Qed.

(** There the value can be written. *)
Example write_state_ex :
  (writeFactoryState (hre_ex None) "dev" "rawDeployments" (JArr []) (Some "out/") state_world_ex).1 = Ok tt.
Proof. vm_compute. reflexivity. Qed.

Lemma write_state_refines_witness :
  ∃ w', writeFactoryState (hre_ex None) "dev" "rawDeployments" (JArr []) (Some "out/") state_world_ex =
          (Ok tt, w') ∧
    holds_state w' (Some "out/") (put state_map_ex "dev" "rawDeployments" (JArr [])) ∧
    only_file "out/factoryState" state_world_ex w'.
Proof.
  destruct (write_state_refines (hre_ex None) state_world_ex (Some "out/") state_map_ex
    "dev" "rawDeployments" (JArr []) eq_refl eq_refl state_world_holds)
    as (r & w' & E & [(-> & Hh & Ho)|[-> _]]).
  - exists w'. exact (conj E (conj Hh Ho)).
  - pose proof write_state_ex as Hok. rewrite E in Hok. discriminate Hok.
Defined.

Definition entry_ex (receipt : jsval) : jsval :=
  JObj [("name", JStr "Snapshots"); ("address", JAddr 77); ("receipt", receipt)].

(** There the entry can be written. *)
Example update_list_ex :
  (match (updateList (hre_ex None) "dev" "rawDeployments" (entry_ex (JStr "r")) (Some "out/")
            state_world_ex).1 with Ok _ => true | Throw _ => false end) = true.
Proof. vm_compute. reflexivity. Qed.

Lemma update_list_appends_witness :
  ∃ w', updateList (hre_ex None) "dev" "rawDeployments" (entry_ex (JStr "r")) (Some "out/")
          state_world_ex = (Ok (entry_ex JUndefined), w') ∧
    holds_state w' (Some "out/") (<[("dev", "rawDeployments") := JArr [entry_ex JUndefined]]> state_map_ex) ∧
    only_file "out/factoryState" state_world_ex w'.
Proof.
  destruct (update_list_appends (hre_ex None) state_world_ex (Some "out/") state_map_ex "dev"
    "rawDeployments" "defaultFactoryAddress" (JAddr factory_ex) (entry_ex (JStr "r"))
    (entry_ex JUndefined) []) as (r & w' & E & [(-> & Hh & Ho)|[-> _]]);
    try reflexivity; [apply state_world_holds|constructor|..].
  - exists w'. exact (conj E (conj Hh Ho)).
  - pose proof update_list_ex as Hok. rewrite E in Hok. discriminate Hok.
Defined.

Lemma default_factory_recorded_witness :
  ∃ r w', updateDefaultFactoryData (hre_ex None) "dev" (JObj [("address", JAddr factory_ex)])
            (Some "out") world_ex = (r, w') ∧ beside_file "out/factoryState" world_ex w' ∧
    ((r = Ok tt ∧ holds_state w' (Some "out")
        (put (put ∅ "dev" "defaultFactoryData" (JObj [("address", JAddr factory_ex)]))
             "dev" "defaultFactoryAddress" (JAddr factory_ex))) ∨
     r = Throw (LibError "toml" "stringify")).
Proof.
  apply (default_factory_recorded (hre_ex None) world_ex (Some "out") ∅ "dev"
    [("address", JAddr factory_ex)] (JAddr factory_ex)); try reflexivity.
  right. split; [|reflexivity]. split; vm_compute; reflexivity.
Defined.

Lemma update_list_unknown_network_witness :
  ∃ msg, updateList (hre_ex None) "mainnet" "proxies" (entry_ex JUndefined) (Some "out/")
           state_world_ex = (Throw (TypeError msg), state_world_ex).
Proof.
  apply update_list_unknown_network; [reflexivity..|]. right.
  eexists _, _. split; [vm_compute; reflexivity|]. split; vm_compute; reflexivity.
Defined.

Lemma address_lookup_fails_witness :
  ∃ msg, getDefaultFactoryAddress "dev" (Some "out/") state_world_ex =
         (Throw (TypeError msg), state_world_ex).
Proof.
  apply (address_lookup_fails state_world_ex (Some "out/") state_text_ex "dev");
    vm_compute; reflexivity.
Defined.
