(* ===== verification/DeployArgs.v ===== *)
(** * Deployment lists and arguments on disk

    [scripts/lib/deployment/deployArgUtil.ts] derives a template of
    constructor and initializer arguments from the ABIs,
    [scripts/lib/deployment/deploymentListUtil.ts] stores the list of contracts
    to deploy, and the readers of [scripts/lib/deployment/deploymentUtil.ts]
    turn the edited files into the arguments of the deployment tasks. *)

From S2P Require Import Prelude JsValue Constants Artifacts Fixtures Ethers Factory Instances World Scenario StateFile.
From stdpp Require Import options.
Local Open Scope Z_scope.

(** ** ABI to argument template ([deployArgUtil.ts]) *)

Section Template.
Context (art : Artifacts).

(** [methodName === 'constructor' ? method.type : method.name] *)
Definition method_target (methodName : string) (m : abi_entry) : option string :=
  if decide (methodName = "constructor") then Some (m_type m) else m_name m.

Definition placeholder (i : abi_input) : jsval := JObj [(in_name i, JStr "UNDEFINED")].

(** [for (const input of method.inputs)] *)
Definition method_inputs (m : abi_entry) : res (list abi_input) :=
  of_option (TypeError "method.inputs is not iterable") (m_inputs m).

Fixpoint args_of_methods (methodName : string) (methods : list abi_entry)
    (args : list jsval) : res (list jsval) :=
  match methods with
  | [] => Ok args
  | m :: ms =>
      if decide (method_target methodName m = Some methodName)
      then ins <~ method_inputs m ;;
           args_of_methods methodName ms (args ++ (placeholder <$> ins))
      else args_of_methods methodName ms args
  end.

Definition parseArgsArray (fullName methodName : string) : res (list jsval) :=
  methods <~ getContractABI art fullName ;;
  args_of_methods methodName methods [].

Definition getConstructorArgsABI (fullName : string) : res (list jsval) :=
  parseArgsArray fullName "constructor".
Definition getInitializerArgsABI (fullName : string) : res (list jsval) :=
  parseArgsArray fullName "initialize".

(** [target === 'constructor'], whatever the method name *)
Fixpoint method_arg_count (methodName : string) (methods : list abi_entry) : res Z :=
  match methods with
  | [] => Ok 0
  | m :: ms =>
      if decide (method_target methodName m = Some "constructor") then inputs_length m
      else method_arg_count methodName ms
  end.

Definition getMethodArgCount (fullName methodName : string) : res Z :=
  methods <~ getContractABI art fullName ;; method_arg_count methodName methods.

Fixpoint initializer_arg_count (methods : list abi_entry) : res Z :=
  match methods with
  | [] => Ok 0
  | m :: ms => if decide (m_name m = Some "initialize") then inputs_length m
               else initializer_arg_count ms
  end.

Definition getInitializerArgCount (fullName : string) : res Z :=
  methods <~ getContractABI art fullName ;; initializer_arg_count methods.

Record DeploymentArgs := {
  da_constructor : list (string * jsval);
  da_initializer : list (string * jsval) }.

(** [if (args.length !== 0) table[contract] = args] *)
Definition add_args (table : list (string * jsval)) (contract : string) (args : list jsval) :=
  match args with [] => table | _ => obj_set table contract (JArr args) end.

(** One step of the loop. *)
Definition template_step (t : DeploymentArgs) (contract : string) : res DeploymentArgs :=
  cArgs <~ getConstructorArgsABI contract ;;
  iArgs <~ getInitializerArgsABI contract ;;
  Ok {| da_constructor := add_args (da_constructor t) contract cArgs;
        da_initializer := add_args (da_initializer t) contract iArgs |}.

Definition generateDeployArgTemplate (list : list string) : res DeploymentArgs :=
  res_foldl template_step list {| da_constructor := []; da_initializer := [] |}.
End Template.

Definition args_js (t : DeploymentArgs) : jsval :=
  JObj [("constructor", JObj (da_constructor t)); ("initializer", JObj (da_initializer t))].

Section Files.
Context `{Ethers, Toml}.

Definition stringify (v : jsval) : M string :=
  lift (of_option (LibError "toml" "stringify") (toml_stringify v)).

Definition writeDeploymentArgs (deploymentArgs : DeploymentArgs)
    (configDirPath : option string) : M unit :=
  let path := default DEPLOYMENT_ARG_PATH configDirPath ++s DEPLOYMENT_ARGS_TEMPLATE_FPATH in
  data <- stringify (args_js deploymentArgs) ;;
  writeFileSync path data.

(** ** The deployment list file ([deploymentListUtil.ts]) *)

Definition list_path (configDirPath : option string) : string :=
  default DEFAULT_CONFIG_OUTPUT_DIR configDirPath ++s DEPLOYMENT_LIST_FPATH.

Definition getDeploymentList (configDirPath : option string) : M jsval :=
  let path := list_path configDirPath in
  config <- readDeploymentList (Some path) ;;
  l <- lift (js_get config "deploymentList") ;;
  if is_undefined l
  then throw (Error ("failed to fetch deployment list at path " ++s path))
  else ret l.

Definition WARNING : string :=
  "# WARNING: THIS IS AN AUTOGENERATED FILE ANY CHANGES WILL BE LOST REFERENCE DOCUMENTATION FOR MORE INFORMATION".

Definition writeDeploymentList (list : list string) (configDirPath : option string) : M unit :=
  let path := list_path configDirPath in
  config <- readDeploymentList (Some path) ;;
  l <- lift (js_get config "deploymentList") ;;
  config <- lift (js_set config "deploymentList" (if is_undefined l then JArr [] else l)) ;;
  config <- lift (js_set config "deploymentList" (JArr (JStr <$> list))) ;;
  data <- stringify config ;;
  writeFileSync path data ;;;
  text <- readFileSync path ;;
  writeFileSync path (join nl (WARNING :: split_on nl_char text)).

(** ** Reading the edited arguments ([deploymentUtil.ts]) *)

(** [Object.keys(v)] *)
Definition object_keys (v : jsval) : res (list string) :=
  match v with
  | JUndefined | JNull => Throw (TypeError "Cannot convert undefined or null to object")
  | JObj o => Ok (own_keys o)
  | JArr l => Ok ((λ i, pretty (Z.of_nat i)) <$> seq 0 (length l))
  | JStr s => Ok ((λ i, pretty (Z.of_nat i)) <$> seq 0 (String.length s))
  | _ => Ok []
  end.

Definition extract_arg (e : jsval) : res jsval :=
  ks <~ object_keys e ;;
  js_get e (to_key (head ks)).

(** The loop runs over [input.length] elements. *)
Definition extractArgs (input : jsval) : res (list jsval) :=
  match input with
  | JUndefined | JNull => Throw (TypeError "Cannot read properties of undefined (reading 'length')")
  | JArr l => res_mapM extract_arg l
  | JStr s => res_mapM extract_arg ((λ c, JStr (String c EmptyString)) <$> String.list_ascii_of_string s)
  | _ => Ok []
  end.

Definition args_path (configDirPath : option string) : string :=
  default DEFAULT_CONFIG_OUTPUT_DIR configDirPath ++s "/deploymentArgsTemplate".

Definition getDeploymentConstructorArgs (fullName : string)
    (configDirPath : option string) : M (list jsval) :=
  deploymentConfig <- readDeploymentArgs (Some (args_path configDirPath)) ;;
  if is_undefined deploymentConfig then ret []
  else
    ctor <- lift (js_get deploymentConfig "constructor") ;;
    if is_undefined ctor then ret []
    else
      e <- lift (js_get ctor fullName) ;;
      if is_undefined e then ret [] else lift (extractArgs e).

Definition getDeploymentInitializerArgs (fullName : string)
    (configDirPath : option string) : M (option (list jsval)) :=
  deploymentConfig <- readDeploymentArgs (Some (args_path configDirPath)) ;;
  if is_undefined deploymentConfig then ret None
  else
    init <- lift (js_get deploymentConfig "initializer") ;;
    if is_undefined init then ret None
    else
      e <- lift (js_get init fullName) ;;
      if is_undefined e then ret None else (l <- lift (extractArgs e) ;; ret (Some l)).

(** [args.toString()] *)
Definition getEncodedInitCallData (args : option (list jsval)) : option string :=
  (λ l, js_str (JArr l)) <$> args.

(** The inverse in the tasks:
    [initCallData.replace(/\s+/g, '').split(',')]. *)
Definition split_init_args (initCallData : option string) : list string :=
  match initCallData with
  | None => []
  | Some s => split_on ","%char (remove_ws s)
  end.
End Files.

(** ** Initializer arguments on the command line *)

(** No character that the encoding loses. *)
Fixpoint clean_arg (s : string) : bool :=
  match s with
  | EmptyString => true
  | String c s => negb (Ascii.is_space c) && negb (bool_decide (c = ","%char)) && clean_arg s
  end.

Lemma remove_ws_app s t : remove_ws (s ++s t) = remove_ws s ++s remove_ws t.
Proof. induction s as [|c s IH]; simpl; [done|]. case_match; simpl; by rewrite IH. Qed.

Lemma clean_remove_ws s : clean_arg s = true → remove_ws s = s.
Proof.
  induction s as [|c s IH]; [done|]. cbn [clean_arg remove_ws].
  intros [[Hc _]%andb_true_iff Hs]%andb_true_iff. apply negb_true_iff in Hc.
  by rewrite Hc, IH.
Qed.

Lemma clean_no_comma s : clean_arg s = true → string_elem ","%char s = false.
Proof.
  induction s as [|c s IH]; [done|]. cbn [clean_arg string_elem].
  intros [[_ Hc]%andb_true_iff Hs]%andb_true_iff. apply negb_true_iff in Hc.
  by rewrite Hc, IH.
Qed.

Lemma split_join_clean x l :
  Forall (λ s, clean_arg s = true) (x :: l) →
  split_on ","%char (remove_ws (join "," (x :: l))) = x :: l.
Proof.
  revert x; induction l as [|y l IH]; intros x [Hx Hl]%Forall_cons.
  - simpl. by rewrite clean_remove_ws, split_on_none by auto using clean_no_comma.
  - change (join "," (x :: y :: l)) with (x ++s "," ++s join "," (y :: l)).
    rewrite remove_ws_app, clean_remove_ws by done.
    change (remove_ws ("," ++s ?t)) with (String ","%char (remove_ws t)).
    rewrite split_on_app by auto using clean_no_comma. by rewrite IH.
Qed.

(** the initializer arguments read from the configuration survive the
    trip through the task parameter: encoding them as one text and splitting
    it again gives the same list, for every non-empty list of arguments
    without blanks and commas.  A list that is there but empty comes back as
    one empty argument; a missing list comes back empty. *)
Theorem init_args_roundtrip `{Ethers} (args : list string) :
  Forall (λ s, clean_arg s = true) args →
  split_init_args (getEncodedInitCallData (Some (JStr <$> args))) =
    (if decide (args = []) then [EmptyString] else args) ∧
  split_init_args (getEncodedInitCallData None) = [].
Proof.
  intros Ha. split; [|done]. unfold getEncodedInitCallData, split_init_args. simpl.
  rewrite <-list_fmap_compose.
  rewrite (list_fmap_ext _ id) by done. rewrite list_fmap_id.
  destruct args as [|x l]; [done|]. by rewrite split_join_clean.
Qed.

(** ** The list file *)

(** What a TOML file gives the scripts: its top-level table, or an empty one
    when it is missing from a directory that exists. *)
Definition readable `{Toml} (w : world) (p : string) (c : list (string * jsval)) : Prop :=
  (fs_lookup (w_fs w) (resolve p) = None ∧ is_dir (w_fs w) (removelast (resolve p)) = true ∧ c = []) ∨
  ∃ text, fs_lookup (w_fs w) (resolve p) = Some (File text) ∧ toml_parse text = Some (JObj c).

Section FileProofs.
Context `{Toml, !TomlLaws}.

Lemma readTOML_readable w d p c : readable w p c → readTOML d (Some p) w = (Ok (JObj c), w).
Proof using Type.
  intros [(Hf & _ & ->)|(text & Hf & Hp)]; [by apply readTOML_missing|by eapply readTOML_file].
Qed.

Lemma readable_write w p c s :
  readable w p c → writeFileSync p s w = (Ok tt, rewrite_file w p s).
Proof using Type.
  intros Hr. unfold writeFileSync, get_fs, mbind_js, lift, put_fs, rewrite_file.
  assert (fs_write (w_fs w) p s = Ok (<[resolve p := File s]> (w_fs w))) as ->; [|done].
  unfold fs_write. destruct Hr as [(-> & Hd & _)|(text & -> & _)]; [by rewrite Hd|done].
Qed.

Lemma rewrite_lookup w p c s :
  readable w p c → fs_lookup (w_fs (rewrite_file w p s)) (resolve p) = Some (File s).
Proof using Type.
  intros Hr. apply (fs_write_lookup (w_fs w)).
  pose proof (readable_write w p c s Hr) as E. unfold writeFileSync, get_fs, mbind_js, lift in E.
  destruct (fs_write (w_fs w) p s); [|done]. simpl in E. by injection E as ->.
Qed.

Lemma readable_rewrite w p c s c' :
  readable w p c → toml_parse s = Some (JObj c') → readable (rewrite_file w p s) p c'.
Proof using Type. intros Hr Hs. right. exists s. split; [by eapply rewrite_lookup|done]. Qed.

(** Writing an object that extends what was read. *)
Definition list_text (c : list (string * jsval)) (l : list string) : option string :=
  toml_stringify (JObj (obj_set c "deploymentList" (JArr (JStr <$> l)))).

Lemma toml_canon_strs l : toml_canon (JArr (JStr <$> l)) = JArr (JStr <$> l).
Proof using Type*.
  rewrite toml_canon_arr by (apply Forall_fmap, Forall_true; done).
  f_equal. rewrite <-list_fmap_compose. apply list_fmap_ext. intros. apply toml_canon_str.
Qed.

Lemma list_text_parse c l s :
  list_text c l = Some s →
  ∃ c', toml_parse s = Some (JObj c') ∧ obj_get c' "deploymentList" = Some (JArr (JStr <$> l)) ∧
    ∀ k, k ≠ "deploymentList" →
      obj_get c' k = match obj_get c k with None | Some (JUndefined | JNull) => None
                                          | Some v => Some (toml_canon v) end.
Proof using Type*.
  intros E%toml_roundtrip. revert E.
  match goal with |- context [toml_canon (JObj ?o)] => destruct (toml_canon_obj o) as (c' & -> & Hg) end.
  intros E. exists c'. split_and!; [done| |].
  - rewrite Hg, obj_get_set_eq, toml_canon_strs. done.
  - intros k Hk. by rewrite Hg, !obj_get_set_ne by done.
Qed.

Lemma rewrite_twice w p s s' : rewrite_file (rewrite_file w p s) p s' = rewrite_file w p s'.
Proof using Type. unfold rewrite_file. simpl. f_equal. apply insert_insert_eq. Qed.

Lemma warning_split s : join nl (WARNING :: split_on nl_char s) = WARNING ++s nl ++s s.
Proof using Type.
  pose proof (join_split nl_char s) as Hj. change (String nl_char EmptyString) with nl in Hj.
  destruct (split_on nl_char s) as [|x l] eqn:E; [by destruct (split_on_cons_nonempty nl_char s)|].
  change (join nl (WARNING :: x :: l)) with (WARNING ++s nl ++s join nl (x :: l)). by rewrite Hj.
Qed.

Lemma writeDeploymentList_run w dir c l :
  readable w (list_path dir) c →
  writeDeploymentList l dir w =
  match list_text c l with
  | Some s => (Ok tt, rewrite_file w (list_path dir) (WARNING ++s nl ++s s))
  | None => (Throw (LibError "toml" "stringify"), w)
  end.
Proof using Type*.
  intros Hr. unfold writeDeploymentList, readDeploymentList.
  mstep (readTOML_readable w DEPLOYMENT_LIST_PATH _ _ Hr).
  unfold mbind_js at 1, lift at 1. cbn [js_get].
  unfold mbind_js at 1 2, lift at 1 2. cbn [js_set]. rewrite obj_set_set.
  fold (list_text c l). unfold stringify. fold (list_text c l).
  unfold mbind_js at 1, lift at 1. destruct (list_text c l) as [s|] eqn:E; [|done].
  simpl of_option. cbv iota.
  mstep (readable_write _ _ _ s Hr).
  destruct (list_text_parse _ _ _ E) as (c' & Hp & _).
  pose proof (readable_rewrite _ _ _ _ _ Hr Hp) as Hr'.
  assert (readFileSync (list_path dir) (rewrite_file w (list_path dir) s) =
          (Ok s, rewrite_file w (list_path dir) s)) as Hrd.
  { unfold readFileSync, get_fs, mbind_js, lift.
    by rewrite (fs_read_lookup _ _ _ (rewrite_lookup _ _ _ s Hr)). }
  mstep Hrd. rewrite (readable_write _ _ _ _ Hr'), rewrite_twice, warning_split. done.
Qed.

(** C23: what [writeDeploymentList] writes, [getDeploymentList] reads: the
    same contracts in the same order, through the warning line and the two
    writes of the file; the other entries of the file are kept.  It can only
    fail where the file cannot be written as TOML, and then changes nothing. *)
Theorem deployment_list_roundtrip w dir c l :
  readable w (list_path dir) c →
  ∃ r w', writeDeploymentList l dir w = (r, w') ∧
    ((r = Ok tt ∧ getDeploymentList dir w' = (Ok (JArr (JStr <$> l)), w') ∧
      ∃ c', readable w' (list_path dir) c' ∧ ∀ k, k ≠ "deploymentList" →
        obj_get c' k = match obj_get c k with None | Some (JUndefined | JNull) => None
                                            | Some v => Some (toml_canon v) end) ∨
     (r = Throw (LibError "toml" "stringify") ∧ w' = w)).
Proof using Type*.
  intros Hr. rewrite (writeDeploymentList_run _ _ _ _ Hr).
  destruct (list_text c l) as [s|] eqn:E; [|by eauto 10].
  eexists _, _. split; [done|]. left. split; [done|].
  destruct (list_text_parse _ _ _ E) as (c' & Hp & Hg & Hk).
  assert (toml_parse (WARNING ++s nl ++s s) = Some (JObj c')) as Hp'
    by (by rewrite toml_comment).
  pose proof (readable_rewrite _ _ _ _ _ Hr Hp') as Hr'.
  split; [|by exists c'].
  unfold getDeploymentList, readDeploymentList.
  mstep (readTOML_readable _ DEPLOYMENT_LIST_PATH _ _ Hr').
  by rewrite (mbind_lift _ _ _ _ (js_get_own _ _ _ Hg)).
Qed.

End FileProofs.

(** ** What reading the argument file depends on *)

(** Computations that read at most one file and change nothing. *)
Definition reads {A} (p : path) (m : M A) : Prop :=
  ∀ w w', fs_lookup (w_fs w) p = fs_lookup (w_fs w') p → m w = ((m w').1, w).

Lemma reads_ret {A} p (x : A) : reads p (ret x).
Proof. by intros w w' _. Qed.
Lemma reads_lift {A} p (x : res A) : reads p (lift x).
Proof. by intros w w' _. Qed.
Lemma reads_bind {A B} p (m : M A) (k : A → M B) :
  reads p m → (∀ x, reads p (k x)) → reads p (mbind_js m k).
Proof.
  intros Hm Hk w w' E. unfold mbind_js. rewrite (Hm w w' E), (Hm w' w' eq_refl). cbn [fst].
  destruct (m w').1 as [x|e]; [by apply Hk|done].
Qed.

Create HintDb reads.
#[export] Hint Resolve reads_ret reads_lift reads_bind : reads.

Lemma reads_args `{Toml} p : reads (resolve p) (readDeploymentArgs (Some p)).
Proof.
  intros w w' E. unfold readDeploymentArgs, readTOML, existsSync, readFileSync, fs_read, fs_exists, is_dir,
    get_fs, mbind_js, lift, ret. cbn -[fs_lookup resolve toml_parse].
  destruct (fs_lookup (w_fs w') (resolve p)) as [[]|] eqn:E'; rewrite ?E, ?E'; try done.
  - rewrite bool_decide_true by done. rewrite E, E'. by destruct (toml_parse content).
  - rewrite bool_decide_true by done. by rewrite E, E'.
Qed.

#[export] Hint Resolve reads_args : reads.

(** ** Templates *)

(** The inputs of all methods of a name, the specification of
    [parseArgsArray]. *)
Definition inputs_of (methodName : string) (ms : list abi_entry) : list abi_input :=
  ms ≫= λ m, if decide (method_target methodName m = Some methodName)
             then default [] (m_inputs m) else [].

Lemma args_of_methods_spec name ms args cs :
  args_of_methods name ms args = Ok cs → cs = args ++ (placeholder <$> inputs_of name ms).
Proof.
  revert args; induction ms as [|m ms IH]; intros args; simpl.
  { intros [= <-]. by rewrite app_nil_r. }
  unfold inputs_of. csimpl. fold (inputs_of name ms). destruct (decide _); [|apply IH].
  intros (ins & Hi & E)%res_bind_Ok_inv. apply of_option_Ok in Hi as ->.
  rewrite (IH _ E). simpl. by rewrite fmap_app, (assoc_L (++)).
Qed.

Lemma parseArgsArray_spec art c name cs :
  parseArgsArray art c name = Ok cs →
  ∃ ms, getContractABI art c = Ok ms ∧ cs = placeholder <$> inputs_of name ms.
Proof.
  intros (ms & Hm & E)%res_bind_Ok_inv. exists ms. split; [done|]. by apply args_of_methods_spec in E.
Qed.

(** The entry a contract gets in a table. *)
Definition arg_entry (args : list jsval) : option jsval :=
  match args with [] => None | _ => Some (JArr args) end.

Section TemplateProofs.
Context (art : Artifacts).

(** Entries are those of the contracts seen so far. *)
Definition table_ok (f : string → res (list jsval)) (t : list (string * jsval)) (c : string) : Prop :=
  ∀ cs, f c = Ok cs → obj_get t c = None ∨ obj_get t c = arg_entry cs.

Lemma add_args_ok f t c cs c' :
  f c = Ok cs → table_ok f t c' → table_ok f (add_args t c cs) c'.
Proof using Type.
  intros Hc Ht cs' Hc'. unfold add_args. destruct cs as [|a cs]; [by apply Ht|].
  rewrite obj_get_set. case_decide; [subst|by apply Ht]. right. rewrite Hc in Hc'. by injection Hc' as <-.
Qed.

Lemma add_args_get f t c cs :
  f c = Ok cs → table_ok f t c → obj_get (add_args t c cs) c = arg_entry cs.
Proof using Type.
  intros Hc Ht. unfold add_args. destruct cs; [by destruct (Ht _ Hc)|]. apply obj_get_set_eq.
Qed.

Definition template_ok (t : DeploymentArgs) : Prop :=
  ∀ c, table_ok (getConstructorArgsABI art) (da_constructor t) c ∧
       table_ok (getInitializerArgsABI art) (da_initializer t) c.

Definition template_has (t : DeploymentArgs) (c : string) : Prop :=
  ∃ cs ia, getConstructorArgsABI art c = Ok cs ∧ getInitializerArgsABI art c = Ok ia ∧
    obj_get (da_constructor t) c = arg_entry cs ∧ obj_get (da_initializer t) c = arg_entry ia.

Lemma template_step_ok t c t' :
  template_step art t c = Ok t' → template_ok t → template_ok t' ∧ template_has t' c.
Proof using Type.
  intros (cs & Hc & (ia & Hi & [= <-])%res_bind_Ok_inv)%res_bind_Ok_inv Ht. split.
  - intros c'. split; simpl; (apply add_args_ok; [done|apply Ht]).
  - exists cs, ia. simpl. split_and!; [done..| |]; (eapply add_args_get; [done|apply Ht]).
Qed.

Lemma template_step_keeps t c t' c' :
  template_step art t c = Ok t' → template_ok t → template_has t c' → template_has t' c'.
Proof using Type.
  intros E Ht Hc'. destruct (decide (c = c')) as [<-|Hne].
  { by eapply template_step_ok. }
  apply res_bind_Ok_inv in E as (cs & Hc & (ia & Hi & [= <-])%res_bind_Ok_inv).
  destruct Hc' as (cs' & ia' & ? & ? & Hg1 & Hg2). exists cs', ia'.
  split_and!; [done..| |]; simpl; unfold add_args; case_match; rewrite ?obj_get_set_ne by done; done.
Qed.

Lemma template_fold list t0 t :
  res_foldl (template_step art) list t0 = Ok t → template_ok t0 →
  (∀ c, template_has t0 c → template_has t c) ∧ ∀ c, c ∈ list → template_has t c.
Proof using Type.
  revert t0; induction list as [|c list IH]; intros t0; simpl.
  { intros [= ->] _. split; [done|]. by intros c ?%elem_of_nil. }
  intros (t1 & E1 & E)%res_bind_Ok_inv H0.
  destruct (template_step_ok _ _ _ E1 H0) as [H1 Hc]. destruct (IH _ E H1) as [IHa IHb].
  split.
  - intros c' Hc'. apply IHa. by eapply template_step_keeps.
  - intros c' [->|Hin]%elem_of_cons; [by apply IHa|by apply IHb].
Qed.

Lemma generate_has list t c :
  generateDeployArgTemplate art list = Ok t → c ∈ list → template_has t c.
Proof using Type. intros E Hc. eapply template_fold; [exact E| |done]. intros c'. split; intros ? _; by left. Qed.
End TemplateProofs.

(** The one key of an argument object names its value. *)
Lemma extract_single o n v :
  (∀ k, obj_get o k = if decide (n = k) then Some v else None) → extract_arg (JObj o) = Ok v.
Proof.
  intros Ho. unfold extract_arg. simpl.
  assert (head (own_keys o) = Some n) as ->.
  { assert (Forall (λ k, k = n) (own_keys o)) as Hall.
    { rewrite own_keys_perm. apply Forall_forall. intros k Hk. specialize (Ho k).
      case_decide; [done|]. by apply obj_get_None in Ho. }
    assert (own_keys o ≠ []) as Hne.
    { intros E. specialize (Ho n). rewrite decide_True in Ho by done.
      apply obj_get_elem, (list_elem_of_fmap_2 fst) in Ho.
      rewrite <-own_keys_perm, E in Ho. by apply elem_of_nil in Ho. }
    destruct (own_keys o); [done|]. apply Forall_cons in Hall as [-> _]. done. }
  simpl. by rewrite Ho, decide_True.
Qed.

Section TemplateFile.
Context `{Toml, !TomlLaws}.

Lemma extract_placeholders (ins : list abi_input) :
  extractArgs (toml_canon (JArr (placeholder <$> ins))) =
  Ok (replicate (length ins) (JStr "UNDEFINED")).
Proof using Type*.
  rewrite toml_canon_arr by (apply Forall_fmap, Forall_true; done). simpl. apply res_mapM_Ok.
  induction ins as [|i ins IH]; simpl; constructor; [|exact IH].
  destruct (toml_canon_obj [(in_name i, JStr "UNDEFINED")]) as (o & Ho & Hg).
  unfold placeholder. rewrite Ho. apply (extract_single _ (in_name i)). intros k. rewrite Hg. simpl.
  case_decide; [|done]. by rewrite toml_canon_str.
Qed.

(** One table of the file, read for a contract of the template. *)
Lemma table_entry tbl c args v :
  is_proto c = false → obj_get tbl c = arg_entry args →
  js_get (toml_canon (JObj tbl)) c = Ok v →
  v = match args with [] => JUndefined | _ => toml_canon (JArr args) end.
Proof using Type*.
  intros Hp Hg. destruct (toml_canon_obj tbl) as (o & -> & Ho). simpl. rewrite Hp, Ho, Hg.
  by destruct args; intros [= <-].
Qed.

(** Reading the two tables back from a file that holds [args_js t]. *)
Lemma read_constructor_args w dir t c args :
  readable w (args_path dir) (match toml_canon (args_js t) with JObj o => o | _ => [] end) →
  is_proto c = false → obj_get (da_constructor t) c = arg_entry (placeholder <$> args) →
  getDeploymentConstructorArgs c dir w =
  (Ok (replicate (length args) (JStr "UNDEFINED")), w).
Proof using Type*.
  intros Hr Hp Hg. unfold getDeploymentConstructorArgs, readDeploymentArgs.
  mstep (readTOML_readable w DEPLOYMENT_ARG_PATH _ _ Hr).
  unfold args_js. destruct (toml_canon_obj [("constructor", JObj (da_constructor t));
    ("initializer", JObj (da_initializer t))]) as (o & -> & Ho). cbn [is_undefined].
  rewrite (mbind_lift _ _ _ (toml_canon (JObj (da_constructor t))))
    by (apply js_get_own; by rewrite Ho).
  destruct (js_get (toml_canon (JObj (da_constructor t))) c) as [v|] eqn:Hv.
  2:{ by destruct (toml_canon_obj (da_constructor t)) as (? & E & _); rewrite E in Hv. }
  pose proof (table_entry _ _ _ _ Hp Hg Hv) as ->.
  destruct (toml_canon_obj (da_constructor t)) as (? & -> & _). cbn [is_undefined].
  rewrite mbind_lift_ok. destruct args as [|i args]; [done|].
  change (placeholder <$> i :: args) with (placeholder i :: (placeholder <$> args)). cbv iota.
  rewrite nullish_defined by by apply toml_canon_defined.
  pose proof (extract_placeholders (i :: args)) as He. rewrite fmap_cons in He.
  unfold lift. by rewrite He.
Qed.

Lemma read_initializer_args w dir t c args :
  readable w (args_path dir) (match toml_canon (args_js t) with JObj o => o | _ => [] end) →
  is_proto c = false → obj_get (da_initializer t) c = arg_entry (placeholder <$> args) →
  getDeploymentInitializerArgs c dir w =
  (Ok (match args with [] => None | _ => Some (replicate (length args) (JStr "UNDEFINED")) end), w).
Proof using Type*.
  intros Hr Hp Hg. unfold getDeploymentInitializerArgs, readDeploymentArgs.
  mstep (readTOML_readable w DEPLOYMENT_ARG_PATH _ _ Hr).
  unfold args_js. destruct (toml_canon_obj [("constructor", JObj (da_constructor t));
    ("initializer", JObj (da_initializer t))]) as (o & -> & Ho). cbn [is_undefined].
  rewrite (mbind_lift _ _ _ (toml_canon (JObj (da_initializer t))))
    by (apply js_get_own; by rewrite Ho).
  destruct (js_get (toml_canon (JObj (da_initializer t))) c) as [v|] eqn:Hv.
  2:{ by destruct (toml_canon_obj (da_initializer t)) as (? & E & _); rewrite E in Hv. }
  pose proof (table_entry _ _ _ _ Hp Hg Hv) as ->.
  destruct (toml_canon_obj (da_initializer t)) as (? & -> & _). cbn [is_undefined].
  rewrite mbind_lift_ok. destruct args as [|i args]; [done|].
  change (placeholder <$> i :: args) with (placeholder i :: (placeholder <$> args)). cbv iota.
  rewrite nullish_defined by by apply toml_canon_defined.
  pose proof (extract_placeholders (i :: args)) as He. rewrite fmap_cons in He.
  rewrite (mbind_lift _ _ _ _ He). done.
Qed.

(** Where [writeDeploymentArgs] writes. *)
Definition written_path (dir : option string) : string :=
  default DEPLOYMENT_ARG_PATH dir ++s DEPLOYMENT_ARGS_TEMPLATE_FPATH.

Lemma reads_constructor c dir : reads (resolve (args_path dir)) (getDeploymentConstructorArgs c dir).
Proof using Type.
  unfold getDeploymentConstructorArgs.
  repeat first [progress auto with reads|apply reads_bind; [|intros ?]
               |match goal with |- reads _ (if ?b then _ else _) => destruct b end].
Qed.
Lemma reads_initializer c dir : reads (resolve (args_path dir)) (getDeploymentInitializerArgs c dir).
Proof using Type.
  unfold getDeploymentInitializerArgs.
  repeat first [progress auto with reads|apply reads_bind; [|intros ?]
               |match goal with |- reads _ (if ?b then _ else _) => destruct b end].
Qed.

(** Without a folder the readers look one level above the file written. *)
Lemma unread_without_folder {A} (m : M A) w s :
  reads (resolve (args_path None)) m →
  m (rewrite_file w (written_path None) s) = ((m w).1, rewrite_file w (written_path None) s).
Proof using Type.
  intros Hm. apply Hm. simpl. apply fs_insert_beside. vm_compute. by intros [? [=]].
Qed.

(** C22: a generated template has exactly one placeholder per argument.
    After the template of a contract list is written to a folder, the
    deployment reads back for each contract as many constructor and
    initializer arguments as its ABI declares, all placeholders.  Without a
    folder the template is written too, but where no reader looks: what the
    deployment reads is what it read before. *)
Theorem template_roundtrip art list t w dir c0 s :
  generateDeployArgTemplate art list = Ok t →
  readable w (written_path dir) c0 → toml_stringify (args_js t) = Some s →
  ∃ w', writeDeploymentArgs t dir w = (Ok tt, w') ∧
    fs_lookup (w_fs w') (resolve (written_path dir)) = Some (File s) ∧
    ∀ c, c ∈ list → is_proto c = false →
    ∃ ms, getContractABI art c = Ok ms ∧
      match dir with
      | Some _ =>
          getDeploymentConstructorArgs c dir w' =
            (Ok (replicate (length (inputs_of "constructor" ms)) (JStr "UNDEFINED")), w') ∧
          getDeploymentInitializerArgs c dir w' =
            (Ok (match inputs_of "initialize" ms with
                 | [] => None
                 | l => Some (replicate (length l) (JStr "UNDEFINED"))
                 end), w')
      | None =>
          getDeploymentConstructorArgs c None w' = ((getDeploymentConstructorArgs c None w).1, w') ∧
          getDeploymentInitializerArgs c None w' = ((getDeploymentInitializerArgs c None w).1, w')
      end.
Proof using Type*.
  intros Ht Hr Hs. unfold writeDeploymentArgs, stringify. rewrite Hs. fold (written_path dir).
  eexists. split; [by eapply readable_write|]. split; [by eapply rewrite_lookup|]. intros c Hc Hp.
  destruct (generate_has _ _ _ _ Ht Hc) as (cs & ia & Hcs & Hia & Hg1 & Hg2).
  apply parseArgsArray_spec in Hcs as (ms & Hm & ->), Hia as (ms' & Hm' & ->).
  assert (ms' = ms) as -> by congruence. exists ms. split; [done|].
  destruct dir as [dir|]; [|split; apply unread_without_folder; [apply reads_constructor|apply reads_initializer]].
  assert (∃ o, toml_canon (args_js t) = JObj o) as [o Ho]
    by (destruct (toml_canon_obj [("constructor", JObj (da_constructor t));
          ("initializer", JObj (da_initializer t))]) as (o & ? & _); by exists o).
  assert (toml_parse s = Some (JObj o)) as Hparse by (by rewrite (toml_roundtrip _ _ Hs), Ho).
  pose proof (readable_rewrite _ _ _ _ _ Hr Hparse) as Hr'.
  split; [apply (read_constructor_args _ _ t)|rewrite (read_initializer_args _ _ t _ (inputs_of "initialize" ms))];
    rewrite ?Ho; try done. by destruct (inputs_of "initialize" ms).
Qed.
End TemplateFile.

(** [getMethodArgCount] counts only constructors.  For any other method
    name it compares each method's name with ["constructor"], which no
    Solidity function has, and returns 0 whatever the method's inputs. *)
Theorem method_arg_count_zero art fullName methodName ms :
  getContractABI art fullName = Ok ms → methodName ≠ "constructor" →
  Forall (λ m, m_name m ≠ Some "constructor") ms →
  getMethodArgCount art fullName methodName = Ok 0.
Proof.
  intros Hm Hn Hms. unfold getMethodArgCount. rewrite Hm. simpl. clear Hm.
  induction Hms as [|m ms Hne _ IH]; simpl; [done|].
  unfold method_target. rewrite (decide_False (P := methodName = _)) by done.
  rewrite decide_False by done. apply IH.
Qed.

(** ** Witnesses *)

#[local] Existing Instances toml_model toml_model_laws ethers_model.

Lemma init_args_roundtrip_witness :
  split_init_args (getEncodedInitCallData (Some (JStr <$> ["40"; "6"; "0xab"]))) = ["40"; "6"; "0xab"].
Proof. apply (init_args_roundtrip ["40"; "6"; "0xab"]). repeat constructor. Defined.

(** A list that is there already, with another entry in the file. *)
Definition old_list : list (string * jsval) :=
  [("deploymentList", JArr [JStr "contracts/Old.sol:Old"]); ("note", JStr "kept")].
Definition list_world : world :=
  rewrite_file world_ex (list_path (Some "out"))
    (default EmptyString (toml_stringify (JObj old_list))).

Example deployment_list_ex :
  (writeDeploymentList ["contracts/ETHDKG.sol:ETHDKG"; "contracts/Snapshots.sol:Snapshots"] (Some "out")
     list_world).1 = Ok tt.
Proof. vm_compute. reflexivity. Qed.

Lemma deployment_list_roundtrip_witness :
  ∃ w' c', writeDeploymentList ["contracts/ETHDKG.sol:ETHDKG"; "contracts/Snapshots.sol:Snapshots"]
             (Some "out") list_world = (Ok tt, w') ∧
    getDeploymentList (Some "out") w' =
      (Ok (JArr [JStr "contracts/ETHDKG.sol:ETHDKG"; JStr "contracts/Snapshots.sol:Snapshots"]), w') ∧
    readable w' (list_path (Some "out")) c' ∧ obj_get c' "note" = Some (JStr "kept").
Proof.
  destruct (deployment_list_roundtrip list_world (Some "out") old_list
    ["contracts/ETHDKG.sol:ETHDKG"; "contracts/Snapshots.sol:Snapshots"])
    as (r & w' & E & [(-> & Hg & c' & Hr & Hk)|[-> _]]).
  - right. eexists. split; vm_compute; reflexivity.
  - exists w', c'. split; [exact E|]. split; [exact Hg|]. split; [exact Hr|].
    rewrite Hk by discriminate. vm_compute. reflexivity.
  - pose proof deployment_list_ex as Hok. rewrite E in Hok. discriminate Hok.
Defined.

Definition template_ex : DeploymentArgs :=
  match generateDeployArgTemplate art_ex ["contracts/Snapshots.sol:Snapshots"] with
  | Ok t => t
  | Throw _ => {| da_constructor := []; da_initializer := [] |}
  end.

Lemma template_roundtrip_witness :
  ∃ w' ms, writeDeploymentArgs template_ex (Some "out") world_ex = (Ok tt, w') ∧
    getContractABI art_ex "contracts/Snapshots.sol:Snapshots" = Ok ms ∧
    length (inputs_of "constructor" ms) = 2%nat ∧
    getDeploymentConstructorArgs "contracts/Snapshots.sol:Snapshots" (Some "out") w' =
      (Ok (replicate (length (inputs_of "constructor" ms)) (JStr "UNDEFINED")), w').
Proof.
  destruct (template_roundtrip art_ex ["contracts/Snapshots.sol:Snapshots"] template_ex world_ex (Some "out") []
    (default EmptyString (toml_stringify (args_js template_ex)))) as (w' & Hw & _ & Hc).
  { vm_compute; reflexivity. }
  { left. split_and!; vm_compute; reflexivity. }
  { vm_compute; reflexivity. }
  destruct (Hc "contracts/Snapshots.sol:Snapshots") as (ms & Hm & Hg & _).
  { apply (bool_decide_unpack _). vm_compute. exact I. }
  { reflexivity. }
  exists w', ms. split; [exact Hw|]. split; [exact Hm|]. split; [|exact Hg].
  vm_compute in Hm. injection Hm as <-. reflexivity.
Defined.

Lemma method_arg_count_zero_witness :
  getMethodArgCount art_ex "contracts/ETHDKG.sol:ETHDKG" "initialize" = Ok 0 ∧
  getInitializerArgCount art_ex "contracts/ETHDKG.sol:ETHDKG" = Ok 2.
Proof.
  split; [|vm_compute; reflexivity].
  apply (method_arg_count_zero art_ex _ _ (fx_abi fx_ETHDKG)); [vm_compute; reflexivity|done|].
  repeat constructor; done.
Defined.
