(* ===== verification/Provider.v ===== *)
(** * Transactions and receipts

    The provider calls the tasks share: fees ([getGasPrices]), sending a
    transaction to the factory and waiting for it, events of a receipt
    ([getEventVar]), metamorphic addresses, and the helpers of
    [alicenetFactoryTasks.ts] on folders, accounts and salts. *)

From S2P Require Import Prelude JsValue Constants Artifacts Fixtures Ethers Factory Instances World Scenario.
From stdpp Require Import options.
Local Open Scope Z_scope.

Record Receipt := { r_events : option (list event); r_gasUsed : Z }.

(** The receipt as a value of an object; only these two members are read. *)
Definition event_js (e : event) : jsval :=
  JObj [("address", JAddr (ev_address e));
        ("event", match ev_name e with Some n => JStr n | None => JUndefined end);
        ("args", match ev_args e with Some a => JObj a | None => JUndefined end);
        ("topics", JArr (JStr <$> ev_topics e))].
Definition receipt_js (r : Receipt) : jsval :=
  JObj [("events", match r_events r with Some es => JArr (event_js <$> es) | None => JUndefined end);
        ("gasUsed", JBig (r_gasUsed r))].

(** ** [getEventVar]: the loop over the events *)

Fixpoint find_event_var (events : list event) (eventName varName : string) : res jsval :=
  match events with
  | [] => Throw (Error ("failed to find event: " ++s eventName))
  | e :: es =>
      if decide (ev_name e = Some eventName) then
        match ev_args e with
        | Some args =>
            match obj_get args varName with
            | None | Some JUndefined => find_event_var es eventName varName
            | Some v => Ok v
            end
        | None => Throw (Error ("failed to extract " ++s varName ++s " from event: " ++s eventName))
        end
      else find_event_var es eventName varName
  end.

Definition getEventVar (receipt : Receipt) (eventName varName : string) : res jsval :=
  match r_events receipt with
  | Some events => find_event_var events eventName varName
  | None => Throw (Error ("failed to find event: " ++s eventName))
  end.

(** ** [getGasPrices] *)

Definition GWEI : Z := 10 ^ 9.

Definition getGasPrices (hre : Hre) : M Fees :=
  output (IRpc "eth_gasPrice") ;;;
  let blockBaseFee := hre_gasPrice hre in
  let minValue := 2 * GWEI in
  maxPriorityFeePerGas <-
    (if hre_chainId hre =? HARDHAT_CHAIN_ID then ret minValue
     else output (IRpc "eth_maxPriorityFeePerGas") ;;; ret (hre_maxPriorityFee hre)) ;;
  let maxPriorityFeePerGas := Z.quot (maxPriorityFeePerGas * 125) 100 in
  let maxPriorityFeePerGas :=
    if maxPriorityFeePerGas <? minValue then minValue else maxPriorityFeePerGas in
  ret {| maxPriorityFeePerGas := maxPriorityFeePerGas;
         maxFeePerGas := 2 * blockBaseFee + maxPriorityFeePerGas |}.

(** ** Folders, accounts *)

Definition checkUserDirPath (p : option string) : M unit :=
  match p with
  | None => ret tt
  | Some p =>
      ex <- existsSync p ;;
      (if ex : bool then ret tt
       else console_log ("Creating Folder at" ++s p ++s " since it didn't exist before!") ;;;
            mkdirSync p) ;;;
      isFile <- statIsFile p ;;
      if isFile : bool
      then throw (Error "outputFolder path should be to a directory not a file")
      else ret tt
  end.

Definition getAccounts (hre : Hre) : M (list address) := ret (hre_signers hre).

(** The text console.log prints for an error. *)
Definition error_text (e : jserror) : string :=
  match e with
  | Error m => "Error: " ++s m
  | TypeError m => "TypeError: " ++s m
  | FsError c p => "Error: " ++s c ++s ": " ++s p
  | LibError l m => l ++s ": " ++s m
  end.

Section Provider.
Context `{Ethers, Evm} (hre : Hre).

Definition getContractFactory (name : string) : M unit :=
  if hasContractFactory name then ret tt
  else throw (LibError "hardhat" ("HH700: Artifact for contract not found: " ++s name)).

(** The account that signs: [getContractFactory] uses the first signer. *)
Definition signer : M address :=
  lift (of_option (LibError "ethers" "missing signer") (head (hre_signers hre))).

(** The transaction uses up a nonce of its sender. *)
Definition bump_nonce (c : chain) (a : address) : chain :=
  {| accounts := accounts c; nonces := <[a := nonce_of c a + 1]> (nonces c) |}.

(** A transaction to [to]: an address without code accepts any call and
    does nothing; a contract that is not a factory has none of these
    functions. *)
Definition apply_tx (c : chain) (from to : address) (fc : factory_call) :
    option (chain * list event) :=
  match accounts c !! to with
  | None => Some (c, [])
  | Some (KFactory _) => factory_tx c from to fc
  | Some _ => None
  end.

(** [factory.fn(args, overrides)]: ethers estimates first, so that a call
    that reverts throws and is not sent. *)
Definition send (to : address) (fc : factory_call) (fees : option Fees) : M Receipt :=
  from <- signer ;;
  c <- get_chain ;;
  match apply_tx (bump_nonce c from) from to fc with
  | Some (c', events) =>
      put_chain c' ;;;
      output (ITx from to fc fees) ;;;
      ret {| r_events := Some events; r_gasUsed := gas_used c fc |}
  | None => throw (LibError "ethers" "UNPREDICTABLE_GAS_LIMIT: execution reverted")
  end.

(** [factory.estimateGas.fn(args)] *)
Definition estimate (to : address) (fc : factory_call) : M Z :=
  from <- signer ;;
  c <- get_chain ;;
  match apply_tx (bump_nonce c from) from to fc with
  | Some _ => ret (estimate_gas c fc)
  | None => throw (LibError "ethers" "UNPREDICTABLE_GAS_LIMIT: execution reverted")
  end.

Definition wait (confirmations : option Z) (r : Receipt) : M Receipt :=
  output (IWait confirmations) ;;; ret r.

Definition getTransactionCount (a : address) : M Z :=
  c <- get_chain ;; ret (nonce_of c a).

(** The factory's creation transaction from [from], or [None]. *)
Definition create_factory (c : chain) (from : address) (arg : jsval) : option (address * chain) :=
  let self := getContractAddress from (nonce_of c from) in
  let c := bump_nonce c from in
  if fresh c self
  then match factory_constructor self from (atoken_creation arg) (c, []) with
       | Some (_, (c', _)) => Some (self, c')
       | None => None
       end
  else None.

Definition estimateDeploy (arg : jsval) : M Z :=
  from <- signer ;;
  c <- get_chain ;;
  match create_factory c from arg with
  | Some _ => ret (estimate_deploy_gas c)
  | None => throw (LibError "node" "execution reverted")
  end.

(** [factoryBase.deploy(arg, overrides)] *)
Definition deploy_factory_tx (arg : jsval) (fees : Fees) : M address :=
  from <- signer ;;
  c <- get_chain ;;
  match create_factory c from arg with
  | Some (self, c') =>
      put_chain c' ;;; output (IDeploy from ALICENET_FACTORY [arg] fees) ;;; ret self
  | None => throw (LibError "ethers" "UNPREDICTABLE_GAS_LIMIT: execution reverted")
  end.

(** [factory.interface.encodeFunctionData] and friends, which throw *)
Definition encode_call (name fn : string) (args : list jsval) : M string :=
  lift (of_option (LibError "ethers" "INVALID_ARGUMENT") (encodeFunctionData name fn args)).
Definition deploy_data (name : string) (args : list jsval) : M (option string) :=
  lift (of_option (LibError "ethers" "INVALID_ARGUMENT") (getDeployData name args)).
Definition format32 (s : option string) : M string :=
  lift (s <~ of_option (TypeError "Cannot read properties of undefined") s ;;
        of_option (LibError "ethers" "bytes32 string must be less than 32 bytes")
                  (formatBytes32String s)).
Definition to_number (z : Z) : M Z :=
  lift (of_option (LibError "ethers" "overflow") (bn_toNumber z)).

(** [contractFactory.deploy(...args, overrides)] of a contract other than
    the factory. *)
Definition deploy_tx (from : address) (name : string) (args : list jsval)
    (overrides : list (string * jsval)) : M address :=
  code <- deploy_data name args ;;
  code <- lift (of_option (LibError "ethers" "INVALID_ARGUMENT") code) ;;
  c <- get_chain ;;
  match create from code (c, []) with
  | Some (Some a, (c', _)) => put_chain c' ;;; output (ICreate from name args overrides) ;;; ret a
  | _ => throw (LibError "ethers" "UNPREDICTABLE_GAS_LIMIT: execution reverted")
  end.

(** [encodeMultiCallArgs] of [alicenetTasks.ts] *)
Definition encodeMultiCallArgs (targetAddress : address) (value : Z) (callData : string) :=
  {| target := targetAddress; value := value; data := callData |}.

(** [getMetamorphicAddress] *)
Definition getMetamorphicAddress (factoryAddress : address) (salt : string) : address :=
  let initCode := "0x6020363636335afa1536363636515af43d36363e3d36f3" in
  getCreate2Address factoryAddress salt (keccak256 initCode).

(** [getSalt] of [alicenetFactoryTasks.ts] *)
Definition taskSalt (contractName : string) : M (option string) :=
  qualifiedName <- lift (getFullyQualifiedName (hre_artifacts hre) contractName) ;;
  buildInfo <- lift (art_getBuildInfo (hre_artifacts hre) qualifiedName) ;;
  match buildInfo with
  | Some bi =>
      lift (byName <~ of_option (TypeError "Cannot read properties of undefined")
                       (bi !! extractPath qualifiedName) ;;
            out <~ of_option (TypeError "Cannot read properties of undefined")
                    (byName !! contractName) ;;
            Ok (co_devdoc out !! "custom:salt"))
  | None => console_error "missing salt" ;;; ret (Some EmptyString)
  end.

(** [getBytes32Salt] of [alicenetFactoryTasks.ts] *)
Definition getBytes32Salt (contractName : string) : M string :=
  salt <- taskSalt contractName ;; format32 salt.

(** [getSalt] and [getBytes32Salt] of [deploymentUtil.ts] *)
Definition utilBytes32Salt (contractName : string) : M string :=
  fullName <- lift (getFullyQualifiedName (hre_artifacts hre) contractName) ;;
  salt <- lift (getSaltTag (hre_artifacts hre) fullName) ;;
  format32 salt.

Definition verifyContract (a : address) : M unit :=
  try_catch
    (output (IVerify a) ;;;
     match hre_verify hre a with None => ret tt | Some e => throw e end)
    (λ e, console_log ("Failed to automatically verify " ++s addr_text a ++s
                       " please do it manually!") ;;;
          console_log (error_text e)).
End Provider.

(** ** What the calls do *)

Lemma find_event_skip es1 es2 eventName varName :
  Forall (λ e, ev_name e ≠ Some eventName) es1 →
  find_event_var (es1 ++ es2) eventName varName = find_event_var es2 eventName varName.
Proof. induction 1 as [|e es1 He _ IH]; simpl; [done|]. by rewrite decide_False. Qed.

Lemma find_event_factory f name a es :
  find_event_var (factory_event f name a :: es) name CONTRACT_ADDR = Ok (JAddr a).
Proof. simpl. by rewrite decide_True. Qed.

(** Which variable the search returns: that of the first event of the name
    that has it. *)
Lemma find_event_spec events eventName varName v :
  find_event_var events eventName varName = Ok v →
  ∃ es1 e es2 args, events = es1 ++ e :: es2 ∧ ev_name e = Some eventName ∧
    ev_args e = Some args ∧ obj_get args varName = Some v ∧ is_undefined v = false ∧
    Forall (λ e', ev_name e' ≠ Some eventName ∨
      ∃ a, ev_args e' = Some a ∧ default JUndefined (obj_get a varName) = JUndefined) es1.
Proof.
  induction events as [|e es IH]; simpl; [done|].
  assert (∀ Q : Prop, Q → find_event_var es eventName varName = Ok v →
    (Q → ev_name e ≠ Some eventName ∨
      ∃ a, ev_args e = Some a ∧ default JUndefined (obj_get a varName) = JUndefined) →
    ∃ es1 e0 es2 args, e :: es = es1 ++ e0 :: es2 ∧ ev_name e0 = Some eventName ∧
      ev_args e0 = Some args ∧ obj_get args varName = Some v ∧ is_undefined v = false ∧
      Forall (λ e', ev_name e' ≠ Some eventName ∨
        ∃ a, ev_args e' = Some a ∧ default JUndefined (obj_get a varName) = JUndefined) es1)
    as Hskip.
  { intros Q q (es1 & e0 & es2 & args & -> & ? & ? & ? & ? & ?)%IH Hq.
    exists (e :: es1), e0, es2, args. split_and!; try done. constructor; auto. }
  destruct (decide _) as [Hn|Hn]; [|intros E; eapply (Hskip True); [done..|]; auto].
  destruct (ev_args e) as [args|] eqn:Ha; [|done].
  destruct (obj_get args varName) as [x|] eqn:Hx.
  2:{ intros E. eapply (Hskip True); [done..|]. right. exists args. by rewrite Hx. }
  destruct (is_undefined x) eqn:Hu.
  - destruct x; try done. intros E. eapply (Hskip True); [done..|]. right. exists args. by rewrite Hx.
  - intros E. assert (x = v) as -> by (destruct x; simplify_eq; done).
    exists [], e, es, args. by split_and!.
Qed.

(** [getEventVar] returns the variable of the first event of the given
    name that carries it; it throws when a receipt has no such event. *)
Theorem event_var_first receipt eventName varName :
  match getEventVar receipt eventName varName with
  | Ok v => ∃ es1 e es2 args, r_events receipt = Some (es1 ++ e :: es2) ∧
      ev_name e = Some eventName ∧ ev_args e = Some args ∧ obj_get args varName = Some v ∧
      Forall (λ e', ev_name e' ≠ Some eventName ∨
        ∃ a, ev_args e' = Some a ∧ default JUndefined (obj_get a varName) = JUndefined) es1
  | Throw _ => ∀ es1 e es2 args v, r_events receipt = Some (es1 ++ e :: es2) →
      ev_name e = Some eventName → ev_args e = Some args → obj_get args varName = Some v →
      is_undefined v = false →
      Exists (λ e', ev_name e' = Some eventName ∧ ev_args e' = None) es1
  end.
Proof.
  unfold getEventVar. destruct (r_events receipt) as [events|]; [|naive_solver].
  destruct (find_event_var events eventName varName) as [v|err] eqn:E.
  - apply find_event_spec in E as (es1 & e & es2 & args & -> & ? & ? & ? & ? & ?).
    by exists es1, e, es2, args.
  - intros es1 e es2 args v [= ->] Hn Ha Hv Hu. revert E.
    induction es1 as [|e1 es1 IH]; simpl.
    + rewrite decide_True by done. rewrite Ha, Hv. by destruct v.
    + destruct (decide _) as [Hn1|]; [|by right; apply IH].
      destruct (ev_args e1) as [a1|] eqn:Ha1; [|by left].
      destruct (obj_get a1 varName) as [[]|]; try done; by right; apply IH.
Qed.

(** The fees [getGasPrices] computes, and the requests it makes. *)
Definition fees_of (hre : Hre) : Fees :=
  let tip := if hre_chainId hre =? HARDHAT_CHAIN_ID then 2 * GWEI else hre_maxPriorityFee hre in
  let tip := Z.max (2 * GWEI) (Z.quot (tip * 125) 100) in
  {| maxPriorityFeePerGas := tip; maxFeePerGas := 2 * hre_gasPrice hre + tip |}.

Definition fee_requests (hre : Hre) : list io :=
  IRpc "eth_gasPrice" ::
  (if hre_chainId hre =? HARDHAT_CHAIN_ID then [] else [IRpc "eth_maxPriorityFeePerGas"]).

Lemma getGasPrices_run hre w : getGasPrices hre w = (Ok (fees_of hre), traced w (fee_requests hre)).
Proof.
  unfold getGasPrices, fees_of, fee_requests, mbind_js. rewrite output_run.
  assert (∀ x, (if x <? 2 * GWEI then 2 * GWEI else x) = Z.max (2 * GWEI) x) as Hmax
    by (intros x; destruct (Z.ltb_spec x (2 * GWEI)); lia).
  destruct (hre_chainId hre =? HARDHAT_CHAIN_ID); [done|].
  cbv beta iota zeta. rewrite output_run, traced_app. unfold ret. by rewrite Hmax.
Qed.

(** The fees offered are never below the minimum tip of 2 gwei and
    always leave room for the base fee to double: the cap covers twice the
    current price plus the tip.  The file system and the chain are not
    touched. *)
Theorem gas_prices_bounds hre w :
  0 ≤ hre_gasPrice hre →
  ∃ fees, getGasPrices hre w = (Ok fees, traced w (fee_requests hre)) ∧
    2 * GWEI ≤ maxPriorityFeePerGas fees ∧
    maxFeePerGas fees - maxPriorityFeePerGas fees = 2 * hre_gasPrice hre ∧
    maxPriorityFeePerGas fees ≤ maxFeePerGas fees ∧
    (hre_chainId hre ≠ HARDHAT_CHAIN_ID → 0 ≤ hre_maxPriorityFee hre →
     hre_maxPriorityFee hre ≤ maxPriorityFeePerGas fees).
Proof.
  intros Hp. exists (fees_of hre). split; [apply getGasPrices_run|].
  unfold fees_of. simpl. split_and!; [lia|lia|lia|].
  intros Hc Ht. rewrite (proj2 (Z.eqb_neq _ _) Hc).
  rewrite Z.quot_div_nonneg by lia. pose proof (Z.div_mod (hre_maxPriorityFee hre * 125) 100).
  pose proof (Z.mod_pos_bound (hre_maxPriorityFee hre * 125) 100). lia.
Qed.

Section Runs.
Context `{Ethers, Evm} (hre : Hre).

Lemma getContractFactory_run name w :
  hasContractFactory name = true → getContractFactory name w = (Ok tt, w).
Proof. intros Hn. unfold getContractFactory. by rewrite Hn. Qed.

Lemma send_run w from to fc fees c' events :
  head (hre_signers hre) = Some from →
  apply_tx (bump_nonce (w_chain w) from) from to fc = Some (c', events) →
  send hre to fc fees w =
  (Ok {| r_events := Some events; r_gasUsed := gas_used (w_chain w) fc |},
   traced (on_chain w c') [ITx from to fc fees]).
Proof.
  intros Hs Ha. unfold send, signer. rewrite Hs. unfold mbind_js, lift, get_chain. simpl.
  by rewrite Ha.
Qed.

Lemma send_reverts w from to fc fees :
  head (hre_signers hre) = Some from →
  apply_tx (bump_nonce (w_chain w) from) from to fc = None →
  send hre to fc fees w =
  (Throw (LibError "ethers" "UNPREDICTABLE_GAS_LIMIT: execution reverted"), w).
Proof.
  intros Hs Ha. unfold send, signer. rewrite Hs. unfold mbind_js, lift, get_chain. simpl.
  by rewrite Ha.
Qed.

Lemma estimate_run w from to fc r :
  head (hre_signers hre) = Some from →
  apply_tx (bump_nonce (w_chain w) from) from to fc = Some r →
  estimate hre to fc w = (Ok (estimate_gas (w_chain w) fc), w).
Proof.
  intros Hs Ha. unfold estimate, signer. rewrite Hs. unfold mbind_js, lift, get_chain. simpl.
  by rewrite Ha.
Qed.

Lemma getTransactionCount_run a w :
  getTransactionCount a w = (Ok (nonce_of (w_chain w) a), w).
Proof. done. Qed.

Lemma bump_nonce_ne c a b : a ≠ b → nonce_of (bump_nonce c a) b = nonce_of c b.
Proof. intros. unfold nonce_of, bump_nonce. simpl. by rewrite lookup_insert_ne. Qed.

(** ** Three ways to compute a salt *)

Lemma getBytes32Salt_spec n w path bi out salt x :
  readArtifact_sourceName (hre_artifacts hre) n = Ok path →
  string_elem ":"%char path = false → string_elem ":"%char n = false →
  art_getBuildInfo (hre_artifacts hre) (qualified path n) = Ok (Some bi) →
  contract_at bi (qualified path n) = Ok out →
  co_devdoc out !! "custom:salt" = Some salt → formatBytes32String salt = Some x →
  getBytes32Salt hre n w = (Ok x, w) ∧ utilBytes32Salt hre n w = (Ok x, w).
Proof.
  intros Hp Hpc Hnc Hb Ho Hsalt Hx.
  assert (getFullyQualifiedName (hre_artifacts hre) n = Ok (qualified path n)) as Hq
    by (unfold getFullyQualifiedName; by rewrite Hp).
  unfold getBytes32Salt, taskSalt, utilBytes32Salt, getSaltTag, getCustomNSTag, format32.
  rewrite !mbind_assoc, !(mbind_lift _ _ _ _ Hq), mbind_assoc, (mbind_lift _ _ _ _ Hb).
  rewrite Hb. unfold contract_at in Ho.
  rewrite extractPath_qualified, extractName_qualified in * by done. simpl in Ho.
  apply res_bind_Ok_inv in Ho as (byName & Hbn%of_option_Ok & Hn%of_option_Ok).
  unfold mbind_js, lift. simpl. unfold contract_at.
  rewrite extractPath_qualified, extractName_qualified by done. rewrite Hbn. simpl. rewrite Hn.
  simpl. rewrite Hsalt. simpl. by rewrite Hx.
Qed.

(** the two copies of [getBytes32Salt], in the tasks and in the
    deployment utilities, agree on every contract that has build info, on
    all outcomes: the same salt, or the same exception. *)
Theorem salts_agree n w path bi :
  readArtifact_sourceName (hre_artifacts hre) n = Ok path →
  string_elem ":"%char path = false → string_elem ":"%char n = false →
  art_getBuildInfo (hre_artifacts hre) (qualified path n) = Ok (Some bi) →
  getBytes32Salt hre n w = utilBytes32Salt hre n w.
Proof.
  intros Hp Hpc Hnc Hb.
  assert (getFullyQualifiedName (hre_artifacts hre) n = Ok (qualified path n)) as Hq
    by (unfold getFullyQualifiedName; by rewrite Hp).
  unfold getBytes32Salt, taskSalt, utilBytes32Salt, getSaltTag, getCustomNSTag, format32.
  rewrite !mbind_assoc, !(mbind_lift _ _ _ _ Hq), mbind_assoc, (mbind_lift _ _ _ _ Hb).
  rewrite Hb. unfold mbind_js, lift. simpl. unfold contract_at.
  rewrite extractPath_qualified, extractName_qualified by done.
  destruct (bi !! path) as [byName|]; [|done]. simpl. by destruct (byName !! n).
Qed.
End Runs.

(** ** Witnesses *)

#[local] Existing Instance ethers_model.

Lemma gas_prices_bounds_witness :
  ∃ fees, getGasPrices (hre_ex None) world_ex = (Ok fees, traced world_ex (fee_requests (hre_ex None))) ∧
    2 * GWEI ≤ maxPriorityFeePerGas fees.
Proof.
  destruct (gas_prices_bounds (hre_ex None) world_ex) as (fees & E & Hm & _); [done|].
  exists fees. split; [exact E|exact Hm].
Defined.

Lemma salts_agree_witness :
  getBytes32Salt (hre_ex None) "ETHDKG" world_ex = utilBytes32Salt (hre_ex None) "ETHDKG" world_ex.
Proof.
  apply (salts_agree (hre_ex None) "ETHDKG" world_ex "contracts/ETHDKG.sol" (fx_build fx_all)).
  - reflexivity.
  - reflexivity.
  - reflexivity.
  - unfold hre_ex, art_ex, fx_artifacts. cbn [hre_artifacts art_getBuildInfo].
    rewrite bool_decide_true; [reflexivity|]. set_solver.
Defined.
