(* ===== verification/FactoryTasks.v ===== *)
(** * The deployment tasks

    The hardhat tasks of [scripts/lib/alicenetFactoryTasks.ts] and the helpers
    of [scripts/lib/deployment/deploymentUtil.ts] they call: each task is a
    script over the world, composed the way [hre.run] composes them.  Task
    parameters are records with the parameters' names; objects that a task
    returns or records are [jsval] objects with the source's property names in
    the source's order. *)

From S2P Require Import Prelude JsValue Constants Artifacts DeployList Ethers Factory World StateFile DeployArgs Provider.
From stdpp Require Import options.
Local Open Scope Z_scope.

(** ** Parameters *)

(** [DeployArgs] of [deploymentUtil.ts], also the parameters of
    [fullMultiCallDeployProxy], [deployUpgradeableProxy] and [deployCreate]. *)
Record DeployArgs := {
  a_contractName : option string;
  a_factoryAddress : address;
  a_waitConfirmation : option bool;
  a_initCallData : option string;
  a_constructorArgs : option (list jsval);
  a_outputFolder : option string;
  a_verify : option bool }.

(** [DeployProxyMCArgs], the parameters of [multiCallDeployProxy]. *)
Record DeployProxyMCArgs := {
  p_contractName : string;
  p_logicAddress : address;
  p_waitConfirmation : option bool;
  p_factoryAddress : address;
  p_initCallData : option string;
  p_outputFolder : option string;
  p_salt : option string }.

Record ContractDescriptor := {
  cd_name : string;
  cd_fullyQualifiedName : string;
  cd_deployGroup : option string;
  cd_deployGroupIndex : option Z;              (* NaN is [None] *)
  cd_deployType : option string;
  cd_constructorArgs : list jsval;
  cd_initializerArgs : list jsval }.

Definition opt_js (o : option string) : jsval :=
  match o with Some s => JStr s | None => JUndefined end.

(** [x === true ? 8 : undefined] *)
Definition wait_blocks (waitConfirmation : option bool) : option Z :=
  if bool_decide (waitConfirmation = Some true) then Some 8 else None.

Definition truthy (o : option bool) : bool := default false o.

(** A value passed where an address is needed. *)
Definition as_addr (v : jsval) : M address :=
  match v with JAddr a => ret a | _ => throw (LibError "ethers" "invalid address") end.

(** [cumulativeGas.add(v)]: a BigNumberish is needed. *)
Definition add_gas (total : Z) (v : jsval) : M Z :=
  match v with
  | JNum z | JBig z => ret (total + z)
  | _ => throw (LibError "ethers" "invalid BigNumber value")
  end.

Section Tasks.
Context `{Ethers, Evm, Toml} (hre : Hre).
Local Notation art := (hre_artifacts hre).

(** ** Helpers of [deploymentUtil.ts] *)

Definition getFactoryDeploymentArgs (inputFolder : option string) : M (option (list jsval)) :=
  fullyQualifiedName <- lift (getFullyQualifiedName art ALICENET_FACTORY) ;;
  hasConArgs <- lift (hasConstructorArgs art fullyQualifiedName) ;;
  if hasConArgs : bool
  then l <- getDeploymentConstructorArgs fullyQualifiedName inputFolder ;; ret (Some l)
  else ret None.

Definition getDeployUpgradeableProxyArgs (fullyQualifiedName : string) (factoryAddress : address)
    (waitConfirmation : option bool) (inputFolder outputFolder : option string)
    (verify : option bool) : M DeployArgs :=
  initAble <- lift (isInitializable art fullyQualifiedName) ;;
  initCallData <-
    (if initAble : bool
     then initializerArgs <- getDeploymentInitializerArgs fullyQualifiedName inputFolder ;;
          ret (getEncodedInitCallData initializerArgs)
     else ret None) ;;
  hasConArgs <- lift (hasConstructorArgs art fullyQualifiedName) ;;
  constructorArgs <-
    (if hasConArgs : bool
     then l <- getDeploymentConstructorArgs fullyQualifiedName inputFolder ;; ret (Some l)
     else ret None) ;;
  ret {| a_contractName := extractName fullyQualifiedName;
         a_waitConfirmation := waitConfirmation; a_factoryAddress := factoryAddress;
         a_initCallData := initCallData; a_constructorArgs := constructorArgs;
         a_outputFolder := outputFolder; a_verify := verify |}.

(** [getDeployMetaArgs], the same steps *)
Definition getDeployMetaArgs (fullyQualifiedName : string) (waitConfirmation : bool)
    (factoryAddress : address) (inputFolder outputFolder : option string)
    (verify : option bool) : M DeployArgs :=
  initAble <- lift (isInitializable art fullyQualifiedName) ;;
  initCallData <-
    (if initAble : bool
     then initializerArgs <- getDeploymentInitializerArgs fullyQualifiedName inputFolder ;;
          ret (getEncodedInitCallData initializerArgs)
     else ret None) ;;
  hasConArgs <- lift (hasConstructorArgs art fullyQualifiedName) ;;
  constructorArgs <-
    (if hasConArgs : bool
     then l <- getDeploymentConstructorArgs fullyQualifiedName inputFolder ;; ret (Some l)
     else ret None) ;;
  ret {| a_contractName := extractName fullyQualifiedName;
         a_waitConfirmation := Some waitConfirmation; a_factoryAddress := factoryAddress;
         a_initCallData := initCallData; a_constructorArgs := constructorArgs;
         a_outputFolder := outputFolder; a_verify := verify |}.

Definition getContractDescriptor (contractName : string)
    (constructorArgs initializerArgs : list jsval) : M ContractDescriptor :=
  fullyQualifiedName <- lift (getFullyQualifiedName art contractName) ;;
  fullyQualifiedName' <- lift (getFullyQualifiedName art contractName) ;;
  deployGroup <- lift (getDeployGroup art fullyQualifiedName) ;;
  index <- lift (getDeployGroupIndex art fullyQualifiedName) ;;
  deployType <- lift (getDeployType art fullyQualifiedName) ;;
  ret {| cd_name := contractName; cd_fullyQualifiedName := fullyQualifiedName';
         cd_deployGroup := deployGroup;
         cd_deployGroupIndex := parseInt (Some 10) (to_key index);
         cd_deployType := deployType; cd_constructorArgs := constructorArgs;
         cd_initializerArgs := initializerArgs |}.

Definition getDeployUpgradeableMultiCallArgs (contractDescriptor : ContractDescriptor)
    (factoryAddr : address) (inputedInitCallData : option string) : M (list MultiCallArgs) :=
  getContractFactory ALICENET_FACTORY ;;;
  getContractFactory (cd_name contractDescriptor) ;;;
  getContractFactory (cd_name contractDescriptor) ;;;
  deployTxReq_data <- deploy_data (cd_name contractDescriptor)
                                  (cd_constructorArgs contractDescriptor) ;;
  let initCallData :=
    match inputedInitCallData with
    | Some s => if decide (s = EmptyString) then "0x" else s
    | None => "0x"
    end in
  initCallData <-
    (match cd_initializerArgs contractDescriptor with
     | [] => ret initCallData
     | args => encode_call (cd_name contractDescriptor) INITIALIZER args
     end) ;;
  salt <- utilBytes32Salt hre (cd_name contractDescriptor) ;;
  nonce <- getTransactionCount factoryAddr ;;
  let logicAddress := getContractAddress factoryAddr nonce in
  deployCreateCallData <- encode_call ALICENET_FACTORY DEPLOY_CREATE [opt_js deployTxReq_data] ;;
  deployProxyCallData <- encode_call ALICENET_FACTORY DEPLOY_PROXY [JStr salt] ;;
  upgradeProxyCallData <-
    encode_call ALICENET_FACTORY UPGRADE_PROXY [JStr salt; JAddr logicAddress; JStr initCallData] ;;
  let deployCreate := encodeMultiCallArgs factoryAddr 0 deployCreateCallData in
  let deployProxy := encodeMultiCallArgs factoryAddr 0 deployProxyCallData in
  let upgradeProxy := encodeMultiCallArgs factoryAddr 0 upgradeProxyCallData in
  ret [deployCreate; deployProxy; upgradeProxy].

(** ** Small tasks *)

Definition task_getNetwork : M string :=
  showState hre (hre_network hre) ;;; ret (hre_network hre).

Definition task_getBytes32Salt (contractName : string) : M unit :=
  salt <- getBytes32Salt hre contractName ;; showState hre salt.

(** ** [deployFactory] *)

Definition task_deployFactory (waitConfirmation verify : option bool)
    (outputFolder : option string) : M jsval :=
  let waitBlocks := wait_blocks waitConfirmation in
  checkUserDirPath outputFolder ;;;
  getContractFactory ALICENET_FACTORY ;;;
  constructorArgs <- getFactoryDeploymentArgs None ;;
  let constructorArgs := default [] constructorArgs in
  accounts <- getAccounts hre ;;
  let arg := default JUndefined (constructorArgs !! 0%nat) in
  deploy_data ALICENET_FACTORY [arg] ;;;
  gasCost <- estimateDeploy hre arg ;;
  fees <- getGasPrices hre ;;
  factory <- deploy_factory_tx hre arg fees ;;
  output (IWait waitBlocks) ;;;
  let factoryData :=
    JObj [("address", JAddr factory);
          ("owner", match accounts with a :: _ => JAddr a | [] => JUndefined end);
          ("gas", JBig gasCost)] in
  (if truthy verify then verifyContract hre factory else ret tt) ;;;
  updateDefaultFactoryData hre (hre_network hre) factoryData outputFolder ;;;
  showState hre ("Deployed: " ++s ALICENET_FACTORY ++s ", at address: " ++s addr_text factory ++s
                 ", with " ++s pretty gasCost ++s " gas") ;;;
  ret factoryData.

(** ** [deployCreate] *)

Definition set_block_gas_limit : M unit :=
  if decide (hre_network hre = "hardhat") then output (IRpc "evm_setBlockGasLimit") else ret tt.

Definition task_deployCreate (contractName : string) (factoryAddress : address)
    (waitConfirmation : option bool) (outputFolder : option string)
    (constructorArgs : option (list jsval)) : M jsval :=
  let waitBlocks := wait_blocks waitConfirmation in
  getContractFactory ALICENET_FACTORY ;;;
  getContractFactory contractName ;;;
  deployTx_data <- deploy_data contractName (default [] constructorArgs) ;;
  set_block_gas_limit ;;;
  match deployTx_data with
  | Some code =>
      fees <- getGasPrices hre ;;
      receipt <- send hre factoryAddress (FDeployCreate code) (Some fees) ;;
      receipt <- wait waitBlocks receipt ;;
      address <- lift (getEventVar receipt DEPLOYED_RAW CONTRACT_ADDR) ;;
      let deployCreateData :=
        JObj [("name", JStr contractName); ("address", address);
              ("factoryAddress", JAddr factoryAddress); ("gas", JBig (r_gasUsed receipt));
              ("constructorArgs", match constructorArgs with Some l => JArr l | None => JUndefined end)] in
      deployCreateData <-
        updateDeployCreateList hre (hre_network hre) deployCreateData outputFolder ;;
      showState hre ("[DEBUG ONLY, DONT USE THIS ADDRESS IN THE SIDE CHAIN, USE THE PROXY INSTEAD!] Deployed logic for "
        ++s contractName ++s " contract at: " ++s js_str address ++s ", gas: " ++s
        pretty (r_gasUsed receipt)) ;;;
      lift (js_set deployCreateData "receipt" (receipt_js receipt))
  | None => throw (Error ("failed to get deployment bytecode for " ++s contractName))
  end.

(** ** [deployProxy] *)

Definition task_deployProxy (salt : string) (factoryAddress : address)
    (waitConfirmation : option bool) : M jsval :=
  let waitBlocks := wait_blocks waitConfirmation in
  getContractFactory ALICENET_FACTORY ;;;
  fees <- getGasPrices hre ;;
  receipt <- send hre factoryAddress (FDeployProxy salt) (Some fees) ;;
  receipt <- wait waitBlocks receipt ;;
  proxyAddr <- lift (getEventVar receipt DEPLOYED_PROXY CONTRACT_ADDR) ;;
  let proxyData :=
    JObj [("proxyAddress", proxyAddr); ("salt", JStr salt);
          ("factoryAddress", JAddr factoryAddress); ("gas", JBig (r_gasUsed receipt));
          ("receipt", receipt_js receipt)] in
  name <- lift (of_option (LibError "ethers" "invalid bytes32 string") (parseBytes32String salt)) ;;
  showState hre ("Deployed " ++s name ++s " proxy at " ++s js_str proxyAddr ++s
                 ", gasCost: " ++s pretty (r_gasUsed receipt)) ;;;
  ret proxyData.

(** The initializer call data every upgrade task computes: [initArgs] from
    the parameter, encoded when the contract has an initializer. *)
Definition init_call (contractName : string) (initCallData : option string) : M string :=
  let initArgs := split_init_args initCallData in
  fullname <- lift (getFullyQualifiedName art contractName) ;;
  isInitable <- lift (isInitializable art fullname) ;;
  if isInitable : bool then encode_call contractName INITIALIZER (JStr <$> initArgs)
  else ret "0x".

(** [taskArgs.salt === undefined ? await getBytes32Salt(...) : formatBytes32String(...)] *)
Definition salt_or_default (contractName : string) (salt : option string) : M string :=
  match salt with
  | None => getBytes32Salt hre contractName
  | Some s => format32 (Some s)
  end.

(** ** [multiCallDeployProxy] *)

Definition task_multiCallDeployProxy (a : DeployProxyMCArgs) : M jsval :=
  let waitBlocks := wait_blocks (p_waitConfirmation a) in
  let network := hre_network hre in
  getContractFactory ALICENET_FACTORY ;;;
  getContractFactory (p_contractName a) ;;;
  initCallData <- init_call (p_contractName a) (p_initCallData a) ;;
  salt <- salt_or_default (p_contractName a) (p_salt a) ;;
  deployProxyCallData <- encode_call ALICENET_FACTORY DEPLOY_PROXY [JStr salt] ;;
  upgradeProxyCallData <-
    encode_call ALICENET_FACTORY UPGRADE_PROXY
      [JStr salt; JAddr (p_logicAddress a); JStr initCallData] ;;
  let deployProxy := encodeMultiCallArgs (p_factoryAddress a) 0 deployProxyCallData in
  let upgradeProxy := encodeMultiCallArgs (p_factoryAddress a) 0 upgradeProxyCallData in
  let multiCallArgs := [deployProxy; upgradeProxy] in
  fees <- getGasPrices hre ;;
  receipt <- send hre (p_factoryAddress a) (FMultiCall multiCallArgs) (Some fees) ;;
  receipt <- wait waitBlocks receipt ;;
  proxyAddress <- lift (getEventVar receipt DEPLOYED_PROXY CONTRACT_ADDR) ;;
  gas <- to_number (r_gasUsed receipt) ;;
  let proxyData :=
    JObj [("factoryAddress", JAddr (p_factoryAddress a)); ("logicName", JStr (p_contractName a));
          ("logicAddress", JAddr (p_logicAddress a)); ("salt", JStr salt);
          ("proxyAddress", proxyAddress); ("gas", JNum gas); ("receipt", receipt_js receipt);
          ("initCallData", JStr initCallData)] in
  updateProxyList hre network proxyData (p_outputFolder a).

(** ** [upgradeDeployedProxy] *)

Definition task_upgradeDeployedProxy (contractName : string) (logicAddress factoryAddress : address)
    (waitConfirmation : option bool) (initCallData outputFolder : option string) : M jsval :=
  let waitBlocks := wait_blocks waitConfirmation in
  let network := hre_network hre in
  getContractFactory ALICENET_FACTORY ;;;
  salt <- getBytes32Salt hre contractName ;;
  getContractFactory contractName ;;;
  initCallData <- init_call contractName initCallData ;;
  fees <- getGasPrices hre ;;
  receipt <- send hre factoryAddress (FUpgradeProxy salt logicAddress initCallData) (Some fees) ;;
  receipt <- wait waitBlocks receipt ;;
  let proxyAddress := getMetamorphicAddress factoryAddress salt in
  gas <- to_number (r_gasUsed receipt) ;;
  let proxyData :=
    JObj [("proxyAddress", JAddr proxyAddress); ("salt", JStr salt);
          ("logicName", JStr contractName); ("logicAddress", JAddr logicAddress);
          ("factoryAddress", JAddr factoryAddress); ("gas", JNum gas);
          ("receipt", receipt_js receipt); ("initCallData", JStr initCallData)] in
  showState hre ("Updated logic with upgradeDeployedProxy for the" ++s nl ++s "      " ++s
    contractName ++s nl ++s "      contract at" ++s nl ++s "      " ++s addr_text proxyAddress ++s
    nl ++s "      gas:" ++s nl ++s "      " ++s pretty (r_gasUsed receipt)) ;;;
  updateProxyList hre network proxyData outputFolder.

(** ** [multiCallUpgradeProxy] *)

(** A view call of a proxy's [getImplementationAddress]. *)
Definition proxy_implementation (proxy : address) : M address :=
  c <- get_chain ;;
  match accounts c !! proxy with
  | Some (KProxy _ slot) => ret (ProxySlot.getImplementationAddress slot)
  | _ => throw (LibError "ethers" "CALL_EXCEPTION")
  end.

Definition task_multiCallUpgradeProxy (contractName : string) (factoryAddress : address)
    (waitConfirmation : option bool) (initCallData salt : option string)
    (constructorArgs : option (list jsval)) : M jsval :=
  let waitBlocks := wait_blocks waitConfirmation in
  getContractFactory ALICENET_FACTORY ;;;
  getContractFactory contractName ;;;
  initCallData <- init_call contractName initCallData ;;
  (* ...taskArgs.constructorArgs *)
  args <- lift (of_option (TypeError "undefined is not iterable") constructorArgs) ;;
  deployTx_data <- deploy_data contractName args ;;
  deployCreateCallData <- encode_call ALICENET_FACTORY DEPLOY_CREATE [opt_js deployTx_data] ;;
  salt <- salt_or_default contractName salt ;;
  txCount <- getTransactionCount factoryAddress ;;
  let implAddress := getContractAddress factoryAddress txCount in
  upgradeProxyCallData <-
    encode_call ALICENET_FACTORY UPGRADE_PROXY [JStr salt; JAddr implAddress; JStr initCallData] ;;
  getContractFactory PROXY ;;;
  let proxyAddress := getMetamorphicAddress factoryAddress salt in
  oldImpl <- proxy_implementation proxyAddress ;;
  let deployCreate := encodeMultiCallArgs factoryAddress 0 deployCreateCallData in
  let upgradeProxy := encodeMultiCallArgs factoryAddress 0 upgradeProxyCallData in
  fees <- getGasPrices hre ;;
  receipt <- send hre factoryAddress (FMultiCall [deployCreate; upgradeProxy]) (Some fees) ;;
  receipt <- wait waitBlocks receipt ;;
  showState hre ("Updating logic for the " ++s contractName ++s " proxy at " ++s
    addr_text proxyAddress ++s " from " ++s addr_text oldImpl ++s " to " ++s
    addr_text implAddress ++s ", gasCost: " ++s pretty (r_gasUsed receipt)) ;;;
  gas <- to_number (r_gasUsed receipt) ;;
  (* taskArgs.logicAddress is not a parameter of this task *)
  ret (JObj [("factoryAddress", JAddr factoryAddress); ("logicName", JStr contractName);
             ("logicAddress", JUndefined); ("salt", JStr salt);
             ("proxyAddress", JAddr proxyAddress); ("gas", JNum gas);
             ("receipt", receipt_js receipt); ("initCallData", JStr initCallData)]).

(** [hre.run] needs the mandatory parameters. *)
Definition mandatory (o : option string) : M string :=
  lift (of_option (LibError "hardhat" "HH306: missing value for required argument") o).

(** ** [deployUpgradeableProxy] *)

Definition task_deployUpgradeableProxy (a : DeployArgs) : M jsval :=
  let cumulativeGas := 0 in
  contractName <- mandatory (a_contractName a) ;;
  (* callArgs: contractName, factoryAddress, constructorArgs, outputFolder *)
  deployCreateData <-
    task_deployCreate contractName (a_factoryAddress a) None (a_outputFolder a)
                      (a_constructorArgs a) ;;
  gas <- lift (js_get deployCreateData "gas") ;;
  cumulativeGas <- add_gas cumulativeGas gas ;;
  address <- lift (js_get deployCreateData "address") ;;
  logicAddress <- as_addr address ;;
  proxyData <-
    task_multiCallDeployProxy
      {| p_contractName := contractName; p_factoryAddress := a_factoryAddress a;
         p_logicAddress := logicAddress; p_waitConfirmation := a_waitConfirmation a;
         p_initCallData := a_initCallData a; p_outputFolder := a_outputFolder a;
         p_salt := None |} ;;
  gas <- lift (js_get proxyData "gas") ;;
  cumulativeGas <- add_gas cumulativeGas gas ;;
  proxyData <- lift (js_set proxyData "gas" (JBig cumulativeGas)) ;;
  logicName <- lift (js_get proxyData "logicName") ;;
  proxyAddress <- lift (js_get proxyData "proxyAddress") ;;
  showState hre ("Deployed " ++s js_str logicName ++s " with proxy at " ++s js_str proxyAddress ++s
                 ", gasCost: " ++s pretty cumulativeGas) ;;;
  ret proxyData.

(** ** [fullMultiCallDeployProxy] *)

Definition task_fullMultiCallDeployProxy (a : DeployArgs) : M jsval :=
  contractName <- mandatory (a_contractName a) ;;
  let waitBlocks := wait_blocks (a_waitConfirmation a) in
  let network := hre_network hre in
  let callArgs :=
    {| a_contractName := a_contractName a; a_factoryAddress := a_factoryAddress a;
       a_waitConfirmation := None; a_initCallData := a_initCallData a;
       a_constructorArgs := a_constructorArgs a; a_outputFolder := a_outputFolder a;
       a_verify := None |} in
  getContractFactory ALICENET_FACTORY ;;;
  getContractFactory contractName ;;;
  let initArgs := split_init_args (a_initCallData a) in
  initCallData <- init_call contractName (a_initCallData a) ;;
  salt <- getBytes32Salt hre contractName ;;
  let constructorArgs := default [] (a_constructorArgs a) in
  set_block_gas_limit ;;;
  contractDescriptor <- getContractDescriptor contractName constructorArgs (JStr <$> initArgs) ;;
  multiCallArgs <-
    getDeployUpgradeableMultiCallArgs contractDescriptor (a_factoryAddress a) (Some initCallData) ;;
  estimatedMultiCallGas <- estimate hre (a_factoryAddress a) (FMultiCall multiCallArgs) ;;
  if estimatedMultiCallGas <? MULTICALL_GAS_LIMIT then
    fees <- getGasPrices hre ;;
    receipt <- send hre (a_factoryAddress a) (FMultiCall multiCallArgs) (Some fees) ;;
    receipt <- wait waitBlocks receipt ;;
    deployedLogicAddress <- lift (getEventVar receipt DEPLOYED_RAW CONTRACT_ADDR) ;;
    (if truthy (a_verify a)
     then la <- as_addr deployedLogicAddress ;; verifyContract hre la else ret tt) ;;;
    proxyAddress <- lift (getEventVar receipt DEPLOYED_PROXY CONTRACT_ADDR) ;;
    let proxyData :=
      JObj [("factoryAddress", JAddr (a_factoryAddress a)); ("logicName", JStr contractName);
            ("logicAddress", deployedLogicAddress); ("salt", JStr salt);
            ("proxyAddress", proxyAddress); ("gas", JBig (r_gasUsed receipt));
            ("receipt", receipt_js receipt); ("initCallData", JStr initCallData)] in
    showState hre ("Deployed " ++s contractName ++s " with proxy at " ++s js_str proxyAddress ++s
                   ", gasCost: " ++s pretty (r_gasUsed receipt)) ;;;
    updateProxyList hre network proxyData (a_outputFolder a)
  else task_deployUpgradeableProxy callArgs.

(** ** [deployContracts] *)

(** The contracts of a deployment list: [contracts.length] and
    [contracts[i]] on the value read from the file. *)
Definition list_items (contracts : jsval) : list jsval :=
  match contracts with
  | JArr l => l
  | JStr s => (λ c, JStr (String c EmptyString)) <$> String.list_ascii_of_string s
  | _ => []
  end.

Definition as_name (v : jsval) : M string :=
  match v with JStr s => ret s | _ => throw (TypeError "fullName.split is not a function") end.

Record DeployContractsArgs := {
  t_waitConfirmation : option bool;
  t_verify : option bool;
  t_factoryAddress : option address;
  t_inputFolder : option string;
  t_outputFolder : option string }.

(** The body of the loop: returns the gas the contract used. *)
Definition deploy_one (a : DeployContractsArgs) (factoryAddress : address)
    (cumulativeGasUsed : Z) (contract : jsval) : M Z :=
  fullyQualifiedName <- as_name contract ;;
  deployType <- lift (getDeployType art fullyQualifiedName) ;;
  if decide (deployType = Some UPGRADEABLE_DEPLOYMENT) then
    deployArgs <-
      getDeployUpgradeableProxyArgs fullyQualifiedName factoryAddress (t_waitConfirmation a)
        (t_inputFolder a) (t_outputFolder a) (t_verify a) ;;
    proxyData <- task_fullMultiCallDeployProxy deployArgs ;;
    gas <- lift (js_get proxyData "gas") ;;
    add_gas cumulativeGasUsed gas
  else if decide (deployType = Some ONLY_PROXY) then
    name <- lift (of_option (LibError "hardhat" "HH700: Artifact not found")
                            (extractName fullyQualifiedName)) ;;
    salt <- getBytes32Salt hre name ;;
    proxyData <- task_deployProxy salt factoryAddress (t_waitConfirmation a) ;;
    gas <- lift (js_get proxyData "gas") ;;
    add_gas cumulativeGasUsed gas
  else ret cumulativeGasUsed.

(** The factory to use, deployed first when none is given; [gas] so far. *)
Definition deployed_factory (factoryAddress : option address) (verify : option bool)
    (outputFolder : option string) : M (address * Z) :=
  match factoryAddress with
  | Some f => ret (f, 0)
  | None =>
      factoryData <- task_deployFactory None verify outputFolder ;;
      address <- lift (js_get factoryData "address") ;;
      f <- as_addr address ;;
      gas <- lift (js_get factoryData "gas") ;;
      total <- add_gas 0 gas ;;
      ret (f, total)
  end.

Definition task_deployContracts (a : DeployContractsArgs) : M unit :=
  checkUserDirPath (t_outputFolder a) ;;;
  fg <- deployed_factory (t_factoryAddress a) (t_verify a) (t_outputFolder a) ;;
  contracts <- getDeploymentList (t_inputFolder a) ;;
  cumulativeGasUsed <- foldM (deploy_one a fg.1) (list_items contracts) fg.2 ;;
  console_log ("total gas used: " ++s pretty cumulativeGasUsed).

(** ** [deployContractsMulticall] of [deploymentUtil.ts] *)

Definition multicall_one (factoryAddr : address) (contract : ContractDescriptor) : M unit :=
  if decide (cd_deployType contract = Some UPGRADEABLE_DEPLOYMENT) then
    multiCallArgsArray <- getDeployUpgradeableMultiCallArgs contract factoryAddr None ;;
    receipt <- send hre factoryAddr (FMultiCall multiCallArgsArray) None ;;
    receipt <- wait None receipt ;;
    address <- lift (getEventVar receipt DEPLOYED_PROXY CONTRACT_ADDR) ;;
    console_log (cd_name contract ++s " deployed at: " ++s js_str address)
  else if decide (cd_deployType contract = Some ONLY_PROXY) then
    name <- lift (of_option (LibError "hardhat" "HH700: Artifact not found")
                            (extractName (cd_fullyQualifiedName contract))) ;;
    salt <- utilBytes32Salt hre name ;;
    task_deployProxy salt factoryAddr None ;;;
    ret tt
  else ret tt.

Definition deployContractsMulticall (contracts : list ContractDescriptor)
    (factoryAddr : address) : M (list MultiCallArgs) :=
  getContractFactory ALICENET_FACTORY ;;;
  forM contracts (multicall_one factoryAddr) ;;;
  ret [].

(** ** [generateDeploymentConfigs] *)

Definition sorted_list (contracts : list string) : M (list string) :=
  deploymentList <- lift (getSortedDeployList art contracts) ;;
  ret (transformDeploymentList deploymentList).

(** The qualified names of a custom list; the type tag is only read. *)
Fixpoint qualify_names (nameList : list string) (contracts : list string) : M (list string) :=
  match nameList with
  | [] => ret contracts
  | name :: nameList =>
      sourceName <- lift (readArtifact_sourceName art name) ;;
      let fullName := sourceName ++s ":" ++s name in
      lift (getDeployType art fullName) ;;;
      qualify_names nameList (contracts ++ [fullName])
  end.

Definition task_generateDeploymentConfigs (onlyList onlyArgs : bool)
    (outputFolder : option string) (contractNames : option (list string)) : M unit :=
  checkUserDirPath outputFolder ;;;
  let path := default DEFAULT_CONFIG_OUTPUT_DIR outputFolder in
  contracts <-
    (match outputFolder, contractNames with
     | None, None => ret (getAllContracts art)
     | Some _, Some nameList => qualify_names nameList []
     | Some _, None => ret (getAllContracts art)
     | None, Some _ =>
         throw (Error "you must specify a path to store your custom deploy config files")
     end) ;;
  list <- sorted_list contracts ;;
  deploymentArgs <- lift (generateDeployArgTemplate art list) ;;
  (if onlyArgs then ret tt
   else writeDeploymentList (filter (λ name, includes ALICENET_FACTORY name = false) list)
                            (Some path)) ;;;
  (if onlyList then ret tt
   else writeDeploymentArgs deploymentArgs (Some path) ;;;
        console_log ("YOU MUST REPLACE THE UNDEFINED VALUES IN " ++s path ++s
                     "/deploymentArgsTemplate")).
End Tasks.
