(* ===== verification/DeployFlow.v ===== *)
(** * What the deployment tasks achieve on chain and on disk

    End-to-end theorems: the off-chain computation of the tasks (artifact
    tags, call data, the predicted logic address) composed with the factory's
    execution and the recording of the result. *)

From S2P Require Import Prelude JsValue Constants Artifacts Fixtures Ethers Factory Instances FactoryProofs World Scenario StateFile DeployArgs Provider FactoryTasks.
From stdpp Require Import options.
Local Open Scope Z_scope.

Section Flow.
Context `{Ethers, !EthersLaws, Evm, !EvmLaws, Toml} (hre : Hre).
Local Notation art := (hre_artifacts hre).

(** ** Off chain *)

(** What the artifacts and ethers say of a contract [n] deployed with
    constructor arguments [cargs] and initializer parameter [icd]: its
    qualified name, bytes32 salt, creation code and initializer call data. *)
Record compiled (n : string) (cargs : list jsval) (icd : option string)
    (fq salt code d : string) : Prop := {
  cp_base : hasContractFactory ALICENET_FACTORY = true;
  cp_logic : hasContractFactory n = true;
  cp_name : getFullyQualifiedName art n = Ok fq;
  cp_salt w : getBytes32Salt hre n w = (Ok salt, w);
  cp_utilSalt w : utilBytes32Salt hre n w = (Ok salt, w);
  cp_group : ∃ g, getDeployGroup art fq = Ok g;
  cp_index : ∃ i, getDeployGroupIndex art fq = Ok i;
  cp_type : ∃ t, getDeployType art fq = Ok t;
  cp_code : getDeployData n cargs = Some (Some code);
  cp_init : (isInitializable art fq = Ok true ∧ d ≠ EmptyString ∧
             encodeFunctionData n INITIALIZER (JStr <$> split_init_args icd) = Some d) ∨
            (isInitializable art fq = Ok false ∧ d = EMPTY ∧ split_init_args icd = []) }.

(** The call data of the three calls. *)
Record encoded (salt code d : string) (la : address) (dCreate dProxy dUpgrade : string) : Prop := {
  en_create : encodeFunctionData ALICENET_FACTORY DEPLOY_CREATE [JStr code] = Some dCreate;
  en_proxy : encodeFunctionData ALICENET_FACTORY DEPLOY_PROXY [JStr salt] = Some dProxy;
  en_upgrade : encodeFunctionData ALICENET_FACTORY UPGRADE_PROXY
                 [JStr salt; JAddr la; JStr d] = Some dUpgrade }.

Lemma encode_call_run name fn args x w :
  encodeFunctionData name fn args = Some x → encode_call name fn args w = (Ok x, w).
Proof using Type. intros E. unfold encode_call. by rewrite E. Qed.

Lemma deploy_data_run name args x w :
  getDeployData name args = Some x → deploy_data name args w = (Ok x, w).
Proof using Type. intros E. unfold deploy_data. by rewrite E. Qed.

Lemma init_call_run n cargs icd fq salt code d w :
  compiled n cargs icd fq salt code d → init_call hre n icd w = (Ok d, w).
Proof using Type.
  intros C. unfold init_call. rewrite (mbind_lift _ _ _ _ (cp_name _ _ _ _ _ _ _ C)).
  destruct (cp_init _ _ _ _ _ _ _ C) as [(Hi & _ & Hd)|(Hi & -> & _)];
    rewrite (mbind_lift _ _ _ _ Hi); [by apply encode_call_run|done].
Qed.

Lemma descriptor_run n cargs icd fq salt code d iargs w :
  compiled n cargs icd fq salt code d →
  ∃ g i t, getContractDescriptor hre n cargs iargs w =
    (Ok {| cd_name := n; cd_fullyQualifiedName := fq; cd_deployGroup := g;
           cd_deployGroupIndex := i; cd_deployType := t; cd_constructorArgs := cargs;
           cd_initializerArgs := iargs |}, w).
Proof using Type.
  intros C. unfold getContractDescriptor.
  rewrite !(mbind_lift _ _ _ _ (cp_name _ _ _ _ _ _ _ C)).
  destruct (cp_group _ _ _ _ _ _ _ C) as [g Hg], (cp_index _ _ _ _ _ _ _ C) as [i Hi],
    (cp_type _ _ _ _ _ _ _ C) as [t Ht].
  rewrite (mbind_lift _ _ _ _ Hg), (mbind_lift _ _ _ _ Hi), (mbind_lift _ _ _ _ Ht).
  by eexists _, _, _.
Qed.

(** The three calls the utilities build, in the factory's order. *)
Lemma multiCallArgs_run n cargs icd fq salt code d dCreate dProxy dUpgrade f desc w :
  compiled n cargs icd fq salt code d →
  encoded salt code d (getContractAddress f (nonce_of (w_chain w) f)) dCreate dProxy dUpgrade →
  cd_name desc = n → cd_constructorArgs desc = cargs →
  cd_initializerArgs desc = JStr <$> split_init_args icd →
  getDeployUpgradeableMultiCallArgs hre desc f (Some d) w =
  (Ok (deploy_calls f dCreate dProxy dUpgrade), w).
Proof using Type.
  intros C E Hn Hc Hi. unfold getDeployUpgradeableMultiCallArgs. rewrite Hn, Hc, Hi.
  mstep (getContractFactory_run ALICENET_FACTORY w (cp_base _ _ _ _ _ _ _ C)).
  do 2 mstep (getContractFactory_run n w (cp_logic _ _ _ _ _ _ _ C)).
  mstep (deploy_data_run _ _ _ w (cp_code _ _ _ _ _ _ _ C)). cbv zeta.
  assert ((match JStr <$> split_init_args icd with
           | [] => ret (if decide (d = EmptyString) then "0x" else d)
           | args => encode_call n INITIALIZER args
           end) w = (Ok d, w)) as Hd.
  { destruct (cp_init _ _ _ _ _ _ _ C) as [(_ & Hne & Hd)|(_ & -> & Hl)].
    - destruct (JStr <$> split_init_args icd); [by rewrite decide_False|by apply encode_call_run].
    - by rewrite Hl. }
  mstep Hd. mstep (cp_utilSalt _ _ _ _ _ _ _ C w). mstep (getTransactionCount_run f w). cbv zeta.
  mstep (encode_call_run _ _ _ _ w (en_create _ _ _ _ _ _ _ E)).
  mstep (encode_call_run _ _ _ _ w (en_proxy _ _ _ _ _ _ _ E)).
  mstep (encode_call_run _ _ _ _ w (en_upgrade _ _ _ _ _ _ _ E)). done.
Qed.

(** ** On chain *)

(** The state in which a deployment through the factory succeeds; [c] is
    the chain the transaction runs on. *)
Record deploy_ready (c : chain) (f owner : address) (st : FactoryState) (salt code d : string)
    (la pa : address) (es1 es2 : list event) : Prop := {
  dr_factory : accounts c !! f = Some (KFactory st);
  dr_owner : f_owner st = owner;
  dr_template : accounts c !! f_proxyTemplate st = Some KTemplate;
  dr_la : la = getContractAddress f (nonce_of c f);
  dr_pa : pa = getMetamorphicContractAddress salt f;
  dr_hash : keccak256 METAMORPHIC_CODE = METAMORPHIC_HASH;
  dr_fresh_la : fresh c la = true;
  dr_fresh_pa : fresh c pa = true;
  dr_distinct : la ≠ pa;
  dr_init : decode_upgrade d = None;
  dr_constructor : run_constructor c la code = Some es1;
  dr_code : has_code code = true;
  dr_initializer : init_events (deployed c f st salt code la pa) f pa la d = Some es2 }.

(** What the transaction emits. *)
Definition deploy_events (f la pa : address) (es1 es2 : list event) : list event :=
  ((es1 ++ [factory_event f DEPLOYED_RAW la]) ++ [factory_event f DEPLOYED_PROXY pa]) ++ es2.

Lemma deploy_tx_run c f owner st salt code d la pa es1 es2 dCreate dProxy dUpgrade :
  deploy_ready c f owner st salt code d la pa es1 es2 →
  encoded salt code d la dCreate dProxy dUpgrade →
  apply_tx c owner f (FMultiCall (deploy_calls f dCreate dProxy dUpgrade)) =
  Some (deployed c f st salt code la pa, deploy_events f la pa es1 es2).
Proof using Type*.
  intros [Hf Ho Ht -> -> Hh Hla Hpa Hne Hd He1 Hco He2] [E1 E2 E3].
  unfold apply_tx, factory_tx. rewrite Hf, CALL_DEPTH_SS.
  erewrite deployed_run; eauto using getContractAddress_range, decode_deployCreate,
    decode_deployProxy, decode_upgradeProxy.
Qed.

(** ** The receipt *)

(** No event of the constructor can be mistaken for the factory's. *)
Definition foreign (es : list event) : Prop :=
  Forall (λ e, ev_name e ≠ Some DEPLOYED_RAW ∧ ev_name e ≠ Some DEPLOYED_PROXY) es.

Lemma deploy_event_raw f la pa es1 es2 g :
  foreign es1 →
  getEventVar {| r_events := Some (deploy_events f la pa es1 es2); r_gasUsed := g |}
    DEPLOYED_RAW CONTRACT_ADDR = Ok (JAddr la).
Proof using Type.
  intros Hes. unfold getEventVar, deploy_events. cbn [r_events]. rewrite <-!(assoc_L (++)).
  rewrite find_event_skip by (eapply Forall_impl; [exact Hes|naive_solver]).
  apply find_event_factory.
Qed.

Lemma deploy_event_proxy f la pa es1 es2 g :
  foreign es1 →
  getEventVar {| r_events := Some (deploy_events f la pa es1 es2); r_gasUsed := g |}
    DEPLOYED_PROXY CONTRACT_ADDR = Ok (JAddr pa).
Proof using Type.
  intros Hes. unfold getEventVar, deploy_events. cbn [r_events]. rewrite <-(assoc_L (++)).
  rewrite find_event_skip.
  - apply find_event_factory.
  - apply Forall_app. split; [eapply Forall_impl; [exact Hes|naive_solver]|]. by repeat constructor.
Qed.

Definition verify_trace (verify : option bool) (a : address) : list io :=
  if truthy verify then
    IVerify a ::
    match hre_verify hre a with
    | None => []
    | Some e => [ILog ("Failed to automatically verify " ++s addr_text a ++s
                       " please do it manually!"); ILog (error_text e)]
    end
  else [].

(** Verification failures are reported, never raised. *)
Lemma verify_run verify a w :
  (if truthy verify then verifyContract hre a else ret tt) w =
  (Ok tt, traced w (verify_trace verify a)).
Proof using Type.
  unfold verify_trace. destruct (truthy verify); [|by rewrite traced_nil].
  unfold verifyContract, try_catch, mbind_js. rewrite output_run.
  destruct (hre_verify hre a); [|done]. simpl. unfold console_log, output, traced. simpl.
  by rewrite <-!(assoc_L (++)).
Qed.

Definition limit_trace : list io :=
  if decide (hre_network hre = "hardhat") then [IRpc "evm_setBlockGasLimit"] else [].

Lemma limit_run w : set_block_gas_limit hre w = (Ok tt, traced w limit_trace).
Proof using Type.
  unfold set_block_gas_limit, limit_trace. case_decide; [done|by rewrite traced_nil].
Qed.

(** ** One contract *)

(** The object the task records. *)
Definition proxy_data (n : string) (f la pa : address) (salt d : string) (receipt : Receipt) : jsval :=
  JObj [("factoryAddress", JAddr f); ("logicName", JStr n); ("logicAddress", JAddr la);
        ("salt", JStr salt); ("proxyAddress", JAddr pa); ("gas", JBig (r_gasUsed receipt));
        ("receipt", receipt_js receipt); ("initCallData", JStr d)].

Definition deploy_receipt (w : world) (f la pa : address) (calls : list MultiCallArgs)
    (es1 es2 : list event) : Receipt :=
  {| r_events := Some (deploy_events f la pa es1 es2);
     r_gasUsed := gas_used (w_chain w) (FMultiCall calls) |}.

(** Everything the task sends and prints before it records the result. *)
Definition deploy_trace (a : DeployArgs) (n : string) (owner la pa : address)
    (calls : list MultiCallArgs) (gas : Z) : list io :=
  limit_trace ++ fee_requests hre ++
  [ITx owner (a_factoryAddress a) (FMultiCall calls) (Some (fees_of hre));
   IWait (wait_blocks (a_waitConfirmation a))] ++
  verify_trace (a_verify a) la ++
  shown hre ("Deployed " ++s n ++s " with proxy at " ++s addr_text pa ++s
             ", gasCost: " ++s pretty gas).

Section One.
Context (a : DeployArgs) (n fq salt code d : string) (f owner la pa : address)
  (st : FactoryState) (es1 es2 : list event) (dCreate dProxy dUpgrade : string) (w : world).
Context (Hn : a_contractName a = Some n) (Hfa : a_factoryAddress a = f)
  (Hsig : head (hre_signers hre) = Some owner) (Hof : owner ≠ f).
Context (C : compiled n (default [] (a_constructorArgs a)) (a_initCallData a) fq salt code d).
Context (R : deploy_ready (bump_nonce (w_chain w) owner) f owner st salt code d la pa es1 es2).
Context (E : encoded salt code d la dCreate dProxy dUpgrade).
Local Notation calls := (deploy_calls f dCreate dProxy dUpgrade).

Lemma predicted_address : la = getContractAddress f (nonce_of (w_chain w) f).
Proof using R Hof. rewrite (dr_la _ _ _ _ _ _ _ _ _ _ _ R). by rewrite bump_nonce_ne. Qed.

(** Up to the gas estimate, whatever it is. *)
Lemma full_prefix :
  task_fullMultiCallDeployProxy hre a w =
  (if estimate_gas (w_chain w) (FMultiCall calls) <? MULTICALL_GAS_LIMIT then
     fees <- getGasPrices hre ;;
     receipt <- send hre f (FMultiCall calls) (Some fees) ;;
     receipt <- wait (wait_blocks (a_waitConfirmation a)) receipt ;;
     deployedLogicAddress <- lift (getEventVar receipt DEPLOYED_RAW CONTRACT_ADDR) ;;
     (if truthy (a_verify a)
      then la <- as_addr deployedLogicAddress ;; verifyContract hre la else ret tt) ;;;
     proxyAddress <- lift (getEventVar receipt DEPLOYED_PROXY CONTRACT_ADDR) ;;
     showState hre ("Deployed " ++s n ++s " with proxy at " ++s js_str proxyAddress ++s
                    ", gasCost: " ++s pretty (r_gasUsed receipt)) ;;;
     updateProxyList hre (hre_network hre)
       (JObj [("factoryAddress", JAddr f); ("logicName", JStr n);
          ("logicAddress", deployedLogicAddress); ("salt", JStr salt);
          ("proxyAddress", proxyAddress); ("gas", JBig (r_gasUsed receipt));
          ("receipt", receipt_js receipt); ("initCallData", JStr d)]) (a_outputFolder a)
   else task_deployUpgradeableProxy hre
     {| a_contractName := Some n; a_factoryAddress := f; a_waitConfirmation := None;
        a_initCallData := a_initCallData a; a_constructorArgs := a_constructorArgs a;
        a_outputFolder := a_outputFolder a; a_verify := None |}) (traced w limit_trace).
Proof using Type*.
  unfold task_fullMultiCallDeployProxy, mandatory. rewrite Hn, Hfa, (mbind_lift _ _ _ n eq_refl). cbv zeta.
  mstep (getContractFactory_run ALICENET_FACTORY w (cp_base _ _ _ _ _ _ _ C)).
  mstep (getContractFactory_run n w (cp_logic _ _ _ _ _ _ _ C)).
  mstep (init_call_run _ _ _ _ _ _ _ w C). mstep (cp_salt _ _ _ _ _ _ _ C w).
  mstep (limit_run w).
  destruct (descriptor_run _ _ _ _ _ _ _ (JStr <$> split_init_args (a_initCallData a))
    (traced w limit_trace) C) as (g & i & t & Hdesc). mstep Hdesc.
  pose proof E as E'. rewrite predicted_address in E'.
  match type of Hdesc with
  | _ = (Ok ?D, _) =>
      mstep (multiCallArgs_run _ _ _ _ _ _ _ _ _ _ f D (traced w limit_trace) C E'
               eq_refl eq_refl eq_refl)
  end.
  rewrite (mbind_Ok _ _ _ _ _ (estimate_run hre (traced w limit_trace) owner f _ _ Hsig
    (deploy_tx_run _ _ _ _ _ _ _ _ _ _ _ _ _ _ R E))). done.
Qed.

(** Below the gas limit the task is one transaction. *)
Lemma full_run :
  foreign es1 →
  estimate_gas (w_chain w) (FMultiCall calls) < MULTICALL_GAS_LIMIT →
  let receipt := deploy_receipt w f la pa calls es1 es2 in
  task_fullMultiCallDeployProxy hre a w =
  updateProxyList hre (hre_network hre) (proxy_data n f la pa salt d receipt) (a_outputFolder a)
    (traced (on_chain w (deployed (bump_nonce (w_chain w) owner) f st salt code la pa))
            (deploy_trace a n owner la pa calls (r_gasUsed receipt))).
Proof using Type*.
  intros Hes Hg receipt. rewrite full_prefix, (proj2 (Z.ltb_lt _ _) Hg).
  mstep (getGasPrices_run hre (traced w limit_trace)). rewrite traced_app.
  rewrite (mbind_Ok _ _ _ _ _ (send_run hre (traced w _) owner f _ _ _ _ Hsig
    (deploy_tx_run _ _ _ _ _ _ _ _ _ _ _ _ _ _ R E))).
  unfold wait. rewrite mbind_assoc, (mbind_Ok _ _ _ _ _ (output_run _ _)), mbind_ret.
  rewrite on_chain_traced, !traced_app. cbn [w_chain traced].
  rewrite (mbind_lift _ _ _ _ (deploy_event_raw f la pa es1 es2 _ Hes)).
  change (la0 <- as_addr (JAddr la) ;; verifyContract hre la0) with (verifyContract hre la).
  rewrite (mbind_Ok _ _ _ _ _ (verify_run (a_verify a) la _)).
  rewrite (mbind_lift _ _ _ _ (deploy_event_proxy f la pa es1 es2 _ Hes)).
  rewrite (mbind_Ok _ _ _ _ _ (showState_run _ _ _)), !traced_app.
  unfold deploy_trace. rewrite Hfa, <-!(assoc_L (++)). done.
Qed.

Lemma ready_distinct : f ≠ la ∧ f ≠ pa.
Proof using R.
  destruct R. split; eauto using fresh_ne.
Qed.
End One.

(** The entry that ends up in the state file. *)
Definition proxy_entry (n : string) (f la pa : address) (salt d : string) (gas : Z) : jsval :=
  JObj [("factoryAddress", JAddr f); ("logicName", JStr n); ("logicAddress", JAddr la);
        ("salt", JStr salt); ("proxyAddress", JAddr pa); ("gas", JBig gas);
        ("receipt", JUndefined); ("initCallData", JStr d)].

Lemma proxy_data_drop n f la pa salt d receipt :
  drop_receipt (proxy_data n f la pa salt d receipt) =
  Ok (proxy_entry n f la pa salt d (r_gasUsed receipt)).
Proof using Type. done. Qed.

(** C1: deploying a contract with [fullMultiCallDeployProxy], below the
    gas limit, does what it reports.  One transaction creates the logic
    contract at the address predicted from the factory's nonce and the
    proxy at the metamorphic address of the contract's salt, points the
    proxy at the logic and appends the salt to the factory's list; no other
    contract changes.  The trace is exactly that transaction with the
    offered fees, the requested confirmations, the verification and the
    message; the state file gains the entry with these addresses.  Only the
    final write of the state file can fail, and then it is the one thing
    that is missing. *)
Theorem full_deploy_correct (a : DeployArgs) (n fq salt code d : string)
    (owner la pa : address) (st : FactoryState) (es1 es2 : list event)
    (dCreate dProxy dUpgrade : string) (w : world) (m : gmap (string * string) jsval)
    (f0 : string) (v0 : jsval) (l : list jsval) `{!TomlLaws} :
  let f := a_factoryAddress a in
  let calls := deploy_calls f dCreate dProxy dUpgrade in
  let gas := gas_used (w_chain w) (FMultiCall calls) in
  let net := hre_network hre in
  a_contractName a = Some n → head (hre_signers hre) = Some owner → owner ≠ f →
  compiled n (default [] (a_constructorArgs a)) (a_initCallData a) fq salt code d →
  deploy_ready (bump_nonce (w_chain w) owner) f owner st salt code d la pa es1 es2 →
  encoded salt code d la dCreate dProxy dUpgrade → foreign es1 →
  estimate_gas (w_chain w) (FMultiCall calls) < MULTICALL_GAS_LIMIT →
  silenced hre = false → is_proto net = false →
  holds_state w (a_outputFolder a) m → m !! (net, f0) = Some v0 →
  list_at m net "proxies" = Some l → Forall (λ v, is_nullish v = false) l →
  ∃ r w', task_fullMultiCallDeployProxy hre a w = (r, w') ∧
    pa = getMetamorphicAddress f salt ∧ la = getContractAddress f (nonce_of (w_chain w) f) ∧
    accounts (w_chain w') !! la = Some (KCode code) ∧
    accounts (w_chain w') !! pa = Some (KProxy f la) ∧
    accounts (w_chain w') !! f = Some (KFactory (add_salt (use_template st) salt)) ∧
    (∀ x, x ≠ la → x ≠ pa → x ≠ f → accounts (w_chain w') !! x = accounts (w_chain w) !! x) ∧
    w_trace w' = w_trace w ++ deploy_trace a n owner la pa calls gas ∧
    ((r = Ok (proxy_entry n f la pa salt d gas) ∧
      holds_state w' (a_outputFolder a)
        (<[(net, "proxies") := JArr (l ++ [proxy_entry n f la pa salt d gas])]> m)) ∨
     (r = Throw (LibError "toml" "stringify") ∧ w_fs w' = w_fs w)).
Proof using Type*.
  intros f calls gas net Hn Hsig Hof C R E Hes Hg Hs Hp Hh Hk Hl Hdef.
  rewrite (full_run a n fq salt code d f owner la pa st es1 es2 dCreate dProxy dUpgrade w
    Hn eq_refl Hsig Hof C R E Hes Hg). cbv zeta.
  set (w1 := traced _ _).
  destruct (ready_distinct _ _ _ _ _ _ _ _ _ _ _ R) as [Hfl Hfp].
  destruct (deployed_accounts (bump_nonce (w_chain w) owner) f st salt code la pa Hfl Hfp
    (dr_distinct _ _ _ _ _ _ _ _ _ _ _ R)) as (A1 & A2 & A3 & A4).
  assert (holds_state w1 (a_outputFolder a) m) as Hh1 by exact Hh.
  destruct (update_list_spec hre w1 (a_outputFolder a) m net "proxies" f0 v0
    (proxy_data n f la pa salt d (deploy_receipt w f la pa calls es1 es2))
    (proxy_entry n f la pa salt d gas) l Hs Hp eq_refl Hh1 Hk Hl Hdef eq_refl eq_refl)
    as (r & w' & Er & Hcase).
  assert (w_chain w' = w_chain w1 ∧ w_trace w' = w_trace w1) as [Hc Ht]
    by (destruct Hcase as [(_ & _ & ? & ? & _)|[_ ->]]; done).
  exists r, w'. rewrite Hc, Ht. split_and!; try done.
  - rewrite (dr_pa _ _ _ _ _ _ _ _ _ _ _ R). unfold getMetamorphicContractAddress.
    by rewrite <-(dr_hash _ _ _ _ _ _ _ _ _ _ _ R).
  - by eapply predicted_address.
  - destruct Hcase as [(-> & ? & _)|[-> ->]]; [by left|by right].
Qed.

(** ** The two transactions of the fallback *)

Lemma create_tx_run c f owner st code la es :
  accounts c !! f = Some (KFactory st) → f_owner st = owner →
  la = getContractAddress f (nonce_of c f) → fresh c la = true →
  run_constructor c la code = Some es → has_code code = true →
  apply_tx c owner f (FDeployCreate code) =
  Some (created c f la (KCode code), es ++ [factory_event f DEPLOYED_RAW la]).
Proof using Type.
  intros Hf Ho -> Hla He Hco. unfold apply_tx, factory_tx. rewrite Hf.
  by rewrite (exec_deployCreate _ _ _ _ _ _ _ _ Hf Hla (owner_auth _ _ _ Ho) He Hco).
Qed.

Lemma proxy_tx_run c f owner st salt d la pa es dProxy dUpgrade :
  accounts c !! f = Some (KFactory st) → f_owner st = owner →
  accounts c !! f_proxyTemplate st = Some KTemplate →
  pa = getMetamorphicContractAddress salt f → fresh c pa = true → 0 ≤ la < 2 ^ 160 →
  keccak256 METAMORPHIC_CODE = METAMORPHIC_HASH → decode_upgrade d = None →
  encodeFunctionData ALICENET_FACTORY DEPLOY_PROXY [JStr salt] = Some dProxy →
  encodeFunctionData ALICENET_FACTORY UPGRADE_PROXY [JStr salt; JAddr la; JStr d] = Some dUpgrade →
  init_events (upgraded (proxied c f st salt pa) f pa la) f pa la d = Some es →
  apply_tx c owner f (FMultiCall (proxy_calls f dProxy dUpgrade)) =
  Some (upgraded (proxied c f st salt pa) f pa la, [factory_event f DEPLOYED_PROXY pa] ++ es).
Proof using Type*.
  intros Hf Ho Ht -> Hpa Hr Hk Hd E1 E2 He. unfold apply_tx, factory_tx.
  rewrite Hf, CALL_DEPTH_SS. unfold factory_exec.
  rewrite (exec_guard _ _ _ _ _ _ Hf (owner_auth _ _ _ Ho)).
  erewrite proxy_calls_run; eauto using decode_deployProxy, decode_upgradeProxy.
Qed.

Lemma create_event f la es g :
  foreign es →
  getEventVar {| r_events := Some (es ++ [factory_event f DEPLOYED_RAW la]); r_gasUsed := g |}
    DEPLOYED_RAW CONTRACT_ADDR = Ok (JAddr la).
Proof using Type.
  intros Hes. unfold getEventVar. cbn [r_events].
  rewrite find_event_skip by (eapply Forall_impl; [exact Hes|naive_solver]).
  apply find_event_factory.
Qed.

Lemma fresh_bump c a p : fresh c p = true → p ≠ a → fresh (bump_nonce c a) p = true.
Proof using Type.
  rewrite !fresh_spec. intros [Hp Hn] Ha. split; [done|]. by rewrite bump_nonce_ne.
Qed.

(** The chain after the two transactions of the fallback. *)
Definition deployed_twice (c : chain) (f owner : address) (st : FactoryState)
    (salt code : string) (la pa : address) : chain :=
  upgraded (proxied (bump_nonce (created (bump_nonce c owner) f la (KCode code)) owner)
                    f st salt pa) f pa la.

End Flow.

(** ** Witnesses: ETHDKG deployed through the factory of the scenario *)

#[local] Existing Instances toml_model toml_model_laws ethers_model ethers_model_laws.

Definition dkg_fq : string := "contracts/ETHDKG.sol:ETHDKG".
Definition dkg_salt : string := default EmptyString (formatBytes32String "ETHDKG").
Definition dkg_code : string :=
  match getDeployData "ETHDKG" [] with Some (Some c) => c | _ => EmptyString end.
Definition dkg_init : string :=
  default EmptyString (encodeFunctionData "ETHDKG" INITIALIZER [JStr "40"; JStr "6"]).

Definition dkg_args (wc : option bool) : DeployArgs := {|
  a_contractName := Some "ETHDKG"; a_factoryAddress := factory_ex; a_waitConfirmation := wc;
  a_initCallData := Some "40, 6"; a_constructorArgs := None;
  a_outputFolder := Some "out/"; a_verify := None |}.

Definition st_ex : FactoryState :=
  match accounts chain_ex !! factory_ex with
  | Some (KFactory st) => st
  | _ => {| f_owner := 0; f_contracts := []; f_implementation := 0; f_proxyTemplate := 0;
            f_aTokenAddress := 0; f_externalContractRegistry := ∅ |}
  end.

Definition la_ex : address := getContractAddress factory_ex (nonce_of chain_ex factory_ex).
Definition pa_ex : address := getMetamorphicContractAddress dkg_salt factory_ex.
Definition enc_ex (fn : string) (args : list jsval) : string :=
  default EmptyString (encodeFunctionData ALICENET_FACTORY fn args).

Lemma compiled_ex silencer :
  compiled (hre_ex silencer) "ETHDKG" [] (Some "40, 6") dkg_fq dkg_salt dkg_code dkg_init.
Proof.
  assert (∀ w, getBytes32Salt (hre_ex silencer) "ETHDKG" w = (Ok dkg_salt, w) ∧
               utilBytes32Salt (hre_ex silencer) "ETHDKG" w = (Ok dkg_salt, w)) as Hsalt.
  { intros w. apply (getBytes32Salt_spec (hre_ex silencer) "ETHDKG" w "contracts/ETHDKG.sol"
      (fx_build fx_all) (fx_output fx_ETHDKG) "ETHDKG"); reflexivity. }
  split; try (intros; apply Hsalt); try reflexivity; try (eexists; vm_compute; reflexivity).
  left. split_and!; vm_compute; done.
Qed.

Lemma ready_ex est :
  @deploy_ready ethers_model (evm_model est) (bump_nonce chain_ex owner_ex) factory_ex owner_ex
    st_ex dkg_salt dkg_code dkg_init la_ex pa_ex [] [].
Proof. split; vm_compute; try reflexivity; discriminate. Qed.

Lemma encoded_ex :
  encoded dkg_salt dkg_code dkg_init la_ex
    (enc_ex DEPLOY_CREATE [JStr dkg_code]) (enc_ex DEPLOY_PROXY [JStr dkg_salt])
    (enc_ex UPGRADE_PROXY [JStr dkg_salt; JAddr la_ex; JStr dkg_init]).
Proof. split; reflexivity. Qed.

Lemma full_deploy_correct_witness :
  ∃ r w', @task_fullMultiCallDeployProxy ethers_model (evm_model 2000000) toml_model
            (hre_ex None) (dkg_args (Some true)) state_world_ex = (r, w') ∧
    accounts (w_chain w') !! pa_ex = Some (KProxy factory_ex la_ex).
Proof.
  destruct (@full_deploy_correct ethers_model ethers_model_laws (evm_model 2000000)
    (evm_model_laws 2000000) toml_model (hre_ex None) (dkg_args (Some true)) "ETHDKG" dkg_fq dkg_salt
    dkg_code dkg_init owner_ex la_ex pa_ex st_ex [] [] (enc_ex DEPLOY_CREATE [JStr dkg_code])
    (enc_ex DEPLOY_PROXY [JStr dkg_salt])
    (enc_ex UPGRADE_PROXY [JStr dkg_salt; JAddr la_ex; JStr dkg_init]) state_world_ex state_map_ex
    "defaultFactoryAddress" (JAddr factory_ex) [] toml_model_laws) as (r & w' & E & _ & _ & _ & Hp & _).
  all: try reflexivity.
  - discriminate.
  - apply compiled_ex.
  - apply ready_ex.
  - apply encoded_ex.
  - constructor.
  - apply state_world_holds.
  - constructor.
  - exists r, w'. exact (conj E Hp).
Defined.
