(* ===== verification/Fallback.v ===== *)
(** * The fallback of the multicall deployment

    [fullMultiCallDeployProxy] above the gas limit: [deployUpgradeableProxy]
    sends two transactions and writes the state file after each of them, so
    that it can stop in between. *)

From S2P Require Import Prelude JsValue Constants Artifacts Fixtures Ethers Factory Instances FactoryProofs World Scenario StateFile DeployArgs Provider FactoryTasks DeployFlow.
From stdpp Require Import options.
Local Open Scope Z_scope.

Section Fallback.
Context `{Ethers, !EthersLaws, Evm, !EvmLaws, Toml, !TomlLaws} (hre : Hre).
Local Notation net := (hre_network hre).
Local Notation statemap := (gmap (string * string) jsval).

(** ** What the state file says before and after *)

Definition RAW : string := "rawDeployments".
Definition PROXIES : string := "proxies".

(** A list of the network that can be extended. *)
Definition listed (m : statemap) (fld : string) : Prop :=
  ∃ l, list_at m net fld = Some l ∧ Forall (λ v, is_nullish v = false) l.

(** The state [m] of a network the file knows; [None]: it does not know it,
    or there is no file. *)
Definition state_is (w : world) (u : option string) (om : option (statemap)) : Prop :=
  is_proto net = false ∧
  match om with
  | Some m => holds_state w u m ∧ (∃ f0 v0, m !! (net, f0) = Some v0) ∧ listed m RAW ∧ listed m PROXIES
  | None => unknown_network w u net
  end.

Definition append_to (fld : string) (e : jsval) (m : statemap) : statemap :=
  <[(net, fld) := JArr (default [] (list_at m net fld) ++ [e])]> m.

Lemma append_to_same m fld e l :
  list_at m net fld = Some l → list_at (append_to fld e m) net fld = Some (l ++ [e]).
Proof using Type. intros Hl. unfold append_to. rewrite Hl. unfold list_at. by rewrite lookup_insert_eq. Qed.
Lemma append_to_other m fld fld' e :
  fld ≠ fld' → list_at (append_to fld e m) net fld' = list_at m net fld'.
Proof using Type. intros Hne. unfold append_to, list_at at 1. by rewrite lookup_insert_ne by congruence. Qed.

Lemma listed_append m fld fld' e :
  is_nullish e = false → listed m fld → listed m fld' → listed (append_to fld e m) fld'.
Proof using Type.
  intros He (l & Hl & Hn) (l' & Hl' & Hn'). destruct (decide (fld = fld')) as [<-|Hne].
  - exists (l ++ [e]). split; [by apply append_to_same|]. apply Forall_app. split; [done|]. by repeat constructor.
  - exists l'. by rewrite append_to_other.
Qed.

(** An update of a list of the state file, whether recording is on or not. *)
Lemma record_modes fld data data' u om w :
  fld = RAW ∨ fld = PROXIES →
  (silenced hre = false → state_is w u om) → drop_receipt data = Ok data' → is_nullish data' = false →
  ∃ r w', updateList hre net fld data u w = (r, w') ∧ w_chain w' = w_chain w ∧ w_trace w' = w_trace w ∧
    ((silenced hre = true ∧ r = Ok data ∧ w' = w) ∨
     (silenced hre = false ∧ r = Ok data' ∧ ∃ m, om = Some m ∧ state_is w' u (Some (append_to fld data' m))) ∨
     (silenced hre = false ∧ (∃ e, r = Throw e) ∧ w' = w)).
Proof using Type*.
  intros Hfld Hst Hd Hd'. destruct (silenced hre) eqn:Hq.
  { rewrite (updateList_silenced hre _ _ _ _ _ Hq). eexists _, _. split; [done|]. split_and!; [done..|]. by left. }
  destruct (Hst eq_refl) as [Hp Hm]. destruct om as [m|].
  - destruct Hm as (Hh & (f0 & v0 & Hk) & HR & HP).
    assert (listed m fld ∧ is_proto fld = false) as [(l & Hl & Hn) Hpf] by (by destruct Hfld as [->| ->]).
    destruct (update_list_spec hre w u m net fld f0 v0 data data' l Hq Hp Hpf Hh Hk Hl Hn Hd Hd')
      as (r & w' & E & [(-> & Hh' & Hc & Ht & _)|[-> ->]]); eexists _, _; (split; [exact E|]).
    + split_and!; [done..|]. right. left. split_and!; [done..|]. exists m. split; [done|]. split; [done|].
      unfold append_to at 1. rewrite Hl. split; [done|]. split.
      * destruct (decide ((net, f0) = (net, fld))) as [Ek|].
        -- eexists _, _. apply lookup_insert_eq.
        -- eexists f0, v0. unfold append_to. by rewrite lookup_insert_ne.
      * split; (apply listed_append; [done| |done]); by exists l.
    + split_and!; [done..|]. right. right. eauto.
  - destruct (update_list_unknown_network hre w u net fld data Hq Hp Hm) as [msg E].
    eexists _, _. split; [exact E|]. split_and!; [done..|]. right. right. eauto.
Qed.

(** ** The first transaction *)

(** The entry of the logic contract. *)
Definition raw_entry (n : string) (f la : address) (g : Z) (cargs : option (list jsval)) : jsval :=
  JObj [("name", JStr n); ("address", JAddr la); ("factoryAddress", JAddr f); ("gas", JBig g);
        ("constructorArgs", match cargs with Some l => JArr l | None => JUndefined end)].

Definition raw_message (n : string) (la : address) (g : Z) : string :=
  "[DEBUG ONLY, DONT USE THIS ADDRESS IN THE SIDE CHAIN, USE THE PROXY INSTEAD!] Deployed logic for "
  ++s n ++s " contract at: " ++s js_str (JAddr la) ++s ", gas: " ++s pretty g.

Lemma deployCreate_modes n cargs f owner st code la es wc u om w :
  let fc := FDeployCreate code in
  let g := gas_used (w_chain w) fc in
  let c := bump_nonce (w_chain w) owner in
  let sent := limit_trace hre ++ fee_requests hre ++
              [ITx owner f fc (Some (fees_of hre)); IWait (wait_blocks wc)] in
  hasContractFactory ALICENET_FACTORY = true → hasContractFactory n = true →
  head (hre_signers hre) = Some owner → getDeployData n (default [] cargs) = Some (Some code) →
  accounts c !! f = Some (KFactory st) → f_owner st = owner →
  la = getContractAddress f (nonce_of c f) → fresh c la = true →
  run_constructor c la code = Some es → has_code code = true → foreign es →
  (silenced hre = false → state_is w u om) →
  ∃ r w', task_deployCreate hre n f wc u cargs w = (r, w') ∧ w_chain w' = created c f la (KCode code) ∧
    (((∃ v, r = Ok v ∧ js_get v "gas" = Ok (JBig g) ∧ js_get v "address" = Ok (JAddr la)) ∧
      w_trace w' = w_trace w ++ sent ++ shown hre (raw_message n la g) ∧
      (silenced hre = true → w_fs w' = w_fs w) ∧
      (silenced hre = false → ∃ m, om = Some m ∧
         state_is w' u (Some (append_to RAW (raw_entry n f la g cargs) m)))) ∨
     (silenced hre = false ∧ (∃ e, r = Throw e) ∧ w_trace w' = w_trace w ++ sent ∧ w_fs w' = w_fs w)).
Proof using Type*.
  intros fc g c sent Hb Hn Hsig Hd Hf Ho Hla Hfr He Hco Hes Hst. unfold task_deployCreate. cbv zeta.
  mstep (getContractFactory_run ALICENET_FACTORY w Hb). mstep (getContractFactory_run n w Hn).
  mstep (deploy_data_run n _ _ w Hd). mstep (limit_run hre w).
  mstep (getGasPrices_run hre (traced w (limit_trace hre))). rewrite traced_app.
  rewrite (mbind_Ok _ _ _ _ _ (send_run hre (traced w _) owner f _ _ _ _ Hsig
    (create_tx_run _ _ _ _ _ _ _ Hf Ho Hla Hfr He Hco))).
  unfold wait. rewrite mbind_assoc, (mbind_Ok _ _ _ _ _ (output_run _ _)), mbind_ret.
  rewrite on_chain_traced, !traced_app. cbn [w_chain traced].
  rewrite (mbind_lift _ _ _ _ (create_event f la es _ Hes)). cbn [r_gasUsed].
  match goal with |- context [updateDeployCreateList _ _ ?data _] => set (d := data) end.
  match goal with |- context [traced (on_chain ?w0 ?c0) ?l0] => set (w1 := traced (on_chain w0 c0) l0) end.
  destruct (record_modes RAW d d u om w1) as (r & w' & E & Hc & Ht & Hcase); [by left|by exact Hst|done..|].
  assert (w_trace w1 = w_trace w ++ sent) as Hw1 by (cbn; unfold sent; by rewrite <-?(assoc_L (++))).
  unfold updateDeployCreateList. change "rawDeployments" with RAW.
  destruct Hcase as [(Hq & -> & ->)|[(Hq & -> & m & -> & Hs)|(Hq & [e ->] & ->)]].
  - rewrite (mbind_Ok _ _ _ _ _ E). rewrite (mbind_Ok _ _ _ _ _ (showState_run _ _ _)).
    eexists _, _. split; [reflexivity|]. split; [done|]. left. split_and!; [by eexists| |done|congruence].
    cbn [traced w_trace]. by rewrite Hw1, <-(assoc_L (++)).
  - rewrite (mbind_Ok _ _ _ _ _ E). rewrite (mbind_Ok _ _ _ _ _ (showState_run _ _ _)).
    eexists _, _. split; [reflexivity|]. split; [done|]. left. split_and!; [by eexists| |congruence|by eauto].
    cbn [traced w_trace]. by rewrite Ht, Hw1, <-(assoc_L (++)).
  - rewrite (mbind_Throw _ _ _ _ _ E). eexists _, _. split; [reflexivity|]. split; [done|]. right. by eauto.
Qed.
(** ** The second transaction *)

(** What [multiCallDeployProxy] returns, with the receipt where recording is
    off, and what it records. *)
Definition proxy_object (n : string) (f la pa : address) (salt d : string) (g : Z) (receipt : jsval) :
    list (string * jsval) :=
  [("factoryAddress", JAddr f); ("logicName", JStr n); ("logicAddress", JAddr la); ("salt", JStr salt);
   ("proxyAddress", JAddr pa); ("gas", JNum g); ("receipt", receipt); ("initCallData", JStr d)].

Lemma multiCallDeployProxy_modes a n cargs fq salt code d f owner st la pa es dProxy dUpgrade om w :
  let fc := FMultiCall (proxy_calls f dProxy dUpgrade) in
  let g := gas_used (w_chain w) fc in
  let c := bump_nonce (w_chain w) owner in
  p_contractName a = n → p_factoryAddress a = f → p_logicAddress a = la → p_salt a = None →
  head (hre_signers hre) = Some owner →
  compiled hre n cargs (p_initCallData a) fq salt code d →
  accounts c !! f = Some (KFactory st) → f_owner st = owner →
  accounts c !! f_proxyTemplate st = Some KTemplate →
  pa = getMetamorphicContractAddress salt f → fresh c pa = true → 0 ≤ la < 2 ^ 160 →
  keccak256 METAMORPHIC_CODE = METAMORPHIC_HASH → decode_upgrade d = None →
  encodeFunctionData ALICENET_FACTORY DEPLOY_PROXY [JStr salt] = Some dProxy →
  encodeFunctionData ALICENET_FACTORY UPGRADE_PROXY [JStr salt; JAddr la; JStr d] = Some dUpgrade →
  init_events (upgraded (proxied c f st salt pa) f pa la) f pa la d = Some es → safe_integer g →
  (silenced hre = false → state_is w (p_outputFolder a) om) →
  ∃ r w', task_multiCallDeployProxy hre a w = (r, w') ∧
    w_chain w' = upgraded (proxied c f st salt pa) f pa la ∧
    w_trace w' = w_trace w ++ fee_requests hre ++
      [ITx owner f fc (Some (fees_of hre)); IWait (wait_blocks (p_waitConfirmation a))] ∧
    (((∃ receipt, r = Ok (JObj (proxy_object n f la pa salt d g receipt))) ∧
      (silenced hre = true → w_fs w' = w_fs w) ∧
      (silenced hre = false → ∃ m, om = Some m ∧
         state_is w' (p_outputFolder a)
           (Some (append_to PROXIES (JObj (proxy_object n f la pa salt d g JUndefined)) m)))) ∨
     (silenced hre = false ∧ (∃ e, r = Throw e) ∧ w_fs w' = w_fs w)).
Proof using Type*.
  intros fc g c <- <- <- Hsalt Hsig C Hf Ho Ht Hpa Hfr Hr Hk Hd E1 E2 He Hg Hst.
  unfold task_multiCallDeployProxy. cbv zeta.
  mstep (getContractFactory_run ALICENET_FACTORY w (cp_base _ _ _ _ _ _ _ _ C)).
  mstep (getContractFactory_run (p_contractName a) w (cp_logic _ _ _ _ _ _ _ _ C)).
  mstep (init_call_run hre _ _ _ _ _ _ _ w C).
  unfold salt_or_default. rewrite Hsalt. mstep (cp_salt _ _ _ _ _ _ _ _ C w).
  mstep (encode_call_run _ _ _ _ w E1). mstep (encode_call_run _ _ _ _ w E2).
  mstep (getGasPrices_run hre w).
  rewrite (mbind_Ok _ _ _ _ _ (send_run hre (traced w _) owner (p_factoryAddress a) _ _ _ _ Hsig
    (proxy_tx_run _ _ _ _ _ _ _ _ _ _ _ Hf Ho Ht Hpa Hfr Hr Hk Hd E1 E2 He))).
  unfold wait. rewrite mbind_assoc, (mbind_Ok _ _ _ _ _ (output_run _ _)), mbind_ret.
  rewrite on_chain_traced, !traced_app. cbn [w_chain traced].
  rewrite (mbind_lift _ _ _ (JAddr pa)) by apply find_event_factory.
  unfold to_number. rewrite (mbind_lift _ _ _ g)
    by (cbn [r_gasUsed]; fold fc; by rewrite (bn_toNumber_safe g Hg)).
  match goal with |- context [updateProxyList _ _ ?data _ ?w0] => set (w1 := w0); set (data0 := data) end.
  destruct (record_modes PROXIES data0 (JObj (proxy_object (p_contractName a) (p_factoryAddress a)
    (p_logicAddress a) pa salt d g JUndefined)) (p_outputFolder a) om w1)
    as (r & w' & E & Hc & Htr & Hcase); [by right|by exact Hst|done..|].
  unfold updateProxyList. change "proxies" with PROXIES. rewrite E. eexists _, _. split; [reflexivity|].
  split; [by rewrite Hc|]. split; [rewrite Htr; cbn; by rewrite <-?(assoc_L (++))|].
  destruct Hcase as [(Hq & -> & ->)|[(Hq & -> & m & -> & Hs)|(Hq & [e ->] & ->)]].
  - left. split_and!; [by eexists|done|congruence].
  - left. split_and!; [by eexists|congruence|by eauto].
  - right. by eauto.
Qed.

(** C2: above the gas limit [fullMultiCallDeployProxy] deploys in two
    transactions, whether recording is on or off.  When the task returns it
    has reached the same contracts as the one transaction would: the logic at
    the predicted address, the proxy at the metamorphic address, pointed at
    the logic, the salt recorded, everything else unchanged; the reported gas
    is the sum of both, and the state file lists the logic under
    ["rawDeployments"] and the proxy under ["proxies"], with the second gas
    only.  It fails only in recording, and then in one of two places: between
    the transactions, so that the logic is there without its proxy and the
    files are as before (always when the state file does not know the
    network), or after both, with only the logic recorded.  Neither
    transaction waits for the confirmations that were asked for. *)
Theorem fallback_deploys (a : DeployArgs) (n fq salt code d : string)
    (owner la pa : address) (st : FactoryState) (es1 es2 es3 : list event)
    (dCreate dProxy dUpgrade : string) (om : option statemap) (w : world) :
  let f := a_factoryAddress a in
  let u := a_outputFolder a in
  let fc1 := FDeployCreate code in
  let fc2 := FMultiCall (proxy_calls f dProxy dUpgrade) in
  let c1 := created (bump_nonce (w_chain w) owner) f la (KCode code) in
  let c2 := deployed_twice (w_chain w) f owner st salt code la pa in
  let g1 := gas_used (w_chain w) fc1 in
  let g2 := gas_used c1 fc2 in
  let e1 := raw_entry n f la g1 (a_constructorArgs a) in
  let e2 := JObj (proxy_object n f la pa salt d g2 JUndefined) in
  let sent1 := limit_trace hre ++ limit_trace hre ++ fee_requests hre ++
               [ITx owner f fc1 (Some (fees_of hre)); IWait None] in
  let sent2 := shown hre (raw_message n la g1) ++ fee_requests hre ++
               [ITx owner f fc2 (Some (fees_of hre)); IWait None] in
  a_contractName a = Some n → head (hre_signers hre) = Some owner → owner ≠ f → pa ≠ owner →
  compiled hre n (default [] (a_constructorArgs a)) (a_initCallData a) fq salt code d →
  deploy_ready (bump_nonce (w_chain w) owner) f owner st salt code d la pa es1 es2 →
  encoded salt code d la dCreate dProxy dUpgrade → foreign es1 →
  init_events c2 f pa la d = Some es3 → safe_integer g2 →
  MULTICALL_GAS_LIMIT ≤ estimate_gas (w_chain w) (FMultiCall (deploy_calls f dCreate dProxy dUpgrade)) →
  (silenced hre = false → state_is w u om) →
  ∃ r w', task_fullMultiCallDeployProxy hre a w = (r, w') ∧
    ((∃ o, r = Ok (JObj o) ∧ w_chain w' = c2 ∧
      accounts c2 !! la = Some (KCode code) ∧ accounts c2 !! pa = Some (KProxy f la) ∧
      accounts c2 !! f = Some (KFactory (add_salt (use_template st) salt)) ∧
      (∀ x, x ≠ la → x ≠ pa → x ≠ f → accounts c2 !! x = accounts (w_chain w) !! x) ∧
      w_trace w' = w_trace w ++ sent1 ++ sent2 ++
        shown hre ("Deployed " ++s n ++s " with proxy at " ++s js_str (JAddr pa) ++s ", gasCost: "
                   ++s pretty (g1 + g2)) ∧
      obj_get o "proxyAddress" = Some (JAddr pa) ∧ obj_get o "logicAddress" = Some (JAddr la) ∧
      obj_get o "gas" = Some (JBig (g1 + g2)) ∧
      (silenced hre = true → w_fs w' = w_fs w) ∧
      (silenced hre = false → ∃ m, om = Some m ∧
         holds_state w' u (append_to PROXIES e2 (append_to RAW e1 m)))) ∨
     (silenced hre = false ∧ (∃ e, r = Throw e) ∧ w_chain w' = c1 ∧
      accounts c1 !! la = Some (KCode code) ∧ accounts c1 !! pa = None ∧
      w_trace w' = w_trace w ++ sent1 ∧ w_fs w' = w_fs w) ∨
     (silenced hre = false ∧ (∃ e, r = Throw e) ∧ w_chain w' = c2 ∧
      w_trace w' = w_trace w ++ sent1 ++ sent2 ∧
      ∃ m, om = Some m ∧ holds_state w' u (append_to RAW e1 m))).
Proof using Type*.
  intros f u fc1 fc2 c1 c2 g1 g2 e1 e2 sent1 sent2 Hn Hsig Hof Hpo C R E Hes He3 Hg Hlim Hst.
  pose proof (full_prefix hre a n fq salt code d f owner la pa st es1 es2 dCreate dProxy dUpgrade w
    Hn eq_refl Hsig Hof C R E) as Hpre.
  rewrite (proj2 (Z.ltb_ge _ _) Hlim) in Hpre. rewrite Hpre. clear Hpre.
  destruct (ready_distinct _ _ _ _ _ _ _ _ _ _ _ R) as [Hfl Hfp].
  pose proof R as [Hf Ho Ht Hla Hpa Hk Hfla Hfpa Hlp Hd He1 Hco _].
  pose proof (fresh_ne _ _ _ _ Hfla Ht) as Htl.
  unfold task_deployUpgradeableProxy, mandatory. cbn [a_contractName a_factoryAddress
    a_waitConfirmation a_initCallData a_constructorArgs a_outputFolder].
  rewrite (mbind_lift _ _ _ n eq_refl). cbv zeta.
  destruct (deployCreate_modes n (a_constructorArgs a) f owner st code la es1 None u om
    (traced w (limit_trace hre))) as (r1 & w1 & R1 & C1 & Hcase1);
    [apply C|apply C|done|apply C|done..|].
  cbn [w_chain w_trace w_fs traced] in *. fold c1 in C1. fold g1 e1 in Hcase1.
  destruct Hcase1 as [((v1 & -> & G1 & A1) & T1 & Fq & Fr)|(Hq & [e ->] & T1 & F1)].
  2:{ rewrite (mbind_Throw _ _ _ _ _ R1). eexists _, _. split; [reflexivity|]. right. left.
      split_and!; [done|by eexists|done|by apply lookup_insert_eq| | |done].
      - simpl. rewrite lookup_insert_ne by done. by apply fresh_spec in Hfpa as [? _].
      - rewrite T1. unfold sent1. by rewrite <-(assoc_L (++)). }
  rewrite (mbind_Ok _ _ _ _ _ R1), (mbind_lift _ _ _ _ G1). cbn [add_gas]. rewrite mbind_ret.
  rewrite (mbind_lift _ _ _ _ A1). cbn [as_addr]. rewrite mbind_ret.
  destruct (multiCallDeployProxy_modes
    {| p_contractName := n; p_logicAddress := la; p_waitConfirmation := None;
       p_factoryAddress := f; p_initCallData := a_initCallData a;
       p_outputFolder := u; p_salt := None |}
    n (default [] (a_constructorArgs a)) fq salt code d f owner st la pa es3 dProxy dUpgrade
    (append_to RAW e1 <$> om) w1) as (r2 & w2 & R2 & C2 & T2 & Hcase2);
    try done; try apply E; rewrite ?C1; try done.
  { simpl. by rewrite lookup_insert_ne. }
  { simpl. by rewrite lookup_insert_ne. }
  { apply fresh_bump; [|done]. by apply fresh_created. }
  { rewrite Hla. apply getContractAddress_range. }
  { intros Hq. by destruct (Fr Hq) as (m & -> & ?). }
  rewrite C1 in C2, Hcase2. fold g2 in Hcase2. change (w_chain w2 = c2) in C2.
  assert (w_trace w2 = w_trace w ++ sent1 ++ sent2) as Hw2
    by (rewrite T2, T1; unfold sent1, sent2; by rewrite <-!(assoc_L (++))).
  destruct Hcase2 as [([receipt ->] & Fq2 & Fr2)|(Hq & [e ->] & F2)].
  - rewrite (mbind_Ok _ _ _ _ _ R2), (mbind_lift _ _ _ (JNum g2)) by done. cbn [add_gas]. rewrite mbind_ret.
    set (o := obj_set (proxy_object n f la pa salt d g2 receipt) "gas" (JBig (g1 + g2))).
    rewrite (mbind_lift _ _ _ (JObj o)) by (cbn [js_set]; do 5 f_equal).
    rewrite (mbind_lift _ _ _ (JStr n)), (mbind_lift _ _ _ (JAddr pa)) by done.
    rewrite (mbind_Ok _ _ _ _ _ (showState_run _ _ _)).
    destruct (deployed_accounts (w_chain w) f st salt code la pa Hfl Hfp Hlp) as (B1 & B2 & B3 & B4).
    eexists _, _. split; [reflexivity|]. left. exists o. cbn [w_chain w_trace w_fs traced].
    split_and!; try done.
    + by rewrite Hw2, <-!(assoc_L (++)).
    + intros Hq. by rewrite Fq2, Fq.
    + intros Hq. destruct (Fr Hq) as (m & -> & _). exists m. split; [done|].
      destruct (Fr2 Hq) as (m' & [= <-] & _ & Hh & _). exact Hh.
  - rewrite (mbind_Throw _ _ _ _ _ R2). eexists _, _. split; [reflexivity|]. right. right.
    split_and!; [done|by eexists|done|done|].
    destruct (Fr Hq) as (m & -> & _ & (t & c & Hh) & _). exists m. split; [done|]. exists t, c. by rewrite F2.
Qed.
End Fallback.

(** ** Witness: ETHDKG above the limit, recorded in the state file *)

#[local] Existing Instances toml_model toml_model_laws ethers_model ethers_model_laws.

Definition fallback_run (w : world) : res jsval * world :=
  @task_fullMultiCallDeployProxy ethers_model (evm_model 10000000) toml_model (hre_ex None)
    (dkg_args (Some true)) w.

Definition is_ok {A} (r : res A) : bool := match r with Ok _ => true | Throw _ => false end.

Example fallback_records : is_ok (fallback_run state_world_ex).1 = true.
Proof. vm_compute. reflexivity. Qed.

(** Without a state file the task stops with the logic deployed. *)
Example fallback_stops :
  let w' := (fallback_run world_ex).2 in
  is_ok (fallback_run world_ex).1 = false ∧ accounts (w_chain w') !! la_ex = Some (KCode dkg_code) ∧
  accounts (w_chain w') !! pa_ex = None.
Proof. vm_compute. repeat split. Qed.

Lemma state_is_ex : state_is (hre_ex None) state_world_ex (Some "out/") (Some state_map_ex).
Proof.
  split; [reflexivity|]. split; [apply state_world_holds|].
  split; [exists "defaultFactoryAddress", (JAddr factory_ex); vm_compute; reflexivity|].
  split; exists []; (split; [vm_compute; reflexivity|constructor]).
Qed.

Lemma fallback_deploys_witness :
  ∃ o w' e1 e2, fallback_run state_world_ex = (Ok (JObj o), w') ∧
    accounts (w_chain w') !! pa_ex = Some (KProxy factory_ex la_ex) ∧
    holds_state w' (Some "out/")
      (append_to (hre_ex None) PROXIES e2 (append_to (hre_ex None) RAW e1 state_map_ex)).
Proof.
  destruct (@fallback_deploys ethers_model ethers_model_laws (evm_model 10000000)
    (evm_model_laws 10000000) toml_model toml_model_laws (hre_ex None) (dkg_args (Some true))
    "ETHDKG" dkg_fq dkg_salt dkg_code dkg_init owner_ex la_ex pa_ex st_ex [] [] []
    (enc_ex DEPLOY_CREATE [JStr dkg_code]) (enc_ex DEPLOY_PROXY [JStr dkg_salt])
    (enc_ex UPGRADE_PROXY [JStr dkg_salt; JAddr la_ex; JStr dkg_init]) (Some state_map_ex) state_world_ex)
    as (r & w' & E & Hcase).
  all: try reflexivity.
  - discriminate.
  - vm_compute. discriminate.
  - apply compiled_ex.
  - apply ready_ex.
  - apply encoded_ex.
  - constructor.
  - split; vm_compute; discriminate.
  - intros _. apply state_is_ex.
  - pose proof fallback_records as Hok. unfold fallback_run in Hok. rewrite E in Hok. cbn [fst] in Hok.
    destruct Hcase as [(o & -> & Hc & _ & Hp & _ & _ & _ & _ & _ & _ & _ & Hs)|
      [(_ & [e ->] & _)|(_ & [e ->] & _)]]; [|discriminate Hok..].
    destruct (Hs eq_refl) as (m & [= <-] & Hh).
    eexists o, w', _, _. split; [exact E|]. split; [rewrite Hc; exact Hp|exact Hh].
Defined.
