(* ===== verification/UpgradeFlow.v ===== *)
(** * Upgrading a proxy in one transaction

    The task [multiCallUpgradeProxy] of [scripts/lib/alicenetFactoryTasks.ts]
    together with the factory: creating the new logic and pointing the proxy
    at it succeed or fail as one. *)

From S2P Require Import Prelude JsValue Constants Artifacts Fixtures Ethers Factory Instances FactoryProofs World Scenario StateFile Provider FactoryTasks DeployFlow.
From stdpp Require Import options.
Local Open Scope Z_scope.

Section Upgrade.
Context `{Ethers, !EthersLaws, Evm, !EvmLaws} (hre : Hre).

(** The two calls of the transaction. *)
Definition upgrade_calls (f : address) (dCreate dUpgrade : string) : list MultiCallArgs :=
  [{| target := f; value := 0; data := dCreate |}; {| target := f; value := 0; data := dUpgrade |}].

(** The chain after them. *)
Definition re_implemented (c : chain) (f pa la : address) (code : string) : chain :=
  upgraded (created c f la (KCode code)) f pa la.

(** The state in which the transaction runs: the factory and its proxy [pa]
    of the salt, a fresh address and a constructor that succeeds. *)
Record upgrade_ready (c : chain) (f owner : address) (st : FactoryState) (salt code d : string)
    (slot : Z) (la pa : address) (es1 es2 : list event) : Prop := {
  ur_factory : accounts c !! f = Some (KFactory st);
  ur_owner : f_owner st = owner;
  ur_la : la = getContractAddress f (nonce_of c f);
  ur_fresh : fresh c la = true;
  ur_pa : pa = getMetamorphicContractAddress salt f;
  ur_hash : keccak256 METAMORPHIC_CODE = METAMORPHIC_HASH;
  ur_proxy : accounts c !! pa = Some (KProxy f slot);
  ur_constructor : run_constructor c la code = Some es1;
  ur_code : has_code code = true;
  ur_init : decode_upgrade d = None;
  ur_initializer : init_events (re_implemented c f pa la code) f pa la d = Some es2 }.

Lemma upgrade_calls_run c f owner st salt code d slot la pa es1 es2 dCreate dUpgrade :
  upgrade_ready c f owner st salt code d slot la pa es1 es2 →
  decode_call dCreate = Some (FDeployCreate code) →
  decode_call dUpgrade = Some (FUpgradeProxy salt la d) →
  apply_tx c owner f (FMultiCall (upgrade_calls f dCreate dUpgrade)) =
  if ProxySlot.locked slot then None
  else Some (re_implemented c f pa la code, (es1 ++ [factory_event f DEPLOYED_RAW la]) ++ es2).
Proof using Type*.
  intros [Hf Ho Hla Hfr Hpa Hk Hp He1 Hco Hd He2] Hc Hu.
  pose proof (fresh_ne _ _ _ _ Hfr Hf) as Hfl. pose proof (fresh_ne _ _ _ _ Hfr Hp) as Hpl.
  assert (0 ≤ la < 2 ^ 160) as Hr by (rewrite Hla; apply getContractAddress_range).
  assert (∀ x, x ≠ la → accounts (created c f la (KCode code)) !! x = accounts c !! x) as Hc1
    by (intros; by apply lookup_insert_ne).
  unfold apply_tx, factory_tx. rewrite Hf, CALL_DEPTH_SS. unfold factory_exec at 1.
  rewrite (exec_guard _ _ _ _ _ _ Hf (owner_auth _ _ _ Ho)).
  unfold upgrade_calls. rewrite multiCall_cons. cbn [target value data].
  rewrite (call_factory _ _ _ _ _ _ _ _ _ Hf Hc). subst la.
  rewrite (exec_deployCreate _ _ _ _ _ _ _ _ Hf Hfr (self_auth _ _) He1 Hco).
  rewrite <-(Hc1 f) in Hf by done. rewrite <-(Hc1 pa) in Hp by done. subst pa.
  rewrite multiCall_cons. cbn [target value data]. rewrite (call_factory _ _ _ _ _ _ _ _ _ Hf Hu).
  destruct (ProxySlot.locked slot) eqn:Hl.
  - by rewrite (exec_upgrade_locked _ _ _ _ _ _ _ _ _ _ Hf Hp Hl Hr (self_auth _ _)).
  - by rewrite (exec_upgradeProxy _ _ _ _ _ _ _ _ _ _ _ Hf Hp Hl Hr Hd He2 (self_auth _ _)).
Qed.

Definition upgraded_js (n salt d : string) (f pa : address) (receipt : Receipt) : jsval :=
  JObj [("factoryAddress", JAddr f); ("logicName", JStr n); ("logicAddress", JUndefined);
        ("salt", JStr salt); ("proxyAddress", JAddr pa); ("gas", JNum (r_gasUsed receipt));
        ("receipt", receipt_js receipt); ("initCallData", JStr d)].

Definition upgrade_message (n : string) (pa old la : address) (gas : Z) : string :=
  "Updating logic for the " ++s n ++s " proxy at " ++s addr_text pa ++s " from " ++s
  addr_text old ++s " to " ++s addr_text la ++s ", gasCost: " ++s pretty gas.

(** Up to the transaction. *)
Lemma upgrade_prefix n cargs icd f wc fq salt slot code d la pa dCreate dUpgrade w :
  compiled hre n cargs icd fq salt code d → hasContractFactory PROXY = true →
  la = getContractAddress f (nonce_of (w_chain w) f) → pa = getMetamorphicAddress f salt →
  accounts (w_chain w) !! pa = Some (KProxy f slot) →
  encodeFunctionData ALICENET_FACTORY DEPLOY_CREATE [JStr code] = Some dCreate →
  encodeFunctionData ALICENET_FACTORY UPGRADE_PROXY [JStr salt; JAddr la; JStr d] = Some dUpgrade →
  task_multiCallUpgradeProxy hre n f wc icd None (Some cargs) w =
  (receipt <- send hre f (FMultiCall (upgrade_calls f dCreate dUpgrade)) (Some (fees_of hre)) ;;
   receipt <- wait (wait_blocks wc) receipt ;;
   showState hre (upgrade_message n pa (ProxySlot.getImplementationAddress slot) la
                    (r_gasUsed receipt)) ;;;
   gas <- to_number (r_gasUsed receipt) ;;
   ret (JObj [("factoryAddress", JAddr f); ("logicName", JStr n);
              ("logicAddress", JUndefined); ("salt", JStr salt);
              ("proxyAddress", JAddr pa); ("gas", JNum gas);
              ("receipt", receipt_js receipt); ("initCallData", JStr d)]))
    (traced w (fee_requests hre)).
Proof using Type*.
  intros C HP Hla Hpa Hp E1 E2. unfold task_multiCallUpgradeProxy. cbv zeta.
  mstep (getContractFactory_run ALICENET_FACTORY w (cp_base _ _ _ _ _ _ _ _ C)).
  mstep (getContractFactory_run n w (cp_logic _ _ _ _ _ _ _ _ C)).
  mstep (init_call_run _ _ _ _ _ _ _ _ w C). rewrite (mbind_lift _ _ _ cargs eq_refl).
  mstep (deploy_data_run _ _ _ w (cp_code _ _ _ _ _ _ _ _ C)).
  mstep (encode_call_run _ _ _ _ w E1). mstep (cp_salt _ _ _ _ _ _ _ _ C w).
  mstep (getTransactionCount_run f w). rewrite <-Hla. mstep (encode_call_run _ _ _ _ w E2).
  mstep (getContractFactory_run PROXY w HP). rewrite <-Hpa.
  assert (proxy_implementation pa w = (Ok (ProxySlot.getImplementationAddress slot), w)) as Hi
    by (unfold proxy_implementation, mbind_js, get_chain; by rewrite Hp).
  mstep Hi. by mstep (getGasPrices_run hre w).
Qed.

(** C5: [multiCallUpgradeProxy] creates the new logic at the factory's next
    CREATE address and points the contract's proxy at it, in one transaction
    of the owner with the offered fees; no other contract changes.  On a
    locked proxy the whole transaction is refused: the task throws and the
    chain, the new logic included, is as before.  Without constructor
    arguments on the command line the task throws before it sends anything,
    also for contracts that need none.  The object it returns never names
    the new logic. *)
Theorem multicall_upgrade n cargs icd f wc owner st fq salt code d slot la pa es1 es2
    dCreate dUpgrade w :
  let c := bump_nonce (w_chain w) owner in
  let fc := FMultiCall (upgrade_calls f dCreate dUpgrade) in
  let g := gas_used (w_chain w) fc in
  let receipt := {| r_events := Some ((es1 ++ [factory_event f DEPLOYED_RAW la]) ++ es2);
                    r_gasUsed := g |} in
  let old := ProxySlot.getImplementationAddress slot in
  head (hre_signers hre) = Some owner → owner ≠ f → hasContractFactory PROXY = true →
  compiled hre n cargs icd fq salt code d →
  upgrade_ready c f owner st salt code d slot la pa es1 es2 →
  encodeFunctionData ALICENET_FACTORY DEPLOY_CREATE [JStr code] = Some dCreate →
  encodeFunctionData ALICENET_FACTORY UPGRADE_PROXY [JStr salt; JAddr la; JStr d] = Some dUpgrade →
  safe_integer g →
  task_multiCallUpgradeProxy hre n f wc icd None None w =
    (Throw (TypeError "undefined is not iterable"), w) ∧
  if ProxySlot.locked slot
  then ∃ e, task_multiCallUpgradeProxy hre n f wc icd None (Some cargs) w =
              (Throw e, traced w (fee_requests hre))
  else let c' := re_implemented c f pa la code in
       task_multiCallUpgradeProxy hre n f wc icd None (Some cargs) w =
         (Ok (upgraded_js n salt d f pa receipt),
          traced (on_chain w c')
            (fee_requests hre ++
             [ITx owner f fc (Some (fees_of hre)); IWait (wait_blocks wc)] ++
             shown hre (upgrade_message n pa old la g))) ∧
       accounts c' !! la = Some (KCode code) ∧ accounts c' !! pa = Some (KProxy f la) ∧
       ∀ x, x ≠ la → x ≠ pa → accounts c' !! x = accounts (w_chain w) !! x.
Proof using Type*.
  intros c fc g receipt old Hsig Hof HP C R E1 E2 Hg. split.
  { unfold task_multiCallUpgradeProxy. cbv zeta.
    mstep (getContractFactory_run ALICENET_FACTORY w (cp_base _ _ _ _ _ _ _ _ C)).
    mstep (getContractFactory_run n w (cp_logic _ _ _ _ _ _ _ _ C)).
    by mstep (init_call_run _ _ _ _ _ _ _ _ w C). }
  pose proof (upgrade_calls_run _ _ _ _ _ _ _ _ _ _ _ _ dCreate dUpgrade R
    (decode_deployCreate _ _ E1) (decode_upgradeProxy _ _ _ _ E2)) as Htx.
  assert (la = getContractAddress f (nonce_of (w_chain w) f)) as Hla
    by (rewrite (ur_la _ _ _ _ _ _ _ _ _ _ _ _ R); unfold c; by rewrite bump_nonce_ne).
  assert (pa = getMetamorphicAddress f salt) as Hpa.
  { rewrite (ur_pa _ _ _ _ _ _ _ _ _ _ _ _ R). unfold getMetamorphicContractAddress.
    by rewrite <-(ur_hash _ _ _ _ _ _ _ _ _ _ _ _ R). }
  rewrite (upgrade_prefix n cargs icd f wc fq salt slot code d la pa dCreate dUpgrade w C HP Hla Hpa
    (ur_proxy _ _ _ _ _ _ _ _ _ _ _ _ R) E1 E2).
  pose proof (fresh_ne _ _ _ _ (ur_fresh _ _ _ _ _ _ _ _ _ _ _ _ R)
    (ur_proxy _ _ _ _ _ _ _ _ _ _ _ _ R)) as Hpl.
  destruct (ProxySlot.locked slot).
  - eexists. unfold mbind_js at 1. by rewrite (send_reverts hre (traced w _) owner).
  - cbv zeta. rewrite (mbind_Ok _ _ _ _ _ (send_run hre (traced w _) owner f _ _ _ _ Hsig Htx)).
    unfold wait. rewrite mbind_assoc, (mbind_Ok _ _ _ _ _ (output_run _ _)), mbind_ret.
    rewrite (mbind_Ok _ _ _ _ _ (showState_run _ _ _)), on_chain_traced, !traced_app.
    unfold to_number. rewrite (mbind_lift _ _ _ g)
      by (cbn [r_gasUsed w_chain traced]; fold fc; by rewrite (bn_toNumber_safe g Hg)).
    split_and!.
    + unfold receipt. rewrite <-!(assoc_L (++)). done.
    + simpl. rewrite lookup_insert_ne by done. apply lookup_insert_eq.
    + apply lookup_insert_eq.
    + intros x Hx1 Hx2. simpl. by rewrite !lookup_insert_ne by done.
Qed.
End Upgrade.

(** ** Witness: ETHDKG's proxy gets a new logic *)

#[local] Existing Instances ethers_model ethers_model_laws.

(** A chain where ETHDKG's proxy exists, with the implementation slot [slot]. *)
Definition world_proxied (slot : Z) : world :=
  on_chain world_ex {| accounts := <[pa_ex := KProxy factory_ex slot]> (accounts chain_ex);
                       nonces := <[pa_ex := 1]> (nonces chain_ex) |}.

Lemma ready_upgrade_ex slot :
  @upgrade_ready ethers_model (evm_model 2000000) (bump_nonce (w_chain (world_proxied slot)) owner_ex)
    factory_ex owner_ex st_ex dkg_salt dkg_code dkg_init slot la_ex pa_ex [] [].
Proof. split; vm_compute; reflexivity. Qed.

Lemma multicall_upgrade_witness :
  (∃ v w', @task_multiCallUpgradeProxy ethers_model (evm_model 2000000) (hre_ex None) "ETHDKG"
     factory_ex (Some true) (Some "40, 6") None (Some []) (world_proxied 5) = (Ok v, w') ∧
     accounts (w_chain w') !! pa_ex = Some (KProxy factory_ex la_ex)) ∧
  (∃ e w', @task_multiCallUpgradeProxy ethers_model (evm_model 2000000) (hre_ex None) "ETHDKG"
     factory_ex None (Some "40, 6") None (Some []) (world_proxied (ProxySlot.__lockImplementation 5)) = (Throw e, w') ∧
     w_chain w' = w_chain (world_proxied (ProxySlot.__lockImplementation 5))).
Proof.
  pose proof (λ wc slot, @multicall_upgrade ethers_model ethers_model_laws (evm_model 2000000)
    (evm_model_laws 2000000) (hre_ex None) "ETHDKG" [] (Some "40, 6") factory_ex wc owner_ex st_ex
    dkg_fq dkg_salt dkg_code dkg_init slot la_ex pa_ex [] [] (enc_ex DEPLOY_CREATE [JStr dkg_code])
    (enc_ex UPGRADE_PROXY [JStr dkg_salt; JAddr la_ex; JStr dkg_init]) (world_proxied slot)
    eq_refl) as T.
  split.
  - destruct (T (Some true) 5) as (_ & E & _ & Hp & _); try reflexivity.
    + discriminate.
    + apply compiled_ex.
    + apply ready_upgrade_ex.
    + split; vm_compute; discriminate.
    + eexists _, _. split; [exact E|exact Hp].
  - destruct (T None (ProxySlot.__lockImplementation 5)) as (_ & e & E); try reflexivity.
    + discriminate.
    + apply compiled_ex.
    + apply ready_upgrade_ex.
    + split; vm_compute; discriminate.
    + eexists _, _. split; [exact E|reflexivity].
Defined.
