(* ===== verification/Descriptor.v ===== *)
(** * Deploying from a descriptor file

    The tasks [generateContractsDescriptor] and [deployContractsFromDescriptor]
    of [scripts/lib/alicenetFactoryTasks.ts].  The first writes the contracts
    of the deployment list with their arguments to a JSON file, the second
    deploys what such a file lists.  [descriptor_deploys] composes them: what
    is deployed is what the configuration files say. *)

From S2P Require Import Prelude JsValue Numbers Json Constants Artifacts Fixtures Ethers Factory Instances World Scenario StateFile DeployArgs Provider FactoryTasks.
From stdpp Require Import options.
Local Open Scope Z_scope.

Section Descriptor.
Context `{Ethers, Evm, Toml} (hre : Hre).
Local Notation art := (hre_artifacts hre).

(** ** Generating the file *)

(** [JSON.stringify(jsonObject)], split at the quotation marks, element 3:
    the value of the first key when it is a string. *)
Definition arg_text (jsonObject : jsval) : res jsval :=
  text <~ JSON_stringify addr_text EmptyString jsonObject ;;
  text <~ of_option (TypeError "Cannot read properties of undefined (reading 'split')") text ;;
  Ok (match split_on dq_char text !! 3%nat with Some a => JStr a | None => JUndefined end).

(** The arguments of one contract in a table of the template. *)
Definition table_args (args : jsval) : res (list jsval) :=
  match args with
  | JUndefined => Ok []
  | JArr l => res_mapM arg_text l
  | JNull => Throw (TypeError "Cannot read properties of null (reading 'forEach')")
  | _ => Throw (TypeError "forEach is not a function")
  end.

(** The entry of one contract; none without a deploy type. *)
Definition descriptor_entry (tomlFile contract : jsval) : res (option jsval) :=
  match contract with
  | JStr contract =>
      let contractName := split_on ":"%char contract !! 1%nat in
      constructors <~ js_get tomlFile "constructor" ;;
      tomlConstructorArgs <~ js_get constructors contract ;;
      constructorArgs <~ table_args tomlConstructorArgs ;;
      initializers <~ js_get tomlFile "initializer" ;;
      tomlInitializerArgs <~ js_get initializers contract ;;
      initializerArgs <~ table_args tomlInitializerArgs ;;
      deployType <~ getDeployType art contract ;;
      deployGroup <~ getDeployGroup art contract ;;
      deployGroupIndex <~ getDeployGroupIndex art contract ;;
      Ok (match deployType with
          | Some deployType =>
              Some (JObj [("name", opt_js contractName); ("fullyQualifiedName", JStr contract);
                          ("deployGroup", JStr (nonempty_or "general" deployGroup));
                          ("deployGroupIndex", JStr (nonempty_or "0" deployGroupIndex));
                          ("deployType", JStr deployType); ("constructorArgs", JArr constructorArgs);
                          ("initializerArgs", JArr initializerArgs)])
          | None => None
          end)
  | _ => Throw (TypeError "contract.split is not a function")
  end.

Definition descriptor_path (outputFolder : option string) : string :=
  default DEFAULT_CONFIG_OUTPUT_DIR outputFolder ++s DEPLOYMENT_LIST_FPATH ++s ".json".

Definition task_generateContractsDescriptor (outputFolder : option string) : M unit :=
  checkUserDirPath outputFolder ;;;
  let path := descriptor_path outputFolder in
  let deploymentArgsPath :=
    default DEFAULT_CONFIG_OUTPUT_DIR outputFolder ++s DEPLOYMENT_ARGS_TEMPLATE_FPATH in
  contracts <- getDeploymentList None ;;
  deploymentArgsFile <- readFileSync deploymentArgsPath ;;
  tomlFile <- lift (of_option (LibError "toml" "parse error") (toml_parse deploymentArgsFile)) ;;
  entries <- lift (res_mapM (descriptor_entry tomlFile) (list_items contracts)) ;;
  text <- lift (JSON_stringify addr_text "    " (JObj [("contracts", JArr (omap id entries))])) ;;
  writeFileSync path (default "undefined" text).

(** ** Deploying from the file *)

(** [...args] *)
Definition spread (args : jsval) : res (list jsval) :=
  match args with
  | JArr l => Ok l
  | JStr s => Ok ((λ c, JStr (String c EmptyString)) <$> String.list_ascii_of_string s)
  | _ => Throw (TypeError "Spread syntax requires ...iterable[Symbol.iterator] to be a function")
  end.

(** [args.length > 0] and the arguments; ethers takes an array only. *)
Definition initializer_args (args : jsval) : res (list jsval) :=
  match args with
  | JArr l => Ok l
  | _ => n <~ js_get args "length" ;;
         match n with
         | JNum n => if 0 <? n then Throw (LibError "ethers" "missing argument") else Ok []
         | _ => Ok []
         end
  end.

Definition str_field (v : jsval) (k : string) : res string :=
  x <~ js_get v k ;;
  match x with JStr s => Ok s | _ => Throw (LibError "hardhat" "artifact name must be a string") end.

Definition str_of (v : jsval) : option string := match v with JStr s => Some s | _ => None end.

(** An entry of the file as [deployContractsMulticall] uses it: the members
    it reads for the entry's type. *)
Definition entry_descriptor (v : jsval) : res ContractDescriptor :=
  deployType <~ js_get v "deployType" ;;
  if decide (str_of deployType = Some UPGRADEABLE_DEPLOYMENT) then
    name <~ str_field v "name" ;;
    cargs <~ js_get v "constructorArgs" ;;
    cargs <~ spread cargs ;;
    iargs <~ js_get v "initializerArgs" ;;
    iargs <~ initializer_args iargs ;;
    Ok {| cd_name := name; cd_fullyQualifiedName := EmptyString; cd_deployGroup := None;
          cd_deployGroupIndex := None; cd_deployType := Some UPGRADEABLE_DEPLOYMENT;
          cd_constructorArgs := cargs; cd_initializerArgs := iargs |}
  else if decide (str_of deployType = Some ONLY_PROXY) then
    full <~ str_field v "fullyQualifiedName" ;;
    Ok {| cd_name := EmptyString; cd_fullyQualifiedName := full; cd_deployGroup := None;
          cd_deployGroupIndex := None; cd_deployType := Some ONLY_PROXY;
          cd_constructorArgs := []; cd_initializerArgs := [] |}
  else
    Ok {| cd_name := EmptyString; cd_fullyQualifiedName := EmptyString; cd_deployGroup := None;
          cd_deployGroupIndex := None; cd_deployType := None;
          cd_constructorArgs := []; cd_initializerArgs := [] |}.

(** [deployContractsMulticall] on the parsed value. *)
Definition deploy_entries (contracts : jsval) (factoryAddr : address) : M unit :=
  getContractFactory ALICENET_FACTORY ;;;
  match contracts with
  | JUndefined | JNull => throw (TypeError "Cannot read properties of undefined (reading 'length')")
  | _ => forM (list_items contracts) (λ v, c <- lift (entry_descriptor v) ;; multicall_one hre factoryAddr c)
  end.

Definition task_deployContractsFromDescriptor (factoryAddress : option address)
    (outputFolder : option string) : M unit :=
  checkUserDirPath outputFolder ;;;
  let path := descriptor_path outputFolder in
  ex <- existsSync path ;;
  (if ex : bool then ret tt
   else throw (Error ("Could not find " ++s DEFAULT_CONFIG_OUTPUT_DIR ++s DEPLOYMENT_LIST_FPATH ++s
     ".json file. It must be generated first with generateContractsDescriptor task"))) ;;;
  rawdata <- readFileSync path ;;
  json <- lift (JSON_parse rawdata) ;;
  set_block_gas_limit hre ;;;
  fg <- deployed_factory hre factoryAddress None outputFolder ;;
  getContractFactory ALICENET_FACTORY ;;;
  getTransactionCount fg.1 ;;;
  contracts <- lift (js_get json "contracts") ;;
  deploy_entries contracts fg.1 ;;;
  console_log ("total gas used: " ++s pretty fg.2).
End Descriptor.

(** ** What the file says *)

Section DescriptorProofs.
Context `{Ethers, Evm, Toml} (hre : Hre).
Local Notation art := (hre_artifacts hre).

(** An argument that is not a text is lost: it comes back as [null]. *)
Definition json_arg (a : jsval) : jsval := if is_undefined a then JNull else a.

(** *** The arguments the template asks for

    A user fills the template in: every argument is an object with one key,
    the argument's name, and its value. *)

Fixpoint plain_text (s : string) : bool :=
  match s with
  | EmptyString => true
  | String c s => negb (is_control c) && negb (bool_decide (c = dq_char)) &&
                  negb (bool_decide (c = bs_char)) && plain_text s
  end.

Lemma plain_escape s : plain_text s = true → escape_all s = s ∧ string_elem dq_char s = false.
Proof using Type.
  induction s as [|c s IH]; [done|]. cbn [plain_text escape_all string_elem].
  rewrite !andb_true_iff, !negb_true_iff. intros [[[Hc Hq] Hb] Hs]. destruct (IH Hs) as [-> ->].
  rewrite Hq. split; [|done]. unfold escape. rewrite Hc.
  rewrite (proj2 (list_find_None _ _)); [done|].
  destruct c as [[][][][][][][][]]; try discriminate Hc; try discriminate Hq; try discriminate Hb;
    repeat constructor; done.
Qed.

Lemma own_key_single {A} k (x : A) : own_keys [(k, x)] = [k].
Proof using Type.
  pose proof (own_keys_perm [(k, x)]) as Hp. by apply Permutation_singleton_r in Hp.
Qed.

Lemma arg_text_single k v j :
  to_json addr_text v = Ok (Some j) → plain_text k = true →
  arg_text (JObj [(k, v)]) =
  Ok (match split_on dq_char (":" ++s json_text EmptyString EmptyString j ++s "}") !! 1%nat with
      | Some a => JStr a | None => JUndefined end).
Proof using Type.
  intros Hj Hk. destruct (plain_escape k Hk) as [Ek Hq]. unfold arg_text, JSON_stringify. cbn [to_json res_mapM fst snd].
  rewrite Hj. cbn [rbind omap list_omap fmap option_fmap option_map fst snd]. rewrite own_key_single.
  cbn [omap list_omap obj_get]. rewrite decide_True by done.
  cbn [fmap option_fmap option_map json_text list_fmap of_option rbind fst snd].
  unfold enclose, line, colon, quote. rewrite !decide_True by done. cbn [join]. rewrite Ek.
  rewrite !app_assoc_s. change (EmptyString ++s ?x) with x.
  change ("{" ++s dq ++s ?x) with ("{" ++s String dq_char x). rewrite split_on_app by done.
  change (dq ++s ?x) with (String dq_char x). rewrite split_on_app by done. done.
Qed.

Lemma extract_single_key k v : extract_arg (JObj [(k, v)]) = Ok v.
Proof using Type.
  unfold extract_arg. cbn [object_keys rbind]. rewrite own_key_single. simpl. by rewrite decide_True.
Qed.

Lemma digits_unquoted s : all_digits s = true → string_elem dq_char s = false.
Proof using Type.
  induction s as [|c s IH]; [done|]. cbn [all_digits string_elem]. intros [Hc Hs]%andb_true_iff.
  rewrite IH by done. rewrite bool_decide_false; [done|]. by intros ->.
Qed.

Lemma pretty_unquoted (n : Z) : string_elem dq_char (pretty n) = false.
Proof using Type.
  destruct (Z.le_gt_cases 0 n) as [Hn|Hn].
  - apply digits_unquoted. by apply pretty_digits.
  - destruct n as [|p|p]; [done|done|]. change (pretty (Z.neg p)) with ("-" ++s pretty (Z.pos p)).
    rewrite string_elem_app. simpl. apply digits_unquoted. by apply pretty_digits.
Qed.

(** What a descriptor makes of such an object: the value of a text; [null]
    for a number.  Names and texts with quotation marks, backslashes or
    control characters are not considered. *)
Definition edited_value (e : jsval) : option jsval :=
  match e with
  | JObj [(name, JStr v)] => if plain_text name && plain_text v then Some (JStr v) else None
  | JObj [(name, JNum n)] => if plain_text name then Some JNull else None
  | _ => None
  end.

(** The arguments of contract [c] in one of the two tables. *)
Definition edited_args (tomlFile : jsval) (table c : string) : option (list jsval) :=
  match tomlFile with
  | JObj tables =>
      match obj_get tables table with
      | Some (JObj t) =>
          match obj_get t c with
          | Some (JArr l) => mapM edited_value l
          | Some _ => None
          | None => if is_proto c then None else Some []
          end
      | _ => None
      end
  | _ => None
  end.

(** The descriptor of a contract according to the template and its tags. *)
Definition configured (tomlFile : jsval) (c : string) : option (option ContractDescriptor) :=
  cargs ← edited_args tomlFile "constructor" c;
  iargs ← edited_args tomlFile "initializer" c;
  match getDeployType art c, getDeployGroup art c, getDeployGroupIndex art c with
  | Ok deployType, Ok deployGroup, Ok deployGroupIndex =>
      Some ((λ t, {| cd_name := default EmptyString (extractName c); cd_fullyQualifiedName := c;
               cd_deployGroup := Some (nonempty_or "general" deployGroup);
               cd_deployGroupIndex := parseInt (Some 10) (nonempty_or "0" deployGroupIndex);
               cd_deployType := Some t; cd_constructorArgs := cargs;
               cd_initializerArgs := iargs |}) <$> deployType)
  | _, _, _ => None
  end.

Lemma arg_text_edited e v :
  edited_value e = Some v → ∃ a, arg_text e = Ok a ∧ json_arg a = v ∧ (a = JUndefined ∨ ∃ s, a = JStr s).
Proof using Type.
  destruct e as [| | | | | | | |o|]; try done. destruct o as [|[k x] [|]]; try done; [|by destruct x].
  destruct x as [| | |z| |s| | | |]; try done; simpl.
  - destruct (plain_text k) eqn:Hk; [|done]. intros [= <-].
    rewrite (arg_text_single k _ (JsNum z)) by done. cbn [json_text].
    rewrite split_on_none; [by eauto|]. change (string_elem dq_char (":" ++s ?y)) with (string_elem dq_char y).
    by rewrite string_elem_app, pretty_unquoted.
  - destruct (plain_text k) eqn:Hk; [|done]. destruct (plain_text s) eqn:Hs; [|done]. intros [= <-].
    destruct (plain_escape s Hs) as [Ev Hq]. rewrite (arg_text_single k _ (JsStr s)) by done.
    cbn [json_text]. unfold quote. rewrite Ev, !app_assoc_s.
    change (":" ++s dq ++s ?y) with (":" ++s String dq_char y). rewrite split_on_app by done.
    change (dq ++s ?y) with (String dq_char y). rewrite split_on_app by done.
    exists (JStr s). eauto.
Qed.

Lemma table_args_edited l vs : mapM edited_value l = Some vs →
  ∃ args, table_args (JArr l) = Ok args ∧ json_arg <$> args = vs ∧
    Forall (λ a, a = JUndefined ∨ ∃ s, a = JStr s) args.
Proof using Type.
  intros Hl%mapM_Some. cbn [table_args]. induction Hl as [|e v l vs Hv _ (args & E & <- & Hf)].
  { by exists []. }
  destruct (arg_text_edited e v Hv) as (a & Ea & <- & Ha). exists (a :: args).
  cbn [res_mapM]. rewrite Ea. cbn [rbind]. rewrite E. split_and!; [done..|by constructor].
Qed.

(** Reading one table of the template. *)
Lemma edited_args_read toml table c vs : edited_args toml table c = Some vs →
  ∃ t e args, js_get toml table = Ok t ∧ js_get t c = Ok e ∧ table_args e = Ok args ∧
    json_arg <$> args = vs ∧ Forall (λ a, a = JUndefined ∨ ∃ s, a = JStr s) args.
Proof using Type.
  unfold edited_args. destruct toml as [| | | | | | | |tables|]; try done.
  destruct (obj_get tables table) as [[| | | | | | | |t|]|] eqn:Ht; try done.
  intros Hc. exists (JObj t). cbn [js_get]. rewrite Ht. cbn [js_get].
  destruct (obj_get t c) as [e|].
  - destruct e as [| | | | | | |l| |]; try done. destruct (table_args_edited _ _ Hc) as (args & ? & ? & ?).
    by exists (JArr l), args.
  - destruct (is_proto c); [done|]. injection Hc as <-. by exists JUndefined, [].
Qed.

Lemma survives_args l :
  Forall (λ a, a = JUndefined ∨ ∃ s, a = JStr s) l →
  survives addr_text (JArr l) (JArr (json_arg <$> l)).
Proof using Type.
  intros Hl. apply survives_arr. induction Hl as [|a l Ha _ IH]; [constructor|].
  rewrite fmap_cons. constructor; [|done].
  destruct Ha as [->|[s ->]]; [by right|left; apply survives_str].
Qed.

(** Running the entry that comes back from the file. *)
Definition run_entry (f : address) (v : jsval) : M unit :=
  c <- lift (entry_descriptor v) ;; multicall_one hre f c.

Definition entry_back (c t group idx : string) (cargs iargs : list jsval) : jsval :=
  JObj [("name", JStr (default EmptyString (extractName c))); ("fullyQualifiedName", JStr c);
        ("deployGroup", JStr group); ("deployGroupIndex", JStr idx); ("deployType", JStr t);
        ("constructorArgs", JArr (json_arg <$> cargs)); ("initializerArgs", JArr (json_arg <$> iargs))].

Lemma run_entry_back f c name t group idx cargs iargs i w :
  extractName c = Some name →
  run_entry f (entry_back c t group idx cargs iargs) w =
  multicall_one hre f
    {| cd_name := name; cd_fullyQualifiedName := c; cd_deployGroup := Some group;
       cd_deployGroupIndex := i; cd_deployType := Some t;
       cd_constructorArgs := json_arg <$> cargs; cd_initializerArgs := json_arg <$> iargs |} w.
Proof using Type.
  intros Hn. unfold run_entry, entry_descriptor, entry_back, str_field. rewrite Hn. cbn [default].
  cbn -[decide multicall_one UPGRADEABLE_DEPLOYMENT ONLY_PROXY fmap].
  unfold multicall_one at 2. cbn [cd_deployType].
  destruct (decide (Some t = Some UPGRADEABLE_DEPLOYMENT)) as [E|E].
  - cbn -[decide multicall_one UPGRADEABLE_DEPLOYMENT ONLY_PROXY fmap].
    unfold multicall_one at 1. cbn [cd_deployType]. by rewrite decide_True.
  - destruct (decide (Some t = Some ONLY_PROXY)) as [E2|E2].
    + unfold mbind_js, lift. cbn -[decide multicall_one UPGRADEABLE_DEPLOYMENT ONLY_PROXY fmap].
      unfold multicall_one at 1. cbn [cd_deployType]. rewrite decide_False by done. by rewrite decide_True.
    + unfold mbind_js, lift. cbn -[decide multicall_one UPGRADEABLE_DEPLOYMENT ONLY_PROXY fmap].
      unfold multicall_one. cbn [cd_deployType]. by rewrite !decide_False.
Qed.

Lemma entry_configured toml c name d :
  extractName c = Some name → configured toml c = Some d →
  ∃ e, descriptor_entry hre toml (JStr c) = Ok e ∧
    match d, e with
    | None, None => True
    | Some d, Some v => ∃ v', survives addr_text v v' ∧ ∀ f w, run_entry f v' w = multicall_one hre f d w
    | _, _ => False
    end.
Proof using Type.
  intros Hn Hd. unfold configured in Hd.
  apply bind_Some in Hd as (cvs & Hc & (ivs & Hi & Hd)%bind_Some).
  destruct (edited_args_read _ _ _ _ Hc) as (ct & ce & cargs & E1 & E2 & E3 & <- & Fc).
  destruct (edited_args_read _ _ _ _ Hi) as (it & ie & iargs & E4 & E5 & E6 & <- & Fi).
  destruct (getDeployType art c) as [t|] eqn:E7; [|done]. destruct (getDeployGroup art c) as [g|] eqn:E8; [|done].
  destruct (getDeployGroupIndex art c) as [i|] eqn:E9; [|done]. injection Hd as <-.
  unfold descriptor_entry. rewrite E1. cbn [rbind]. rewrite E2. cbn [rbind]. rewrite E3. cbn [rbind].
  rewrite E4. cbn [rbind]. rewrite E5. cbn [rbind]. rewrite E6. cbn [rbind]. rewrite E7, E8, E9. cbn [rbind].
  eexists. split; [reflexivity|]. destruct t as [t|]; [|done]. cbn [fmap option_fmap option_map].
  change (split_on ":"%char c !! 1%nat) with (extractName c). rewrite Hn. cbn [opt_js default].
  exists (entry_back c t (nonempty_or "general" g) (nonempty_or "0" i) cargs iargs). split.
  - unfold entry_back. rewrite Hn. apply survives_obj; [by vm_compute; repeat constructor; set_solver| |].
    + by repeat constructor.
    + repeat (constructor; [split; [done|first [apply survives_str|by apply survives_args]]|]).
      constructor.
  - intros f w. by apply run_entry_back.
Qed.
(** The whole list. *)
Lemma entries_configured toml cs ds :
  Forall (λ c, is_Some (extractName c)) cs → mapM (configured toml) cs = Some ds →
  ∃ es vs, res_mapM (descriptor_entry hre toml) (JStr <$> cs) = Ok es ∧
    survives addr_text (JArr (omap id es)) (JArr vs) ∧
    ∀ f w, forM vs (run_entry f) w = forM (omap id ds) (multicall_one hre f) w.
Proof using Type.
  intros Hcs Hds%mapM_Some.
  assert (∃ es vs, res_mapM (descriptor_entry hre toml) (JStr <$> cs) = Ok es ∧
    Forall2 (survives addr_text) (omap id es) vs ∧
    ∀ f w, forM vs (run_entry f) w = forM (omap id ds) (multicall_one hre f) w)
    as (es & vs & E & Hs & Hrun).
  { induction Hds as [|c d cs ds Hd _ IH]; [exists [], []; by repeat constructor|].
    apply Forall_cons in Hcs as [[name Hn] Hcs]. destruct (IH Hcs) as (es & vs & E & Hs & Hrun).
    destruct (entry_configured toml c name d Hn Hd) as (e & Ee & He).
    exists (e :: es). cbn [fmap list_fmap res_mapM]. rewrite Ee. cbn [rbind]. rewrite E. cbn [rbind].
    destruct d as [d|], e as [v|]; try done.
    - destruct He as (v' & Hv & Hv'). exists (v' :: vs). split; [done|]. split; [by constructor|].
      intros f w. cbn. unfold mbind_js. rewrite Hv'. destruct (multicall_one hre f d w) as [[[]|] w']; [|done].
      apply Hrun.
    - by exists vs. }
  exists es, vs. split_and!; [done| |done]. apply survives_arr.
  eapply Forall2_impl; [exact Hs|]. by left.
Qed.

(** ** The tasks one after the other *)

Definition folder_ready (u : option string) (w : world) : Prop :=
  is_dir (w_fs w) (resolve (default DEFAULT_CONFIG_OUTPUT_DIR u)) = true ∧ u ≠ Some EmptyString.

Lemma checkUserDirPath_ready u w : folder_ready u w → checkUserDirPath u w = (Ok tt, w).
Proof using Type.
  intros [Hd _]. destruct u as [u|]; [|done]. simpl in Hd.
  assert (existsSync u w = (Ok true, w)) as Hex.
  { unfold is_dir in Hd. unfold existsSync, fs_exists, get_fs, mbind_js, ret.
    by destruct (fs_lookup (w_fs w) (resolve u)) as [[]|]. }
  unfold checkUserDirPath. mstep Hex. cbv iota. rewrite mbind_ret.
  unfold statIsFile, get_fs, mbind_js. by rewrite Hd.
Qed.

Lemma descriptor_path_resolve u : u ≠ Some EmptyString →
  resolve (descriptor_path u) = resolve (default DEFAULT_CONFIG_OUTPUT_DIR u) ++ ["deploymentList.json"].
Proof using Type.
  intros Hu. unfold descriptor_path.
  change (DEPLOYMENT_LIST_FPATH ++s ".json") with ("/" ++s "deploymentList.json").
  apply resolve_child; [|done..]. destruct u as [u|]; [|done]. simpl. congruence.
Qed.

Lemma write_descriptor u w s :
  folder_ready u w → is_dir (w_fs w) (resolve (descriptor_path u)) = false →
  writeFileSync (descriptor_path u) s w = (Ok tt, rewrite_file w (descriptor_path u) s) ∧
  folder_ready u (rewrite_file w (descriptor_path u) s) ∧
  fs_lookup (w_fs (rewrite_file w (descriptor_path u) s)) (resolve (descriptor_path u)) = Some (File s).
Proof using Type.
  intros [Hd Hu] Hp. pose proof (descriptor_path_resolve u Hu) as Hr.
  assert (fs_write (w_fs w) (descriptor_path u) s = Ok (<[resolve (descriptor_path u) := File s]> (w_fs w))) as Hw.
  { unfold fs_write. unfold is_dir in Hp. destruct (fs_lookup _ _) as [[]|]; [done|done|].
    by rewrite Hr, removelast_last, Hd. }
  split_and!.
  - unfold writeFileSync, get_fs, mbind_js, lift. simpl. by rewrite Hw.
  - split; [|done]. unfold is_dir, rewrite_file. cbn [w_fs]. rewrite fs_insert_beside; [exact Hd|].
    rewrite Hr. intros Hpre%prefix_length. rewrite length_app in Hpre. simpl in Hpre. lia.
  - by apply (fs_write_lookup (w_fs w)).
Qed.

(** C21: a descriptor file deploys what the configuration says.  After
    [generateContractsDescriptor], [deployContractsFromDescriptor] runs the
    multicall deployment on exactly the contracts of the deployment list that
    have a deploy type, in their order, each with the values the user gave
    the arguments of the template: a text as it is, a number as [null], which
    the file loses.  Only the descriptor file was written in between. *)
Theorem descriptor_deploys u toml text cs ds w :
  folder_ready u w → is_dir (w_fs w) (resolve (descriptor_path u)) = false →
  getDeploymentList None w = (Ok (JArr (JStr <$> cs)), w) →
  fs_read (w_fs w) (default DEFAULT_CONFIG_OUTPUT_DIR u ++s DEPLOYMENT_ARGS_TEMPLATE_FPATH) = Ok text →
  toml_parse text = Some toml →
  Forall (λ c, is_Some (extractName c)) cs → mapM (configured toml) cs = Some ds →
  ∃ s, let w1 := rewrite_file w (descriptor_path u) s in
    task_generateContractsDescriptor hre u w = (Ok tt, w1) ∧
    ∀ f, task_deployContractsFromDescriptor hre (Some f) u w1 =
      (set_block_gas_limit hre ;;;
       getContractFactory ALICENET_FACTORY ;;;
       getContractFactory ALICENET_FACTORY ;;;
       forM (omap id ds) (multicall_one hre f) ;;;
       console_log "total gas used: 0") w1.
Proof using Type.
  intros Hu Hp Hl Ha Ht Hcs Hds.
  destruct (entries_configured toml cs ds Hcs Hds) as (es & vs & E & Hs & Hrun).
  assert (survives addr_text (JObj [("contracts", JArr (omap id es))]) (JObj [("contracts", JArr vs)]))
    as (j & Hj & Hjv).
  { apply survives_obj; [apply NoDup_singleton|by repeat constructor|]. by repeat constructor. }
  destruct (json_roundtrip addr_text "    " _ j eq_refl Hj) as (s & Hstr & Hpar). rewrite Hjv in Hpar.
  exists s. cbv zeta. destruct (write_descriptor u w s Hu Hp) as (Hw & Hu1 & Hf1). split.
  - unfold task_generateContractsDescriptor. mstep (checkUserDirPath_ready u w Hu). cbv zeta. mstep Hl.
    mstep (readFileSync_run _ _ _ Ha).
    unfold mbind_js, lift. rewrite Ht. cbn [of_option list_items]. rewrite E, Hstr. exact Hw.
  - intros f. set (w1 := rewrite_file w (descriptor_path u) s) in *.
    unfold task_deployContractsFromDescriptor. mstep (checkUserDirPath_ready u w1 Hu1). cbv zeta.
    assert (existsSync (descriptor_path u) w1 = (Ok true, w1)) as Hex.
    { unfold existsSync, fs_exists, get_fs, mbind_js, ret. by rewrite Hf1. }
    mstep Hex. cbv iota. rewrite mbind_ret.
    mstep (readFileSync_run w1 _ _ (fs_read_lookup _ _ _ Hf1)). rewrite (mbind_lift _ _ _ _ Hpar).
    apply mbind_ext. intros [] w2 _. cbn [deployed_factory]. rewrite mbind_ret. cbn [fst snd].
    apply mbind_ext. intros [] w3 _. unfold getTransactionCount. rewrite mbind_assoc.
    unfold get_chain at 1. unfold mbind_js at 1. rewrite mbind_ret.
    rewrite (mbind_lift _ _ _ (JArr vs)) by done. unfold deploy_entries. rewrite mbind_assoc.
    apply mbind_ext. intros [] w4 _. cbn [list_items]. fold (run_entry f).
    unfold mbind_js at 1 2. by rewrite Hrun.

Qed.
End DescriptorProofs.

(** ** Witnesses *)

#[local] Existing Instances toml_model toml_model_laws ethers_model ethers_model_laws evm_ex.

Definition cs_ex : list string := [fx_full fx_Snapshots; fx_full fx_Proxy; fx_full fx_ETHDKG].
Definition template_toml : jsval :=
  JObj [("constructor", JObj [(fx_full fx_Snapshots,
           JArr [JObj [("chainID_", JStr "21")]; JObj [("epochLength_", JNum 1024)]])]);
        ("initializer", JObj [])].
Definition list_toml : jsval := JObj [("deploymentList", JArr (JStr <$> cs_ex))].
Definition toml_text (v : jsval) : string := default EmptyString (toml_stringify v).

Definition world_config : world :=
  {| w_fs := <[[".."; "scripts"; "base-files"; "deploymentList"] := File (toml_text list_toml)]>
             (<[[".."; "scripts"; "base-files"; "deploymentArgsTemplate"] := File (toml_text template_toml)]> fs_ex);
     w_chain := chain_ex; w_trace := [] |}.

Definition ds_ex : list (option ContractDescriptor) :=
  default [] (mapM (configured (hre_ex None) template_toml) cs_ex).

(** The value of the text reaches the deployment, the number does not. *)
Example ds_ex_args :
  (λ d, (cd_name d, cd_constructorArgs d)) <$> omap id ds_ex =
  [("Snapshots", [JStr "21"; JNull]); ("ETHDKG", [])].
Proof. vm_compute. reflexivity. Qed.

Lemma descriptor_deploys_witness :
  ∃ s, let w1 := rewrite_file world_config (descriptor_path None) s in
    task_generateContractsDescriptor (hre_ex None) None world_config = (Ok tt, w1) ∧
    task_deployContractsFromDescriptor (hre_ex None) (Some factory_ex) None w1 =
      (set_block_gas_limit (hre_ex None) ;;;
       getContractFactory ALICENET_FACTORY ;;;
       getContractFactory ALICENET_FACTORY ;;;
       forM (omap id ds_ex) (multicall_one (hre_ex None) factory_ex) ;;;
       console_log "total gas used: 0") w1.
Proof.
  destruct (descriptor_deploys (hre_ex None) None template_toml (toml_text template_toml) cs_ex ds_ex
    world_config) as (s & Hgen & Hdep).
  - split; [vm_compute; reflexivity|discriminate].
  - vm_compute. reflexivity.
  - vm_compute. reflexivity.
  - vm_compute. reflexivity.
  - vm_compute. reflexivity.
  - repeat constructor; eexists; reflexivity.
  - vm_compute. reflexivity.
  - exists s. exact (conj Hgen (Hdep factory_ex)).
Defined.
