(* ===== verification/Logic.v ===== *)
(** * A program logic for scripts that only talk to the chain

    [wp m c Q]: on every world whose chain is [c], the script [m] leaves the
    file system alone and ends with a result, a chain and a list of new
    transactions that satisfy [Q].  Exceptions are results, so a proof about
    [wp] covers the error paths; console output and provider requests are
    hidden. *)

From S2P Require Import Prelude JsValue Constants Artifacts Ethers Factory World Provider.
From stdpp Require Import options.
Local Open Scope Z_scope.

Definition is_tx (i : io) : bool :=
  match i with ITx _ _ _ _ | IDeploy _ _ _ _ | ICall _ _ _ _ | ISend _ _ _ | ICreate _ _ _ _ => true | _ => false end.

(** The transactions of a trace, in order. *)
Fixpoint txs (l : list io) : list io :=
  match l with
  | [] => []
  | i :: l => if is_tx i then i :: txs l else txs l
  end.

Lemma txs_app l1 l2 : txs (l1 ++ l2) = txs l1 ++ txs l2.
Proof. induction l1 as [|i l1 IH]; simpl; [done|]. destruct (is_tx i); simpl; by rewrite IH. Qed.

Lemma mbind_output {B} i (k : unit → M B) w : mbind_js (output i) k w = k tt (traced w [i]).
Proof. reflexivity. Qed.

Definition wp {A} (m : M A) (c : chain) (Q : res A → chain → list io → Prop) : Prop :=
  ∀ w, w_chain w = c → ∃ r w' l, m w = (r, w') ∧ w_fs w' = w_fs w ∧
    txs (w_trace w') = txs (w_trace w) ++ l ∧ Q r (w_chain w') l.

(** What a script did, for a caller who does not use the logic. *)
Definition runs_to {A} (m : M A) (w : world) (r : res A) (c : chain) (l : list io) : Prop :=
  ∃ w', m w = (r, w') ∧ w_fs w' = w_fs w ∧ w_chain w' = c ∧
    txs (w_trace w') = txs (w_trace w) ++ l.

Lemma wp_runs_to {A} (m : M A) w r0 c0 l0 :
  wp m (w_chain w) (λ r c l, r = r0 ∧ c = c0 ∧ l = l0) → runs_to m w r0 c0 l0.
Proof.
  intros Hm. destruct (Hm w eq_refl) as (r & w' & l & Hw & Hf & Ht & -> & <- & ->). by exists w'.
Qed.

Lemma wp_outcome {A} (m : M A) w Q :
  wp m (w_chain w) Q → ∃ r c l, runs_to m w r c l ∧ Q r c l.
Proof.
  intros Hm. destruct (Hm w eq_refl) as (r & w' & l & Hw & Hf & Ht & HQ).
  exists r, (w_chain w'), l. split; [by exists w'|done].
Qed.

Lemma wp_mono {A} (m : M A) c (Q Q' : res A → chain → list io → Prop) :
  wp m c Q → (∀ r c' l, Q r c' l → Q' r c' l) → wp m c Q'.
Proof.
  intros Hm HQ w Hc. destruct (Hm w Hc) as (r & w' & l & ? & ? & ? & ?).
  exists r, w', l. auto.
Qed.

Lemma wp_bind {A B} (m : M A) (k : A → M B) c Q :
  wp m c (λ r c' l,
    match r with
    | Ok a => wp (k a) c' (λ r' c'' l', Q r' c'' (l ++ l'))
    | Throw e => Q (Throw e) c' l
    end) →
  wp (mbind_js m k) c Q.
Proof.
  intros Hm w Hc. destruct (Hm w Hc) as (r & w' & l & Hw & Hf & Ht & HQ). unfold mbind_js.
  rewrite Hw. destruct r as [a|e]; [|by exists (Throw e), w', l].
  destruct (HQ w' eq_refl) as (r' & w'' & l' & -> & Hf' & Ht' & HQ').
  exists r', w'', (l ++ l'). split_and!; [done|congruence| |done].
  by rewrite Ht', Ht, (assoc_L (++)).
Qed.

Lemma wp_pure {A} (m : M A) c Q r :
  (∀ w, w_chain w = c → m w = (r, w)) → Q r c [] → wp m c Q.
Proof.
  intros Hm HQ w Hc. exists r, w, []. rewrite app_nil_r, Hc. split_and!; auto.
Qed.

Lemma wp_ret {A} (a : A) c Q : Q (Ok a) c [] → wp (ret a) c Q.
Proof. by apply wp_pure. Qed.
Lemma wp_throw {A} e c Q : Q (Throw e) c [] → wp (@throw A e) c Q.
Proof. by apply wp_pure. Qed.
Lemma wp_lift {A} (r : res A) c Q : Q r c [] → wp (lift r) c Q.
Proof. by apply wp_pure. Qed.
Lemma wp_get_chain c Q : Q (Ok c) c [] → wp get_chain c Q.
Proof. apply wp_pure. intros w <-. done. Qed.

Lemma wp_output i c Q : is_tx i = false → Q (Ok tt) c [] → wp (output i) c Q.
Proof.
  intros Hi HQ w Hc. exists (Ok tt), (traced w [i]), []. rewrite output_run. simpl.
  rewrite txs_app, Hc. simpl. by rewrite Hi.
Qed.

Lemma wp_log msg c Q : Q (Ok tt) c [] → wp (console_log msg) c Q.
Proof. by apply wp_output. Qed.

Lemma wp_try {A} (m : M A) h c Q :
  wp m c (λ r c' l,
    match r with
    | Ok a => Q (Ok a) c' l
    | Throw e => wp (h e) c' (λ r' c'' l', Q r' c'' (l ++ l'))
    end) →
  wp (try_catch m h) c Q.
Proof.
  intros Hm w Hc. destruct (Hm w Hc) as (r & w' & l & Hw & Hf & Ht & HQ). unfold try_catch.
  rewrite Hw. destruct r as [a|e]; [by exists (Ok a), w', l|].
  destruct (HQ w' eq_refl) as (r' & w'' & l' & -> & Hf' & Ht' & HQ').
  exists r', w'', (l ++ l'). split_and!; [done|congruence| |done].
  by rewrite Ht', Ht, (assoc_L (++)).
Qed.

Section Rules.
Context `{Ethers, Evm} (hre : Hre).

Lemma wp_getContractFactory name c Q :
  Q (if hasContractFactory name then Ok tt
     else Throw (LibError "hardhat" ("HH700: Artifact for contract not found: " ++s name))) c [] →
  wp (getContractFactory name) c Q.
Proof. unfold getContractFactory. destruct (hasContractFactory name); [apply wp_ret|apply wp_throw]. Qed.

Lemma wp_fees c Q : Q (Ok (fees_of hre)) c [] → wp (getGasPrices hre) c Q.
Proof.
  intros HQ w Hc. exists (Ok (fees_of hre)), (traced w (fee_requests hre)), [].
  rewrite getGasPrices_run. simpl. rewrite txs_app, Hc. unfold fee_requests.
  by destruct (hre_chainId hre =? HARDHAT_CHAIN_ID).
Qed.

Lemma wp_wait n r c Q : Q (Ok r) c [] → wp (wait n r) c Q.
Proof. intros HQ. apply wp_bind, wp_output; [done|]. by apply wp_ret. Qed.

(** A transaction is sent only when it does not revert. *)
Lemma wp_send from to fc fees c Q :
  head (hre_signers hre) = Some from →
  match apply_tx (bump_nonce c from) from to fc with
  | Some (c', events) =>
      Q (Ok {| r_events := Some events; r_gasUsed := gas_used c fc |}) c' [ITx from to fc fees]
  | None => Q (Throw (LibError "ethers" "UNPREDICTABLE_GAS_LIMIT: execution reverted")) c []
  end →
  wp (send hre to fc fees) c Q.
Proof.
  intros Hs HQ w Hc. subst c.
  destruct (apply_tx (bump_nonce (w_chain w) from) from to fc) as [[c' es]|] eqn:E.
  - erewrite send_run by done. eexists _, (traced (on_chain w c') [ITx from to fc fees]), [ITx from to fc fees].
    simpl. rewrite txs_app. by split_and!.
  - erewrite send_reverts by done. eexists _, w, []. by rewrite app_nil_r.
Qed.
End Rules.

(** Steps through the calls that need no argument. *)
Ltac wp_rule :=
  lazymatch goal with
  | |- wp (mbind_js _ _) _ _ => apply wp_bind
  | |- wp (ret _) _ _ => apply wp_ret
  | |- wp (throw _) _ _ => apply wp_throw
  | |- wp (lift _) _ _ => apply wp_lift
  | |- wp get_chain _ _ => apply wp_get_chain
  | |- wp (console_log _) _ _ => apply wp_log
  | |- wp (output _) _ _ => apply wp_output; [reflexivity|]
  | |- wp (try_catch _ _) _ _ => apply wp_try
  | |- wp (getContractFactory _) _ _ => apply wp_getContractFactory
  | |- wp (getGasPrices _) _ _ => apply wp_fees
  | |- wp (wait _ _) _ _ => apply wp_wait
  end; cbv beta iota zeta.
