(* ===== verification/DeployAll.v ===== *)
(** * Deploying a whole list

    The task [deployContracts] of [scripts/lib/alicenetFactoryTasks.ts] with
    an existing factory: what the transactions for the contracts of a
    deployment list leave on chain and in the state file, together. *)

From S2P Require Import Prelude JsValue Constants Artifacts Fixtures Ethers Factory Instances FactoryProofs World Scenario StateFile DeployArgs Provider FactoryTasks DeployFlow Logic.
From stdpp Require Import options.
Local Open Scope Z_scope.

(** What deploying one or more contracts does. *)
Record outcome := {
  o_chain : chain;                        (* the chain afterwards *)
  o_txs : list io;                        (* the transactions *)
  o_gas : Z;                              (* the gas they use *)
  o_made : list (address * account);      (* the contracts they create *)
  o_salts : list string;                  (* the salts the factory records *)
  o_entries : list jsval }.               (* the entries of the state file *)

Definition no_outcome (c : chain) : outcome :=
  {| o_chain := c; o_txs := []; o_gas := 0; o_made := []; o_salts := []; o_entries := [] |}.
Definition followed_by (o o' : outcome) : outcome :=
  {| o_chain := o_chain o'; o_txs := o_txs o ++ o_txs o'; o_gas := o_gas o + o_gas o';
     o_made := o_made o ++ o_made o'; o_salts := o_salts o ++ o_salts o';
     o_entries := o_entries o ++ o_entries o' |}.

Section Reads.
Context `{Ethers, Toml} (hre : Hre).

Lemma reads_proxyArgs fq f wc u out v :
  reads (resolve (args_path u)) (getDeployUpgradeableProxyArgs hre fq f wc u out v).
Proof using Type.
  unfold getDeployUpgradeableProxyArgs, getDeploymentInitializerArgs, getDeploymentConstructorArgs.
  repeat first [progress auto using reads_args with reads
               |apply reads_bind; [|intros ?]
               |match goal with |- reads _ (if ?b then _ else _) => destruct b end].
Qed.

Lemma mbind_value {A B} (m : M A) (k : A → M B) w b :
  (mbind_js m k w).1 = Ok b → ∃ x w', m w = (Ok x, w') ∧ (k x w').1 = Ok b.
Proof using Type. unfold mbind_js. destruct (m w) as [[x|e] w']; [eauto|done]. Qed.

Lemma proxyArgs_fields fq f wc u out v w da :
  (getDeployUpgradeableProxyArgs hre fq f wc u out v w).1 = Ok da →
  a_contractName da = extractName fq ∧ a_factoryAddress da = f ∧ a_outputFolder da = out.
Proof using Type.
  unfold getDeployUpgradeableProxyArgs.
  intros (i & w1 & _ & (d & w2 & _ & (h & w3 & _ & (ca & w4 & _ & E)%mbind_value)%mbind_value)%mbind_value)%mbind_value.
  by injection E as <-.
Qed.
End Reads.

Section All.
Context `{Ethers, !EthersLaws, Evm, !EvmLaws, Toml} (hre : Hre).
Context (a : DeployContractsArgs) (f owner : address) (w0 : world).
Local Notation art := (hre_artifacts hre).

Definition factory_io (fc : factory_call) : io := ITx owner f fc (Some (fees_of hre)).

(** One contract of the list, on a chain where its deployment succeeds. *)
Inductive one (c : chain) (fq : string) : outcome → Prop :=
  | one_upgradeable n da salt code d st la pa es1 es2 dCreate dProxy dUpgrade :
      let calls := deploy_calls f dCreate dProxy dUpgrade in
      getDeployType art fq = Ok (Some UPGRADEABLE_DEPLOYMENT) →
      (getDeployUpgradeableProxyArgs hre fq f (t_waitConfirmation a) (t_inputFolder a)
         (t_outputFolder a) (t_verify a) w0).1 = Ok da →
      extractName fq = Some n →
      compiled hre n (default [] (a_constructorArgs da)) (a_initCallData da) fq salt code d →
      deploy_ready (bump_nonce c owner) f owner st salt code d la pa es1 es2 →
      encoded salt code d la dCreate dProxy dUpgrade → foreign es1 →
      estimate_gas c (FMultiCall calls) < MULTICALL_GAS_LIMIT →
      one c fq {| o_chain := deployed (bump_nonce c owner) f st salt code la pa;
                  o_txs := [factory_io (FMultiCall calls)];
                  o_gas := gas_used c (FMultiCall calls);
                  o_made := [(la, KCode code); (pa, KProxy f la)]; o_salts := [salt];
                  o_entries := [proxy_entry n f la pa salt d (gas_used c (FMultiCall calls))] |}
  | one_proxy n salt name st pa :
      getDeployType art fq = Ok (Some ONLY_PROXY) → extractName fq = Some n →
      (∀ w, getBytes32Salt hre n w = (Ok salt, w)) → parseBytes32String salt = Some name →
      hasContractFactory ALICENET_FACTORY = true →
      accounts c !! f = Some (KFactory st) → f_owner st = owner →
      accounts c !! f_proxyTemplate st = Some KTemplate →
      pa = proxy_address f salt → fresh (bump_nonce c owner) pa = true →
      one c fq {| o_chain := proxied (bump_nonce c owner) f st salt pa;
                  o_txs := [factory_io (FDeployProxy salt)];
                  o_gas := gas_used c (FDeployProxy salt);
                  o_made := [(pa, KProxy f 0)]; o_salts := [salt]; o_entries := [] |}
  | one_other t :
      getDeployType art fq = Ok t → t ≠ Some UPGRADEABLE_DEPLOYMENT → t ≠ Some ONLY_PROXY →
      one c fq (no_outcome c).

(** The list, each contract on the chain its predecessors leave. *)
Inductive all (c : chain) : list string → outcome → Prop :=
  | all_nil : all c [] (no_outcome c)
  | all_cons fq cs o o' :
      one c fq o → all (o_chain o) cs o' → all c (fq :: cs) (followed_by o o').

(** ** On chain *)

Lemma one_chain c fq o :
  one c fq o →
  (∀ x k, accounts c !! x = Some k → x ≠ f → accounts (o_chain o) !! x = Some k) ∧
  (∀ x k, (x, k) ∈ o_made o →
     accounts c !! x = None ∧ x ≠ f ∧ accounts (o_chain o) !! x = Some k) ∧
  NoDup (o_made o).*1 ∧
  ∀ st, accounts c !! f = Some (KFactory st) →
    ∃ st', accounts (o_chain o) !! f = Some (KFactory st') ∧
           f_contracts st' = f_contracts st ++ o_salts o.
Proof using Type*.
  intros Ho. destruct Ho as [n da salt code d st la pa es1 es2 dC dP dU calls _ _ _ _ R _ _ _
    |n salt name st pa _ _ _ _ _ Hf _ _ _ Hfr|t _ _ _]; cbn [no_outcome o_chain o_made o_salts].
  - destruct R as [Hst _ _ _ _ _ Hla Hpa Hlp _ _ _ _].
    pose proof (fresh_ne _ _ _ _ Hla Hst) as Hfl. pose proof (fresh_ne _ _ _ _ Hpa Hst) as Hfp.
    apply fresh_spec in Hla as [Hla _], Hpa as [Hpa _].
    destruct (deployed_accounts (bump_nonce c owner) f st salt code la pa Hfl Hfp Hlp)
      as (A1 & A2 & A3 & A4). cbn [bump_nonce accounts] in *.
    split_and!.
    + intros x k Hx Hxf. rewrite A4; [done|congruence..].
    + intros x k [[= -> ->]|[[= -> ->]|Hx%not_elem_of_nil]%elem_of_cons]%elem_of_cons; by split_and!.
    + simpl. by repeat constructor; set_solver.
    + intros st0 Hst0. eexists. split; [exact A3|]. by simplify_eq.
  - pose proof (fresh_ne _ _ _ _ Hfr Hf) as Hfp. apply fresh_spec in Hfr as [Hpa _].
    cbn [bump_nonce accounts] in Hpa. split_and!.
    + intros x k Hx Hxf. rewrite proxied_other by congruence. done.
    + intros x k [[= -> ->]|Hx%not_elem_of_nil]%elem_of_cons; [|done].
      split_and!; [done..|by apply proxied_proxy].
    + apply NoDup_singleton.
    + intros st0 Hst0. eexists. split; [apply with_state_lookup|]. by simplify_eq.
  - split_and!; [done|by intros ?? ?%not_elem_of_nil|constructor|].
    intros st Hst. exists st. by rewrite app_nil_r.
Qed.

Lemma all_chain c cs o :
  all c cs o →
  (∀ x k, accounts c !! x = Some k → x ≠ f → accounts (o_chain o) !! x = Some k) ∧
  (∀ x k, (x, k) ∈ o_made o →
     accounts c !! x = None ∧ x ≠ f ∧ accounts (o_chain o) !! x = Some k) ∧
  NoDup (o_made o).*1 ∧
  ∀ st, accounts c !! f = Some (KFactory st) →
    ∃ st', accounts (o_chain o) !! f = Some (KFactory st') ∧
           f_contracts st' = f_contracts st ++ o_salts o.
Proof using Type*.
  induction 1 as [c|c fq cs o o' Hone _ (K2 & M2 & N2 & S2)];
    cbn [no_outcome followed_by o_chain o_made o_salts].
  { split_and!; [done|by intros ?? ?%not_elem_of_nil|constructor|].
    intros st Hst. exists st. by rewrite app_nil_r. }
  destruct (one_chain _ _ _ Hone) as (K1 & M1 & N1 & S1). split_and!.
  - auto.
  - intros x k [Hx|Hx]%elem_of_app.
    + destruct (M1 _ _ Hx) as (? & ? & ?). auto.
    + destruct (M2 _ _ Hx) as (Hn & Hf & ?). split_and!; [|done..].
      destruct (accounts c !! x) as [k0|] eqn:E; [|done]. apply K1 in E; [congruence|done].
  - rewrite fmap_app. apply NoDup_app. split_and!; [done| |done].
    intros x ([x1 k1] & -> & Ha)%list_elem_of_fmap ([x2 k2] & E & Hb)%list_elem_of_fmap.
    simpl in E. subst x2. apply M1 in Ha as (_ & _ & Ha). apply M2 in Hb as (Hb & _). congruence.
  - intros st Hst. destruct (S1 _ Hst) as (st1 & Hst1 & E1). destruct (S2 _ Hst1) as (st2 & Hst2 & E2).
    exists st2. split; [done|]. by rewrite E2, E1, (assoc_L (++)).
Qed.

(** ** Recording *)

Local Notation net := (hre_network hre).

(** The state after one entry, and after a list of them. *)
Definition record_entry (m : gmap (string * string) jsval) (e : jsval) : gmap (string * string) jsval :=
  <[(net, "proxies") := JArr (default [] (list_at m net "proxies") ++ [e])]> m.
Definition record_all (m : gmap (string * string) jsval) (es : list jsval) : gmap (string * string) jsval := foldl record_entry m es.

(** The state file lists only deployments under ["proxies"]. *)
Definition listing (m : gmap (string * string) jsval) : Prop :=
  ∃ l, list_at m net "proxies" = Some l ∧ Forall (λ v, is_nullish v = false) l.

Lemma record_entry_list m l e :
  list_at m net "proxies" = Some l → list_at (record_entry m e) net "proxies" = Some (l ++ [e]).
Proof using Type. intros Hl. unfold record_entry, list_at at 1. by rewrite lookup_insert_eq, Hl. Qed.

Lemma record_all_list m l es :
  list_at m net "proxies" = Some l → list_at (record_all m es) net "proxies" = Some (l ++ es).
Proof using Type.
  revert m l. induction es as [|e es IH]; intros m l Hl; [by rewrite app_nil_r|].
  etrans; [exact (IH _ _ (record_entry_list m l e Hl))|]. by rewrite <-(assoc_L (++)).
Qed.

Lemma record_all_other m es k : k ≠ (net, "proxies") → record_all m es !! k = m !! k.
Proof using Type.
  intros Hk. revert m. induction es as [|e es IH]; intros m; [done|]. etrans; [apply IH|].
  by apply lookup_insert_ne.
Qed.

(** What the files must be like before a deployment: the arguments file as at
    the start, and unless recording is off the state [m] of a network the
    file knows. *)
Record recording (m : gmap (string * string) jsval) (w : world) : Prop := {
  rc_args : fs_lookup (w_fs w) (resolve (args_path (t_inputFolder a))) =
            fs_lookup (w_fs w0) (resolve (args_path (t_inputFolder a)));
  rc_state : silenced hre = false →
    holds_state w (t_outputFolder a) m ∧ is_proto net = false ∧ listing m ∧
    (∃ f0 v0, m !! (net, f0) = Some v0) ∧
    resolve (args_path (t_inputFolder a)) ≠ resolve (state_path (t_outputFolder a)) }.

Lemma recording_same m w w' : w_fs w' = w_fs w → recording m w → recording m w'.
Proof using Type.
  intros E [Ha Hs]. split; rewrite ?E; [done|]. intros Hq. destruct (Hs Hq) as ((t & c & ? & ? & ?) & ?).
  split; [|done]. exists t, c. by rewrite E.
Qed.

(** Recording one entry. *)
Lemma record_step `{!TomlLaws} m w n la pa salt d (receipt : Receipt) :
  recording m w →
  let e := proxy_entry n f la pa salt d (r_gasUsed receipt) in
  ∃ r w', updateProxyList hre net (proxy_data n f la pa salt d receipt) (t_outputFolder a) w = (r, w') ∧
    w_chain w' = w_chain w ∧ w_trace w' = w_trace w ∧
    ((∃ v, r = Ok v ∧ js_get v "gas" = Ok (JBig (r_gasUsed receipt)) ∧ recording (record_entry m e) w') ∨
     (silenced hre = false ∧ r = Throw (LibError "toml" "stringify") ∧ recording m w')).
Proof using Type*.
  intros Hrc e. destruct (silenced hre) eqn:Hq.
  { unfold updateProxyList. rewrite (updateList_silenced hre _ _ _ _ _ Hq).
    eexists _, w. split; [done|]. split_and!; [done..|]. left. eexists. split; [done|]. split; [done|].
    destruct Hrc as [Ha _]. by split; [|congruence]. }
  pose proof Hrc as [Ha Hs]. destruct (Hs Hq) as (Hh & Hp & (l & Hl & Hnn) & (f0 & v0 & Hk) & Hne).
  destruct (update_list_spec hre w (t_outputFolder a) m net "proxies" f0 v0
    (proxy_data n f la pa salt d receipt) e l Hq Hp eq_refl Hh Hk Hl Hnn eq_refl eq_refl)
    as (r & w' & E & [(-> & Hh' & Hc & Ht & Hf)|[-> ->]]);
    eexists _, _; (split; [exact E|]).
  - split_and!; [done..|]. left. exists e. split; [done|]. split; [done|].
    split; [by rewrite Hf|]. intros _. unfold record_entry. rewrite Hl. split_and!; try done.
    + eexists. split; [unfold list_at; by rewrite lookup_insert_eq|]. apply Forall_app. split; [done|].
      by repeat constructor.
    + destruct (decide ((net, f0) = (net, "proxies"))) as [Ek|].
      * eexists _, _. apply lookup_insert_eq.
      * eexists f0, v0. by rewrite lookup_insert_ne.
  - split_and!; [done..|]. by right.
Qed.

(** ** The runs *)

Context `{!TomlLaws} (Hsig : head (hre_signers hre) = Some owner) (Hof : owner ≠ f).

Lemma txs_fees : txs (fee_requests hre) = [].
Proof using Type. unfold fee_requests. by destruct (hre_chainId hre =? HARDHAT_CHAIN_ID). Qed.
Lemma txs_limit : txs (limit_trace hre) = [].
Proof using Type. unfold limit_trace. by case_decide. Qed.
Lemma txs_verify v x : txs (verify_trace hre v x) = [].
Proof using Type. unfold verify_trace. destruct (truthy v); [|done]. by destruct (hre_verify hre x). Qed.
Lemma txs_shown msg : txs (shown hre msg) = [].
Proof using Type. unfold shown. by destruct (silenced hre). Qed.

(** What one or more contracts of the list come to: all recorded, or the
    recording failed where [last] says what was deployed last. *)
Definition ends (m : gmap (string * string) jsval) (w : world) (g : Z) (o : outcome)
    (r : res Z) (w' : world) : Prop :=
  r = Ok (g + o_gas o) ∧ w_chain w' = o_chain o ∧ txs (w_trace w') = txs (w_trace w) ++ o_txs o ∧
  recording (record_all m (o_entries o)) w'.

Definition fails (m : gmap (string * string) jsval) (w : world) (o : outcome)
    (es : list jsval) (r : res Z) (w' : world) : Prop :=
  silenced hre = false ∧ r = Throw (LibError "toml" "stringify") ∧ w_chain w' = o_chain o ∧
  txs (w_trace w') = txs (w_trace w) ++ o_txs o ∧ recording (record_all m es) w'.

(** [deployProxy] as a transaction of the owner. *)
Lemma proxy_only_tx c st salt pa :
  accounts c !! f = Some (KFactory st) → f_owner st = owner →
  accounts c !! f_proxyTemplate st = Some KTemplate →
  pa = proxy_address f salt → fresh c pa = true →
  apply_tx c owner f (FDeployProxy salt) =
  Some (proxied c f st salt pa, [factory_event f DEPLOYED_PROXY pa]).
Proof using Type.
  intros Hf Ho Ht -> Hfr. unfold apply_tx, factory_tx. rewrite Hf.
  by rewrite (exec_deployProxy _ _ _ _ _ _ _ Hf Hfr Ht (owner_auth _ _ _ Ho)).
Qed.

Lemma proxy_only_run salt name st pa w wc :
  parseBytes32String salt = Some name → hasContractFactory ALICENET_FACTORY = true →
  accounts (bump_nonce (w_chain w) owner) !! f = Some (KFactory st) → f_owner st = owner →
  accounts (bump_nonce (w_chain w) owner) !! f_proxyTemplate st = Some KTemplate →
  pa = proxy_address f salt → fresh (bump_nonce (w_chain w) owner) pa = true →
  ∃ v l, task_deployProxy hre salt f wc w =
    (Ok v, traced (on_chain w (proxied (bump_nonce (w_chain w) owner) f st salt pa)) l) ∧
    js_get v "gas" = Ok (JBig (gas_used (w_chain w) (FDeployProxy salt))) ∧
    txs l = [factory_io (FDeployProxy salt)].
Proof using Type*.
  intros Hname Hb Hf Ho Htm Hpa Hfr. unfold task_deployProxy. cbv zeta.
  mstep (getContractFactory_run ALICENET_FACTORY w Hb). mstep (getGasPrices_run hre w).
  rewrite (mbind_Ok _ _ _ _ _ (send_run hre (traced w _) owner f _ _ _ _ Hsig
    (proxy_only_tx (bump_nonce (w_chain w) owner) st salt pa Hf Ho Htm Hpa Hfr))).
  unfold wait. rewrite !mbind_assoc, (mbind_Ok _ _ _ _ _ (output_run _ _)), mbind_ret.
  rewrite on_chain_traced, !traced_app.
  rewrite (mbind_lift _ _ _ (JAddr pa)) by apply find_event_factory.
  rewrite Hname, (mbind_lift _ _ _ name) by done.
  rewrite (mbind_Ok _ _ _ _ _ (showState_run _ _ _)), traced_app.
  eexists _, _. split; [reflexivity|]. split; [done|].
  by rewrite !txs_app, txs_fees, txs_shown, app_nil_r.
Qed.

Lemma one_run m c fq o g w :
  one c fq o → w_chain w = c → recording m w →
  ∃ r w', deploy_one hre a f g (JStr fq) w = (r, w') ∧ (ends m w g o r w' ∨ fails m w o [] r w').
Proof using Type*.
  intros Ho Hc Hrc. unfold deploy_one. cbn [as_name].
  destruct Ho as [n da salt code d st la pa es1 es2 dC dP dU calls Ht Hda Hn C R E Hes Hg
    |n salt name st pa Ht Hn Hs Hname Hb Hf Ho Htm Hpa Hfr|t Ht Hu Ho]; subst c;
    rewrite mbind_ret, (mbind_lift _ _ _ _ Ht).
  - rewrite decide_True by done. destruct (proxyArgs_fields _ _ _ _ _ _ _ _ _ Hda) as (Dn & Df & Do).
    pose proof (reads_proxyArgs hre fq f (t_waitConfirmation a) (t_inputFolder a) (t_outputFolder a)
      (t_verify a) w w0 (rc_args _ _ Hrc)) as Hargs. rewrite Hda in Hargs. mstep Hargs.
    rewrite Hn in Dn.
    pose proof (full_run hre da n fq salt code d f owner la pa st es1 es2 dC dP dU w Dn Df Hsig Hof C R E
      Hes Hg) as Hrun. cbv zeta in Hrun. rewrite Do in Hrun.
    match type of Hrun with _ = updateProxyList _ _ (proxy_data _ _ _ _ _ _ ?rc) _ ?w1 =>
      destruct (record_step m w1 n la pa salt d rc) as (r & w' & Er & Hc' & Ht' & Hcase) end.
    { by eapply recording_same, Hrc. }
    cbn [w_chain w_trace traced on_chain r_gasUsed deploy_receipt] in *.
    assert (txs (w_trace w') = txs (w_trace w) ++ [factory_io (FMultiCall calls)]) as Htx.
    { rewrite Ht', txs_app. unfold deploy_trace. rewrite !txs_app, txs_limit, txs_fees, txs_verify, txs_shown.
      by rewrite Df. }
    rewrite Er in Hrun. destruct Hcase as [(v & -> & Hv & Hrc')|(Hq & -> & Hrc')].
    + mstep Hrun. rewrite (mbind_lift _ _ _ _ Hv). cbn [add_gas]. eexists _, w'. split; [done|]. left.
      by split_and!.
    + rewrite (mbind_Throw _ _ _ _ _ Hrun). eexists _, w'. split; [done|]. right. by split_and!.
  - rewrite decide_False, decide_True by done. rewrite Hn. rewrite (mbind_lift _ _ _ n) by done.
    mstep (Hs w).
    destruct (proxy_only_run salt name st pa w (t_waitConfirmation a) Hname Hb Hf Ho Htm Hpa Hfr)
      as (v & l & Hrun & Hv & Hl).
    mstep Hrun. rewrite (mbind_lift _ _ _ _ Hv). cbn [add_gas]. eexists _, _. split; [done|]. left.
    split_and!; [done..|cbn [traced w_trace on_chain]; by rewrite txs_app, Hl|].
    by eapply recording_same, Hrc.
  - rewrite !decide_False by done. eexists _, w. split; [done|]. left.
    unfold ends. cbn [no_outcome o_gas o_txs]. by rewrite Z.add_0_r, app_nil_r.
Qed.

(** Where a failing list stops. *)
Definition stops (m : gmap (string * string) jsval) (w : world) (c : chain) (cs : list string)
    (r : res Z) (w' : world) : Prop :=
  ∃ cs1 fq cs2 o1 o2, cs = cs1 ++ fq :: cs2 ∧ all c cs1 o1 ∧ one (o_chain o1) fq o2 ∧
    fails m w (followed_by o1 o2) (o_entries o1) r w'.

Lemma all_run m c cs o : ∀ g w,
  all c cs o → w_chain w = c → recording m w →
  ∃ r w', foldM (deploy_one hre a f) (JStr <$> cs) g w = (r, w') ∧
    (ends m w g o r w' ∨ stops m w c cs r w').
Proof using Type*.
  intros g w Ha. revert m g w. induction Ha as [c|c fq cs o o' Hone Ha IH]; intros m g w Hc Hrc.
  { eexists _, w. split; [done|]. left. unfold ends. cbn [no_outcome o_gas o_chain o_txs].
    by rewrite Z.add_0_r, app_nil_r. }
  cbn [fmap list_fmap foldM].
  destruct (one_run m _ _ _ g w Hone Hc Hrc) as (r1 & w1 & R1 & [(-> & C1 & T1 & Rc1)|Hf]).
  - mstep R1.
    destruct (IH _ (g + o_gas o) w1 C1 Rc1) as (r2 & w2 & -> & Hcase). eexists _, _. split; [done|].
    destruct Hcase as [(-> & C2 & T2 & Rc2)|(cs1 & fq' & cs2 & o1 & o2 & -> & Ha1 & Ho2 & Hq & -> & C2 & T2 & Rc2)].
    + left. unfold ends. cbn [followed_by o_gas o_chain o_txs o_entries]. rewrite T2, T1, Z.add_assoc.
      split_and!; [done..|by rewrite (assoc_L (++))|]. unfold record_all. by rewrite foldl_app.
    + right. exists (fq :: cs1), fq', cs2, (followed_by o o1), o2. split_and!; [done|by apply all_cons|done|].
      split_and!; [done..| |].
      * cbn [followed_by o_txs] in *. by rewrite T2, T1, !(assoc_L (++)).
      * cbn [followed_by o_entries]. unfold record_all. by rewrite foldl_app.
  - destruct Hf as (Hq & -> & C1 & T1 & Rc1). rewrite (mbind_Throw _ _ _ _ _ R1). eexists _, _.
    split; [done|]. right. exists [], fq, cs, (no_outcome c), o. split_and!; [done|apply all_nil|done|].
    by split_and!.
Qed.

(** C3: [deployContracts] with an existing factory deploys the whole
    deployment list: for each contract of the list, in the list's order, the
    one transaction of its deployment, of the owner through the factory, and
    none for a contract that is not deployable.  In the end every logic
    contract and every proxy created on the way is on chain as its own
    deployment left it, at an address no other has and none had before; no
    older contract but the factory changed; the factory recorded the salts in
    that order; the state file, unless recording is off, lists the entries of
    the upgradeable contracts after what it listed before; and the last line
    printed is the sum of the gas of these transactions.  The one thing that
    can fail is writing the state file: then the task stops right there, the
    contracts up to that one are deployed and all but the last recorded. *)
Theorem deploy_contracts_all m cs o st w :
  t_factoryAddress a = Some f → checkUserDirPath (t_outputFolder a) w = (Ok tt, w) →
  recording m w → getDeploymentList (t_inputFolder a) w = (Ok (JArr (JStr <$> cs)), w) →
  accounts (w_chain w) !! f = Some (KFactory st) → all (w_chain w) cs o →
  ∃ r w', task_deployContracts hre a w = (r, w') ∧
    ((r = Ok tt ∧ txs (w_trace w') = txs (w_trace w) ++ o_txs o ∧
      last (w_trace w') = Some (ILog ("total gas used: " ++s pretty (o_gas o))) ∧
      NoDup (o_made o).*1 ∧
      (∀ x k, (x, k) ∈ o_made o →
         accounts (w_chain w) !! x = None ∧ accounts (w_chain w') !! x = Some k) ∧
      (∀ x k, accounts (w_chain w) !! x = Some k → x ≠ f → accounts (w_chain w') !! x = Some k) ∧
      (∃ st', accounts (w_chain w') !! f = Some (KFactory st') ∧
         f_contracts st' = f_contracts st ++ o_salts o) ∧
      (silenced hre = false → holds_state w' (t_outputFolder a) (record_all m (o_entries o)))) ∨
     (silenced hre = false ∧ r = Throw (LibError "toml" "stringify") ∧
      ∃ cs1 fq cs2 o1 o2, cs = cs1 ++ fq :: cs2 ∧ all (w_chain w) cs1 o1 ∧ one (o_chain o1) fq o2 ∧
        w_chain w' = o_chain o2 ∧ txs (w_trace w') = txs (w_trace w) ++ o_txs o1 ++ o_txs o2 ∧
        holds_state w' (t_outputFolder a) (record_all m (o_entries o1)))).
Proof using Type*.
  intros Hfa Hu Hrc Hl Hst Ha. destruct (all_chain _ _ _ Ha) as (K & M & N & S).
  destruct (all_run m _ _ _ 0 w Ha eq_refl Hrc) as (r & w1 & R & Hcase).
  unfold task_deployContracts. mstep Hu. rewrite Hfa. cbn [deployed_factory]. rewrite mbind_ret.
  mstep Hl. cbn [list_items fst snd].
  destruct Hcase as [(-> & C & T & Rc)|(cs1 & fq & cs2 & o1 & o2 & -> & Ha1 & Ho2 & Hq & -> & C & T & Rc)].
  - mstep R. eexists _, _. split; [reflexivity|]. left. cbn [traced w_trace w_chain]. rewrite C.
    split_and!; auto.
    + by rewrite txs_app, T, app_nil_r.
    + by rewrite last_snoc.
    + intros x k Hx. destruct (M x k Hx) as (? & _ & ?). done.
    + intros Hq. by apply (rc_state _ _ Rc).
  - rewrite (mbind_Throw _ _ _ _ _ R). eexists _, _. split; [reflexivity|]. right.
    split_and!; [done..|]. exists cs1, fq, cs2, o1, o2. split_and!; try done.
    by apply (rc_state _ _ Rc).
Qed.
End All.

(** ** Witness: two contracts and one that is not deployable *)

#[local] Existing Instances toml_model toml_model_laws ethers_model ethers_model_laws evm_ex.
#[local] Instance evm_ex_laws : EvmLaws := evm_model_laws 2000000.

Definition hre_rec : Hre := hre_ex None.
Definition list_ex : list string := [fx_full fx_ETHDKG; fx_full fx_Proxy; fx_full fx_Phases].
Definition config_text (v : jsval) : string := default EmptyString (toml_stringify v).
Definition world_all : world :=
  {| w_fs := <[[".."; "scripts"; "base-files"; "deploymentList"] :=
                 File (config_text (JObj [("deploymentList", JArr (JStr <$> list_ex))]))]>
             (<[[".."; "scripts"; "base-files"; "deploymentArgsTemplate"] :=
                 File (config_text (JObj [("constructor", JObj []);
                   ("initializer", JObj [(fx_full fx_ETHDKG,
                     JArr [JObj [("phaseLength_", JStr "40")]; JObj [("confirmationLength_", JStr "6")]])])]))]>
              (w_fs state_world_ex));
     w_chain := chain_ex; w_trace := [] |}.

Definition all_args : DeployContractsArgs :=
  {| t_waitConfirmation := None; t_verify := None; t_factoryAddress := Some factory_ex;
     t_inputFolder := None; t_outputFolder := Some "out/" |}.

Lemma compiled_dkg : compiled hre_rec "ETHDKG" [] (Some "40,6") dkg_fq dkg_salt dkg_code dkg_init.
Proof. destruct (compiled_ex None); split; auto. Qed.

Definition phases_fq : string := fx_full fx_Phases.
Definition phases_salt : string := default EmptyString (formatBytes32String "ETHDKGPhases").
Definition phases_code : string :=
  match getDeployData "ETHDKGPhases" [] with Some (Some c) => c | _ => EmptyString end.

Lemma compiled_phases :
  compiled hre_rec "ETHDKGPhases" [] None phases_fq phases_salt phases_code EMPTY.
Proof.
  assert (∀ w, getBytes32Salt hre_rec "ETHDKGPhases" w = (Ok phases_salt, w) ∧
               utilBytes32Salt hre_rec "ETHDKGPhases" w = (Ok phases_salt, w)) as Hsalt.
  { intros w. apply (getBytes32Salt_spec hre_rec "ETHDKGPhases" w (fx_path fx_Phases)
      (fx_build fx_all) (fx_output fx_Phases) "ETHDKGPhases"); reflexivity. }
  split; try (intros; apply Hsalt); try reflexivity; try (eexists; vm_compute; reflexivity).
  right. split_and!; vm_compute; done.
Qed.

(** The chain after the first contract, and the second one's addresses. *)
Definition chain_mid : chain :=
  deployed (bump_nonce chain_ex owner_ex) factory_ex st_ex dkg_salt dkg_code la_ex pa_ex.
Definition la_mid : address := getContractAddress factory_ex (nonce_of chain_mid factory_ex).
Definition pa_mid : address := getMetamorphicContractAddress phases_salt factory_ex.
Definition st_mid : FactoryState := add_salt (use_template st_ex) dkg_salt.

Lemma ready_mid :
  deploy_ready (bump_nonce chain_mid owner_ex) factory_ex owner_ex st_mid phases_salt phases_code EMPTY
    la_mid pa_mid [] [].
Proof. split; vm_compute; try reflexivity; discriminate. Qed.

Definition da_ex (n : string) (icd : option string) : DeployArgs := {|
  a_contractName := Some n; a_factoryAddress := factory_ex; a_waitConfirmation := None;
  a_initCallData := icd; a_constructorArgs := None; a_outputFolder := Some "out/"; a_verify := None |}.

Lemma args_ex fq n icd :
  (fq, n, icd) ∈ [(fx_full fx_ETHDKG, "ETHDKG", Some "40,6"); (phases_fq, "ETHDKGPhases", None)] →
  (getDeployUpgradeableProxyArgs hre_rec fq factory_ex None None (Some "out/") None world_all).1 =
  Ok (da_ex n icd).
Proof.
  intros Hin. apply elem_of_cons in Hin as [[= -> -> ->]|[[= -> -> ->]|[]%not_elem_of_nil]%elem_of_cons];
    vm_compute; reflexivity.
Qed.

Lemma one_dkg :
  ∃ o, one hre_rec all_args factory_ex owner_ex world_all chain_ex (fx_full fx_ETHDKG) o ∧
    o_chain o = chain_mid ∧ (∃ e, o_entries o = [e]) ∧
    o_made o = [(la_ex, KCode dkg_code); (pa_ex, KProxy factory_ex la_ex)].
Proof.
  eexists. split; [eapply (one_upgradeable hre_rec all_args factory_ex owner_ex world_all
    chain_ex (fx_full fx_ETHDKG) "ETHDKG" (da_ex "ETHDKG" (Some "40,6")))|split_and!; eauto].
  - vm_compute. reflexivity.
  - apply args_ex. set_solver.
  - reflexivity.
  - apply compiled_dkg.
  - apply ready_ex.
  - apply encoded_ex.
  - constructor.
  - reflexivity.
Qed.

Lemma one_phases :
  ∃ o, one hre_rec all_args factory_ex owner_ex world_all chain_mid phases_fq o ∧
    (∃ e, o_entries o = [e]) ∧
    o_made o = [(la_mid, KCode phases_code); (pa_mid, KProxy factory_ex la_mid)].
Proof.
  eexists. split; [eapply (one_upgradeable hre_rec all_args factory_ex owner_ex world_all
    chain_mid phases_fq "ETHDKGPhases" (da_ex "ETHDKGPhases" None))|eauto].
  - vm_compute. reflexivity.
  - apply args_ex. set_solver.
  - reflexivity.
  - apply compiled_phases.
  - apply ready_mid.
  - split; reflexivity.
  - constructor.
  - reflexivity.
Qed.

Lemma all_ex :
  ∃ o, all hre_rec all_args factory_ex owner_ex world_all (w_chain world_all) list_ex o ∧
    o_made o = [(la_ex, KCode dkg_code); (pa_ex, KProxy factory_ex la_ex);
                (la_mid, KCode phases_code); (pa_mid, KProxy factory_ex la_mid)] ∧
    ∃ e1 e2, o_entries o = [e1; e2].
Proof.
  destruct one_dkg as (o1 & D1 & E1 & (e1 & N1) & M1).
  destruct one_phases as (o2 & D2 & (e2 & N2) & M2).
  rewrite <-E1 in D2.
  exists (followed_by o1 (followed_by (no_outcome (o_chain o1)) (followed_by o2 (no_outcome (o_chain o2))))).
  split; [|split].
  - apply all_cons; [exact D1|]. apply all_cons.
    + apply (one_other _ _ _ _ _ _ _ None); [vm_compute; reflexivity|discriminate..].
    + apply all_cons; [exact D2|apply all_nil].
  - cbn [followed_by no_outcome o_made]. by rewrite M1, M2.
  - exists e1, e2. cbn [followed_by no_outcome o_entries]. by rewrite N1, N2.
Qed.

Lemma recording_ex : recording hre_rec all_args world_all state_map_ex world_all.
Proof.
  split; [reflexivity|]. intros _. split_and!; [|reflexivity| | |vm_compute; discriminate].
  - destruct state_world_holds as (t & c & Hf & Hc & Hr). exists t, c. split_and!; [|exact Hc|exact Hr].
    rewrite <-Hf. vm_compute. reflexivity.
  - exists []. by split; [vm_compute|constructor].
  - exists "defaultFactoryAddress", (JAddr factory_ex). vm_compute. reflexivity.
Qed.

Example deploys_and_records : (task_deployContracts hre_rec all_args world_all).1 = Ok tt.
Proof. vm_compute. reflexivity. Qed.

Lemma deploy_contracts_all_witness :
  ∃ w', task_deployContracts hre_rec all_args world_all = (Ok tt, w') ∧
    accounts (w_chain w') !! pa_ex = Some (KProxy factory_ex la_ex) ∧
    accounts (w_chain w') !! pa_mid = Some (KProxy factory_ex la_mid) ∧
    ∃ e1 e2, holds_state w' (Some "out/") (record_all hre_rec state_map_ex [e1; e2]).
Proof.
  destruct all_ex as (o & Ha & Hm & e1 & e2 & He).
  destruct (deploy_contracts_all hre_rec all_args factory_ex owner_ex world_all eq_refl
    ltac:(discriminate) state_map_ex list_ex o st_ex world_all) as (r & w' & R & Hcase).
  - reflexivity.
  - reflexivity.
  - apply recording_ex.
  - vm_compute. reflexivity.
  - vm_compute. reflexivity.
  - exact Ha.
  - pose proof deploys_and_records as Hr. rewrite R in Hr. cbn [fst] in Hr. subst r.
    destruct Hcase as [(_ & _ & _ & _ & M & _ & _ & Hh)|(_ & [=] & _)].
    rewrite Hm in M. rewrite He in Hh. exists w'. split; [exact R|].
    split; [refine (proj2 (M pa_ex _ _)); apply elem_of_cons; right; apply elem_of_cons; by left|].
    split; [refine (proj2 (M pa_mid _ _)); do 3 (apply elem_of_cons; right); apply elem_of_cons; by left|].
    exists e1, e2. by apply Hh.
Defined.
