(* ===== verification/FactoryLib.v ===== *)
(** * Deploying from a script

    [scripts/lib/alicenetFactory.ts]: [deployUpgradeable] and [upgradeProxy],
    the variants of the deployment tasks that other scripts call.  They keep
    private copies of the helpers on artifacts and receipts and record
    nothing on disk. *)

From S2P Require Import Prelude JsValue Constants Artifacts Fixtures Ethers Factory Instances FactoryProofs World Scenario Provider FactoryTasks DeployFlow Logic.
From stdpp Require Import options.
Local Open Scope Z_scope.

Module FactoryLib.
Definition defaultFactoryName : string := "AliceNetFactory".
Definition DeployedRawEvent : string := "DeployedRaw".
Definition DeployedProxyEvent : string := "DeployedProxy".
Definition contractAddrVar : string := "contractAddr".

(** [events[i].args[varName]] of the events of one name; unlike the search
    of the tasks this one has a single result variable. *)
Fixpoint event_loop (events : list event) (eventName varName : string) : res jsval :=
  match events with
  | [] => Throw (Error ("failed to find event: " ++s eventName))
  | e :: es =>
      if decide (ev_name e = Some eventName) then
        match ev_args e with
        | Some args =>
            let result := default JUndefined (obj_get args varName) in
            if is_undefined result then event_loop es eventName varName else Ok result
        | None => Throw (Error ("failed to extract " ++s varName ++s " from event: " ++s eventName))
        end
      else event_loop es eventName varName
  end.

Definition getEventVar (receipt : Receipt) (eventName varName : string) : res jsval :=
  match r_events receipt with
  | Some events => event_loop events eventName varName
  | None => Throw (Error ("failed to find event: " ++s eventName))
  end.

(** The first artifact with the name; [None] is undefined. *)
Definition getFullyQualifiedName (art : Artifacts) (contractName : string) : option string :=
  find_named contractName (getAllFullyQualifiedNames art).

Section Lib.
Context `{Ethers, Evm} (hre : Hre).
Local Notation art := (hre_artifacts hre).

(** Undefined when the tag is missing or empty. *)
Definition getSalt (contractName : string) : res (option string) :=
  qualifiedName <~ of_option (LibError "hardhat" "invalid fully qualified name")
                             (getFullyQualifiedName art contractName) ;;
  buildInfo <~ art_getBuildInfo art qualifiedName ;;
  match buildInfo with
  | Some bi =>
      contractOutput <~ contract_at bi qualifiedName ;;
      match co_devdoc contractOutput !! "custom:salt" with
      | Some salt =>
          if decide (salt = EmptyString) then Ok None
          else b <~ of_option (LibError "ethers" "bytes32 string must be less than 32 bytes")
                              (formatBytes32String salt) ;; Ok (Some b)
      | None => Ok None
      end
  | None => Throw (Error "Missing custom:salt")
  end.

Definition getDeployUpgradeableMultiCallArgs (factoryAddress : address) (Salt : string)
    (logicAddress : jsval) (initCallData : option string) : M (list MultiCallArgs) :=
  getContractFactory ALICENET_FACTORY ;;;
  deployProxy <- encode_call ALICENET_FACTORY "deployProxy" [JStr Salt] ;;
  upgradeProxy <-
    match initCallData with
    | Some d => encode_call ALICENET_FACTORY "upgradeProxy" [JStr Salt; logicAddress; JStr d]
    | None => encode_call ALICENET_FACTORY "upgradeProxy" [JStr Salt; logicAddress; JStr "0x"]
    end ;;
  ret [encodeMultiCallArgs factoryAddress 0 deployProxy;
       encodeMultiCallArgs factoryAddress 0 upgradeProxy].

(** [proxySalt] as a member of the result. *)
Definition salt_js (o : option string) : jsval :=
  match o with Some s => JStr s | None => JUndefined end.

Definition deployUpgradeable (contractName : string) (factoryAddress : address)
    (constructorArgs : list jsval) : M jsval :=
  getContractFactory defaultFactoryName ;;;
  getContractFactory contractName ;;;
  deployBytecode <- deploy_data contractName constructorArgs ;;
  match deployBytecode with
  | Some deployBytecode =>
      receipt <- send hre factoryAddress (FDeployCreate deployBytecode) None ;;
      receipt <- wait None receipt ;;
      proxySalt <- lift (getSalt contractName) ;;
      logicAddress <- lift (getEventVar receipt DEPLOYED_RAW CONTRACT_ADDR) ;;
      let res := [("logicAddress", logicAddress); ("proxySalt", salt_js proxySalt)] in
      match proxySalt with
      | Some salt =>
          multiCallArgs <- getDeployUpgradeableMultiCallArgs factoryAddress salt logicAddress None ;;
          receipt <- send hre factoryAddress (FMultiCall multiCallArgs) None ;;
          receipt <- wait None receipt ;;
          proxyAddress <- lift (getEventVar receipt DeployedProxyEvent contractAddrVar) ;;
          ret (JObj (obj_set res "proxyAddress" proxyAddress))
      | None =>
          console_error (contractName ++s " contract missing salt") ;;;
          ret (JObj res)
      end
  | None => throw (Error ("failed to get contract bytecode for " ++s contractName))
  end.

(** The last transaction is sent and not waited for. *)
Definition upgradeProxy (contractName : string) (factoryAddress : address)
    (constructorArgs : option (list jsval)) : M jsval :=
  getContractFactory defaultFactoryName ;;;
  getContractFactory contractName ;;;
  deployBCode <- deploy_data contractName (default [] constructorArgs) ;;
  code <- lift (of_option (LibError "ethers" "INVALID_ARGUMENT") deployBCode) ;;
  receipt <- send hre factoryAddress (FDeployCreate code) None ;;
  receipt <- wait None receipt ;;
  logicAddress <- lift (getEventVar receipt DeployedRawEvent contractAddrVar) ;;
  proxySalt <- lift (getSalt contractName) ;;
  salt <- lift (of_option (LibError "ethers" "INVALID_ARGUMENT") proxySalt) ;;
  logic <- as_addr logicAddress ;;
  send hre factoryAddress (FUpgradeProxy salt logic "0x") None ;;;
  ret (JObj [("logicAddress", logicAddress); ("proxySalt", JStr salt)]).
End Lib.

(** ** The private search agrees with the one of the tasks *)

Lemma event_loop_eq events eventName varName :
  event_loop events eventName varName = find_event_var events eventName varName.
Proof.
  induction events as [|e es IH]; simpl; [done|].
  destruct (decide _); [|done]. destruct (ev_args e) as [args|]; [|done].
  destruct (obj_get args varName) as [[]|]; simpl; done.
Qed.

Lemma getEventVar_eq receipt eventName varName :
  getEventVar receipt eventName varName = Provider.getEventVar receipt eventName varName.
Proof.
  unfold getEventVar, Provider.getEventVar. destruct (r_events receipt); [|done].
  apply event_loop_eq.
Qed.

Section Flow.
Context `{Ethers, !EthersLaws, Evm, !EvmLaws} (hre : Hre).

(** What a deployment of [n] starts from. *)
Record deployable (n : string) (cargs : list jsval) (code : string) (owner : address) : Prop := {
  dp_base : hasContractFactory ALICENET_FACTORY = true;
  dp_logic : hasContractFactory n = true;
  dp_code : getDeployData n cargs = Some (Some code);
  dp_signer : head (hre_signers hre) = Some owner }.

Definition create_io (owner f : address) (code : string) : io := ITx owner f (FDeployCreate code) None.

(** The first transaction of both functions. *)
Lemma wp_create c owner f st code la es Q :
  head (hre_signers hre) = Some owner →
  accounts c !! f = Some (KFactory st) → f_owner st = owner →
  la = getContractAddress f (nonce_of (bump_nonce c owner) f) → fresh (bump_nonce c owner) la = true →
  run_constructor (bump_nonce c owner) la code = Some es → has_code code = true →
  (∀ g, Q (Ok {| r_events := Some (es ++ [factory_event f DEPLOYED_RAW la]); r_gasUsed := g |})
          (created (bump_nonce c owner) f la (KCode code)) [create_io owner f code]) →
  wp (send hre f (FDeployCreate code) None) c Q.
Proof using Type*.
  intros Hs Hf Ho Hla Hfr He Hco HQ. eapply wp_send; [done|].
  by rewrite (create_tx_run (bump_nonce c owner) f owner st code la es Hf Ho Hla Hfr He Hco).
Qed.

Lemma foreign_event es f la g :
  foreign es →
  getEventVar {| r_events := Some (es ++ [factory_event f DEPLOYED_RAW la]); r_gasUsed := g |}
    DEPLOYED_RAW CONTRACT_ADDR = Ok (JAddr la).
Proof using Type. intros Hes. rewrite getEventVar_eq. by apply create_event. Qed.

Lemma wp_calls f salt la dProxy dUpgrade c Q :
  hasContractFactory ALICENET_FACTORY = true →
  encodeFunctionData ALICENET_FACTORY DEPLOY_PROXY [JStr salt] = Some dProxy →
  encodeFunctionData ALICENET_FACTORY UPGRADE_PROXY [JStr salt; JAddr la; JStr EMPTY] = Some dUpgrade →
  Q (Ok (proxy_calls f dProxy dUpgrade)) c [] →
  wp (getDeployUpgradeableMultiCallArgs f salt (JAddr la) None) c Q.
Proof using Type.
  intros Hb E1 E2 HQ. unfold getDeployUpgradeableMultiCallArgs.
  wp_rule. apply wp_getContractFactory. rewrite Hb. cbv iota.
  wp_rule. apply wp_lift. change "deployProxy" with DEPLOY_PROXY. rewrite E1. cbn [of_option].
  wp_rule. apply wp_lift. change "upgradeProxy" with UPGRADE_PROXY. change "0x" with EMPTY.
  rewrite E2. cbn [of_option]. by wp_rule.
Qed.

(** The result of a deployment. *)
Definition deployed_js (la pa : address) (salt : string) : jsval :=
  JObj [("logicAddress", JAddr la); ("proxySalt", JStr salt); ("proxyAddress", JAddr pa)].

(** The state before the second transaction. *)
Lemma second_ready w f owner st salt code la pa es1 :
  deploy_ready (bump_nonce (w_chain w) owner) f owner st salt code EMPTY la pa es1 [] → pa ≠ owner →
  let c2 := bump_nonce (created (bump_nonce (w_chain w) owner) f la (KCode code)) owner in
  accounts c2 !! f = Some (KFactory st) ∧ accounts c2 !! f_proxyTemplate st = Some KTemplate ∧
  fresh c2 pa = true ∧ 0 ≤ la < 2 ^ 160.
Proof using Type*.
  intros R Hpo c2. destruct (ready_distinct _ _ _ _ _ _ _ _ _ _ _ R) as [Hfl Hfp].
  pose proof R as [Hf Ho Ht Hla Hpa Hk Hfla Hfpa Hlp _ _ _ _].
  pose proof (fresh_ne _ _ _ _ Hfla Ht) as Htl. unfold c2. split_and!.
  - simpl. by rewrite lookup_insert_ne.
  - simpl. by rewrite lookup_insert_ne.
  - apply fresh_bump; [|done]. by apply fresh_created.
  - rewrite Hla. apply getContractAddress_range.
  - rewrite Hla. apply getContractAddress_range.
Qed.

(** C34: [deployUpgradeable] deploys a contract with a salt in two
    transactions of the owner, [deployCreate] and a multicall of
    [deployProxy] and [upgradeProxy] without initializer: the logic sits at
    the factory's next CREATE address, the proxy at the metamorphic address
    of the salt and points at it, and no other contract changes.  The
    addresses it returns are those. *)
Theorem deploy_upgradeable_correct n cargs f owner st salt code la pa es1 dProxy dUpgrade w :
  deployable n cargs code owner → getSalt hre n = Ok (Some salt) → owner ≠ f → pa ≠ owner →
  deploy_ready (bump_nonce (w_chain w) owner) f owner st salt code EMPTY la pa es1 [] →
  encodeFunctionData ALICENET_FACTORY DEPLOY_PROXY [JStr salt] = Some dProxy →
  encodeFunctionData ALICENET_FACTORY UPGRADE_PROXY [JStr salt; JAddr la; JStr EMPTY] = Some dUpgrade →
  foreign es1 →
  let c' := deployed_twice (w_chain w) f owner st salt code la pa in
  runs_to (deployUpgradeable hre n f cargs) w (Ok (deployed_js la pa salt)) c'
    [create_io owner f code; ITx owner f (FMultiCall (proxy_calls f dProxy dUpgrade)) None] ∧
  accounts c' !! la = Some (KCode code) ∧ accounts c' !! pa = Some (KProxy f la) ∧
  accounts c' !! f = Some (KFactory (add_salt (use_template st) salt)) ∧
  ∀ x, x ≠ la → x ≠ pa → x ≠ f → accounts c' !! x = accounts (w_chain w) !! x.
Proof using Type*.
  intros [Hb Hl Hd Hs] Hsalt Hof Hpo R E1 E2 Hes c'.
  destruct (ready_distinct _ _ _ _ _ _ _ _ _ _ _ R) as [Hfl Hfp].
  pose proof R as [Hf Ho Ht Hla Hpa Hk Hfla Hfpa Hlp Hd' He1 Hco _].
  pose proof (fresh_ne _ _ _ _ Hfla Ht) as Htl.
  split; [|exact (deployed_accounts (w_chain w) f st salt code la pa Hfl Hfp Hlp)].
  apply wp_runs_to. unfold deployUpgradeable.
  wp_rule. apply wp_getContractFactory. change defaultFactoryName with ALICENET_FACTORY. rewrite Hb.
  wp_rule. apply wp_getContractFactory. rewrite Hl. wp_rule. apply wp_lift. rewrite Hd. cbn [of_option].
  wp_rule. apply (wp_create _ owner f st code la es1); try done. intros g. do 3 wp_rule. apply wp_lift.
  rewrite Hsalt. wp_rule. apply wp_lift. rewrite foreign_event by done.
  wp_rule. eapply wp_calls; [done..|].
  wp_rule. eapply wp_send; [done|].
  destruct (second_ready _ _ _ _ _ _ _ _ _ R Hpo) as (Hf2 & Ht2 & Hf3 & Hr).
  rewrite (proxy_tx_run _ f owner st salt EMPTY la pa [] dProxy dUpgrade) by done.
  wp_rule. apply wp_wait. wp_rule. apply wp_lift.
  change (getEventVar _ _ _) with (Ok (JAddr pa)). cbv beta iota. by wp_rule.
Qed.

(** C35: a contract without a salt is half deployed: [deployUpgradeable]
    reports the missing salt on the console and returns, but the logic is on
    chain, no proxy is created and the result has no proxy address. *)
Theorem deploy_upgradeable_saltless n cargs f owner st code la es1 w :
  deployable n cargs code owner → getSalt hre n = Ok None → owner ≠ f →
  accounts (w_chain w) !! f = Some (KFactory st) → f_owner st = owner →
  la = getContractAddress f (nonce_of (w_chain w) f) → fresh (bump_nonce (w_chain w) owner) la = true →
  run_constructor (bump_nonce (w_chain w) owner) la code = Some es1 → has_code code = true →
  foreign es1 →
  let c' := created (bump_nonce (w_chain w) owner) f la (KCode code) in
  runs_to (deployUpgradeable hre n f cargs) w
    (Ok (JObj [("logicAddress", JAddr la); ("proxySalt", JUndefined)])) c' [create_io owner f code] ∧
  accounts c' !! la = Some (KCode code) ∧
  ∀ x, x ≠ la → accounts c' !! x = accounts (w_chain w) !! x.
Proof using Type*.
  intros [Hb Hl Hd Hs] Hsalt Hof Hf Ho Hla Hfla He1 Hco Hes c'.
  rewrite <-(bump_nonce_ne (w_chain w) owner f) in Hla by done.
  split; [|split; [apply lookup_insert_eq|by intros x Hx; apply lookup_insert_ne]].
  apply wp_runs_to. unfold deployUpgradeable.
  wp_rule. apply wp_getContractFactory. change defaultFactoryName with ALICENET_FACTORY. rewrite Hb.
  wp_rule. apply wp_getContractFactory. rewrite Hl. wp_rule. apply wp_lift. rewrite Hd. cbn [of_option].
  wp_rule. apply (wp_create _ owner f st code la es1); try done. intros g. do 3 wp_rule. apply wp_lift.
  rewrite Hsalt. wp_rule. apply wp_lift. rewrite foreign_event by done.
  wp_rule. apply wp_output; [done|]. by wp_rule.
Qed.
(** An upgrade without initializer, by the owner. *)
Lemma upgrade_tx_run c f owner st salt slot pa la :
  accounts c !! f = Some (KFactory st) → f_owner st = owner →
  pa = getMetamorphicContractAddress salt f → accounts c !! pa = Some (KProxy f slot) →
  0 ≤ la < 2 ^ 160 → decode_upgrade EMPTY = None →
  apply_tx c owner f (FUpgradeProxy salt la EMPTY) =
  if ProxySlot.locked slot then None else Some (upgraded c f pa la, []).
Proof using Type*.
  intros Hf Ho -> Hp Hr Hd. unfold apply_tx, factory_tx. rewrite Hf, CALL_DEPTH_SS.
  destruct (ProxySlot.locked slot) eqn:Hl.
  - by rewrite (exec_upgrade_locked _ _ _ _ _ _ _ _ _ _ Hf Hp Hl Hr (owner_auth _ _ _ Ho)).
  - rewrite (exec_upgradeProxy _ _ _ _ _ _ _ slot _ _ [] Hf Hp Hl Hr Hd); try done.
    by apply owner_auth.
Qed.

(** The run up to the outcome of the upgrade. *)
Lemma upgradeProxy_wp n cargs f owner st salt code la es1 c Q :
  deployable n (default [] cargs) code owner → getSalt hre n = Ok (Some salt) →
  accounts c !! f = Some (KFactory st) → f_owner st = owner →
  la = getContractAddress f (nonce_of (bump_nonce c owner) f) →
  fresh (bump_nonce c owner) la = true →
  run_constructor (bump_nonce c owner) la code = Some es1 → has_code code = true → foreign es1 →
  let c1 := created (bump_nonce c owner) f la (KCode code) in
  let fc := FUpgradeProxy salt la EMPTY in
  match apply_tx (bump_nonce c1 owner) owner f fc with
  | None => ∀ e, Q (Throw e) c1 [create_io owner f code]
  | Some (c2, _) => Q (Ok (JObj [("logicAddress", JAddr la); ("proxySalt", JStr salt)])) c2
                      [create_io owner f code; ITx owner f fc None]
  end → wp (upgradeProxy hre n f cargs) c Q.
Proof using Type*.
  intros [Hb Hl Hd Hs] Hsalt Hf Ho Hla Hfla He1 Hco Hes c1 fc HQ. unfold upgradeProxy.
  wp_rule. apply wp_getContractFactory. change defaultFactoryName with ALICENET_FACTORY. rewrite Hb.
  wp_rule. apply wp_getContractFactory. rewrite Hl. wp_rule. apply wp_lift. rewrite Hd. cbn [of_option].
  wp_rule. apply wp_lift. cbn [of_option].
  wp_rule. apply (wp_create _ owner f st code la es1); try done. intros g. do 3 wp_rule. apply wp_lift.
  change DeployedRawEvent with DEPLOYED_RAW. change contractAddrVar with CONTRACT_ADDR.
  rewrite foreign_event by done. wp_rule. apply wp_lift. rewrite Hsalt. wp_rule. apply wp_lift.
  cbn [of_option as_addr]. do 3 wp_rule. eapply wp_send; [done|].
  change "0x" with EMPTY. change (FUpgradeProxy salt la EMPTY) with fc. fold c1.
  destruct (apply_tx _ _ _ _) as [[c' es]|]; [by wp_rule|apply HQ].
Qed.

(** C36: [upgradeProxy] deploys the new logic in a first transaction and
    points the existing proxy of the contract's salt at it in a second one.
    On a locked proxy the second is refused: the function throws, the proxy
    keeps its implementation, and the new logic stays on chain unused. *)
Theorem upgrade_proxy_outcome n cargs f owner st salt slot code la pa es1 w :
  deployable n (default [] cargs) code owner → getSalt hre n = Ok (Some salt) → owner ≠ f →
  accounts (w_chain w) !! f = Some (KFactory st) → f_owner st = owner →
  la = getContractAddress f (nonce_of (w_chain w) f) → fresh (bump_nonce (w_chain w) owner) la = true →
  run_constructor (bump_nonce (w_chain w) owner) la code = Some es1 → has_code code = true →
  foreign es1 → pa = getMetamorphicContractAddress salt f →
  accounts (w_chain w) !! pa = Some (KProxy f slot) → decode_upgrade EMPTY = None →
  let c1 := created (bump_nonce (w_chain w) owner) f la (KCode code) in
  let c2 := upgraded (bump_nonce c1 owner) f pa la in
  if ProxySlot.locked slot
  then (∃ e, runs_to (upgradeProxy hre n f cargs) w (Throw e) c1 [create_io owner f code]) ∧
       accounts c1 !! pa = Some (KProxy f slot) ∧ accounts c1 !! la = Some (KCode code)
  else runs_to (upgradeProxy hre n f cargs) w
         (Ok (JObj [("logicAddress", JAddr la); ("proxySalt", JStr salt)])) c2
         [create_io owner f code; ITx owner f (FUpgradeProxy salt la EMPTY) None] ∧
       accounts c2 !! pa = Some (KProxy f la) ∧ accounts c2 !! la = Some (KCode code) ∧
       ∀ x, x ≠ la → x ≠ pa → accounts c2 !! x = accounts (w_chain w) !! x.
Proof using Type*.
  intros Hdep Hsalt Hof Hf Ho Hla Hfla He1 Hco Hes Hpa Hp Hdu c1 c2.
  rewrite <-(bump_nonce_ne (w_chain w) owner f) in Hla by done.
  pose proof (fresh_ne _ _ _ _ Hfla Hf) as Hfl. pose proof (fresh_ne _ _ _ _ Hfla Hp) as Hpl.
  assert (0 ≤ la < 2 ^ 160) as Hr by (rewrite Hla; apply getContractAddress_range).
  assert (∀ x, x ≠ la → accounts c1 !! x = accounts (w_chain w) !! x) as Hc1
    by (intros; by apply lookup_insert_ne).
  assert (accounts c1 !! la = Some (KCode code)) as Hc1l by apply lookup_insert_eq.
  pose proof (upgrade_tx_run (bump_nonce c1 owner) f owner st salt slot pa la) as Hup.
  cbn [bump_nonce accounts] in Hup.
  rewrite Hc1 in Hup by done. rewrite (Hc1 pa) in Hup by done. specialize (Hup Hf Ho Hpa Hp Hr Hdu).
  pose proof (upgradeProxy_wp n cargs f owner st salt code la es1 (w_chain w)) as Hwp.
  cbv zeta in Hwp. fold c1 in Hwp. rewrite Hup in Hwp.
  destruct (ProxySlot.locked slot).
  - split; [|by rewrite Hc1 by done].
    destruct (wp_outcome (upgradeProxy hre n f cargs) w
      (λ r c l, (∃ e, r = Throw e) ∧ c = c1 ∧ l = [create_io owner f code]))
      as (r & c & l & Hrun & [e ->] & -> & ->); [by apply Hwp; eauto|by exists e].
  - split_and!.
    + apply wp_runs_to. by apply Hwp.
    + apply lookup_insert_eq.
    + simpl. by rewrite lookup_insert_ne.
    + intros x Hx1 Hx2. simpl. rewrite lookup_insert_ne by done. by apply Hc1.
Qed.
End Flow.
End FactoryLib.

(** ** Witnesses *)

#[local] Existing Instances ethers_model ethers_model_laws evm_ex.
#[local] Instance evm_ex_laws : EvmLaws := evm_model_laws 2000000.

Definition logic_code (n : string) : string :=
  match getDeployData n [] with Some (Some c) => c | _ => EmptyString end.

Lemma deployable_ex n : hasContractFactory n = true →
  FactoryLib.deployable (hre_ex None) n [] (logic_code n) owner_ex.
Proof. intros Hn. by split. Qed.

Lemma deploy_upgradeable_correct_witness :
  ∃ c' l, runs_to (FactoryLib.deployUpgradeable (hre_ex None) "ETHDKG" factory_ex []) world_ex
            (Ok (FactoryLib.deployed_js la_ex pa_ex dkg_salt)) c' l.
Proof.
  destruct (FactoryLib.deploy_upgradeable_correct (hre_ex None) "ETHDKG" [] factory_ex owner_ex st_ex
    dkg_salt (logic_code "ETHDKG") la_ex pa_ex [] (enc_ex DEPLOY_PROXY [JStr dkg_salt])
    (enc_ex UPGRADE_PROXY [JStr dkg_salt; JAddr la_ex; JStr EMPTY]) world_ex) as (Hrun & _).
  - by apply deployable_ex.
  - vm_compute. reflexivity.
  - discriminate.
  - vm_compute. discriminate.
  - split; vm_compute; try reflexivity; discriminate.
  - reflexivity.
  - reflexivity.
  - constructor.
  - eexists _, _. exact Hrun.
Defined.

Lemma deploy_upgradeable_saltless_witness :
  ∃ c' l, runs_to (FactoryLib.deployUpgradeable (hre_ex None) "Proxy" factory_ex []) world_ex
            (Ok (JObj [("logicAddress", JAddr la_ex); ("proxySalt", JUndefined)])) c' l.
Proof.
  destruct (FactoryLib.deploy_upgradeable_saltless (hre_ex None) "Proxy" [] factory_ex owner_ex st_ex
    (logic_code "Proxy") la_ex [] world_ex) as (Hrun & _).
  - by apply deployable_ex.
  - vm_compute. reflexivity.
  - discriminate.
  - vm_compute. reflexivity.
  - vm_compute. reflexivity.
  - reflexivity.
  - vm_compute. reflexivity.
  - vm_compute. reflexivity.
  - reflexivity.
  - constructor.
  - eexists _, _. exact Hrun.
Defined.

(** A chain where ETHDKG's proxy exists, with the implementation slot [slot]. *)
Definition world_up (slot : Z) : world :=
  on_chain world_ex {| accounts := <[pa_ex := KProxy factory_ex slot]> (accounts chain_ex);
                       nonces := <[pa_ex := 1]> (nonces chain_ex) |}.

Lemma upgrade_proxy_outcome_witness :
  ∃ c' l, runs_to (FactoryLib.upgradeProxy (hre_ex None) "ETHDKG" factory_ex None) (world_up 5)
            (Ok (JObj [("logicAddress", JAddr la_ex); ("proxySalt", JStr dkg_salt)])) c' l.
Proof.
  destruct (FactoryLib.upgrade_proxy_outcome (hre_ex None) "ETHDKG" None factory_ex owner_ex st_ex
    dkg_salt 5 (logic_code "ETHDKG") la_ex pa_ex [] (world_up 5)) as (Hrun & _).
  - by apply deployable_ex.
  - vm_compute. reflexivity.
  - discriminate.
  - vm_compute. reflexivity.
  - vm_compute. reflexivity.
  - vm_compute. reflexivity.
  - vm_compute. reflexivity.
  - vm_compute. reflexivity.
  - reflexivity.
  - constructor.
  - reflexivity.
  - vm_compute. reflexivity.
  - reflexivity.
  - eexists _, _. exact Hrun.
Defined.
