(* ===== verification/ImmutableAuth.v ===== *)
(** * The generator of ImmutableAuth.sol

    [scripts/generateImmutableAuth.ts]: the task writes one abstract contract
    per deployed contract, with the salt its proxy address is computed from.
    The text of the templates is modelled literally. *)

From S2P Require Import Prelude JsValue Constants Artifacts Fixtures Ethers Factory Instances World Scenario DeployList DeployArgs Provider FactoryTasks Logic.
From stdpp Require Import options.
Local Open Scope Z_scope.

Record Contract := { c_name : string; c_salt : string }.

Definition templateImmutableFactory : string := join nl
  ["// This file is auto-generated by hardhat generate-immutable-auth-contract task. DO NOT EDIT.";
   "// SPDX-License-Identifier: MIT-open-group";
   "pragma solidity ^0.8.16;";
   EmptyString;
   "import " ++s dq ++s "contracts/utils/DeterministicAddress.sol" ++s dq ++s ";";
   "import " ++s dq ++s "contracts/interfaces/IAliceNetFactory.sol" ++s dq ++s ";";
   EmptyString;
   "abstract contract ImmutableFactory is DeterministicAddress {";
   "    address private immutable _factory;";
   "    error OnlyFactory(address sender, address expected);";
   EmptyString;
   "    modifier onlyFactory() {";
   "      if (msg.sender != _factory) {";
   "        revert OnlyFactory(msg.sender, _factory);";
   "      }";
   "      _;";
   "  }";
   EmptyString;
   "    constructor(address factory_) {";
   "        _factory = factory_;";
   "    }";
   EmptyString;
   "    function _factoryAddress() internal view returns (address) {";
   "        return _factory;";
   "    }";
   EmptyString;
   "}";
   EmptyString;
   "abstract contract ImmutableAToken is ImmutableFactory {";
   "    address private immutable _aToken;";
   "    error OnlyAToken(address sender, address expected);";
   EmptyString;
   "    modifier onlyAToken() {";
   "        if (msg.sender != _aToken) {";
   "            revert OnlyAToken(msg.sender, _aToken);";
   "        }";
   "        _;";
   "    }";
   EmptyString;
   "    constructor() {";
   "        _aToken = IAliceNetFactory(_factoryAddress()).lookup(_saltForAToken());";
   "    }";
   EmptyString;
   "    function _aTokenAddress() internal view returns (address) {";
   "        return _aToken;";
   "    }";
   EmptyString;
   "    function _saltForAToken() internal pure returns (bytes32) {";
   "        return 0x41546f6b656e0000000000000000000000000000000000000000000000000000;";
   "    }";
   "}";
   EmptyString;
   "abstract contract ImmutableBToken is ImmutableFactory {";
   "    address private immutable _bToken;";
   "    error OnlyBToken(address sender, address expected);";
   EmptyString;
   "    modifier onlyBToken() {";
   "        if (msg.sender != _bToken) {";
   "            revert OnlyBToken(msg.sender, _bToken);";
   "        }";
   "        _;";
   "    }";
   EmptyString;
   "    constructor() {";
   "        _bToken = IAliceNetFactory(_factoryAddress()).lookup(_saltForBToken());";
   "    }";
   EmptyString;
   "    function _bTokenAddress() internal view returns (address) {";
   "        return _bToken;";
   "    }";
   EmptyString;
   "    function _saltForBToken() internal pure returns (bytes32) {";
   "        return 0x42546f6b656e0000000000000000000000000000000000000000000000000000;";
   "    }";
   "}";
   EmptyString].

(** The name of the variable: an [ETHDKG] prefix is lowered as a whole,
    otherwise only the first letter. *)
Definition mixedContractName (name : string) : string :=
  if startsWith "ETHDKG" name then "ethdkg" ++s slice 6 name else lowerFirst name.

Definition templateContract (contract : Contract) : string :=
  let name := c_name contract in
  let salt := c_salt contract in
  let mixed := mixedContractName name in
  join nl
  [EmptyString;
   "abstract contract Immutable" ++s name ++s " is ImmutableFactory {";
   EmptyString;
   "    address private immutable _" ++s mixed ++s ";";
   "    error Only" ++s name ++s "(address sender, address expected);";
   EmptyString;
   "    modifier only" ++s name ++s "() {";
   "        if (msg.sender != _" ++s mixed ++s ") {";
   "          revert Only" ++s name ++s "(msg.sender, _" ++s mixed ++s ");";
   "        }";
   "        _;";
   "    }";
   EmptyString;
   "    constructor() {";
   "        _" ++s mixed ++s " = getMetamorphicContractAddress(" ++s salt ++s ", _factoryAddress());";
   "    }";
   EmptyString;
   "    function _" ++s mixed ++s "Address() internal view returns(address) {";
   "        return _" ++s mixed ++s ";";
   "    }";
   EmptyString;
   "    function _saltFor" ++s name ++s "() internal pure returns(bytes32) {";
   "        return " ++s salt ++s ";";
   "    }";
   "}";
   "    "].

(** The text of the file. *)
Definition immutable_text (contracts : list Contract) : string :=
  foldl (λ acc c, acc ++s templateContract c) templateImmutableFactory contracts.

(** The first artifact with the name, which is undefined for a list entry
    without a colon. *)
Fixpoint find_artifact (contractName : option string) (artifactPaths : list string) : option string :=
  match artifactPaths with
  | [] => None
  | p :: ps => if decide (split_on ":"%char p !! 1%nat = contractName) then Some p
               else find_artifact contractName ps
  end.

Section Generator.
Context `{Ethers, Toml} (hre : Hre).
Local Notation art := (hre_artifacts hre).

(** The hash of a salt and its type. *)
Definition typed_salt (salt saltType : string) : string :=
  keccak256 (keccak256 salt ++s slice 2 (keccak256 saltType)).

(** [getSalt]; without build info both texts are empty and the message is
    printed. *)
Definition getSalt (contractName : option string) : M string :=
  qualifiedName <- lift (of_option (LibError "hardhat" "invalid fully qualified name")
                         (find_artifact contractName (getAllFullyQualifiedNames art))) ;;
  buildInfo <- lift (art_getBuildInfo art qualifiedName) ;;
  tags <-
    match buildInfo with
    | Some bi =>
        contractOutput <- lift (contract_at bi qualifiedName) ;;
        ret (co_devdoc contractOutput !! "custom:salt", co_devdoc contractOutput !! "custom:salt-type")
    | None => console_error "missing salt" ;;; ret (Some EmptyString, Some EmptyString)
    end ;;
  match tags with
  | (salt, None) => format32 salt
  | (salt, Some saltType) =>
      b <- format32 salt ;;
      t <- format32 (Some saltType) ;;
      ret (typed_salt b t)
  end.

(** The loop that looks up the salts. *)
Fixpoint name_salts (contracts : list jsval) : M (list (option string * string)) :=
  match contracts with
  | [] => ret []
  | fullyQualifiedName :: contracts =>
      name <- as_name fullyQualifiedName ;;
      salt <- getSalt (extractName name) ;;
      rest <- name_salts contracts ;;
      ret ((extractName name, salt) :: rest)
  end.

(** A contract without a name cannot be printed. *)
Fixpoint named_contracts (l : list (option string * string)) : res (list Contract) :=
  match l with
  | [] => Ok []
  | (name, salt) :: l =>
      name <~ of_option (TypeError "Cannot read properties of undefined (reading 'startsWith')") name ;;
      cs <~ named_contracts l ;;
      Ok ({| c_name := name; c_salt := salt |} :: cs)
  end.

(** [checkUserDirPath(output)] is not awaited: it runs to its end, but its
    exceptions do not stop the task. *)
Definition task_generateImmutableAuth (input output_ : option string) : M unit :=
  contracts <-
    match input with
    | None => list <- sorted_list hre (getAllContracts art) ;; ret (JStr <$> list)
    | Some input => l <- getDeploymentList (Some input) ;; ret (list_items l)
    end ;;
  contractNameSaltMap <- name_salts contracts ;;
  cs <- lift (named_contracts contractNameSaltMap) ;;
  path <-
    match output_ with
    | None => ret "contracts/utils/"
    | Some o => try_catch (checkUserDirPath (Some o)) (λ _, ret tt) ;;; ret o
    end ;;
  writeFileSync (path ++s "ImmutableAuth.sol") (immutable_text cs).
End Generator.

(** ** Reading the file back

    The text of a contract around its name and its first salt. *)

Definition contract_head : string :=
  EmptyString ++s nl ++s "abstract contract Immutable".
Definition contract_body (name mixed : string) : string :=
  " is ImmutableFactory {" ++s nl ++s EmptyString ++s nl ++s
  "    address private immutable _" ++s mixed ++s ";" ++s nl ++s "    error Only" ++s name ++s
  "(address sender, address expected);" ++s nl ++s EmptyString ++s nl ++s
  "    modifier only" ++s name ++s "() {" ++s nl ++s "        if (msg.sender != _" ++s
  mixed ++s ") {" ++s nl ++s "          revert Only" ++s name ++s "(msg.sender, _" ++s
  mixed ++s ");" ++s nl ++s "        }" ++s nl ++s "        _;" ++s nl ++s "    }" ++s nl ++s
  EmptyString ++s nl ++s "    constructor() {" ++s nl ++s "        _" ++s mixed ++s
  " = getMetamorphicContractAddress(".
Definition contract_tail (name mixed salt : string) : string :=
  ", _factoryAddress());" ++s nl ++s "    }" ++s nl ++s EmptyString ++s nl ++s
  "    function _" ++s mixed ++s "Address() internal view returns(address) {" ++s nl ++s
  "        return _" ++s mixed ++s ";" ++s nl ++s "    }" ++s nl ++s EmptyString ++s nl ++s
  "    function _saltFor" ++s name ++s "() internal pure returns(bytes32) {" ++s nl ++s
  "        return " ++s salt ++s ";" ++s nl ++s "    }" ++s nl ++s "}" ++s nl ++s "    ".

Lemma templateContract_pieces c :
  templateContract c =
  contract_head ++s c_name c ++s contract_body (c_name c) (mixedContractName (c_name c)) ++s
  c_salt c ++s contract_tail (c_name c) (mixedContractName (c_name c)) (c_salt c).
Proof.
  destruct c as [name salt]. unfold templateContract, contract_head, contract_body, contract_tail.
  cbn [join c_name c_salt]. by rewrite !app_assoc_s.
Qed.

Definition parse_contract (s : string) : option (Contract * string) :=
  s ← strip_prefix contract_head s;
  let '(name, s) := break_at " "%char s in
  let mixed := mixedContractName name in
  s ← strip_prefix (contract_body name mixed) s;
  let '(salt, s) := break_at ","%char s in
  s ← strip_prefix (contract_tail name mixed salt) s;
  Some ({| c_name := name; c_salt := salt |}, s).

Fixpoint parse_contracts (fuel : nat) (s : string) : option (list Contract) :=
  match s, fuel with
  | EmptyString, _ => Some []
  | _, O => None
  | _, S fuel => '(c, s) ← parse_contract s; cs ← parse_contracts fuel s; Some (c :: cs)
  end.

Definition parse_immutable (s : string) : option (list Contract) :=
  s ← strip_prefix templateImmutableFactory s; parse_contracts (String.length s) s.

(** Names are identifiers and salts hexadecimal texts. *)
Definition plain (c : Contract) : Prop :=
  string_elem " "%char (c_name c) = false ∧ string_elem ","%char (c_salt c) = false.

Lemma parse_contract_template c s :
  plain c → parse_contract (templateContract c ++s s) = Some (c, s).
Proof.
  intros [Hn Hs]. unfold parse_contract. rewrite templateContract_pieces, !app_assoc_s.
  rewrite strip_prefix_app. cbn [mbind option_bind].
  set (mixed := mixedContractName (c_name c)).
  assert (∃ t, contract_body (c_name c) mixed = String " "%char t) as [t Ht] by by eexists.
  assert (∃ t, contract_tail (c_name c) mixed (c_salt c) = String ","%char t) as [u Hu] by by eexists.
  rewrite Ht at 1. cbn [String.append]. rewrite break_at_app by done. fold mixed.
  change (String " "%char (t ++s ?x)) with (String " "%char t ++s x). rewrite <-Ht, strip_prefix_app.
  cbn [mbind option_bind]. rewrite Hu at 1. cbn [String.append]. rewrite break_at_app by done.
  change (String ","%char (u ++s ?x)) with (String ","%char u ++s x). rewrite <-Hu, strip_prefix_app.
  by destruct c.
Qed.

Fixpoint contracts_text (cs : list Contract) : string :=
  match cs with [] => EmptyString | c :: cs => templateContract c ++s contracts_text cs end.

Lemma immutable_text_contracts cs :
  immutable_text cs = templateImmutableFactory ++s contracts_text cs.
Proof.
  unfold immutable_text. generalize templateImmutableFactory as acc.
  induction cs as [|c cs IH]; intros acc; cbn [foldl contracts_text]; [by rewrite app_empty_r|].
  by rewrite IH, app_assoc_s.
Qed.

Lemma length_append s t : String.length (s ++s t) = (String.length s + String.length t)%nat.
Proof. induction s as [|c s IH]; simpl; congruence. Qed.

Lemma templateContract_cons c : ∃ a s, templateContract c = String a s.
Proof. eexists _, _. exact (templateContract_pieces c). Qed.

Lemma contracts_text_length cs : (length cs ≤ String.length (contracts_text cs))%nat.
Proof.
  induction cs as [|c cs IH]; [simpl; lia|]. cbn [length contracts_text]. rewrite length_append.
  destruct (templateContract_cons c) as (a & s & E). rewrite E. simpl. lia.
Qed.

Lemma parse_contracts_text cs : Forall plain cs → ∀ fuel, (length cs ≤ fuel)%nat →
  parse_contracts fuel (contracts_text cs) = Some cs.
Proof.
  induction 1 as [|c cs Hc _ IH]; intros fuel Hf; [by destruct fuel|].
  destruct fuel as [|fuel]; simpl in Hf; [lia|]. cbn [contracts_text].
  pose proof (parse_contract_template c (contracts_text cs) Hc) as Hp.
  destruct (templateContract_cons c) as (a & s & Hs). rewrite Hs in *. cbn [String.append] in *.
  cbn [parse_contracts]. rewrite Hp. cbn [mbind option_bind]. by rewrite IH by lia.
Qed.

Lemma parse_immutable_text cs : Forall plain cs → parse_immutable (immutable_text cs) = Some cs.
Proof.
  intros Hcs. rewrite immutable_text_contracts. unfold parse_immutable.
  rewrite strip_prefix_app. cbn [mbind option_bind].
  apply parse_contracts_text; [done|apply contracts_text_length].
Qed.

Section Generated.
Context `{Ethers, Toml} (hre : Hre).
Local Notation art := (hre_artifacts hre).

(** The name of a qualified contract and the salt the generator finds for it. *)
Definition salted (full : string) (c : Contract) : Prop :=
  extractName full = Some (c_name c) ∧ ∀ w, getSalt hre (Some (c_name c)) w = (Ok (c_salt c), w).

Lemma name_salts_run list cs w :
  Forall2 salted list cs →
  name_salts hre (JStr <$> list) w = (Ok ((λ c, (Some (c_name c), c_salt c)) <$> cs), w).
Proof.
  induction 1 as [|full c list cs [Hn Hs] _ IH]; [done|].
  cbn [fmap list_fmap name_salts as_name]. rewrite mbind_ret, Hn. mstep (Hs w). by mstep IH.
Qed.

Lemma named_contracts_ok cs :
  named_contracts ((λ c, (Some (c_name c), c_salt c)) <$> cs) = Ok cs.
Proof. induction cs as [|[n s] cs IH]; [done|]. cbn. cbn in IH. by rewrite IH. Qed.

(** C37: without parameters the task writes [ImmutableAuth.sol] once, for the
    contracts of the sorted deployment list, in that order; the file it
    wrote determines the contracts and their salts (parsing it gives them
    back), and nothing else on disk or on chain changes. *)
Theorem generated_file dl cs w fs' :
  let list := transformDeploymentList dl in
  let path := "contracts/utils/ImmutableAuth.sol" in
  getSortedDeployList art (getAllContracts art) = Ok dl →
  Forall2 salted list cs → Forall plain cs →
  fs_write (w_fs w) path (immutable_text cs) = Ok fs' →
  ∃ w', task_generateImmutableAuth hre None None w = (Ok tt, w') ∧
    w_chain w' = w_chain w ∧ w_trace w' = w_trace w ∧
    (∃ text, fs_read (w_fs w') path = Ok text ∧ parse_immutable text = Some cs) ∧
    ∀ q, ¬ resolve path `prefix_of` q → fs_lookup (w_fs w') q = fs_lookup (w_fs w) q.
Proof.
  intros list path Hdl Hcs Hplain Hw. unfold task_generateImmutableAuth, sorted_list.
  rewrite !mbind_assoc, (mbind_lift _ _ _ _ Hdl), !mbind_ret. fold list.
  mstep (name_salts_run list cs w Hcs). rewrite named_contracts_ok, mbind_lift_ok, mbind_ret.
  unfold writeFileSync, mbind_js, get_fs, lift. cbn [w_fs]. fold path. change ("contracts/utils/" ++s "ImmutableAuth.sol") with path.
  rewrite Hw. eexists. split; [reflexivity|]. cbn [w_fs w_chain w_trace]. split_and!; [done|done| |].
  - exists (immutable_text cs). split; [by eapply fs_read_write|by apply parse_immutable_text].
  - apply fs_write_inv in Hw as (_ & -> & _). intros q Hq. by apply fs_insert_beside.
Qed.

(** C38: the salt of a contract without [salt-type] is the one the deployment
    tasks use, so that the generated contract computes the address of the
    proxy they deploy; with a [salt-type] the generator hashes the salt with
    its type, while the tasks still deploy at the address of the plain
    salt. *)
Theorem auth_salt n path bi out salt b w :
  readArtifact_sourceName art n = Ok path →
  string_elem ":"%char path = false → string_elem ":"%char n = false →
  find_artifact (Some n) (getAllFullyQualifiedNames art) = Some (qualified path n) →
  art_getBuildInfo art (qualified path n) = Ok (Some bi) →
  contract_at bi (qualified path n) = Ok out →
  co_devdoc out !! "custom:salt" = Some salt → formatBytes32String salt = Some b →
  getBytes32Salt hre n w = (Ok b, w) ∧
  (co_devdoc out !! "custom:salt-type" = None →
    getSalt hre (Some n) w = (Ok b, w) ∧
    ∀ f, keccak256 METAMORPHIC_CODE = METAMORPHIC_HASH →
      getMetamorphicContractAddress b f = getMetamorphicAddress f b) ∧
  (∀ t t32, co_devdoc out !! "custom:salt-type" = Some t → formatBytes32String t = Some t32 →
    getSalt hre (Some n) w = (Ok (typed_salt b t32), w)).
Proof.
  intros Hp Hpc Hnc Hfind Hb Ho Hsalt Hx. split.
  { by eapply (getBytes32Salt_spec hre n w path bi out salt b). }
  assert (∀ k, getSalt hre (Some n) w = k →
    (match co_devdoc out !! "custom:salt-type" with
     | None => format32 (Some salt)
     | Some t => b <- format32 (Some salt) ;; t <- format32 (Some t) ;; ret (typed_salt b t)
     end) w = k) as Hk.
  { intros k <-. unfold getSalt. rewrite Hfind. cbn [of_option]. rewrite mbind_lift_ok, (mbind_lift _ _ _ _ Hb), !mbind_assoc.
    rewrite (mbind_lift _ _ _ _ Ho), mbind_ret, Hsalt.
    by destruct (co_devdoc out !! "custom:salt-type"). }
  specialize (Hk _ eq_refl). rewrite <-Hk. clear Hk.
  assert (format32 (Some salt) w = (Ok b, w)) as Hf
    by (unfold format32, lift; simpl; by rewrite Hx).
  split.
  - intros ->. split; [done|]. intros f Hh. unfold getMetamorphicContractAddress, getMetamorphicAddress.
    unfold METAMORPHIC_CODE in Hh. by rewrite Hh.
  - intros t t32 -> Ht. mstep Hf. unfold format32, mbind_js, lift. simpl. by rewrite Ht.
Qed.
End Generated.

(** ** Witnesses *)

#[local] Existing Instances toml_model ethers_model.

Definition dl_ex : DeploymentList :=
  match getSortedDeployList art_ex (getAllContracts art_ex) with Ok dl => dl | Throw _ => [] end.
Definition list_ex : list string := transformDeploymentList dl_ex.

Definition contract_of (full : string) : Contract :=
  {| c_name := default EmptyString (extractName full);
     c_salt := match getSalt (hre_ex None) (extractName full) world_ex with
               | (Ok s, _) => s | _ => EmptyString end |}.

Definition fs_contracts : filesystem :=
  <[["contracts"] := Dir]> (<[["contracts"; "utils"] := Dir]> ∅).
Definition world_contracts : world :=
  {| w_fs := fs_contracts; w_chain := chain_ex; w_trace := [] |}.

(** The first contract of the file as it is written. *)
Example burner_text :
  templateContract (contract_of "contracts/ATokenBurner.sol:ATokenBurner") =
  templateContract {| c_name := "ATokenBurner"; c_salt := "0xATokenBurner" |}.
Proof. vm_compute. reflexivity. Qed.

(** An accusation contract: the generated salt is not the one of the tasks. *)
Example accusation_salts :
  c_salt (contract_of "contracts/MultipleProposalAccusation.sol:MultipleProposalAccusation") ≠
  "0xMultipleProposalAccusation".
Proof. vm_compute. discriminate. Qed.

Lemma salted_ex : Forall2 (salted (hre_ex None)) list_ex (contract_of <$> list_ex).
Proof.
  let l := eval vm_compute in list_ex in change list_ex with l.
  repeat (constructor; [split; [reflexivity|intros w; reflexivity]|]). constructor.
Qed.

Lemma generated_file_witness :
  ∃ w' text, task_generateImmutableAuth (hre_ex None) None None world_contracts = (Ok tt, w') ∧
    fs_read (w_fs w') "contracts/utils/ImmutableAuth.sol" = Ok text ∧
    parse_immutable text = Some (contract_of <$> list_ex).
Proof.
  destruct (generated_file (hre_ex None) dl_ex (contract_of <$> list_ex) world_contracts
    (<[resolve "contracts/utils/ImmutableAuth.sol" :=
        File (immutable_text (contract_of <$> list_ex))]> fs_contracts))
    as (w' & Hrun & _ & _ & (text & Hr & Hp) & _).
  - vm_compute. reflexivity.
  - exact salted_ex.
  - let l := eval vm_compute in (contract_of <$> list_ex) in
    assert (contract_of <$> list_ex = l) as -> by (vm_compute; reflexivity).
    repeat constructor.
  - reflexivity.
  - exists w', text. exact (conj Hrun (conj Hr Hp)).
Defined.

Lemma auth_salt_witness :
  getBytes32Salt (hre_ex None) "ETHDKG" world_ex = (Ok "0xETHDKG", world_ex) ∧
  getSalt (hre_ex None) (Some "ETHDKG") world_ex = (Ok "0xETHDKG", world_ex).
Proof.
  assert (art_getBuildInfo (hre_artifacts (hre_ex None)) (qualified "contracts/ETHDKG.sol" "ETHDKG") =
    Ok (Some (fx_build fx_all))) as Hbi.
  { unfold hre_ex, art_ex, fx_artifacts. cbn [hre_artifacts art_getBuildInfo].
    rewrite bool_decide_true; [reflexivity|]. set_solver. }
  assert (co_devdoc (fx_output fx_ETHDKG) !! "custom:salt-type" = None) as Ht by reflexivity.
  destruct (auth_salt (hre_ex None) "ETHDKG" "contracts/ETHDKG.sol" (fx_build fx_all)
    (fx_output fx_ETHDKG) "ETHDKG" "0xETHDKG" world_ex) as (Hb & Hs & _); try exact Hbi; try reflexivity.
  exact (conj Hb (proj1 (Hs Ht))).
Defined.
