(* ===== verification/ValidatorTasks.v ===== *)
(** * Operating a deployment

    The tasks of [scripts/lib/alicenetTasks.ts] that administer a deployed
    network through the factory: staking, registering and migrating
    validators, and the maintenance calls relayed with [callAny].  The
    tasks that move tokens and ether, poll or generate load have files of
    their own ([NodeTasks], [LegacyToken], [Polling], [Traffic]). *)

From S2P Require Import Prelude Solidity Parsers JsValue Constants Artifacts Fixtures Ethers Factory Instances World Scenario FactoryProofs Provider FactoryTasks Logic.
From stdpp Require Import options.
Local Open Scope Z_scope.

Definition TRANSFER_EVENT_HASH : string :=
  "0xddf252ad1be2c89b69c2b068fc378daa952ba7f163c4a11628f55a4df523b3ef".
Definition ETHER : Z := 10 ^ 18.

(** [BigInt(s)], for the ["0x..."] text of a topic. *)
Fixpoint all_hex (s : string) : bool :=
  match s with
  | EmptyString => true
  | String c s => match digit_val c with Some d => (d <? 16) | None => false end && all_hex s
  end.

Definition topic_bigint (t : option string) : res Z :=
  match t with
  | None => Throw (TypeError "Cannot convert undefined to a BigInt")
  | Some s =>
      if has_0x s && all_hex (slice 2 s)
      then Ok (default 0 (digits_go 16 None (slice 2 s)))
      else Throw (LibError "BigInt" "Cannot convert to a BigInt")
  end.

(** [event.address === publicStakingAddress && event.topics[0] === transferEventHash] *)
Definition is_stake (publicStaking : address) (e : event) : bool :=
  bool_decide (ev_address e = publicStaking) &&
  bool_decide (ev_topics e !! 0%nat = Some TRANSFER_EVENT_HASH).

(** The ids of the tokens that PublicStaking transferred, in order. *)
Fixpoint staked_ids (events : list event) (publicStaking : address) : res (list Z) :=
  match events with
  | [] => Ok []
  | e :: es =>
      if is_stake publicStaking e
      then id <~ topic_bigint (ev_topics e !! 3%nat) ;;
           ids <~ staked_ids es publicStaking ;; Ok (id :: ids)
      else staked_ids es publicStaking
  end.

Section Operate.
Context `{Ethers, Evm} (hre : Hre).

(** [const [admin] = await hre.ethers.getSigners()] and its address *)
Definition admin_address : M address :=
  lift (of_option (TypeError "Cannot read properties of undefined (reading 'address')")
                  (head (hre_signers hre))).

Definition getContractAt (name : string) : M unit := getContractFactory name.

(** The view call [factory.lookup(salt)]. *)
Definition factory_lookup (factory : address) (salt : string) : M address :=
  c <- get_chain ;;
  match accounts c !! factory with
  | Some (KFactory st) => ret (lookup factory st salt)
  | _ => throw (LibError "ethers" "CALL_EXCEPTION")
  end.

Definition factoryLookupAddress (factoryAddress : address) (salt : string) : M address :=
  getContractAt ALICENET_FACTORY ;;;
  b <- format32 (Some salt) ;;
  try_catch (factory_lookup factoryAddress b)
    (λ e, throw (Error ("Invalid factory-address " ++s addr_text factoryAddress ++s "!" ++s nl ++s
                        error_text e))).

(** [getContractAt(name, await factory.lookup(formatBytes32String(name)))] *)
Definition lookup_contract (factory : address) (name : string) : M address :=
  b <- format32 (Some name) ;;
  a <- factory_lookup factory b ;;
  getContractAt name ;;;
  ret a.

(** [(await factory.connect(admin).callAny(target, 0, input)).wait(n)]: a
    receipt with a failure status never reaches the caller. *)
Definition callAny (factory target_ : address) (input : string) (confirmations : option Z) : M Receipt :=
  receipt <- send hre factory (FCallAny target_ 0 input) None ;;
  wait confirmations receipt.

(** [await hre.ethers.provider.getBlockNumber()] *)
Definition is_block_request (i : io) : bool :=
  match i with IRpc m => bool_decide (m = "eth_blockNumber") | _ => false end.

Definition getBlockNumber : M Z :=
  λ w, (Ok (hre_block hre (length (filter (λ i, is_block_request i = true) (w_trace w)))),
        traced w [IRpc "eth_blockNumber"]).

(** Out of fuel: the loop is still polling. *)
Definition WAITING : jserror := LibError "fuel" "waitBlocks".

(** [waitBlocks]: the loop polls until the expected block; [fuel] bounds the
    number of polls. *)
Fixpoint poll_blocks (fuel : nat) (constBlock expectedBlock : Z) : M unit :=
  if constBlock <? expectedBlock then
    match fuel with
    | O => throw WAITING
    | S fuel =>
        constBlock <- getBlockNumber ;;
        console_log ("Current block: " ++s pretty constBlock) ;;;
        output (IDelay 10000) ;;;
        poll_blocks fuel constBlock expectedBlock
    end
  else ret tt.

Definition waitBlocks (fuel : nat) (waitingBlocks : Z) : M unit :=
  constBlock <- getBlockNumber ;;
  let expectedBlock := constBlock + waitingBlocks in
  console_log ("Current block: " ++s pretty constBlock ++s " Waiting for " ++s
               pretty waitingBlocks ++s " blocks to be mined!") ;;;
  poll_blocks fuel constBlock expectedBlock.

(** ** Staking and registering validators *)

Definition stakeAmt : Z := 5000000 * ETHER.

(** The loop that encodes one [mint] per validator. *)
Fixpoint stake_calls (n : nat) (publicStakingAddress : address) : M (list MultiCallArgs) :=
  match n with
  | O => ret []
  | S n =>
      stakeToken <- encode_call "PublicStaking" "mint" [JBig stakeAmt] ;;
      rest <- stake_calls n publicStakingAddress ;;
      ret (encodeMultiCallArgs publicStakingAddress 0 stakeToken :: rest)
  end.

Definition stakeValidators (numValidators : nat) (factoryAddress aTokenAddress publicStakingAddress : address) :
    M Receipt :=
  getContractAt ALICENET_FACTORY ;;;
  getContractFactory "AToken" ;;;
  getContractFactory "PublicStaking" ;;;
  approveATokenCallData <-
    encode_call "AToken" "approve"
      [JAddr publicStakingAddress; JBig (Z.of_nat numValidators * stakeAmt)] ;;
  let approveAToken := encodeMultiCallArgs aTokenAddress 0 approveATokenCallData in
  stakeNFT <- stake_calls numValidators publicStakingAddress ;;
  fees <- getGasPrices hre ;;
  send hre factoryAddress (FMultiCall (approveAToken :: stakeNFT)) (Some fees).

(** The loop over the events of the staking receipt: each token that
    PublicStaking transferred, with the call that approves it. *)
Fixpoint staked_tokens (events : list event) (publicStakingAddress validatorPoolAddress : address) :
    M (list (Z * MultiCallArgs)) :=
  match events with
  | [] => ret []
  | e :: es =>
      if is_stake publicStakingAddress e then
        id <- lift (topic_bigint (ev_topics e !! 3%nat)) ;;
        approveCallData <- encode_call "PublicStaking" "approve" [JAddr validatorPoolAddress; JBig id] ;;
        rest <- staked_tokens es publicStakingAddress validatorPoolAddress ;;
        ret ((id, encodeMultiCallArgs publicStakingAddress 0 approveCallData) :: rest)
      else staked_tokens es publicStakingAddress validatorPoolAddress
  end.

(** [hardhat_mine] in a test, confirmations elsewhere. *)
Definition mine_or_wait (test : bool) : M unit :=
  if test then output (IRpc "hardhat_mine") else output (IWait (Some 3)).

Definition task_registerValidators (test : bool) (factoryAddress : address)
    (addresses : list string) : M unit :=
  output (ILogValues [JStr "registerValidators"; JArr (JStr <$> addresses)]) ;;;
  getContractAt ALICENET_FACTORY ;;;
  getContractFactory "PublicStaking" ;;;
  getContractFactory "ValidatorPool" ;;;
  aTokenAddress <- factoryLookupAddress factoryAddress "AToken" ;;
  publicStakingAddress <- factoryLookupAddress factoryAddress "PublicStaking" ;;
  validatorPoolAddress <- factoryLookupAddress factoryAddress "ValidatorPool" ;;
  output (ILogValues [JArr (JStr <$> addresses)]) ;;;
  admin <- admin_address ;;
  console_log ("Admin address: " ++s addr_text admin) ;;;
  (if test then output (IRpc "hardhat_mine") else ret tt) ;;;
  validatorPool <- lookup_contract factoryAddress "ValidatorPool" ;;
  console_log ("validatorPool Address: " ++s addr_text validatorPool) ;;;
  console_log "Staking validators" ;;;
  receipt <- stakeValidators (length addresses) factoryAddress aTokenAddress publicStakingAddress ;;
  receipt <- wait None receipt ;;
  match r_events receipt with
  | None => throw (Error "receipt has no events")
  | Some events =>
      tokens <- staked_tokens events publicStakingAddress validatorPoolAddress ;;
      let tokenIds := tokens.*1 in
      let approveTokens := tokens.*2 in
      mine_or_wait test ;;;
      regValidatorsCallData <-
        encode_call "ValidatorPool" "registerValidators"
          [JArr (JStr <$> addresses); JArr (JBig <$> tokenIds)] ;;
      let regValidators := encodeMultiCallArgs validatorPoolAddress 0 regValidatorsCallData in
      output (ILogValues [JArr (JBig <$> tokenIds)]) ;;;
      console_log "Registering validators" ;;;
      fees <- getGasPrices hre ;;
      send hre factoryAddress (FMultiCall (approveTokens ++ [regValidators])) (Some fees) ;;;
      mine_or_wait test ;;;
      console_log "done"
  end.

(** The lookup of AToken is not awaited: its failure does not reach the
    code that follows. *)
Definition task_unregisterValidators (factoryAddress : address) (addresses : list string) : M unit :=
  output (ILogValues [JStr "unregisterValidators"; JArr (JStr <$> addresses)]) ;;;
  getContractAt ALICENET_FACTORY ;;;
  format32 (Some "AToken") ;;;
  output (ILogValues [JArr (JStr <$> addresses)]) ;;;
  admin <- admin_address ;;
  console_log ("Admin address: " ++s addr_text admin) ;;;
  validatorPool <- lookup_contract factoryAddress "ValidatorPool" ;;
  console_log ("validatorPool Address: " ++s addr_text validatorPool) ;;;
  input <- encode_call "ValidatorPool" "unregisterValidators" [JArr (JStr <$> addresses)] ;;
  callAny factoryAddress validatorPool input (Some 3) ;;;
  console_log "Done".

(** ** Maintenance *)

Definition task_scheduleMaintenance (factoryAddress : address) : M unit :=
  console_log "scheduling maintenance after the next snapshot" ;;;
  input <- encode_call "function scheduleMaintenance()" "scheduleMaintenance" [] ;;
  admin_address ;;;
  getContractAt ALICENET_FACTORY ;;;
  validatorPool <- lookup_contract factoryAddress "ValidatorPool" ;;
  console_log "calling the contract and waiting receipt" ;;;
  callAny factoryAddress validatorPool input (Some 3) ;;;
  ret tt.

Definition task_pauseEthdkgArbitraryHeight (alicenetHeight : string) (factoryAddress : address) : M unit :=
  input <- encode_call "function pauseConsensusOnArbitraryHeight(uint256)"
                       "pauseConsensusOnArbitraryHeight" [JStr alicenetHeight] ;;
  admin_address ;;;
  getContractAt ALICENET_FACTORY ;;;
  validatorPool <- lookup_contract factoryAddress "ValidatorPool" ;;
  callAny factoryAddress validatorPool input None ;;;
  ret tt.

Definition task_changeIntervalToEvictValidators (interval : string) (factoryAddress : address) : M unit :=
  admin_address ;;;
  getContractAt ALICENET_FACTORY ;;;
  validatorPool <- lookup_contract factoryAddress "ValidatorPool" ;;
  input <- encode_call "ValidatorPool" "setMaxIntervalWithoutSnapshots" [JStr interval] ;;
  callAny factoryAddress validatorPool input None ;;;
  ret tt.

Definition task_unregisterAllValidators (factoryAddress : address) : M unit :=
  admin_address ;;;
  getContractAt ALICENET_FACTORY ;;;
  validatorPool <- lookup_contract factoryAddress "ValidatorPool" ;;
  input <- encode_call "ValidatorPool" "unregisterAllValidators" [] ;;
  callAny factoryAddress validatorPool input None ;;;
  ret tt.

Definition task_initializeEthdkg (factoryAddress : address) : M unit :=
  admin_address ;;;
  getContractAt ALICENET_FACTORY ;;;
  validatorPool <- lookup_contract factoryAddress "ValidatorPool" ;;
  console_log "Initializing ETHDKG" ;;;
  input <- encode_call "ValidatorPool" "initializeETHDKG" [] ;;
  callAny factoryAddress validatorPool input (Some 3) ;;;
  console_log "Done".

Definition task_setMinEthereumBlocksPerSnapshot (factoryAddress : address) (blockNum : Z) : M unit :=
  getContractAt ALICENET_FACTORY ;;;
  snapshots <- lookup_contract factoryAddress "Snapshots" ;;
  (if blockNum <? 0
   then throw (Error "block-num not passed or the value was smaller than 0!") else ret tt) ;;;
  admin_address ;;;
  input <- encode_call "Snapshots" "setMinimumIntervalBetweenSnapshots" [JNum blockNum] ;;
  console_log ("Setting the setMinimumIntervalBetweenSnapshots to " ++s pretty blockNum) ;;;
  callAny factoryAddress snapshots input (Some 3) ;;;
  console_log "Done".

(** The checks of the parameters, in order. *)
Definition check_version (relativeEpoch major minor patch : Z) (binaryHash : string) : res unit :=
  if relativeEpoch <? 2
  then Throw (Error "relativeEpoch parameter not sent or the value was smaller than 2!")
  else if major <? 0
  then Throw (Error "major version parameter not sent or the value was smaller than 0!")
  else if minor <? 0
  then Throw (Error "minor parameter not sent or the value was smaller than 0!")
  else if patch <? 0
  then Throw (Error "patch parameter not sent or the value was smaller than 0!")
  else if decide (binaryHash = EmptyString)
  then Throw (Error "binaryHash parameter not sent!")
  else Ok tt.

Definition task_updateAliceNetNodeVersion (factoryAddress : address)
    (relativeEpoch major minor patch : Z) (binaryHash : string) : M unit :=
  getContractAt ALICENET_FACTORY ;;;
  dynamics <- lookup_contract factoryAddress "Dynamics" ;;
  lift (check_version relativeEpoch major minor patch binaryHash) ;;;
  admin_address ;;;
  hash <- format32 (Some binaryHash) ;;
  input <- encode_call "Dynamics" "updateAliceNetNodeVersion"
             [JNum relativeEpoch; JNum major; JNum minor; JNum patch; JStr hash] ;;
  console_log ("Updating the updateAliceNetNodeVersion to " ++s pretty major ++s "." ++s
               pretty minor ++s "." ++s pretty patch) ;;;
  callAny factoryAddress dynamics input (Some 3) ;;;
  console_log "Done".

Definition task_ethdkgInput : M unit :=
  input <- encode_call "function initializeETHDKG()" "initializeETHDKG" [] ;;
  output (ILogValues [JStr "input"; JStr input]).

(** ** Migration of the state of the previous deployment *)

(** The approvals of the migration, one per token. *)
Fixpoint approve_calls (ids : list Z) (validatorPoolAddress publicStakingAddress : address) :
    M (list MultiCallArgs) :=
  match ids with
  | [] => ret []
  | id :: ids =>
      approveCallData <- encode_call "PublicStaking" "approve" [JAddr validatorPoolAddress; JBig id] ;;
      rest <- approve_calls ids validatorPoolAddress publicStakingAddress ;;
      ret (encodeMultiCallArgs publicStakingAddress 0 approveCallData :: rest)
  end.

Definition strs (l : list string) : jsval := JArr (JStr <$> l).

Definition migrateSnapshotsAndValidators
    (factoryAddress publicStakingAddress snapshotAddress ethDKGAddress validatorPoolAddress : address)
    (tokenIDs : list Z) (validatorAccounts : list string) (validatorIndexes : list Z)
    (validatorShares : list (list string)) (ethHeight : Z) (masterPublicKey : list Z)
    (bClaims groupSignatures : list string) : M Receipt :=
  getContractAt ALICENET_FACTORY ;;;
  getContractFactory "ValidatorPool" ;;;
  getContractFactory "ETHDKG" ;;;
  getContractFactory "Snapshots" ;;;
  getContractFactory "PublicStaking" ;;;
  approveTokens <- approve_calls tokenIDs validatorPoolAddress publicStakingAddress ;;
  let validatorCount := 4 in
  let epoch := 0 in
  let sideChainHeight := 0 in
  registerValidatorsCallData <-
    encode_call "ValidatorPool" "registerValidators"
      [strs validatorAccounts; JArr (JBig <$> tokenIDs)] ;;
  let registerValidators := encodeMultiCallArgs validatorPoolAddress 0 registerValidatorsCallData in
  migrateValidatorsCallData <-
    encode_call "ETHDKG" "migrateValidators"
      [strs validatorAccounts; JArr (JNum <$> validatorIndexes); JArr (strs <$> validatorShares);
       JNum validatorCount; JNum epoch; JNum sideChainHeight; JNum ethHeight;
       JArr (JBig <$> masterPublicKey)] ;;
  let migrateValidators := encodeMultiCallArgs ethDKGAddress 0 migrateValidatorsCallData in
  migrateSnapshotsCallData <-
    encode_call "Snapshots" "migrateSnapshots" [strs groupSignatures; strs bClaims] ;;
  let migrateSnapshots := encodeMultiCallArgs snapshotAddress 0 migrateSnapshotsCallData in
  fees <- getGasPrices hre ;;
  send hre factoryAddress
    (FMultiCall (approveTokens ++ [registerValidators; migrateValidators; migrateSnapshots]))
    (Some fees).

(** The loop of [getGroupSignatures], [n] epochs from [i]. *)
Fixpoint fetch_signatures (n : nat) (i : Z) : M (list string) :=
  match n with
  | O => ret []
  | S n =>
      let height := i * 1024 in
      output (ILogValues [JBig height]) ;;;
      output (IHttp "https://edge.alice.net/v1/get-block-header" (JObj [("Height", JStr (pretty height))])) ;;;
      sig <- lift (of_option (LibError "axios" "request failed") (hre_sigGroup hre height)) ;;
      rest <- fetch_signatures n (i + 1) ;;
      ret (("0x" ++s sig) :: rest)
  end.

Definition getGroupSignatures (epoch : Z) : M (list string) :=
  let bufferSize := 5 in
  let start := if epoch >? bufferSize then epoch - bufferSize else 1 in
  output (ILogValues [JBig epoch]) ;;;
  output (ILogValues [JBig start]) ;;;
  output (ILogValues [JBool (start <? epoch)]) ;;;
  groupSignatures <- fetch_signatures (Z.to_nat (epoch - start + 1)) start ;;
  output (ILogValues [strs groupSignatures]) ;;;
  ret groupSignatures.

Definition MASTER_PUBLIC_KEY : list Z :=
  [19973864405227474494428046886218960395017286398286997273859673757240376592503;
   3666564623138203565215945530726129772754495167220101411282198856069539995091;
   16839568499509318396654065605910525620620734593528167444141729662886794883267;
   4238394038888761339041070176707923282936512397513542246905279490862584218353].
Definition VALIDATOR_ACCOUNTS : list string :=
  ["0xb80d6653f7e5b80dbbe8d0aa9f61b5d72e8028ad";
   "0x25489d6a720663f7e5253df68948edb302dfdcb6";
   "0x322e8f463b925da54a778ed597aef41bc4fe4743";
   "0xadf2a338e19c12298a3007cbea1c5276d1f746e0"].
Definition BLOCK_CLAIMS : list string :=
  ["0x000000000100040015000000008001000d00000002010000190000000201000025000000020100003100000002010000417e8cd8049656c9e1b2cbf90ae9dcc7fa1d70f2aaea7df7a2a4cfcd8b4a02a8c5d2460186f7233c927e7db2dcc703c0e500b653ca82273b7bfad8045d85a4702a5187985e08d03011645d5072d0aadb9b50eafb0014ad93cbc8a2c869a4139054ef9bd198da2c45c75bbecd8062d39451112d53cf60c02b48f144778f40b1b5";
   "0x000000000100040015000000008401000d0000000201000019000000020100002500000002010000310000000201000034003720c36c4406bd8fd6cb7b6f9ec3877dcdffb08e74058e54f07015e89e99c5d2460186f7233c927e7db2dcc703c0e500b653ca82273b7bfad8045d85a4703139e7a7362b5e743a2013b7f33d360530c5195a402693f74c78200e90afcef57f9e10df3d7cf622c1f2497043de80d3abf4450d05355571d732c1ea47987432";
   "0x000000000100040015000000008801000d000000020100001900000002010000250000000201000031000000020100007be9eda53b983d0fa3e17f6f8f051b658e165f39b1eb27da02eafa09467f76f8c5d2460186f7233c927e7db2dcc703c0e500b653ca82273b7bfad8045d85a470b28d67ca4ba36e663354920c301f855eb83703445d503c80183ee877041bd05b9936d9df3a955c09140093ea74a33151249848b964d0bb579e24377535b56316";
   "0x000000000100040015000000008c01000d00000002010000190000000201000025000000020100003100000002010000a9272bb0fd1998d2c98d8c449efe48f9dca1fe7d5c59b15e13aa1844e07a0aedc5d2460186f7233c927e7db2dcc703c0e500b653ca82273b7bfad8045d85a4704b4c04b0bacc06565ec44607848f4c16f7bc9b5bcf2a0622d0200f7d4e57f663735108c50c69dc004a21f95c1787b9109fba494481e504d8d87a4133b8b5057d";
   "0x000000000100040015000000009001000d00000002010000190000000201000025000000020100003100000002010000b11dfff48b9cd76b85e669f10e4cb8e64ab7d5f6a44d3aab1747c49b16626620c5d2460186f7233c927e7db2dcc703c0e500b653ca82273b7bfad8045d85a4708925a50edd15ded4b0076b2d682aba6cabdf9b3682005254082b808b6eeefb4782fd2260282b659817b3f6e725e13f743cfbda9c27b34271e4a003607c743144";
   "0x000000000100040015000000009401000d0000000201000019000000020100002500000002010000310000000201000072e4379e7ab07923d3047755c3eee288116d911f7ff92532e6faaff39f4b4b58c5d2460186f7233c927e7db2dcc703c0e500b653ca82273b7bfad8045d85a470c9e957c9edde4dc5e9766a1ec7524d412b456e0fcaba46d1f41d262768806b0827def5d9058edfb39cb9025033c0a3855d5c3de0850b52a446f907a7231ee744"].
Definition VALIDATOR_SHARES : list (list string) :=
  [["0x109f68dde37442959baa4b16498a6fd19c285f9355c23d8eef900876e8536a12";
    "0x2c11cec2ce4e17afffcc105f9bd0e646f6274f562f1c93f93545fc22c74a2cdc";
    "0x0430024aa1619a117e74425481c44f4628f45af7b389e4d5f84fc41227e1829e";
    "0x163cb9abb41800ba5cc1955fd72c0983edc9869a21925006e691d4947451c9fd"];
   ["0x13f8a33ff7ef3cb5536b2223195b7b652a3533d309ad3887bcf570c9b1dbe142";
    "0x170fe500681ff96e84a6dd7d1e4698f0ad6dd3ef17520a7cac29b29b84f86aa7";
    "0x19d29ec38a1d7d8d7284a76b214bf5b818eaccf47cd37ab8bc08c20833e586e9";
    "0x27c0f981d1bbc1667ea520341b7fa65fc79815ab8122a814e3714bfdbacd84db"];
   ["0x1064dd800716a7e80ed5d40d5563940cd25be4451976a28c237e1426d40eae5a";
    "0x0e1c4d27ca7672e0662aaecbc5f2d62ec23e58cf63ffa9b6fabd41d3cff7c927";
    "0x106d1f91c4b77d5c9bb485aeea784e9acf0c91702eefb766e94aefc92043a004";
    "0x281971fd391a560142b8d796018afc31131a668b2ca6f62b304564d6422bb03f"];
   ["0x2228b7dd85ddae13994fa85f42df1833da3b9468a1e65b987142d62f125a9754";
    "0x0c5682ae7cd22a3c3daff06ce469f318025845e90254d9d05cecaeba45f445a5";
    "0x2cdac99ed82ffc83fc17213e96d56400db23f08d05418936cb352f0e179cf971";
    "0x06371376125bb2b96a5e427fac829f5c3919296aac4c42ddc44eb7c773369c2b"]].

(** A missing and an empty [factoryAddress] are both [None]. *)
Definition task_deployStateMigrationContract (fuel : nat) (factoryAddress : option address)
    (skipFirstTransaction : bool) : M unit :=
  factory <- lift (of_option (Error "Expected a factory address to be passed!") factoryAddress) ;;
  admin <- admin_address ;;
  console_log ("Admin address: " ++s addr_text admin) ;;;
  getContractAt ALICENET_FACTORY ;;;
  aTokenAddress <- factoryLookupAddress factory "AToken" ;;
  publicStakingAddress <- factoryLookupAddress factory "PublicStaking" ;;
  validatorPoolAddress <- factoryLookupAddress factory "ValidatorPool" ;;
  snapshotAddress <- factoryLookupAddress factory "Snapshots" ;;
  ethDKGAddress <- factoryLookupAddress factory "ETHDKG" ;;
  let epoch := 101 in
  console_log ("Master Public Key: " ++s js_str (JArr (JBig <$> MASTER_PUBLIC_KEY))) ;;;
  groupSignatures <- getGroupSignatures epoch ;;
  tokenIds <-
    (if skipFirstTransaction then ret []
     else
       console_log "Minting and staking Atoken!" ;;;
       receipt <- stakeValidators 4 factory aTokenAddress publicStakingAddress ;;
       receipt <- wait (Some 8) receipt ;;
       match r_events receipt with
       | None => throw (Error "receipt has no events")
       | Some events =>
           tokenIds <- lift (staked_ids events publicStakingAddress) ;;
           output (ILogValues [JArr (JBig <$> tokenIds)]) ;;;
           waitBlocks fuel 3 ;;;
           ret tokenIds
       end) ;;
  console_log "register and migrate state" ;;;
  ethHeight <- getBlockNumber ;;
  receipt <- migrateSnapshotsAndValidators factory publicStakingAddress snapshotAddress ethDKGAddress
    validatorPoolAddress tokenIds VALIDATOR_ACCOUNTS [1; 2; 3; 4] VALIDATOR_SHARES ethHeight
    MASTER_PUBLIC_KEY BLOCK_CLAIMS groupSignatures ;;
  wait (Some 8) receipt ;;;
  waitBlocks fuel 3.
End Operate.

(** *** Block claims as the Snapshots contract reads them *)

Definition hex_byte (a b : ascii) : option Z :=
  x ← digit_val a; y ← digit_val b;
  if (x <? 16) && (y <? 16) then Some (16 * x + y) else None.

Fixpoint hex_bytes (s : string) : option (list Z) :=
  match s with
  | EmptyString => Some []
  | String a (String b s) => x ← hex_byte a b; xs ← hex_bytes s; Some (x :: xs)
  | String _ EmptyString => None
  end.

(** The claims the contract extracts from a text of the migration. *)
Definition block_claims (text : string) : option BClaims :=
  src ← hex_bytes (slice 2 text);
  match extractBClaims src with Done c => Some c | Reverts _ => None end.

(** ** Waiting for blocks *)

Definition block_count (w : world) : nat :=
  length (filter (λ i, is_block_request i = true) (w_trace w)).

Definition delays (l : list io) : list Z :=
  omap (λ i, match i with IDelay ms => Some ms | _ => None end) l.

Section Waiting.
Context (hre : Hre).

Lemma getBlockNumber_run w :
  getBlockNumber hre w = (Ok (hre_block hre (block_count w)), traced w [IRpc "eth_blockNumber"]).
Proof. done. Qed.

Lemma block_count_traced w l :
  block_count (traced w l) =
  (block_count w + length (filter (λ i, is_block_request i = true) l))%nat.
Proof. unfold block_count. simpl. by rewrite filter_app, length_app. Qed.

Lemma poll_blocks_run k : ∀ fuel w cur e,
  cur < e → (∀ j, (j < k)%nat → hre_block hre (block_count w + j) < e) →
  e ≤ hre_block hre (block_count w + k) → (k < fuel)%nat →
  ∃ l, poll_blocks hre fuel cur e w = (Ok tt, traced w l) ∧ delays l = replicate (S k) 10000 ∧
    txs l = [].
Proof.
  induction k as [|k IH]; intros [|fuel] w cur e Hcur Hlt Hle Hf; try lia; cbn [poll_blocks];
    rewrite (proj2 (Z.ltb_lt _ _) Hcur); mstep (getBlockNumber_run w);
    set (b := hre_block hre (block_count w)) in *; unfold console_log;
    mstep (output_run (ILog ("Current block: " ++s pretty b)) (traced w [IRpc "eth_blockNumber"]));
    rewrite traced_app; simpl ([_] ++ _);
    mstep (output_run (IDelay 10000) (traced w [IRpc "eth_blockNumber"; ILog ("Current block: " ++s pretty b)]));
    rewrite traced_app; simpl ([_; _] ++ _).
  - rewrite Nat.add_0_r in Hle. destruct fuel; simpl; rewrite (proj2 (Z.ltb_ge _ _)) by done;
      by eexists.
  - edestruct (IH fuel) as (l & -> & Hd & Ht).
    + specialize (Hlt 0%nat). rewrite Nat.add_0_r in Hlt. apply Hlt. lia.
    + intros j Hj. rewrite block_count_traced. simpl. rewrite <-Nat.add_assoc. apply Hlt. simpl; lia.
    + rewrite block_count_traced. simpl. by rewrite <-Nat.add_assoc.
    + lia.
    + rewrite traced_app. eexists. split; [done|]. simpl. unfold delays in *. simpl. by rewrite Hd, Ht.
Qed.

(** C31: [waitBlocks] returns as soon as the chain has advanced by the number
    of blocks asked for: it polls until the first answer that reaches the
    expected block, sleeping ten seconds after each poll, and sends
    nothing. *)
Theorem wait_blocks_returns fuel n w k :
  (∀ j, (0 < j < k)%nat → hre_block hre (block_count w + j) < hre_block hre (block_count w) + n) →
  hre_block hre (block_count w) + n ≤ hre_block hre (block_count w + k) →
  0 < n → (0 < k ≤ fuel)%nat →
  ∃ l, waitBlocks hre fuel n w = (Ok tt, traced w l) ∧ delays l = replicate k 10000 ∧ txs l = [].
Proof.
  intros Hlt Hle Hn Hk. unfold waitBlocks. mstep (getBlockNumber_run w). cbv zeta.
  set (b := hre_block hre (block_count w)) in *. set (w1 := traced w _). set (msg := (_ ++s _)%string).
  unfold console_log. mstep (output_run (ILog msg) w1). unfold w1. rewrite traced_app.
  destruct k as [|k]; [lia|].
  set (w2 := traced w _). assert (block_count w2 = S (block_count w)) as Hb2
    by (unfold w2; rewrite block_count_traced; simpl; lia).
  destruct (poll_blocks_run k fuel w2 b (b + n)) as (l & -> & Hd & Ht); [lia| |rewrite Hb2|lia|].
  - intros j Hj. rewrite Hb2. replace (S (block_count w) + j)%nat with (block_count w + S j)%nat by lia.
    apply Hlt. lia.
  - by replace (S (block_count w) + k)%nat with (block_count w + S k)%nat by lia.
  - unfold w2. rewrite traced_app. by eexists.
Qed.
End Waiting.

(** ** Group signatures *)

(** The heights asked for, in order. *)
Definition header_requests (l : list io) : list jsval :=
  omap (λ i, match i with IHttp _ body => obj_get (match body with JObj o => o | _ => [] end) "Height"
                        | _ => None end) l.

(** The epochs of the signatures: the last six. *)
Definition epochs (epoch : Z) : list Z :=
  seqZ (Z.max 1 (epoch - 5)) (epoch + 1 - Z.max 1 (epoch - 5)).

Section Signatures.
Context (hre : Hre).

Lemma fetch_signatures_run (sig : Z → string) n : ∀ i w,
  (∀ k, i ≤ k < i + Z.of_nat n → hre_sigGroup hre (k * 1024) = Some (sig k)) →
  ∃ l, fetch_signatures hre n i w =
      (Ok ((λ k, "0x" ++s sig k) <$> seqZ i (Z.of_nat n)), traced w l) ∧
    header_requests l = (λ k, JStr (pretty (k * 1024))) <$> seqZ i (Z.of_nat n) ∧ txs l = [].
Proof.
  induction n as [|n IH]; intros i w Hsig; cbn [fetch_signatures].
  { exists []. by rewrite traced_nil. }
  cbv zeta. set (i1 := ILogValues _). set (i2 := IHttp _ _). rewrite !mbind_output, traced_app.
  assert (hre_sigGroup hre (i * 1024) = Some (sig i)) as Hi by (apply Hsig; lia).
  rewrite Hi. cbn [of_option]. rewrite mbind_lift_ok.
  destruct (IH (i + 1) (traced w ([i1] ++ [i2]))) as (l & E & Hl & Ht); [intros; apply Hsig; lia|].
  mstep E. rewrite (seqZ_cons i) by lia. replace (Z.pred (Z.of_nat (S n))) with (Z.of_nat n) by lia.
  rewrite <-Z.add_1_r.
  eexists. split; [by rewrite traced_app|]. simpl. unfold header_requests in *. simpl. by rewrite Hl.
Qed.

Lemma getGroupSignatures_run epoch (sig : Z → string) w :
  1 ≤ epoch →
  (∀ k, k ∈ epochs epoch → hre_sigGroup hre (k * 1024) = Some (sig k)) →
  ∃ l, getGroupSignatures hre epoch w =
      (Ok ((λ k, "0x" ++s sig k) <$> epochs epoch), traced w l) ∧
    header_requests l = (λ k, JStr (pretty (k * 1024))) <$> epochs epoch ∧
    Z.of_nat (length (epochs epoch)) = Z.min epoch 6 ∧ txs l = [].
Proof.
  intros He Hsig. unfold getGroupSignatures. cbv zeta.
  assert ((if epoch >? 5 then epoch - 5 else 1) = Z.max 1 (epoch - 5)) as ->
    by (rewrite Z.gtb_ltb; destruct (Z.ltb_spec 5 epoch); lia).
  set (s := Z.max 1 (epoch - 5)) in *. rewrite !mbind_output, !traced_app.
  replace (epoch - s + 1) with (epoch + 1 - s) by lia.
  assert (Z.of_nat (Z.to_nat (epoch + 1 - s)) = epoch + 1 - s) as Hn by (unfold s; lia).
  set (w1 := traced w _).
  destruct (fetch_signatures_run sig (Z.to_nat (epoch + 1 - s)) s w1) as (l & E & Hl & Ht).
  { intros k Hk. apply Hsig. unfold epochs. apply elem_of_seqZ. fold s. lia. }
  rewrite Hn in *. mstep E. rewrite mbind_output, traced_app. unfold w1. rewrite traced_app.
  eexists. split; [done|]. unfold header_requests in *. simpl. rewrite omap_app, txs_app, Hl, Ht.
  simpl. rewrite app_nil_r. unfold epochs. fold s. rewrite length_seqZ. split_and!; [done|unfold s; lia|done].
Qed.

(** C30: [getGroupSignatures] asks the side chain for the headers at the end
    of the last six epochs, or of all of them when there are fewer, and
    returns their signatures in that order. *)
Theorem group_signatures epoch (sig : Z → string) w :
  1 ≤ epoch →
  (∀ k, k ∈ epochs epoch → hre_sigGroup hre (k * 1024) = Some (sig k)) →
  ∃ l, getGroupSignatures hre epoch w =
      (Ok ((λ k, "0x" ++s sig k) <$> epochs epoch), traced w l) ∧
    header_requests l = (λ k, JStr (pretty (k * 1024))) <$> epochs epoch ∧
    Z.of_nat (length (epochs epoch)) = Z.min epoch 6 ∧ txs l = [].
Proof. apply getGroupSignatures_run. Qed.

(** the data of the migration is consistent.  The block claims parse as
    the Snapshots contract parses them, all on one side chain, and their
    heights are those whose signatures are fetched for epoch 101, in the
    same order; there are as many accounts as key shares, each of four
    words, and as many block claims as signatures. *)
Theorem migration_data_consistent :
  (∀ k, k ∈ epochs 101 → is_Some (hre_sigGroup hre (k * 1024))) →
  ∀ w, ∃ sigs l, getGroupSignatures hre 101 w = (Ok sigs, traced w l) ∧
    length sigs = length BLOCK_CLAIMS ∧
    mapM (λ s, (λ c, (c_chainId c, c_height c)) <$> block_claims s) BLOCK_CLAIMS =
      Some ((λ k, (21, k * 1024)) <$> epochs 101) ∧
    header_requests l = (λ k, JStr (pretty (k * 1024))) <$> epochs 101 ∧
    length VALIDATOR_ACCOUNTS = length VALIDATOR_SHARES ∧
    Forall (λ ws, length ws = 4%nat) VALIDATOR_SHARES.
Proof.
  intros Hsig w.
  destruct (getGroupSignatures_run 101 (λ k, default EmptyString (hre_sigGroup hre (k * 1024))) w)
    as (l & E & Hl & _ & _); [lia| |].
  { intros k [x Hk]%Hsig. by rewrite Hk. }
  eexists _, l. split; [exact E|]. rewrite length_fmap. split_and!; [reflexivity| |exact Hl|reflexivity|].
  - vm_compute. reflexivity.
  - repeat constructor.
Qed.
End Signatures.

(** ** Maintenance tasks relay one call *)

Inductive maintenance :=
  | ScheduleMaintenance
  | PauseEthdkgArbitraryHeight (alicenetHeight : string)
  | ChangeIntervalToEvictValidators (interval : string)
  | UnregisterAllValidators
  | InitializeEthdkg
  | UnregisterValidators (addresses : list string)
  | SetMinEthereumBlocksPerSnapshot (blockNum : Z)
  | UpdateAliceNetNodeVersion (relativeEpoch major minor patch : Z) (binaryHash : string).

(** The contract a task administers. *)
Definition administers (t : maintenance) : string :=
  match t with
  | SetMinEthereumBlocksPerSnapshot _ => "Snapshots"
  | UpdateAliceNetNodeVersion _ _ _ _ _ => "Dynamics"
  | _ => "ValidatorPool"
  end.

(** Its parameters are in range. *)
Definition accepted (t : maintenance) : bool :=
  match t with
  | SetMinEthereumBlocksPerSnapshot n => 0 <=? n
  | UpdateAliceNetNodeVersion e major minor patch h =>
      (2 <=? e) && (0 <=? major) && (0 <=? minor) && (0 <=? patch) && bool_decide (h ≠ EmptyString)
  | _ => true
  end.

Section Maintenance.
Context `{Ethers, Evm} (hre : Hre).

Definition run_maintenance (f : address) (t : maintenance) : M unit :=
  match t with
  | ScheduleMaintenance => task_scheduleMaintenance hre f
  | PauseEthdkgArbitraryHeight h => task_pauseEthdkgArbitraryHeight hre h f
  | ChangeIntervalToEvictValidators i => task_changeIntervalToEvictValidators hre i f
  | UnregisterAllValidators => task_unregisterAllValidators hre f
  | InitializeEthdkg => task_initializeEthdkg hre f
  | UnregisterValidators l => task_unregisterValidators hre f l
  | SetMinEthereumBlocksPerSnapshot n => task_setMinEthereumBlocksPerSnapshot hre f n
  | UpdateAliceNetNodeVersion e major minor patch h =>
      task_updateAliceNetNodeVersion hre f e major minor patch h
  end.

(** The call the contract receives. *)
Definition maintenance_call (t : maintenance) : option string :=
  match t with
  | ScheduleMaintenance =>
      encodeFunctionData "function scheduleMaintenance()" "scheduleMaintenance" []
  | PauseEthdkgArbitraryHeight h =>
      encodeFunctionData "function pauseConsensusOnArbitraryHeight(uint256)"
        "pauseConsensusOnArbitraryHeight" [JStr h]
  | ChangeIntervalToEvictValidators i =>
      encodeFunctionData "ValidatorPool" "setMaxIntervalWithoutSnapshots" [JStr i]
  | UnregisterAllValidators => encodeFunctionData "ValidatorPool" "unregisterAllValidators" []
  | InitializeEthdkg => encodeFunctionData "ValidatorPool" "initializeETHDKG" []
  | UnregisterValidators l => encodeFunctionData "ValidatorPool" "unregisterValidators" [strs l]
  | SetMinEthereumBlocksPerSnapshot n =>
      encodeFunctionData "Snapshots" "setMinimumIntervalBetweenSnapshots" [JNum n]
  | UpdateAliceNetNodeVersion e major minor patch h =>
      b ← formatBytes32String h;
      encodeFunctionData "Dynamics" "updateAliceNetNodeVersion"
        [JNum e; JNum major; JNum minor; JNum patch; JStr b]
  end.

(** The transaction of a task that succeeds. *)
Definition relayed (c : chain) (f : address) (t : maintenance) (c' : chain) (tx : io) : Prop :=
  ∃ admin st b d es,
    head (hre_signers hre) = Some admin ∧ accounts c !! f = Some (KFactory st) ∧
    formatBytes32String (administers t) = Some b ∧ maintenance_call t = Some d ∧
    accepted t = true ∧
    apply_tx (bump_nonce c admin) admin f (FCallAny (lookup f st b) 0 d) = Some (c', es) ∧
    tx = ITx admin f (FCallAny (lookup f st b) 0 d) None.

Lemma check_version_ok e major minor patch h u :
  check_version e major minor patch h = Ok u →
  accepted (UpdateAliceNetNodeVersion e major minor patch h) = true.
Proof.
  unfold check_version, accepted.
  destruct (Z.ltb_spec e 2), (Z.ltb_spec major 0), (Z.ltb_spec minor 0), (Z.ltb_spec patch 0); try done.
  case_decide; [done|]. intros _. rewrite bool_decide_true by done.
  by rewrite !(proj2 (Z.leb_le _ _)).
Qed.

Lemma check_version_accepted e major minor patch h :
  accepted (UpdateAliceNetNodeVersion e major minor patch h) = true →
  check_version e major minor patch h = Ok tt.
Proof.
  unfold check_version, accepted.
  intros [[[[H1%Z.leb_le H2%Z.leb_le]%andb_true_iff H3%Z.leb_le]%andb_true_iff
    H4%Z.leb_le]%andb_true_iff H5%bool_decide_eq_true]%andb_true_iff.
  by rewrite !(proj2 (Z.ltb_ge _ _)), decide_False.
Qed.

Lemma wp_encode name fn args c Q :
  Q (of_option (LibError "ethers" "INVALID_ARGUMENT") (encodeFunctionData name fn args)) c [] →
  wp (encode_call name fn args) c Q.
Proof. apply wp_lift. Qed.

Lemma wp_format32 s c Q :
  Q (of_option (LibError "ethers" "bytes32 string must be less than 32 bytes")
               (formatBytes32String s)) c [] →
  wp (format32 (Some s)) c Q.
Proof. apply wp_lift. Qed.

Lemma wp_admin c Q :
  Q (of_option (TypeError "Cannot read properties of undefined (reading 'address')")
               (head (hre_signers hre))) c [] →
  wp (admin_address hre) c Q.
Proof. apply wp_lift. Qed.

Lemma wp_callAny f a d n c Q admin :
  head (hre_signers hre) = Some admin →
  match apply_tx (bump_nonce c admin) admin f (FCallAny a 0 d) with
  | Some (c', events) =>
      Q (Ok {| r_events := Some events; r_gasUsed := gas_used c (FCallAny a 0 d) |}) c'
        [ITx admin f (FCallAny a 0 d) None]
  | None => Q (Throw (LibError "ethers" "UNPREDICTABLE_GAS_LIMIT: execution reverted")) c []
  end →
  wp (callAny hre f a d n) c Q.
Proof.
  intros Hs HQ. apply wp_bind, (wp_send _ _ _ _ _ _ _ Hs).
  destruct (apply_tx _ _ _ _) as [[c' es]|]; [|done]. apply wp_wait. by rewrite app_nil_r.
Qed.

(** One step of a task, on every outcome. *)
Ltac op_rule :=
  lazymatch goal with
  | |- wp (encode_call _ _ _) _ _ => apply wp_encode
  | |- wp (format32 _) _ _ => apply wp_format32
  | |- wp (admin_address _) _ _ => apply wp_admin
  | |- wp (getContractAt _) _ _ => apply wp_getContractFactory
  | |- wp (lookup_contract _ _) _ _ => unfold lookup_contract
  | |- wp (factory_lookup _ _) _ _ => unfold factory_lookup
  | |- wp (callAny _ _ _ _ _) _ _ => eapply wp_callAny; [eassumption|]
  | |- wp (match ?x with _ => _ end) _ _ => destruct x eqn:?
  | |- match of_option _ ?x with _ => _ end => destruct x eqn:?; cbn [of_option]
  | |- match (if ?x then _ else _) with _ => _ end => destruct x eqn:?
  | |- match (match ?x with _ => _ end) with _ => _ end => destruct x eqn:?
  | |- match ?x with _ => _ end => destruct x eqn:?
  | |- _ => wp_rule
  end; cbv beta iota zeta.

Ltac unfold_task :=
  cbn [run_maintenance];
  unfold task_scheduleMaintenance, task_pauseEthdkgArbitraryHeight,
    task_changeIntervalToEvictValidators, task_unregisterAllValidators, task_initializeEthdkg,
    task_unregisterValidators, task_setMinEthereumBlocksPerSnapshot,
    task_updateAliceNetNodeVersion.

Ltac relay_done :=
  first [ left; by eauto
        | right; eexists; split; [done|]; split; [|done]; unfold relayed; do 5 eexists; split_and!;
          first [eassumption | done | by apply check_version_ok with tt | idtac] ].

Lemma maintenance_wp f t c :
  wp (run_maintenance f t) c (λ r c' l,
    (∃ e, r = Throw e ∧ c' = c ∧ l = []) ∨
    (∃ tx, r = Ok tt ∧ relayed c f t c' tx ∧ l = [tx])).
Proof.
  destruct t; unfold_task; repeat op_rule; relay_done.
  - by apply Z.leb_le, Z.ltb_ge.
  - cbn [maintenance_call]. match goal with E : formatBytes32String _ = _ |- _ => by rewrite E end.
  - by eapply check_version_ok.
Qed.

(** C11: every maintenance task, on every world, does one of two things.  It
    throws, and then it has sent nothing and the chain is as before; or it
    returns, and then its parameters were in range and it sent exactly one
    transaction: the administrator's [callAny] of the factory, relaying the
    task's call to the address the factory looks up. *)
Theorem maintenance_outcome f t w :
  ∃ r c' l, runs_to (run_maintenance f t) w r c' l ∧
    ((∃ e, r = Throw e) ∧ c' = w_chain w ∧ l = [] ∨
     r = Ok tt ∧ ∃ tx, l = [tx] ∧ relayed (w_chain w) f t c' tx).
Proof.
  destruct (maintenance_wp f t (w_chain w) w eq_refl) as (r & w' & l & Hw & Hf & Ht & HQ).
  exists r, (w_chain w'), l. split; [by exists w'|]. naive_solver.
Qed.

(** C25: a maintenance task whose parameters are in range succeeds whenever
    the relayed call does. *)
Theorem maintenance_relays f t w c' tx :
  hasContractFactory ALICENET_FACTORY = true → hasContractFactory (administers t) = true →
  is_Some (formatBytes32String "AToken") →
  relayed (w_chain w) f t c' tx →
  runs_to (run_maintenance f t) w (Ok tt) c' [tx].
Proof.
  intros HF HC [at_ HA] (admin & st & b & d & es & Hs & Hf & Hb & Hd & Hacc & Htx & ->).
  apply wp_runs_to. destruct t; cbn [maintenance_call administers] in *; unfold strs in *;
    [idtac..|apply Z.leb_le, Z.ltb_ge in Hacc
    |apply check_version_accepted in Hacc; apply bind_Some in Hd as (h & ? & ?)];
    unfold_task; repeat op_rule; simplify_eq; done.
Qed.
End Maintenance.

(** ** Registering validators: two transactions *)

Section Registration.
Context `{Ethers, Evm} (hre : Hre).

(** The contracts the operations use. *)
Definition STAKING : list string := ["AToken"; "PublicStaking"; "ValidatorPool"].
Definition MIGRATED : list string := STAKING ++ ["Snapshots"; "ETHDKG"].

(** The address the factory knows a contract by. *)
Definition addr_of (f : address) (st : FactoryState) (name : string) : address :=
  lookup f st (default EmptyString (formatBytes32String name)).

(** Approve the whole stake, then one position per validator. *)
Definition stake_batch (n : nat) (aToken publicStaking : address) : option (list MultiCallArgs) :=
  approve ← encodeFunctionData "AToken" "approve"
              [JAddr publicStaking; JBig (Z.of_nat n * stakeAmt)];
  mint ← encodeFunctionData "PublicStaking" "mint" [JBig stakeAmt];
  Some (encodeMultiCallArgs aToken 0 approve ::
        replicate n (encodeMultiCallArgs publicStaking 0 mint)).

(** Approve each position for the pool. *)
Definition approve_batch (ids : list Z) (publicStaking validatorPool : address) :
    option (list MultiCallArgs) :=
  mapM (λ id, encodeMultiCallArgs publicStaking 0 <$>
          encodeFunctionData "PublicStaking" "approve" [JAddr validatorPool; JBig id]) ids.

Definition register_batch (ids : list Z) (addresses : list string)
    (publicStaking validatorPool : address) : option (list MultiCallArgs) :=
  approvals ← approve_batch ids publicStaking validatorPool;
  register ← encodeFunctionData "ValidatorPool" "registerValidators"
               [strs addresses; JArr (JBig <$> ids)];
  Some (approvals ++ [encodeMultiCallArgs validatorPool 0 register]).

(** The environment the operations run in: the contracts they name are
    compiled, their names are salts and the administrator signs. *)
Record equipped (admin : address) (names : list string) : Prop := {
  eq_admin : head (hre_signers hre) = Some admin;
  eq_base : hasContractFactory ALICENET_FACTORY = true;
  eq_names : Forall (λ n, hasContractFactory n = true ∧ is_Some (formatBytes32String n)) names }.

(** There, [f] is a factory. *)
Record operable (c : chain) (f : address) (st : FactoryState) (admin : address)
    (names : list string) : Prop := {
  op_equipped : equipped admin names;
  op_factory : accounts c !! f = Some (KFactory st) }.

Definition multicall_tx (f admin : address) (calls : list MultiCallArgs) : io :=
  ITx admin f (FMultiCall calls) (Some (fees_of hre)).

Lemma wp_stake_calls ps mint c n : ∀ Q,
  encodeFunctionData "PublicStaking" "mint" [JBig stakeAmt] = Some mint →
  Q (Ok (replicate n (encodeMultiCallArgs ps 0 mint))) c [] → wp (stake_calls n ps) c Q.
Proof.
  induction n as [|n IH]; intros Q Hm HQ; cbn [stake_calls]; [by wp_rule|].
  wp_rule. apply wp_encode. rewrite Hm. cbn [of_option]. wp_rule. apply IH; [done|].
  by wp_rule.
Qed.

Lemma wp_send_batch f admin calls c Q :
  head (hre_signers hre) = Some admin →
  match apply_tx (bump_nonce c admin) admin f (FMultiCall calls) with
  | Some (c', events) =>
      Q (Ok {| r_events := Some events; r_gasUsed := gas_used c (FMultiCall calls) |}) c'
        [multicall_tx f admin calls]
  | None => Q (Throw (LibError "ethers" "UNPREDICTABLE_GAS_LIMIT: execution reverted")) c []
  end →
  wp (fees <- getGasPrices hre ;; send hre f (FMultiCall calls) (Some fees)) c Q.
Proof. intros Hs HQ. wp_rule. wp_rule. by eapply wp_send. Qed.

Lemma wp_stakeValidators n f admin names at_ ps c Q :
  equipped admin names → "AToken" ∈ names → "PublicStaking" ∈ names → n ≠ 0%nat →
  match stake_batch n at_ ps with
  | None => ∀ e, Q (Throw e) c []
  | Some calls =>
      match apply_tx (bump_nonce c admin) admin f (FMultiCall calls) with
      | Some (c', events) =>
          Q (Ok {| r_events := Some events; r_gasUsed := gas_used c (FMultiCall calls) |}) c'
            [multicall_tx f admin calls]
      | None => ∀ e, Q (Throw e) c []
      end
  end →
  wp (stakeValidators hre n f at_ ps) c Q.
Proof.
  intros [Hs Hb Hn] HA HP Hn0 HQ. rewrite Forall_forall in Hn.
  destruct (Hn _ HA) as [HA' _], (Hn _ HP) as [HP' _]. unfold stakeValidators, getContractAt.
  wp_rule. apply wp_getContractFactory. rewrite Hb. cbv iota.
  wp_rule. apply wp_getContractFactory. rewrite HA'. cbv iota.
  wp_rule. apply wp_getContractFactory. rewrite HP'. cbv iota.
  unfold stake_batch in HQ. wp_rule. apply wp_encode.
  destruct (encodeFunctionData "AToken" _ _) as [da|]; [|apply HQ]. cbn [of_option].
  wp_rule. simpl in HQ. destruct (encodeFunctionData "PublicStaking" _ _) as [dm|] eqn:Hm.
  - apply (wp_stake_calls _ dm); [done|]. eapply wp_send_batch; [done|]. simpl in HQ.
    destruct (apply_tx _ _ _ _) as [[]|]; [done|apply HQ].
  - destruct n; [done|]. cbn [stake_calls]. wp_rule. apply wp_encode. rewrite Hm. apply HQ.
Qed.

(** The positions found in the receipt and their approvals. *)
Definition staked_batch (es : list event) (publicStaking validatorPool : address) :
    option (list Z * list MultiCallArgs) :=
  match staked_ids es publicStaking with
  | Ok ids => (ids,.) <$> approve_batch ids publicStaking validatorPool
  | Throw _ => None
  end.

Lemma staked_batch_cons e es ps vp :
  staked_batch (e :: es) ps vp =
  if is_stake ps e then
    match topic_bigint (ev_topics e !! 3%nat),
          encodeFunctionData "PublicStaking" "approve"
            [JAddr vp; JBig (match topic_bigint (ev_topics e !! 3%nat) with Ok i => i | _ => 0 end)],
          staked_batch es ps vp with
    | Ok id, Some d, Some (ids, calls) => Some (id :: ids, encodeMultiCallArgs ps 0 d :: calls)
    | _, _, _ => None
    end
  else staked_batch es ps vp.
Proof.
  unfold staked_batch, approve_batch. simpl. destruct (is_stake ps e); [|done].
  destruct (topic_bigint _) as [id|]; simpl; [|done].
  destruct (staked_ids es ps) as [ids|]; simpl; [|by destruct (encodeFunctionData _ _ _)].
  destruct (encodeFunctionData _ _ _); simpl; [|done]. by destruct (mapM _ _).
Qed.

Lemma wp_staked_tokens ps vp c es : ∀ Q,
  match staked_batch es ps vp with
  | Some (ids, calls) => Q (Ok (zip ids calls)) c []
  | None => ∀ e, Q (Throw e) c []
  end → wp (staked_tokens es ps vp) c Q.
Proof.
  induction es as [|e es IH]; intros Q; [by apply wp_ret|].
  rewrite staked_batch_cons. cbn [staked_tokens]. destruct (is_stake ps e); [|apply IH].
  intros HQ. wp_rule. wp_rule. destruct (topic_bigint _) as [id|]; [|done].
  wp_rule. apply wp_encode. destruct (encodeFunctionData _ _ _) as [d|]; [|apply HQ].
  cbn [of_option]. wp_rule. apply IH. destruct (staked_batch es ps vp) as [[ids calls]|]; [|apply HQ].
  by wp_rule.
Qed.

Lemma approve_batch_length ids ps vp calls :
  approve_batch ids ps vp = Some calls → length calls = length ids.
Proof. intros Hm%length_mapM. by rewrite Hm. Qed.

Lemma staked_batch_zip es ps vp ids calls :
  staked_batch es ps vp = Some (ids, calls) →
  staked_ids es ps = Ok ids ∧ approve_batch ids ps vp = Some calls ∧
  (zip ids calls).*1 = ids ∧ (zip ids calls).*2 = calls.
Proof.
  unfold staked_batch. destruct (staked_ids es ps) as [ids'|]; [|done].
  intros (x & Hx & [= -> ->])%fmap_Some. pose proof (approve_batch_length _ _ _ _ Hx).
  rewrite fst_zip, snd_zip by lia. done.
Qed.

Lemma wp_factoryLookupAddress f st admin names name c Q :
  operable c f st admin names → name ∈ names → Q (Ok (addr_of f st name)) c [] →
  wp (factoryLookupAddress f name) c Q.
Proof.
  intros [[_ Hb Hn] Hf] Hin HQ. rewrite Forall_forall in Hn. destruct (Hn _ Hin) as [_ [b Hb32]].
  unfold factoryLookupAddress, getContractAt, factory_lookup.
  wp_rule. apply wp_getContractFactory. rewrite Hb. cbv iota.
  wp_rule. apply wp_format32. rewrite Hb32. cbn [of_option].
  repeat wp_rule. rewrite Hf. wp_rule. unfold addr_of in HQ. by rewrite Hb32 in HQ.
Qed.

Lemma wp_lookup_contract f st admin names name c Q :
  operable c f st admin names → name ∈ names → Q (Ok (addr_of f st name)) c [] →
  wp (lookup_contract f name) c Q.
Proof.
  intros [[_ Hb Hn] Hf] Hin HQ. rewrite Forall_forall in Hn. destruct (Hn _ Hin) as [Hc [b Hb32]].
  unfold lookup_contract, getContractAt, factory_lookup.
  wp_rule. apply wp_format32. rewrite Hb32. cbn [of_option].
  repeat wp_rule. rewrite Hf. repeat wp_rule. rewrite Hc. wp_rule.
  unfold addr_of in HQ. by rewrite Hb32 in HQ.
Qed.

Lemma wp_compiled admin names name c Q :
  equipped admin names → name ∈ names → Q (Ok tt) c [] → wp (getContractFactory name) c Q.
Proof.
  intros [_ _ Hn] Hin HQ. rewrite Forall_forall in Hn. destruct (Hn _ Hin) as [Hc _].
  apply wp_getContractFactory. by rewrite Hc.
Qed.

Lemma wp_base admin names c Q :
  equipped admin names → Q (Ok tt) c [] → wp (getContractAt ALICENET_FACTORY) c Q.
Proof. intros [_ Hb _] HQ. apply wp_getContractFactory. by rewrite Hb. Qed.

Lemma wp_operator admin names c Q :
  equipped admin names → Q (Ok admin) c [] → wp (admin_address hre) c Q.
Proof. intros [Hs _ _] HQ. apply wp_admin. by rewrite Hs. Qed.

Lemma wp_mine (test : bool) c Q :
  Q (Ok tt) c [] → wp (if test then output (IRpc "hardhat_mine") else ret tt) c Q.
Proof. intros HQ. destruct test; by wp_rule. Qed.

Lemma wp_mine_or_wait test c Q : Q (Ok tt) c [] → wp (mine_or_wait test) c Q.
Proof. intros HQ. unfold mine_or_wait. destruct test; by wp_rule. Qed.

(** Steps through a task in an [operable] environment. *)
Ltac in_names := lazymatch goal with |- _ ∈ _ => unfold MIGRATED, STAKING; set_solver end.
Ltac op_step :=
  lazymatch goal with
  | |- wp (getContractAt ALICENET_FACTORY) _ _ => eapply wp_base; [eassumption|]
  | |- wp (getContractFactory _) _ _ => eapply wp_compiled; [eassumption|in_names|]
  | |- wp (factoryLookupAddress _ _) _ _ => eapply wp_factoryLookupAddress; [eassumption|in_names|]
  | |- wp (lookup_contract _ _) _ _ => eapply wp_lookup_contract; [eassumption|in_names|]
  | |- wp (admin_address _) _ _ => eapply wp_operator; [eassumption|]
  | |- wp (mine_or_wait _) _ _ => apply wp_mine_or_wait
  | |- wp (if _ then output _ else ret tt) _ _ => apply wp_mine
  | |- _ => wp_rule
  end; cbv beta iota zeta.

(** What registering leaves behind, on every outcome. *)
Definition registered (c : chain) (f : address) (st : FactoryState) (admin : address)
    (addresses : list string) (r : res unit) (c' : chain) (l : list io) : Prop :=
  let ps := addr_of f st "PublicStaking" in
  let vp := addr_of f st "ValidatorPool" in
  let throws c1 l1 := (∃ e, r = Throw e) ∧ c' = c1 ∧ l = l1 in
  match stake_batch (length addresses) (addr_of f st "AToken") ps with
  | None => throws c []
  | Some stakes =>
      match apply_tx (bump_nonce c admin) admin f (FMultiCall stakes) with
      | None => throws c []
      | Some (c1, es) =>
          match staked_ids es ps with
          | Throw _ => throws c1 [multicall_tx f admin stakes]
          | Ok ids =>
              match register_batch ids addresses ps vp with
              | None => throws c1 [multicall_tx f admin stakes]
              | Some calls =>
                  match apply_tx (bump_nonce c1 admin) admin f (FMultiCall calls) with
                  | None => throws c1 [multicall_tx f admin stakes]
                  | Some (c2, _) =>
                      r = Ok tt ∧ c' = c2 ∧
                      l = [multicall_tx f admin stakes; multicall_tx f admin calls]
                  end
              end
          end
      end
  end.

(** C9: [registerValidators], on every outcome.  It first sends one
    multicall that lets PublicStaking take exactly five million tokens per
    validator and then stakes that amount once per validator; from the
    receipt it takes the positions that PublicStaking transferred, in order,
    and sends one multicall that approves each of them and registers the
    given validators with them.  When a transaction would revert the task
    throws, and what was sent before it stays. *)
Theorem register_validators test f addresses st admin w :
  operable (w_chain w) f st admin STAKING → addresses ≠ [] →
  ∃ r c' l, runs_to (task_registerValidators hre test f addresses) w r c' l ∧
    registered (w_chain w) f st admin addresses r c' l.
Proof.
  intros Hop Hne. pose proof (op_equipped _ _ _ _ _ Hop) as Heq. apply wp_outcome. unfold task_registerValidators.
  repeat op_step. eapply wp_stakeValidators; [exact Heq|in_names|in_names|by destruct addresses|].
  unfold registered. destruct (stake_batch _ _ _) as [stakes|]; [|by eauto].
  destruct (apply_tx _ _ _ (FMultiCall stakes)) as [[c1 es]|]; [|by eauto].
  cbv beta iota. op_step. op_step. cbn [r_events]. cbv beta iota. op_step. apply wp_staked_tokens.
  unfold register_batch. destruct (staked_batch es _ _) as [[ids calls]|] eqn:E.
  - apply staked_batch_zip in E as (-> & -> & -> & ->). simpl. op_step. op_step. op_step.
    apply wp_encode. fold (strs addresses).
    destruct (encodeFunctionData "ValidatorPool" _ _) as [reg|]; simpl; [|by eauto].
    repeat op_step. eapply wp_send; [apply Heq|].
    destruct (apply_tx _ _ _ _) as [[c2 es2]|]; [|by eauto]. by repeat op_step.
  - unfold staked_batch in E. destruct (staked_ids es _); [|by eauto].
    simpl. destruct (approve_batch _ _ _); [done|]. simpl. by eauto.
Qed.
(** ** Migrating the validators of the previous deployment *)

(** Whatever block [waitBlocks] starts at, the chain advances by three within
    [fuel] polls. *)
Definition advancing (fuel : nat) : Prop :=
  ∀ m, ∃ k, (0 < k ≤ fuel)%nat ∧ hre_block hre m + 3 ≤ hre_block hre (m + k).

Lemma poll_blocks_ends fuel : ∀ w cur e k,
  (k < fuel)%nat → e ≤ hre_block hre (block_count w + k) →
  ∃ l, poll_blocks hre fuel cur e w = (Ok tt, traced w l) ∧ txs l = [].
Proof.
  induction fuel as [|fuel IH]; intros w cur e k Hk He; [lia|]. cbn [poll_blocks].
  destruct (cur <? e); [|exists []; by rewrite traced_nil].
  mstep (getBlockNumber_run hre w). set (b := hre_block hre (block_count w)) in *.
  unfold console_log. rewrite !mbind_output, !traced_app. match goal with |- context [traced w ?x] => set (l0 := x) end.
  destruct k as [|k].
  - exists l0. rewrite Nat.add_0_r in He. split; [|done].
    destruct fuel; simpl; by rewrite (proj2 (Z.ltb_ge _ _)).
  - destruct (IH (traced w l0) b e k) as (l & -> & Ht); [lia| |].
    + rewrite block_count_traced. simpl. by rewrite <-Nat.add_assoc.
    + rewrite traced_app. by eexists.
Qed.

Lemma waitBlocks_ends fuel w : advancing fuel →
  ∃ l, waitBlocks hre fuel 3 w = (Ok tt, traced w l) ∧ txs l = [].
Proof.
  intros Hadv. unfold waitBlocks. mstep (getBlockNumber_run hre w). cbv zeta.
  unfold console_log. rewrite mbind_output, traced_app. match goal with |- context [traced w ?x] => set (l0 := x) end.
  destruct (Hadv (block_count w)) as (k & Hk & He). destruct k as [|k]; [lia|].
  destruct (poll_blocks_ends fuel (traced w l0) (hre_block hre (block_count w))
    (hre_block hre (block_count w) + 3) k) as (l & -> & Ht); [lia| |].
  - rewrite block_count_traced. simpl. by rewrite <-Nat.add_assoc.
  - rewrite traced_app. eexists. split; [done|]. by rewrite txs_app, Ht.
Qed.

Lemma wp_poll_blocks fuel : ∀ cur e c Q,
  Q (Ok tt) c [] → Q (Throw WAITING) c [] → wp (poll_blocks hre fuel cur e) c Q.
Proof.
  induction fuel as [|fuel IH]; intros cur e c Q Hok Hw; cbn [poll_blocks];
    destruct (cur <? e); try by wp_rule.
  wp_rule. intros w Hc. rewrite getBlockNumber_run. eexists _, _, []. split_and!; [done|done| |].
  - simpl. by rewrite txs_app.
  - simpl. rewrite Hc. wp_rule. wp_rule. wp_rule. wp_rule. by apply IH.
Qed.

(** It returns, or is still polling, on a chain that does not advance. *)
Lemma wp_waitBlocks fuel c Q :
  Q (Ok tt) c [] → (¬ advancing fuel → Q (Throw WAITING) c []) → wp (waitBlocks hre fuel 3) c Q.
Proof.
  intros Hok Hw w Hc.
  assert (wp (waitBlocks hre fuel 3) c (λ r c' l, (r = Ok tt ∨ r = Throw WAITING) ∧ c' = c ∧ l = [])) as Hany.
  { unfold waitBlocks. wp_rule. intros w1 Hc1. rewrite getBlockNumber_run. eexists _, _, [].
    split_and!; [done|done|simpl; by rewrite txs_app|]. simpl. rewrite Hc1. wp_rule. wp_rule.
    by apply wp_poll_blocks; auto. }
  destruct (Hany w Hc) as (r & w' & l & E & Hf & Ht & [->| ->] & Hc' & ->); eexists _, _, [];
    (split; [exact E|]); rewrite Hc'; split_and!; [done..|].
  apply Hw. intros Hadv. destruct (waitBlocks_ends fuel w Hadv) as (l & E' & _). congruence.
Qed.

Lemma wp_getBlockNumber c Q :
  (∀ k, Q (Ok (hre_block hre k)) c []) → wp (getBlockNumber hre) c Q.
Proof.
  intros HQ w Hc. rewrite getBlockNumber_run. eexists _, _, []. split_and!; [done|done| |].
  - simpl. by rewrite txs_app.
  - simpl. rewrite Hc. apply HQ.
Qed.

(** The second transaction of the migration. *)
Definition migration_batch (ids : list Z) (signatures : list string) (ethHeight : Z)
    (publicStaking validatorPool ethDKG snapshots : address) : option (list MultiCallArgs) :=
  approvals ← approve_batch ids publicStaking validatorPool;
  register ← encodeFunctionData "ValidatorPool" "registerValidators"
               [strs VALIDATOR_ACCOUNTS; JArr (JBig <$> ids)];
  migrate ← encodeFunctionData "ETHDKG" "migrateValidators"
              [strs VALIDATOR_ACCOUNTS; JArr (JNum <$> [1; 2; 3; 4]);
               JArr (strs <$> VALIDATOR_SHARES); JNum 4; JNum 0; JNum 0; JNum ethHeight;
               JArr (JBig <$> MASTER_PUBLIC_KEY)];
  snapshot ← encodeFunctionData "Snapshots" "migrateSnapshots" [strs signatures; strs BLOCK_CLAIMS];
  Some (approvals ++ [encodeMultiCallArgs validatorPool 0 register;
                      encodeMultiCallArgs ethDKG 0 migrate;
                      encodeMultiCallArgs snapshots 0 snapshot]).

Lemma wp_approve_calls ids ps vp c : ∀ Q,
  match approve_batch ids ps vp with
  | Some calls => Q (Ok calls) c []
  | None => ∀ e, Q (Throw e) c []
  end → wp (approve_calls ids vp ps) c Q.
Proof.
  unfold approve_batch. induction ids as [|id ids IH]; intros Q HQ; [by apply wp_ret|].
  cbn [approve_calls]. wp_rule. apply wp_encode. simpl in HQ.
  destruct (encodeFunctionData _ _ _) as [d|]; [|apply HQ]. cbn [of_option]. wp_rule. apply IH.
  simpl in HQ. destruct (mapM _ ids) as [calls|]; [|apply HQ]. by wp_rule.
Qed.

Lemma wp_migrate f admin ps sn dkg vp ids height sigs c Q :
  equipped admin MIGRATED →
  match migration_batch ids sigs height ps vp dkg sn with
  | None => ∀ e, Q (Throw e) c []
  | Some calls =>
      match apply_tx (bump_nonce c admin) admin f (FMultiCall calls) with
      | None => ∀ e, Q (Throw e) c []
      | Some (c', es) => ∀ r, Q (Ok r) c' [multicall_tx f admin calls]
      end
  end →
  wp (migrateSnapshotsAndValidators hre f ps sn dkg vp ids VALIDATOR_ACCOUNTS [1; 2; 3; 4]
        VALIDATOR_SHARES height MASTER_PUBLIC_KEY BLOCK_CLAIMS sigs) c Q.
Proof.
  intros Heq HQ. unfold migrateSnapshotsAndValidators. unfold migration_batch in HQ.
  do 11 op_step. apply wp_approve_calls.
  destruct (approve_batch ids ps vp) as [approvals|]; [|apply HQ]. simpl in HQ.
  do 3 (op_step; apply wp_encode;
    match type of HQ with context [encodeFunctionData ?n ?fn ?args] =>
      change (encodeFunctionData n fn _) with (encodeFunctionData n fn args);
      destruct (encodeFunctionData n fn args); [|apply HQ] end; simpl in HQ; cbn [of_option];
    cbv beta iota).
  eapply wp_send_batch; [apply Heq|]. destruct (apply_tx _ _ _ _) as [[c' es]|]; apply HQ.
Qed.

(** The signatures the side chain has for the last epochs. *)
Definition side_chain_signatures (epoch : Z) : option (list string) :=
  mapM (λ k, String.append "0x" <$> hre_sigGroup hre (k * 1024)) (epochs epoch).

Lemma wp_fetch_signatures n c : ∀ i Q,
  match mapM (λ k, String.append "0x" <$> hre_sigGroup hre (k * 1024)) (seqZ i (Z.of_nat n)) with
  | Some sigs => Q (Ok sigs) c []
  | None => ∀ e, Q (Throw e) c []
  end → wp (fetch_signatures hre n i) c Q.
Proof.
  induction n as [|n IH]; intros i Q HQ; cbn [fetch_signatures]; [by apply wp_ret|].
  rewrite (seqZ_cons i) in HQ by lia. replace (Z.pred (Z.of_nat (S n))) with (Z.of_nat n) in HQ by lia.
  rewrite <-Z.add_1_r in HQ. cbv zeta. do 6 wp_rule. simpl in HQ.
  destruct (hre_sigGroup hre (i * 1024)) as [sig|]; simpl in HQ; cbn [of_option]; [|apply HQ]. wp_rule. apply IH.
  simpl in HQ. destruct (mapM _ _) as [sigs|]; [|apply HQ]. by wp_rule.
Qed.

Lemma wp_signatures c Q :
  match side_chain_signatures 101 with
  | Some sigs => Q (Ok sigs) c []
  | None => ∀ e, Q (Throw e) c []
  end → wp (getGroupSignatures hre 101) c Q.
Proof.
  intros HQ. unfold getGroupSignatures. cbv zeta. do 7 wp_rule.
  change (epochs 101) with (seqZ 96 (Z.of_nat 6)) in *. unfold side_chain_signatures in HQ.
  apply (wp_fetch_signatures 6). change (epochs 101) with (seqZ 96 (Z.of_nat 6)) in HQ.
  destruct (mapM _ _) as [sigs|]; [|apply HQ]. by repeat wp_rule.
Qed.

(** The second transaction, after [pre]: it carries the positions [ids], the
    signatures [sigs] and the height of the block the task reads before it.
    After it the task waits, forever on a chain that does not advance. *)
Definition migrated_from (fuel : nat) (c1 : chain) (ids : list Z) (pre : list io) (f : address)
    (st : FactoryState) (admin : address) (sigs : list string)
    (r : res unit) (c' : chain) (l : list io) : Prop :=
  ∃ k,
    match migration_batch ids sigs (hre_block hre k) (addr_of f st "PublicStaking")
            (addr_of f st "ValidatorPool") (addr_of f st "ETHDKG") (addr_of f st "Snapshots") with
    | None => (∃ e, r = Throw e) ∧ c' = c1 ∧ l = pre
    | Some calls =>
        match apply_tx (bump_nonce c1 admin) admin f (FMultiCall calls) with
        | None => (∃ e, r = Throw e) ∧ c' = c1 ∧ l = pre
        | Some (c2, _) =>
            (r = Ok tt ∨ r = Throw WAITING ∧ ¬ advancing fuel) ∧ c' = c2 ∧
            l = pre ++ [multicall_tx f admin calls]
        end
    end.

Definition migrated (fuel : nat) (skip : bool) (c : chain) (f : address) (st : FactoryState)
    (admin : address) (r : res unit) (c' : chain) (l : list io) : Prop :=
  let throws c1 l1 := (∃ e, r = Throw e) ∧ c' = c1 ∧ l = l1 in
  match side_chain_signatures 101 with
  | None => throws c []
  | Some sigs =>
      if skip then migrated_from fuel c [] [] f st admin sigs r c' l
      else
        let ps := addr_of f st "PublicStaking" in
        match stake_batch 4 (addr_of f st "AToken") ps with
        | None => throws c []
        | Some stakes =>
            match apply_tx (bump_nonce c admin) admin f (FMultiCall stakes) with
            | None => throws c []
            | Some (c1, es) =>
                let pre := [multicall_tx f admin stakes] in
                match staked_ids es ps with
                | Throw _ => throws c1 pre
                | Ok ids =>
                    migrated_from fuel c1 ids pre f st admin sigs r c' l ∨
                    (r = Throw WAITING ∧ ¬ advancing fuel ∧ c' = c1 ∧ l = pre)
                end
            end
        end
  end.

(** What follows the collection of the positions. *)
Lemma wp_migrate_tail fuel f st admin ids sigs c Q :
  equipped admin MIGRATED →
  (∀ r c' l, migrated_from fuel c ids [] f st admin sigs r c' l → Q r c' l) →
  wp (console_log "register and migrate state" ;;;
      ethHeight <- getBlockNumber hre ;;
      receipt <- migrateSnapshotsAndValidators hre f (addr_of f st "PublicStaking")
        (addr_of f st "Snapshots") (addr_of f st "ETHDKG") (addr_of f st "ValidatorPool") ids
        VALIDATOR_ACCOUNTS [1; 2; 3; 4] VALIDATOR_SHARES ethHeight MASTER_PUBLIC_KEY
        BLOCK_CLAIMS sigs ;;
      wait (Some 8) receipt ;;;
      waitBlocks hre fuel 3) c Q.
Proof.
  intros Heq HQ. op_step. op_step. op_step. apply wp_getBlockNumber. intros k.
  assert (∀ r c' l, match migration_batch ids sigs (hre_block hre k) (addr_of f st "PublicStaking")
            (addr_of f st "ValidatorPool") (addr_of f st "ETHDKG") (addr_of f st "Snapshots") with
    | None => (∃ e, r = Throw e) ∧ c' = c ∧ l = []
    | Some calls =>
        match apply_tx (bump_nonce c admin) admin f (FMultiCall calls) with
        | None => (∃ e, r = Throw e) ∧ c' = c ∧ l = []
        | Some (c2, _) => (r = Ok tt ∨ r = Throw WAITING ∧ ¬ advancing fuel) ∧ c' = c2 ∧
                          l = [multicall_tx f admin calls]
        end
    end → Q r c' l) as HQ' by (intros ??? ?; apply HQ; by exists k).
  clear HQ. op_step. eapply wp_migrate; [exact Heq|].
  destruct (migration_batch _ _ _ _ _ _ _) as [calls|]; [|intros e; apply HQ'; by eauto].
  destruct (apply_tx _ _ _ _) as [[c2 es]|]; [|intros e; apply HQ'; by eauto].
  intros r. repeat op_step. apply wp_waitBlocks; [|intros Hadv]; apply HQ'; auto.
Qed.

Lemma migrated_from_pre fuel c1 ids pre f st admin sigs r c' l :
  migrated_from fuel c1 ids [] f st admin sigs r c' l →
  migrated_from fuel c1 ids pre f st admin sigs r c' (pre ++ l).
Proof.
  intros [k HQ]. exists k. destruct (migration_batch _ _ _ _ _ _ _) as [calls|].
  - destruct (apply_tx _ _ _ _) as [[]|]; destruct HQ as (? & ? & ->); by rewrite ?app_nil_r.
  - destruct HQ as (? & ? & ->). by rewrite app_nil_r.
Qed.

Lemma task_migration_wp fuel skip f st admin c :
  operable c f st admin MIGRATED →
  wp (task_deployStateMigrationContract hre fuel (Some f) skip) c (migrated fuel skip c f st admin).
Proof.
  intros Hop. pose proof (op_equipped _ _ _ _ _ Hop) as Heq. unfold task_deployStateMigrationContract. cbn [of_option].
  do 21 op_step. apply wp_signatures. unfold migrated.
  destruct (side_chain_signatures 101) as [sigs|]; [|by eauto]. op_step.
  destruct skip.
  { op_step. by apply (wp_migrate_tail _ _ st admin). }
  op_step. op_step. op_step. eapply wp_stakeValidators; [exact Heq|in_names|in_names|done|].
  destruct (stake_batch _ _ _) as [stakes|]; [|by eauto].
  destruct (apply_tx _ _ _ (FMultiCall stakes)) as [[c1 es]|]; [|by eauto].
  cbv beta iota. op_step. op_step. cbn [r_events]. cbv beta iota. op_step. op_step.
  destruct (staked_ids es _) as [ids|]; [|by eauto].
  do 3 op_step. apply wp_waitBlocks; [|intros Hadv; by right].
  op_step. apply (wp_migrate_tail _ _ st admin); [exact Heq|]. intros r c2 l HQ. left.
  by apply (migrated_from_pre _ _ _ [multicall_tx f admin stakes]).
Qed.

(** C10: the migration task, on every outcome.  Without the flag it stakes
    for four validators in a first transaction and migrates them in a second,
    with the positions of the first; with [skipFirstTransaction] it only
    sends the second, and then with no positions at all.  When the side chain
    has no signature of an epoch it throws and has sent nothing; when a
    transaction would revert it throws, and what was sent before stays; and
    where the chain does not advance by three blocks it polls on, after the
    first or the second transaction. *)
Theorem migration_outcome fuel skip f st admin w :
  operable (w_chain w) f st admin MIGRATED →
  ∃ r c' l, runs_to (task_deployStateMigrationContract hre fuel (Some f) skip) w r c' l ∧
    migrated fuel skip (w_chain w) f st admin r c' l.
Proof.
  intros Hop. by apply wp_outcome, task_migration_wp.
Qed.

(** A batch whose first call its target refuses is refused. *)
Lemma multicall_refused c from f st m ms proxy slot k :
  accounts c !! f = Some (KFactory st) →
  accounts c !! target m = Some (KProxy proxy slot) →
  accounts c !! ProxySlot.getImplementationAddress slot = Some k →
  decode_upgrade (data m) = None →
  proxied_code c f (target m) (ProxySlot.getImplementationAddress slot) (value m) (data m) slot = None →
  apply_tx c from f (FMultiCall (m :: ms)) = None.
Proof.
  intros Hf Ht Hi Hd Hc. unfold apply_tx, factory_tx. rewrite Hf, CALL_DEPTH_SS.
  destruct ((from =? f) || (from =? f_owner st)) eqn:Hs;
    [|by rewrite (factory_exec_auth _ _ _ _ st) by done].
  unfold factory_exec. rewrite (exec_guard _ _ _ _ _ _ Hf Hs). cbn [_multiCall].
  unfold xbind at 1, _callAny. rewrite (call_proxy _ _ _ _ _ _ _ _ _ Ht). unfold proxy_fallback.
  assert ((if f =? proxy then decode_upgrade (data m) else None) = None) as ->
    by (rewrite Hd; by destruct (f =? proxy)).
  unfold xbind at 1, xchain. cbn [fst]. by rewrite Hi, Hc.
Qed.

(** C29: with [skipFirstTransaction] the migration cannot succeed.  The
    ValidatorPool refuses a registration with fewer positions than
    validators ([RegistrationParameterLengthMismatch]); the task registers
    four validators and has collected no positions, so that it throws and
    sends nothing. *)
Theorem skip_flag_never_succeeds fuel f st admin proxy slot k w :
  operable (w_chain w) f st admin MIGRATED →
  accounts (w_chain w) !! addr_of f st "ValidatorPool" = Some (KProxy proxy slot) →
  accounts (w_chain w) !! ProxySlot.getImplementationAddress slot = Some k →
  (∀ c accs ids d,
    encodeFunctionData "ValidatorPool" "registerValidators" [strs accs; JArr (JBig <$> ids)] = Some d →
    length accs ≠ length ids →
    decode_upgrade d = None ∧
    proxied_code c f (addr_of f st "ValidatorPool") (ProxySlot.getImplementationAddress slot) 0 d slot
      = None) →
  ∃ e, runs_to (task_deployStateMigrationContract hre fuel (Some f) true) w (Throw e) (w_chain w) [].
Proof.
  intros Hop Hp Hi Hrej.
  destruct (wp_outcome _ w _ (task_migration_wp fuel true f st admin _ Hop)) as (r & c' & l & Hrun & HQ).
  unfold migrated in HQ. destruct (side_chain_signatures 101) as [sigs|].
  2: { destruct HQ as ([e ->] & -> & ->). by exists e. }
  destruct HQ as [b HQ]. destruct (migration_batch _ _ _ _ _ _ _) as [calls|] eqn:E.
  2: { destruct HQ as ([e ->] & -> & ->). by exists e. }
  unfold migration_batch in E. simpl in E.
  apply bind_Some in E as (reg & Hreg & (mig & _ & (snap & _ & [= <-])%bind_Some)%bind_Some).
  destruct (Hrej (bump_nonce (w_chain w) admin) _ [] _ Hreg) as [Hd Hc]; [done|].
  rewrite (multicall_refused _ _ _ st _ _ proxy slot k) in HQ; [|apply Hop|done..].
  destruct HQ as ([e ->] & -> & ->). by exists e.
Qed.
End Registration.

(** ** Witnesses

    A chain with the staking contracts behind proxies of the factory, and
    their code as far as the tasks see it: [mint] transfers position 7,
    [registerValidators] refuses lists of different lengths. *)

#[local] Existing Instance ethers_model.

Definition st_pool : FactoryState :=
  match accounts chain_ex !! factory_ex with
  | Some (KFactory st) => st
  | _ => {| f_owner := 0; f_contracts := []; f_implementation := 0; f_proxyTemplate := 0;
            f_aTokenAddress := 0; f_externalContractRegistry := ∅ |}
  end.

Definition pool_ex : address := addr_of factory_ex st_pool "ValidatorPool".
Definition staking_ex : address := addr_of factory_ex st_pool "PublicStaking".

Definition pool_code (d : string) : option (list event) :=
  match js_untext (slice 2 d) with
  | Some (JArr [JStr c; JStr fn; JArr args]) =>
      if decide (fn = "mint") then
        Some [{| ev_address := staking_ex; ev_name := None; ev_args := None;
                 ev_topics := [TRANSFER_EVENT_HASH; "0x00"; "0x01"; "0x07"] |}]
      else if decide (fn = "registerValidators") then
        match args with
        | [JArr accs; JArr ids] => if (length accs =? length ids)%nat then Some [] else None
        | _ => None
        end
      else Some []
  | _ => Some []
  end.

Definition evm_pool : Evm :=
  let _ := evm_ex in
  {| run_constructor := run_constructor; has_code := has_code;
     call_code _ _ _ _ d := pool_code d;
     proxied_code _ _ _ _ _ d slot := (λ es, (slot, es)) <$> pool_code d;
     delegated_code := delegated_code;
     decode_call := decode_call; encode_upgrade := encode_upgrade; decode_upgrade := decode_upgrade;
     gas_used := gas_used; estimate_gas := estimate_gas; estimate_deploy_gas := estimate_deploy_gas;
     atoken_creation := atoken_creation |}.
#[local] Existing Instance evm_pool.

Definition chain_pool : chain :=
  {| accounts := <[pool_ex := KProxy factory_ex 5]> (<[staking_ex := KProxy factory_ex 6]>
       (<[5 := KCode "pool"]> (<[6 := KCode "staking"]> (accounts chain_ex))));
     nonces := nonces chain_ex |}.
Definition world_pool : world := {| w_fs := fs_ex; w_chain := chain_pool; w_trace := [] |}.

Definition sent (r : res unit * world) : option nat :=
  match r with (Ok _, w) => Some (length (txs (w_trace w))) | _ => None end.

Example register_two :
  sent (task_registerValidators (hre_ex None) true factory_ex ["0x01"; "0x02"] world_pool) = Some 2%nat.
Proof. vm_compute. reflexivity. Qed.

Example migrate_four :
  sent (task_deployStateMigrationContract (hre_ex None) 3 (Some factory_ex) false world_pool) = Some 2%nat.
Proof. vm_compute. reflexivity. Qed.

Example migrate_skip :
  sent (task_deployStateMigrationContract (hre_ex None) 3 (Some factory_ex) true world_pool) = None.
Proof. vm_compute. reflexivity. Qed.

Lemma operable_ex names :
  Forall (λ n, hasContractFactory n = true ∧ is_Some (formatBytes32String n)) names →
  operable (hre_ex None) chain_pool factory_ex st_pool owner_ex names.
Proof.
  intros Hn. split; [by split|]. vm_compute. reflexivity.
Qed.

Lemma staking_named :
  Forall (λ n, hasContractFactory n = true ∧ is_Some (formatBytes32String n)) MIGRATED.
Proof. repeat (constructor; [split; [reflexivity|by eexists]|]). constructor. Qed.

Lemma advancing_ex : advancing (hre_ex None) 3.
Proof. intros m. exists 3%nat. simpl. lia. Qed.

Lemma sig_ex k : k ∈ epochs 101 → hre_sigGroup (hre_ex None) (k * 1024) = Some ("ab" ++s pretty (k * 1024)).
Proof. reflexivity. Qed.

Definition version_ex : maintenance := UpdateAliceNetNodeVersion 2 1 0 0 "hash".
Definition version_call : factory_call :=
  FCallAny (addr_of factory_ex st_pool "Dynamics") 0 (default EmptyString (maintenance_call version_ex)).
Definition relayed_ex : option (chain * list event) :=
  apply_tx (bump_nonce chain_pool owner_ex) owner_ex factory_ex version_call.

Lemma maintenance_relays_witness :
  runs_to (run_maintenance (hre_ex None) factory_ex version_ex) world_pool (Ok tt)
    (default chain_pool (fst <$> relayed_ex)) [ITx owner_ex factory_ex version_call None].
Proof.
  apply (maintenance_relays (hre_ex None) factory_ex version_ex).
  - reflexivity.
  - reflexivity.
  - by eexists.
  - exists owner_ex, st_pool, "0xDynamics", (default EmptyString (maintenance_call version_ex)), [].
    split_and!.
    + reflexivity.
    + vm_compute. reflexivity.
    + reflexivity.
    + vm_compute. reflexivity.
    + reflexivity.
    + change (relayed_ex = Some (default chain_pool (fst <$> relayed_ex), [])).
      vm_compute. reflexivity.
    + reflexivity.
Defined.

Lemma wait_blocks_returns_witness :
  ∃ l, waitBlocks (hre_ex None) 5 3 world_pool = (Ok tt, traced world_pool l) ∧
    delays l = replicate 3 10000.
Proof.
  destruct (wait_blocks_returns (hre_ex None) 5 3 world_pool 3) as (l & E & Hd & _).
  - intros j Hj. change (100 + Z.of_nat j < 100 + 3). lia.
  - reflexivity.
  - lia.
  - lia.
  - exists l. exact (conj E Hd).
Defined.

Lemma group_signatures_witness :
  ∃ sigs l, getGroupSignatures (hre_ex None) 4 world_pool = (Ok sigs, traced world_pool l) ∧
    length sigs = 4%nat.
Proof.
  destruct (group_signatures (hre_ex None) 4 (λ k, "ab" ++s pretty (k * 1024)) world_pool)
    as (l & E & _ & _); [lia|reflexivity|].
  eexists _, l. split; [exact E|reflexivity].
Defined.

Lemma migration_data_consistent_witness :
  ∃ sigs l, getGroupSignatures (hre_ex None) 101 world_pool = (Ok sigs, traced world_pool l) ∧
    length sigs = length BLOCK_CLAIMS.
Proof.
  destruct (migration_data_consistent (hre_ex None)) with world_pool as (sigs & l & E & Hl & _).
  - intros k _. by eexists.
  - exists sigs, l. exact (conj E Hl).
Defined.

Lemma register_validators_witness :
  ∃ r c' l, runs_to (task_registerValidators (hre_ex None) true factory_ex ["0x01"; "0x02"])
      world_pool r c' l ∧
    registered (hre_ex None) chain_pool factory_ex st_pool owner_ex ["0x01"; "0x02"] r c' l.
Proof.
  apply (register_validators (hre_ex None) true factory_ex ["0x01"; "0x02"] st_pool owner_ex world_pool).
  - apply operable_ex. exact (proj1 (proj1 (Forall_app _ _ _) staking_named)).
  - discriminate.
Defined.

(** The staking batch of the migration, what its transaction emits, and the
    signatures, in the example. *)
Definition stakes_ex : list MultiCallArgs :=
  default [] (stake_batch 4 (addr_of factory_ex st_pool "AToken") staking_ex).
Definition staked_ex : option (chain * list event) :=
  apply_tx (bump_nonce chain_pool owner_ex) owner_ex factory_ex (FMultiCall stakes_ex).
Definition sigs_ex : list string := default [] (side_chain_signatures (hre_ex None) 101).

Example migration_succeeds :
  (task_deployStateMigrationContract (hre_ex None) 3 (Some factory_ex) false world_pool).1 = Ok tt.
Proof. vm_compute. reflexivity. Qed.

(** The task sends both transactions, the second with the four positions of
    the first and the six signatures. *)
Lemma migration_outcome_witness :
  length stakes_ex = 5%nat ∧ length sigs_ex = 6%nat ∧
  ∃ c' k calls, runs_to (task_deployStateMigrationContract (hre_ex None) 3 (Some factory_ex) false)
      world_pool (Ok tt) c' [multicall_tx (hre_ex None) factory_ex owner_ex stakes_ex;
                             multicall_tx (hre_ex None) factory_ex owner_ex calls] ∧
    migration_batch [7; 7; 7; 7] sigs_ex (hre_block (hre_ex None) k) staking_ex pool_ex
      (addr_of factory_ex st_pool "ETHDKG") (addr_of factory_ex st_pool "Snapshots") = Some calls.
Proof.
  split; [vm_compute; reflexivity|]. split; [vm_compute; reflexivity|].
  destruct (migration_outcome (hre_ex None) 3 false factory_ex st_pool owner_ex world_pool
    (operable_ex MIGRATED staking_named)) as (r & c' & l & Hrun & Hm).
  assert (r = Ok tt) as ->.
  { destruct Hrun as (w' & Hw & _). pose proof migration_succeeds as Hok. rewrite Hw in Hok. exact Hok. }
  unfold migrated in Hm.
  assert (side_chain_signatures (hre_ex None) 101 = Some sigs_ex) as Hs by (vm_compute; reflexivity).
  assert (stake_batch 4 (addr_of factory_ex st_pool "AToken") (addr_of factory_ex st_pool "PublicStaking") =
    Some stakes_ex) as Hb by (vm_compute; reflexivity).
  rewrite Hs, Hb in Hm. change (w_chain world_pool) with chain_pool in Hm. fold staked_ex in Hm.
  destruct staked_ex as [[c1 es]|] eqn:Hx; [|destruct Hm as ([e [=]] & _)].
  assert (staked_ids es staking_ex = Ok [7; 7; 7; 7]) as Hids.
  { apply (f_equal (fmap (λ r, staked_ids r.2 staking_ex))) in Hx. vm_compute in Hx. injection Hx as Hx.
    symmetry. exact Hx. }
  change (addr_of factory_ex st_pool "PublicStaking") with staking_ex in Hm. rewrite Hids in Hm.
  destruct Hm as [[k Hm]|([=] & _)].
  destruct (migration_batch _ _ _ _ _ _ _) as [calls|] eqn:Hc; [|destruct Hm as ([e [=]] & _)].
  destruct (apply_tx _ _ _ _) as [[c2 es2]|]; [|destruct Hm as ([e [=]] & _)].
  destruct Hm as (_ & -> & ->). exists c2, k, calls. exact (conj Hrun Hc).
Defined.

Lemma upgrade_selector v : decode_upgrade ("0x" ++s js_text v) = None.
Proof.
  unfold js_text. cbn [decode_upgrade evm_pool evm_ex evm_model].
  by destruct (encode (to_tree v)) as [[]|[]|].
Qed.

Lemma pool_rejects accs ids d :
  encodeFunctionData "ValidatorPool" "registerValidators" [strs accs; JArr (JBig <$> ids)] = Some d →
  length accs ≠ length ids → decode_upgrade d = None ∧ pool_code d = None.
Proof.
  cbn [encodeFunctionData ethers_model]. intros [= <-] Hl. split; [apply upgrade_selector|].
  unfold pool_code. cbn [slice]. rewrite js_untext_text.
  rewrite decide_False, decide_True by done. unfold strs.
  rewrite !length_fmap. by rewrite (proj2 (Nat.eqb_neq _ _)).
Qed.

Lemma skip_flag_never_succeeds_witness :
  ∃ e, runs_to (task_deployStateMigrationContract (hre_ex None) 3 (Some factory_ex) true) world_pool
         (Throw e) chain_pool [].
Proof.
  apply (skip_flag_never_succeeds (hre_ex None) 3 factory_ex st_pool owner_ex factory_ex 5
    (KCode "pool") world_pool).
  - apply operable_ex, staking_named.
  - vm_compute. reflexivity.
  - vm_compute. reflexivity.
  - intros c accs ids d Hd Hlen. destruct (pool_rejects accs ids d Hd Hlen) as [Hu Hp].
    split; [done|]. cbn [proxied_code evm_pool]. by rewrite Hp.
Defined.
