(* ===== verification/Migration.v ===== *)
(** * The migration, from the task's data to the contract's storage

    [lib/alicenetTasks.ts] fetches six group signatures and sends them with
    constant block claims to [migrateSnapshots]; here the contract runs on
    them. *)

From S2P Require Import Prelude Solidity JsValue Ethers Factory Instances Parsers Dynamics Snapshots Epochs World Scenario ValidatorTasks.
From stdpp Require Import options.
Local Open Scope Z_scope.

Section Migration.
Context (factory : Z) (keccak : list Z → Z) (verifySignature : Z → list Z → list Z → bool).

(** The bytes of hex texts. *)
Definition texts_bytes (texts : list string) : option (list (list Z)) := mapM (λ t, hex_bytes (slice 2 t)) texts.

Section Loop.
Context (L : Z) (HL : 1 ≤ L) (o : Outside).

(** A pair of signature and claims that the contract takes as those of epoch [e]. *)
Definition acceptable (e : Z) (sc : list Z * list Z) : Prop :=
  ∃ bc ks, extractBClaims sc.2 = Done bc ∧ c_height bc = e * L ∧ c_height bc < 2 ^ 32 ∧
    _checkBClaimsSignature keccak verifySignature o sc.1 sc.2 = Done ks.

Lemma migrate_one_ok sn e0 es0 first log sc : windowed L sn first log →
  acceptable (first + Z.of_nat (length log)) sc →
  ∃ sn' e es, migrate_one L keccak verifySignature o (sn, e0, es0) sc = Done (sn', e, es).
Proof using HL.
  intros Hw (bc & ks & Hx & Hh & Hb & Hs). pose proof (w_first _ _ _ _ Hw).
  assert (first + Z.of_nat (length log) < 2 ^ 32) as Hlt by nia.
  unfold migrate_one. rewrite Hx. cbn [sbind]. unfold modulo. rewrite (proj2 (Z.eqb_neq L 0)) by lia. cbn [sbind].
  rewrite Hh, Z.mod_mul by lia. cbn [Z.eqb negb revert_if sbind]. rewrite Hs. cbn [sbind].
  rewrite cast_word by (unfold word; nia). rewrite epoch_of_end by lia. cbn [sbind].
  destruct (set_next L HL sn first log {| committedAt := o_block o; blockClaims := bc |} Hw Hlt Hh) as (sn' & -> & _ & _).
  cbn [sbind]. by eexists _, _, _.
Qed.

Lemma migrate_loop_ok scs : ∀ sn e0 es0 first log, windowed L sn first log →
  (∀ i sc, scs !! i = Some sc → acceptable (first + Z.of_nat (length log + i)) sc) →
  ∃ r, sol_foldl (migrate_one L keccak verifySignature o) scs (sn, e0, es0) = Done r.
Proof using HL.
  induction scs as [|sc scs IH]; intros sn e0 es0 first log Hw Hacc; [by eexists|]. cbn [sol_foldl].
  pose proof (Hacc 0%nat sc eq_refl) as Ha. rewrite Nat.add_0_r in Ha.
  destruct (migrate_one_ok sn e0 es0 first log sc Hw Ha) as (sn' & e & es & E). rewrite E. cbn [sbind].
  destruct Ha as (bc & ks & Hx & Hh & Hb & _).
  destruct (migrate_one_run L keccak verifySignature HL o sn e0 es0 sc first log sn' e es Hw) as (s & ev & Hw' & _);
    [intros c Hc; rewrite Hx in Hc; by injection Hc as <-|done|].
  apply (IH sn' e es first (log ++ [s]) Hw'). intros i sc' Hi. rewrite length_app. simpl.
  replace (length log + 1 + i)%nat with (length log + S i)%nat by lia. by apply Hacc.
Qed.
End Loop.

(** The claims of the task. *)
Definition CLAIMS : list (list Z) := default [] (texts_bytes BLOCK_CLAIMS).

Lemma claims_parse i : (i < 6)%nat → ∃ b bc, CLAIMS !! i = Some b ∧ extractBClaims b = Done bc ∧
  c_chainId bc = 21 ∧ c_height bc = (96 + Z.of_nat i) * 1024.
Proof using Type.
  assert (forallb (λ i, match extractBClaims <$> CLAIMS !! i with
    | Some (Done bc) => (c_chainId bc =? 21) && (c_height bc =? (96 + Z.of_nat i) * 1024)
    | _ => false end) (seq 0 6) = true) as H by (vm_compute; reflexivity).
  intros Hi. rewrite forallb_forall in H. specialize (H i). rewrite in_seq in H. specialize (H ltac:(lia)).
  destruct (CLAIMS !! i) as [b|]; [|done]. simpl in H. destruct (extractBClaims b) as [bc|] eqn:E; [|done].
  apply andb_true_iff in H as [Hc1 Hc2]. apply Z.eqb_eq in Hc1, Hc2. by exists b, bc.
Qed.

(** The side chain's signature of the header at the end of epoch [k] signs
    the claims of that height. *)
Definition signed (hre : Hre) (o : Outside) (k : Z) : Prop :=
  ∃ text sig, hre_sigGroup hre (k * 1024) = Some text ∧ hex_bytes text = Some sig ∧
    ∀ b bc, b ∈ CLAIMS → extractBClaims b = Done bc → c_height bc = k * 1024 →
      ∃ ks, _checkBClaimsSignature keccak verifySignature o sig b = Done ks.

Definition claimed (k : Z) (s : Snapshot) : Prop :=
  c_chainId (blockClaims s) = 21 ∧ c_height (blockClaims s) = k * 1024.

(** The signatures fetched, as bytes, go with the claims in their order. *)
Lemma fetched_signatures hre o w : (∀ k, k ∈ epochs 101 → signed hre o k) →
  ∃ texts l sigs, getGroupSignatures hre 101 w = (Ok texts, traced w l) ∧ texts_bytes texts = Some sigs ∧
    length sigs = 6%nat ∧
    ∀ i sc, zip sigs CLAIMS !! i = Some sc → acceptable 1024 o (96 + Z.of_nat i) sc.
Proof using Type.
  intros Hsig.
  destruct (getGroupSignatures_run hre 101 (λ k, default EmptyString (hre_sigGroup hre (k * 1024))) w)
    as (l & E & _ & _ & _); [lia| |].
  { intros k (text & _ & -> & _)%Hsig. done. }
  set (texts := (λ k, "0x" ++s default EmptyString (hre_sigGroup hre (k * 1024))) <$> epochs 101) in *.
  assert (∃ sigs, texts_bytes texts = Some sigs ∧ Forall2 (λ k s, ∀ b bc, b ∈ CLAIMS → extractBClaims b = Done bc →
    c_height bc = k * 1024 → ∃ ks, _checkBClaimsSignature keccak verifySignature o s b = Done ks) (epochs 101) sigs)
    as (sigs & Hs & Hall).
  { assert (∃ sigs, Forall2 (λ k s, hex_bytes (slice 2 ("0x" ++s default EmptyString (hre_sigGroup hre (k * 1024)))) =
      Some s ∧ ∀ b bc, b ∈ CLAIMS → extractBClaims b = Done bc → c_height bc = k * 1024 →
        ∃ ks, _checkBClaimsSignature keccak verifySignature o s b = Done ks) (epochs 101) sigs) as [sigs Hf].
    { apply Forall_exists_Forall2_l, Forall_forall. intros k (text & sig & -> & Hb & Hc)%Hsig. by exists sig. }
    exists sigs. split.
    - apply mapM_Some. unfold texts. apply Forall2_fmap_l. eapply Forall2_impl; [exact Hf|]. by intros k s [? _].
    - eapply Forall2_impl; [exact Hf|]. by intros k s [_ ?]. }
  exists texts, l, sigs. split; [exact E|]. split; [done|].
  assert (length sigs = 6%nat) as Hl by (by rewrite <-(Forall2_length _ _ _ Hall)). split; [done|].
  intros i [s b] Hi. apply lookup_zip_Some in Hi as [Hsi Hbi]. cbn [fst snd] in *.
  assert (i < 6)%nat as Hi6 by (rewrite <-Hl; by eapply lookup_lt_Some).
  destruct (claims_parse i Hi6) as (b' & bc & Hb' & Hx & _ & Hh). rewrite Hbi in Hb'. injection Hb' as <-.
  destruct (Forall2_lookup_r _ _ _ _ _ Hall Hsi) as (k & Hk & Hc). apply lookup_seqZ in Hk as [-> _].
  destruct (Hc b bc) as [ks Hks]; [by eapply list_elem_of_lookup_2|done|exact Hh|].
  exists bc, ks. split_and!; [done|exact Hh|rewrite Hh; lia|exact Hks].
Qed.

(** C15: the data of the migration task fills the ring buffer.  When the side
    chain's signatures sign the claims of their heights, the signatures the
    task fetches for epoch 101 and its constant block claims go together, in
    the order they are sent: [migrateSnapshots] accepts them on fresh storage,
    leaves the register at epoch 101, and the snapshots that can be read are
    exactly those of the epochs 96 to 101, all of chain 21. *)
Theorem migration_fills_buffer hre w o sn :
  (∀ k, k ∈ epochs 101 → signed hre o k) → o_sender o = factory →
  _epoch sn = 0 → _snapshots sn = replicate 6 zero_snapshot →
  ∃ texts l sigs sn' es,
    getGroupSignatures hre 101 w = (Ok texts, traced w l) ∧ texts_bytes texts = Some sigs ∧
    texts_bytes BLOCK_CLAIMS = Some CLAIMS ∧
    migrateSnapshots 1024 factory keccak verifySignature o sn sigs CLAIMS = Done (sn', es) ∧
    _epoch sn' = 101 ∧
    ∀ e, 2 ≤ e < 2 ^ 32 → match getSnapshot 1024 sn' e with
      | Done s => e ∈ epochs 101 ∧ claimed e s
      | Reverts err => e ∉ epochs 101 ∧ err = Revert "SnapshotsNotInBuffer" [e]
      end.
Proof using Type.
  intros Hsig Ho He Hs. destruct (fetched_signatures hre o w Hsig) as (texts & l & sigs & E & Hb & Hl & Hacc).
  exists texts, l, sigs. assert (length CLAIMS = 6%nat) as Hlc by (vm_compute; reflexivity).
  assert (windowed 1024 sn 96 []) as Hw by (by apply windowed_new).
  destruct (migrate_loop_ok 1024 ltac:(done) o (zip sigs CLAIMS) sn 0 [] 96 [] Hw Hacc) as [[[sn' e'] es] Hr].
  assert ((zip sigs CLAIMS).*2 = CLAIMS) as Hz by (apply snd_zip; lia).
  assert (consecutive 1024 (96 + Z.of_nat (length (A:=Snapshot) [])) (zip sigs CLAIMS).*2) as Hc.
  { rewrite Hz. intros i b c Hi Hx. destruct (claims_parse i) as (b' & bc & Hb' & Hx' & _ & Hh);
      [rewrite <-Hlc; by eapply lookup_lt_Some|].
    rewrite Hi in Hb'. injection Hb' as <-. rewrite Hx in Hx'. injection Hx' as <-. simpl. rewrite Hh.
    apply lookup_lt_Some in Hi. lia. }
  destruct (migrate_loop 1024 keccak verifySignature ltac:(done) o _ _ _ _ _ _ _ _ _ Hw Hc Hr)
    as (log & Hlog & Hw' & _ & _ & Hep). simpl in Hw'.
  assert (length (zip sigs CLAIMS) = 6%nat) as Hlz by (rewrite length_zip_with; lia).
  assert (length log = 6%nat) as Hll by (by rewrite <-(Forall2_length _ _ _ Hlog)).
  assert (_epoch sn' = 101) as Hsn by (rewrite (w_epoch _ _ _ _ Hw'), decide_False, Hll by (by destruct log); done).
  assert (e' = 101) as -> by (rewrite <-Hep; [done|intros E'; by rewrite E' in Hlz]).
  exists sn', es. split_and!; [done..|by vm_compute| |done|].
  - unfold migrateSnapshots, onlyFactory. rewrite Ho, Z.eqb_refl, He. cbn [negb revert_if sbind Z.eqb].
    rewrite Hl, Hlc. cbn [Nat.eqb negb orb revert_if sbind]. rewrite Hr. cbn [sbind].
    rewrite cast_word by done. by rewrite with_buffer_id.
  - intros e Hr2. unfold getSnapshot. rewrite cast_word by (unfold word; lia).
    destruct (decide (e ∈ epochs 101)) as [Hin|Hout].
    + pose proof Hin as Hin'. apply elem_of_seqZ in Hin'. change (Z.max 1 (101 - 5)) with 96 in Hin'.
      destruct (lookup_lt_is_Some_2 log (Z.to_nat (e - 96))) as [s Hlk]; [lia|].
      pose proof (read_recent 1024 ltac:(done) sn' 96 log _ s Hw' Hlk ltac:(lia)) as Hread.
      rewrite Z2Nat.id in Hread by lia. replace (96 + (e - 96)) with e in Hread by lia. rewrite Hread.
      split; [done|]. destruct (Forall2_lookup_r _ _ _ _ _ Hlog Hlk) as ([sg b] & Hsc & Hx).
      apply lookup_zip_Some in Hsc as [_ Hbc]. cbn [fst snd] in *.
      destruct (claims_parse (Z.to_nat (e - 96))) as (b' & bc & Hb' & Hx' & Hchain & Hh); [lia|].
      rewrite Hbc in Hb'. injection Hb' as <-. rewrite Hx in Hx'. injection Hx' as <-.
      split; [done|]. rewrite Hh. lia.
    + rewrite (read_other 1024 ltac:(done) sn' 96 log e Hw' ltac:(lia)); [done|].
      intros j Hj _ <-. apply Hout. apply elem_of_seqZ. change (Z.max 1 (101 - 5)) with 96. lia.
Qed.
End Migration.

(** ** Witness *)

Fixpoint zeros (n : nat) : string := match n with O => EmptyString | S n => String "0" (zeros n) end.

Definition hre_signing : Hre :=
  {| hre_network := "hardhat"; hre_chainId := 1337; hre_gasPrice := 1; hre_maxPriorityFee := 1; hre_signers := [];
     hre_artifacts := hre_artifacts (hre_ex None); hre_env := λ _, None; hre_block := λ _, 0;
     hre_sigGroup := λ _, Some (zeros 384); hre_balance := λ _ _, Ok 0; hre_tokenBalance := λ _ _ _, Ok 0;
     hre_accepts := λ _ _ _ _, true; hre_verify := λ _, None |}.

Lemma migration_fills_buffer_witness :
  ∃ sigs sn' es, migrateSnapshots 1024 7 (λ _, 0) (λ _ _ _, true)
      {| o_sender := 7; o_block := 9; o_isValidator := λ _, false; o_consensusRunning := false; o_maintenance := false;
         o_pauses := false; o_participantIndex := λ _, 0; o_validators := 0; o_masterKeyHash := 0 |}
      new_snapshots sigs CLAIMS = Done (sn', es) ∧ _epoch sn' = 101 ∧
    getSnapshot 1024 sn' 95 = Reverts (Revert "SnapshotsNotInBuffer" [95]).
Proof.
  destruct (migration_fills_buffer 7 (λ _, 0) (λ _ _ _, true) hre_signing world_ex
    {| o_sender := 7; o_block := 9; o_isValidator := λ _, false; o_consensusRunning := false; o_maintenance := false;
       o_pauses := false; o_participantIndex := λ _, 0; o_validators := 0; o_masterKeyHash := 0 |} new_snapshots)
    as (texts & l & sigs & sn' & es & _ & _ & _ & Hm & He & Hread).
  - intros k _. exists (zeros 384), (replicate 192 0). split; [reflexivity|]. split; [vm_compute; reflexivity|].
    intros b bc _ _ _. eexists. vm_compute. reflexivity.
  - reflexivity.
  - reflexivity.
  - reflexivity.
  - exists sigs, sn', es. split; [exact Hm|]. split; [exact He|].
    assert (2 ≤ 95 < 2 ^ 32) as H95 by (split; [discriminate|reflexivity]).
    specialize (Hread 95 H95). destruct (getSnapshot 1024 sn' 95) as [s|err].
    + destruct Hread as [Hin _]. exfalso. revert Hin. apply (bool_decide_unpack _). vm_compute. exact I.
    + destruct Hread as [_ ->]. reflexivity.
Defined.
