(* ===== verification/NodeTasks.v ===== *)
(** * Tokens, ether and node settings

    The tasks of [scripts/lib/alicenetTasks.ts] that mint tokens, move ether
    or change settings of a local node.  Balances are not part of the chain
    model: they are the node's answers ([hre_balance], [hre_tokenBalance]). *)

From S2P Require Import Prelude JsValue Numbers Constants Artifacts Fixtures Ethers Factory Instances World Scenario FactoryProofs DeployArgs Provider FactoryTasks Logic ValidatorTasks.
From stdpp Require Import options.
Local Open Scope Z_scope.

(** A number as a parameter of a request. *)
Definition num_js (n : option Z) : jsval := match n with Some n => JNum n | None => JUndefined end.

(** [fs.readdirSync]: the names in a directory, in the order of the operating
    system, which is [order]. *)
Definition children (fs : filesystem) (p : path) : list string :=
  omap (λ q, if decide (removelast q = p ∧ q ≠ []) then last q else None) (map_to_list fs).*1.

Section Node.
Context `{Ethers, Evm, Toml} (hre : Hre) (order : list string → list string).

(** ** Node settings *)

Definition task_enableHardhatImpersonate (account : string) : M unit :=
  output (IRequest "hardhat_impersonateAccount" [JStr account]).

Definition task_mineNumBlocks (numBlocks : string) : M unit :=
  output (IRequest "hardhat_mine" [JStr (hex_quantity (parseInt (Some 10) numBlocks))]).

Definition task_setHardhatIntervalMining (enableAutoMine : bool) (interval : string) : M unit :=
  let interval := parseInt (Some 10) interval in
  if decide (hre_chainId hre = HARDHAT_CHAIN_ID) then
    if enableAutoMine
    then try_catch (output (IRequest "evm_setAutomine" [JBool true])) (λ _, ret tt)
    else try_catch (output (IRequest "evm_setIntervalMining" [num_js interval]) ;;;
                    output (IRequest "evm_setAutomine" [JBool false])) (λ _, ret tt)
  else ret tt.

Definition task_setHardhatBaseFee (baseFee : Z) : M unit :=
  let baseFee := baseFee * 10 ^ 9 in
  if decide (hre_chainId hre = HARDHAT_CHAIN_ID) then
    try_catch (output (IRequest "hardhat_setNextBlockBaseFeePerGas"
                                [JStr (hex_quantity (Some baseFee))])) (λ _, ret tt)
  else ret tt.

(** ** Ether *)

Definition getBalance (account : jsval) : M Z := λ w, (hre_balance hre (w_trace w) account, w).

(** [signer.sendTransaction]: a negative value cannot be encoded, and the
    node may refuse the transfer. *)
Definition send_value (from : address) (to : jsval) (value : Z) : M unit :=
  if value <? 0 then throw (LibError "ethers" "cannot convert negative value to hex")
  else λ w,
    if hre_accepts hre (w_trace w) from to value
    then (put_chain (bump_nonce (w_chain w) from) ;;; output (ISend from to value)) w
    else (Throw (LibError "ethers" "insufficient funds"), w).

(** [signers[0].sendTransaction] *)
Definition sendTransaction (to : jsval) (value : Z) : M unit :=
  from <- lift (of_option (TypeError "Cannot read properties of undefined") (head (hre_signers hre))) ;;
  send_value from to value.

(** The owner is [accounts[0]]. *)
Definition task_transferEth (receiver amount : string) : M unit :=
  owner <- lift (of_option (TypeError "Cannot read properties of undefined (reading 'address')")
                           (head (hre_signers hre))) ;;
  ownerBal <- getBalance (JAddr owner) ;;
  amount <- lift (of_option (LibError "ethers" "overflow") (bn_fromNumber (parseInt (Some 16) amount))) ;;
  let wei := amount * 10 ^ 18 in
  console_log ("previous owner balance: " ++s pretty ownerBal) ;;;
  receiverBal <- getBalance (JStr receiver) ;;
  console_log ("previous receiver balance: " ++s pretty receiverBal) ;;;
  sendTransaction (JStr receiver) wei ;;;
  output (IWait None) ;;;
  receiverBal <- getBalance (JStr receiver) ;;
  console_log ("new receiver balance: " ++s pretty receiverBal) ;;;
  ownerBal2 <- getBalance (JAddr owner) ;;
  console_log ("new owner balance: " ++s pretty (ownerBal - ownerBal2)).

Definition task_getEthBalance (account : string) : M Z :=
  bal <- getBalance (JStr account) ;; output (ILogValues [JBig bal]) ;;; ret bal.

(** [getValidatorAccount] *)
Definition getValidatorAccount (path : string) : M jsval :=
  data <- readFileSync path ;;
  config <- lift (of_option (LibError "toml" "parse error") (toml_parse data)) ;;
  validator <- lift (js_get config "validator") ;;
  lift (js_get validator "rewardAccount").

Fixpoint validator_accounts (configPath : string) (validatorConfigs : list string) : M (list jsval) :=
  match validatorConfigs with
  | [] => ret []
  | val :: vals =>
      a <- getValidatorAccount (configPath ++s "/" ++s val) ;;
      rest <- validator_accounts configPath vals ;;
      ret (a :: rest)
  end.

Definition minAmount : Z := 90.
Definition maxAmount : Z := 100.

(** [parseEther(n.toString())] *)
Definition ether (n : Z) : M Z :=
  lift (of_option (LibError "ethers" "invalid decimal value") (parseEther (pretty n))).

(** One round of the loop: the balance is in wei, the amounts are in ether. *)
Definition fund_one (account : jsval) : M unit :=
  bal <- getBalance account ;;
  limit <- ether minAmount ;;
  if bal <? limit then
    value <- ether (maxAmount - bal) ;;
    sendTransaction account value ;;;
    output (IWait None) ;;;
    bal' <- getBalance account ;;
    console_log ("account " ++s js_str account ++s " has " ++s pretty bal')
  else ret tt.

Definition readdirSync (p : string) : M (list string) :=
  fs <- get_fs ;;
  if is_dir fs (resolve p) then ret (order (children fs (resolve p)))
  else throw (FsError (if fs_exists fs (resolve p) then "ENOTDIR" else "ENOENT") p).

Definition task_fundValidators (configPath : string) : M unit :=
  validatorConfigs <- readdirSync configPath ;;
  accounts <- validator_accounts configPath validatorConfigs ;;
  forM accounts fund_one.

(** ** Tokens *)

(** [token.callStatic.balanceOf(account)] *)
Definition balanceOf (token : address) (account : jsval) : M Z :=
  λ w, (hre_tokenBalance hre (w_trace w) token account, w).

Definition minted (bal1 bal2 : Z) (what to : string) : string :=
  "Minted " ++s pretty (bal2 - bal1) ++s what ++s to.

(** A transaction of the first signer with an explicit nonce: when it is not
    the sender's next one the node refuses the transaction, after the
    estimate has succeeded. *)
Definition with_nonce {A} (nonce : option Z) (m : M A) : M A :=
  from <- signer hre ;;
  λ w, match m w with
       | (Ok a, w') =>
           if default (nonce_of (w_chain w) from) nonce =? nonce_of (w_chain w) from
           then (Ok a, w')
           else (Throw (LibError "hardhat" "nonce"), w)
       | r => r
       end.

(** [factory.callAny(target, 0, input, { nonce })], awaited *)
Definition callAny_nonce (factory target_ : address) (input : string) (nonce : option Z) : M Receipt :=
  with_nonce nonce (callAny hre factory target_ input None).

Definition task_mintATokenTo (factoryAddress : address) (to amount : string) (nonce : option Z) : M unit :=
  admin_address hre ;;;
  getContractFactory "ATokenMinter" ;;;
  getContractAt ALICENET_FACTORY ;;;
  b <- format32 (Some "ATokenMinter") ;;
  aTokenMinterAddr <- factory_lookup factoryAddress b ;;
  aToken <- lookup_contract factoryAddress "AToken" ;;
  bal1 <- balanceOf aToken (JStr to) ;;
  calldata <- encode_call "ATokenMinter" "mint" [JStr to; JStr amount] ;;
  callAny_nonce factoryAddress aTokenMinterAddr calldata nonce ;;;
  bal2 <- balanceOf aToken (JStr to) ;;
  console_log (minted bal1 bal2 " to account " to).

Definition task_getTokenBalance (token : string) (factoryAddress : address) (account : string) : M Z :=
  getContractAt ALICENET_FACTORY ;;;
  t <- lookup_contract factoryAddress token ;;
  bal <- balanceOf t (JStr account) ;;
  output (ILogValues [JBig bal]) ;;;
  ret bal.

Definition task_getATokenBalance : address → string → M Z := task_getTokenBalance "AToken".
Definition task_getBTokenBalance : address → string → M Z := task_getTokenBalance "BToken".

(** A transaction to another contract, with ether. *)
Definition send_call (to : address) (value : Z) (d : string) : M (list event) :=
  from <- signer hre ;;
  c <- get_chain ;;
  if value <? 0 then throw (LibError "ethers" "cannot convert negative value to hex")
  else match call CALL_DEPTH from to value d (bump_nonce c from, []) with
       | Some (_, (c', events)) =>
           put_chain c' ;;; output (ICall from to value d) ;;; ret events
       | None => throw (LibError "ethers" "UNPREDICTABLE_GAS_LIMIT: execution reverted")
       end.

Definition task_mintBTokenTo (factoryAddress : option address) (to amount : string) (numWei : Z) : M unit :=
  f <- lift (of_option (Error "Expected a factory address to be passed!") factoryAddress) ;;
  getContractAt ALICENET_FACTORY ;;;
  bToken <- lookup_contract f "BToken" ;;
  bal1 <- balanceOf bToken (JStr to) ;;
  calldata <- encode_call "BToken" "mintTo" [JStr to; JStr amount] ;;
  send_call bToken numWei calldata ;;;
  output (IWait None) ;;;
  bal2 <- balanceOf bToken (JStr to) ;;
  console_log (minted bal1 bal2 " BToken to account " to).

(** [getTokenIdFromTx]: the third log of the transaction as a [Transfer],
    which [parseLog] is ethers's reading of. *)
Definition getTokenIdFromTx (parseLog : event → option (list jsval)) (receipt : Receipt) : M jsval :=
  output (IWait None) ;;;
  log <- lift (of_option (TypeError "Cannot read properties of undefined (reading 'topics')")
                         (default [] (r_events receipt) !! 2%nat)) ;;
  args <- lift (of_option (LibError "ethers" "no matching event") (parseLog log)) ;;
  ret (default JUndefined (args !! 2%nat)).

(** [decodeEventLog] is ethers's decoding of a log as [DepositReceived]. *)
Definition task_virtualMintDeposit (decodeEventLog : event → option jsval) (factoryAddress : address)
    (depositOwnerAddress : string) (depositAmount accountType : Z) : M unit :=
  input <- encode_call "function virtualMintDeposit(uint8 accountType_,address to_,uint256 amount_)"
             "virtualMintDeposit" [JNum accountType; JStr depositOwnerAddress; JBig depositAmount] ;;
  admin_address hre ;;;
  getContractAt ALICENET_FACTORY ;;;
  bToken <- lookup_contract factoryAddress "BToken" ;;
  receipt <- callAny hre factoryAddress bToken input None ;;
  output (ILogValues [receipt_js receipt]) ;;;
  log <- lift (of_option (TypeError "Cannot read properties of undefined (reading 'data')")
                         (head (default [] (r_events receipt)))) ;;
  event <- lift (of_option (LibError "ethers" "invalid event log") (decodeEventLog log)) ;;
  output (ILogValues [event]).
End Node.

(** ** Node settings *)

(** A quantity sent to the node is the number it stands for: the base
    fee of the next block is the parameter in gwei, and a decimal number of
    blocks is mined as it reads.  Off the hardhat chain nothing is sent. *)
Theorem quantities_sent hre fee blocks n w :
  0 ≤ fee → parseInt (Some 10) blocks = Some n → 0 ≤ n →
  (hre_chainId hre = HARDHAT_CHAIN_ID →
   ∃ q, task_setHardhatBaseFee hre fee w =
     (Ok tt, traced w [IRequest "hardhat_setNextBlockBaseFeePerGas" [JStr q]]) ∧
     parseInt (Some 16) q = Some (fee * 10 ^ 9)) ∧
  (hre_chainId hre ≠ HARDHAT_CHAIN_ID → task_setHardhatBaseFee hre fee w = (Ok tt, w)) ∧
  ∃ q, task_mineNumBlocks blocks w = (Ok tt, traced w [IRequest "hardhat_mine" [JStr q]]) ∧
    parseInt (Some 16) q = Some n.
Proof.
  intros Hfee Hn Hpos. unfold task_setHardhatBaseFee, task_mineNumBlocks. cbv zeta. split_and!.
  - intros Hc. rewrite decide_True by done. eexists. split; [reflexivity|].
    apply hex_quantity_read. lia.
  - intros Hc. by rewrite decide_False.
  - eexists. split; [reflexivity|]. rewrite Hn. by apply hex_quantity_read.
Qed.

(** ** Ether *)

Section Ether.
Context `{Ethers, !EthersLaws, Toml} (hre : Hre).

Lemma wp_getBalance a c Q : (∀ l, Q (hre_balance hre l a) c []) → wp (getBalance hre a) c Q.
Proof.
  intros HQ w Hc. exists (hre_balance hre (w_trace w) a), w, []. rewrite app_nil_r, Hc.
  split_and!; [done..|apply HQ].
Qed.

Lemma wp_sendTransaction from to v c Q :
  head (hre_signers hre) = Some from →
  (v < 0 → ∀ e, Q (Throw e) c []) →
  (0 ≤ v → ∀ l, if hre_accepts hre l from to v then Q (Ok tt) (bump_nonce c from) [ISend from to v]
                else ∀ e, Q (Throw e) c []) →
  wp (sendTransaction hre to v) c Q.
Proof.
  intros Hs Hneg Hpos. unfold sendTransaction, send_value. rewrite Hs. wp_rule. wp_rule.
  destruct (Z.ltb_spec v 0); [apply wp_throw; by apply Hneg|].
  intros w Hc. specialize (Hpos ltac:(done) (w_trace w)). subst c.
  destruct (hre_accepts hre (w_trace w) from to v).
  - exists (Ok tt), (traced (on_chain w (bump_nonce (w_chain w) from)) [ISend from to v]), [ISend from to v].
    split_and!; [done|done| |done]. simpl. by rewrite txs_app.
  - eexists _, w, []. rewrite app_nil_r. split_and!; [done..|apply Hpos].
Qed.

Lemma ether_run {A} n (k : Z → M A) w : mbind_js (ether n) k w = k (n * ETHER) w.
Proof using Type*. unfold ether. by rewrite parseEther_whole. Qed.

(** [transferEth] reads its amount as a hexadecimal number of ether and
    sends exactly that; of a decimal amount of two digits or more it sends
    more than the amount says. *)
Theorem transfer_eth_hex receiver amount owner n w :
  head (hre_signers hre) = Some owner → (∀ l a, ∃ z, hre_balance hre l a = Ok z) →
  parseInt (Some 16) amount = Some n → 0 ≤ n < MAX_SAFE_INTEGER →
  (∀ l, hre_accepts hre l owner (JStr receiver) (n * ETHER) = true) →
  runs_to (task_transferEth hre receiver amount) w (Ok tt) (bump_nonce (w_chain w) owner)
    [ISend owner (JStr receiver) (n * ETHER)] ∧
  ∀ m, all_digits amount = true → parseInt (Some 10) amount = Some m → 10 ≤ m → m * ETHER < n * ETHER.
Proof using Type*.
  intros Hs Hbal Hn Hr Hacc. split.
  - apply wp_runs_to. unfold task_transferEth. rewrite Hs, Hn. cbn [of_option].
    rewrite bn_fromNumber_safe by (unfold MAX_SAFE_INTEGER in *; lia). cbn [of_option]. wp_rule. wp_rule.
    wp_rule. apply wp_getBalance. intros l. destruct (Hbal l (JAddr owner)) as [b1 ->]. do 4 wp_rule.
    wp_rule. apply wp_getBalance. intros l2. destruct (Hbal l2 (JStr receiver)) as [b2 ->]. do 3 wp_rule.
    apply (wp_sendTransaction owner); [done|unfold ETHER in *; lia|]. intros _ l3.
    change (10 ^ 18) with ETHER. rewrite Hacc. do 3 wp_rule.
    apply wp_getBalance. intros l4. destruct (Hbal l4 (JStr receiver)) as [b3 ->]. do 3 wp_rule.
    apply wp_getBalance. intros l5. destruct (Hbal l5 (JAddr owner)) as [b4 ->]. by wp_rule.
  - intros m Hd Hm H10. destruct (hex_reading amount m n Hd Hm Hn) as [_ Hlt].
    specialize (Hlt H10). unfold ETHER. lia.
Qed.

(** [fundValidators] takes a balance in wei from an amount in ether: an
    account with at most a hundred wei is topped up, one with ninety ether
    is left alone, and the first account in between makes the transfer
    negative and stops the task: nothing is sent, and no account after it is
    funded. *)
Theorem fund_validators_stuck rich poor rest owner bal w :
  head (hre_signers hre) = Some owner →
  (∀ a, hre_balance hre (w_trace w) a = Ok (bal a)) →
  Forall (λ a, minAmount * ETHER ≤ bal a) rich →
  maxAmount < bal poor < minAmount * ETHER →
  ∃ e, forM (rich ++ poor :: rest) (fund_one hre) w = (Throw e, w).
Proof using Type*.
  intros Hs Hbal Hrich Hpoor. induction Hrich as [|a rich Ha _ IH].
  - eexists. apply mbind_Throw. unfold fund_one, mbind_js at 1, getBalance. rewrite Hbal.
    rewrite ether_run. rewrite (proj2 (Z.ltb_lt _ _)) by lia. rewrite ether_run.
    unfold sendTransaction, send_value. rewrite Hs. unfold mbind_js, lift. cbn [of_option].
    rewrite (proj2 (Z.ltb_lt _ _)) by (unfold ETHER in *; lia). reflexivity.
  - destruct IH as [e IH]. exists e. cbn [app forM].
    assert (fund_one hre a w = (Ok tt, w)) as E; [|by mstep E].
    unfold fund_one, mbind_js at 1, getBalance. rewrite Hbal, ether_run.
    by rewrite (proj2 (Z.ltb_ge _ _)).
Qed.
End Ether.

(** ** Tokens *)

Section Tokens.
Context `{Ethers, Evm} (hre : Hre).

Lemma wp_balanceOf token a c Q :
  (∀ l, Q (hre_tokenBalance hre l token a) c []) → wp (balanceOf hre token a) c Q.
Proof.
  intros HQ w Hc. exists (hre_tokenBalance hre (w_trace w) token a), w, []. rewrite app_nil_r, Hc.
  split_and!; [done..|apply HQ].
Qed.

Definition nonce_accepted (c : chain) (from : address) (nonce : option Z) : bool :=
  default (nonce_of c from) nonce =? nonce_of c from.

Lemma wp_callAny_nonce f a d nonce c Q admin :
  head (hre_signers hre) = Some admin →
  match apply_tx (bump_nonce c admin) admin f (FCallAny a 0 d) with
  | Some (c', events) =>
      if nonce_accepted c admin nonce
      then Q (Ok {| r_events := Some events; r_gasUsed := gas_used c (FCallAny a 0 d) |}) c'
             [ITx admin f (FCallAny a 0 d) None]
      else ∀ e, Q (Throw e) c []
  | None => ∀ e, Q (Throw e) c []
  end →
  wp (callAny_nonce hre f a d nonce) c Q.
Proof.
  intros Hs HQ. unfold callAny_nonce, with_nonce, signer. rewrite Hs. wp_rule. wp_rule.
  intros w Hc. pose proof (wp_callAny hre f a d None c (λ r c' l,
    match apply_tx (bump_nonce c admin) admin f (FCallAny a 0 d) with
    | Some (c1, events) =>
        r = Ok {| r_events := Some events; r_gasUsed := gas_used c (FCallAny a 0 d) |} ∧
        c' = c1 ∧ l = [ITx admin f (FCallAny a 0 d) None]
    | None => (∃ e, r = Throw e) ∧ c' = c ∧ l = []
    end) admin Hs) as Hcall.
  destruct Hcall with w as (r & w' & l & Hw & Hfs & Ht & HP); [|done|].
  { destruct (apply_tx _ _ _ _) as [[]|]; eauto. }
  rewrite Hw. destruct (apply_tx _ _ _ _) as [[c1 es]|].
  - destruct HP as (-> & Hc1 & ->). fold (nonce_accepted (w_chain w) admin nonce). rewrite Hc.
    destruct (nonce_accepted c admin nonce).
    + eexists _, w', _. split_and!; [reflexivity|done|exact Ht|]. by rewrite Hc1.
    + eexists _, w, []. rewrite app_nil_r, Hc. split_and!; [reflexivity|done..|apply HQ].
  - destruct HP as ([e ->] & Hc1 & ->). eexists _, w', []. split_and!; [done..|]. rewrite Hc1. apply HQ.
Qed.

(** What minting sends: the administrator's call of the minter, relayed by
    the factory. *)
Definition mints (c : chain) (f : address) (to amount : string) (nonce : option Z) (c' : chain) (tx : io) : Prop :=
  ∃ admin st b d es,
    head (hre_signers hre) = Some admin ∧ accounts c !! f = Some (KFactory st) ∧
    formatBytes32String "ATokenMinter" = Some b ∧
    encodeFunctionData "ATokenMinter" "mint" [JStr to; JStr amount] = Some d ∧
    nonce_accepted c admin nonce = true ∧
    apply_tx (bump_nonce c admin) admin f (FCallAny (lookup f st b) 0 d) = Some (c', es) ∧
    tx = ITx admin f (FCallAny (lookup f st b) 0 d) None.

Definition balances_readable : Prop := ∀ l t a, ∃ z, hre_tokenBalance hre l t a = Ok z.

Lemma mint_wp f to amount nonce c :
  wp (task_mintATokenTo hre f to amount nonce) c (λ r c' l,
    (∃ e, r = Throw e ∧ c' = c ∧ l = []) ∨
    (∃ tx, mints c f to amount nonce c' tx ∧ l = [tx] ∧ (balances_readable → r = Ok tt))).
Proof.
  unfold task_mintATokenTo, lookup_contract, factory_lookup, getContractAt, admin_address.
  wp_rule. apply wp_lift. destruct (head (hre_signers hre)) as [admin|] eqn:Hs; cbn [of_option]; [|left; by eauto].
  wp_rule. wp_rule. destruct (hasContractFactory _); [|left; by eauto].
  wp_rule. wp_rule. destruct (hasContractFactory _) eqn:Hbase; [|left; by eauto].
  wp_rule. apply wp_format32.
  destruct (formatBytes32String "ATokenMinter") as [b|] eqn:Hb; cbn [of_option]; [|left; by eauto].
  wp_rule. wp_rule. wp_rule.
  destruct (accounts c !! f) as [[st| | | ]|] eqn:Hf; try (wp_rule; left; by eauto). wp_rule.
  wp_rule. wp_rule. apply wp_format32. destruct (formatBytes32String "AToken") as [b2|]; cbn [of_option]; [|left; by eauto].
  wp_rule. wp_rule. wp_rule. rewrite Hf. wp_rule. wp_rule. wp_rule.
  destruct (hasContractFactory "AToken"); [|left; by eauto]. wp_rule.
  wp_rule. apply wp_balanceOf. intros l1. destruct (hre_tokenBalance hre l1 _ _); [|left; by eauto].
  wp_rule. apply wp_encode.
  destruct (encodeFunctionData "ATokenMinter" "mint" _) as [d|] eqn:Hd; cbn [of_option]; [|left; by eauto].
  wp_rule. apply (wp_callAny_nonce _ _ _ _ _ _ admin); [done|].
  destruct (apply_tx _ _ _ _) as [[c1 es]|] eqn:Htx; [|left; by eauto].
  destruct (nonce_accepted c admin nonce) eqn:Hn; [|left; by eauto].
  wp_rule. apply wp_balanceOf. intros l2.
  assert (mints c f to amount nonce c1 (ITx admin f (FCallAny (lookup f st b) 0 d) None)) as Hm
    by (exists admin, st, b, d, es; by split_and!).
  destruct (hre_tokenBalance hre l2 _ _) as [z|e] eqn:E2.
  - wp_rule. right. eexists. by split_and!.
  - right. eexists. split_and!; [exact Hm|done|]. intros Hr. destruct (Hr l2 (lookup f st b2) (JStr to)).
    congruence.
Qed.

(** [mintATokenTo], on every world, either throws and has sent nothing,
    or has sent exactly one transaction: the administrator's [callAny] of the
    factory that relays [mint(to, amount)] to the minter the factory looks
    up, under the nonce asked for; then it returns if balances can be read. *)
Theorem mint_outcome f to amount nonce w :
  ∃ r c' l, runs_to (task_mintATokenTo hre f to amount nonce) w r c' l ∧
    ((∃ e, r = Throw e) ∧ c' = w_chain w ∧ l = [] ∨
     ∃ tx, mints (w_chain w) f to amount nonce c' tx ∧ l = [tx] ∧ (balances_readable → r = Ok tt)).
Proof.
  destruct (mint_wp f to amount nonce (w_chain w) w eq_refl) as (r & w' & l & Hw & Hf & Ht & HQ).
  exists r, (w_chain w'), l. split; [by exists w'|]. naive_solver.
Qed.
End Tokens.

(** ** Witnesses *)

#[local] Existing Instances toml_model toml_model_laws ethers_model ethers_model_laws evm_ex.

Lemma quantities_sent_witness :
  ∃ q, task_setHardhatBaseFee (hre_ex None) 500 world_ex =
    (Ok tt, traced world_ex [IRequest "hardhat_setNextBlockBaseFeePerGas" [JStr q]]) ∧
    parseInt (Some 16) q = Some 500000000000.
Proof.
  destruct (quantities_sent (hre_ex None) 500 "26" 26 world_ex) as (Hfee & _ & _).
  - lia.
  - vm_compute. reflexivity.
  - lia.
  - destruct (Hfee eq_refl) as (q & Hq & Hr). exists q. exact (conj Hq Hr).
Defined.

Definition bal_ex (a : jsval) : Z :=
  match a with JStr s => if decide (s = "0xrich") then 95 * 10 ^ 18
                         else if decide (s = "0xlow") then 10 ^ 18 else 0
          | _ => 0 end.

(** Ten ether are sixteen. *)
Lemma transfer_eth_hex_witness :
  runs_to (task_transferEth (hre_ex None) "0xto" "10") world_ex (Ok tt) (bump_nonce chain_ex owner_ex)
    [ISend owner_ex (JStr "0xto") (16 * ETHER)] ∧ 10 * ETHER < 16 * ETHER.
Proof.
  destruct (transfer_eth_hex (hre_ex None) "0xto" "10" owner_ex 16 world_ex) as (Hrun & Hlt).
  - reflexivity.
  - intros l a. by eexists.
  - vm_compute. reflexivity.
  - unfold MAX_SAFE_INTEGER. lia.
  - intros l. vm_compute. reflexivity.
  - split; [exact Hrun|]. apply Hlt; [vm_compute; reflexivity|vm_compute; reflexivity|lia].
Defined.

Lemma fund_validators_stuck_witness :
  ∃ e, forM [JStr "0xrich"; JStr "0xlow"; JStr "0xempty"] (fund_one (hre_ex None)) world_ex
       = (Throw e, world_ex).
Proof.
  apply (fund_validators_stuck (hre_ex None) [JStr "0xrich"] (JStr "0xlow") [JStr "0xempty"] owner_ex
           bal_ex world_ex).
  - reflexivity.
  - intros a. reflexivity.
  - constructor; [|constructor]. vm_compute. discriminate.
  - vm_compute. split; reflexivity.
Defined.
