(* ===== verification/LegacyToken.v ===== *)
(** * The legacy token

    The task [deployLegacyTokenAndUpdateDeploymentArgs] of
    [scripts/lib/alicenetTasks.ts]: it deploys a legacy token and puts its
    address into the constructor arguments of AToken. *)

From S2P Require Import Prelude JsValue Constants Artifacts Fixtures Ethers Factory Instances World Scenario StateFile DeployArgs Provider FactoryTasks Logic ValidatorTasks NodeTasks.
From stdpp Require Import options.
Local Open Scope Z_scope.

(** [v[0] = x] *)
Definition set_first (v x : jsval) : res jsval :=
  match v with
  | JArr l => Ok (JArr (x :: tail l))
  | v => js_set v "0" x
  end.

Definition expectedContract : string := "contracts/AToken.sol:AToken".
Definition expectedField : string := "legacyToken_".

Section Legacy.
Context `{Ethers, Evm, Toml} (hre : Hre).

(** [deploymentConfig.constructor[expectedContract][0] = ...] changes the
    nested tables in place. *)
Definition set_token (deploymentConfig legacyToken : jsval) : res jsval :=
  constructors <~ js_get deploymentConfig "constructor" ;;
  args <~ js_get constructors expectedContract ;;
  args <~ set_first args (JObj [(expectedField, legacyToken)]) ;;
  constructors <~ js_set constructors expectedContract args ;;
  js_set deploymentConfig "constructor" constructors.

Definition task_deployLegacyToken (deploymentArgsTemplatePath outputFolder : string) : M unit :=
  ex <- existsSync deploymentArgsTemplatePath ;;
  (if ex : bool then ret tt
   else throw (Error ("Error: Could not find deployment Args file expected at " ++s deploymentArgsTemplatePath))) ;;;
  ex <- existsSync outputFolder ;;
  (if ex : bool then ret tt
   else throw (Error ("Error: Output folder  " ++s outputFolder ++s " doesn't exist!"))) ;;;
  console_log ("Loading deploymentArgs from: " ++s deploymentArgsTemplatePath) ;;;
  deploymentConfig <- readDeploymentArgs (Some deploymentArgsTemplatePath) ;;
  constructors <- lift (js_get deploymentConfig "constructor") ;;
  args <- lift (js_get constructors expectedContract) ;;
  (if is_undefined args
   then throw (Error ("Couldn't find " ++s expectedField ++s " in the constructor area for " ++s
                      expectedContract ++s " inside the " ++s deploymentArgsTemplatePath))
   else ret tt) ;;;
  admin <- admin_address hre ;;
  console_log ("Admin address: " ++s addr_text admin) ;;;
  getContractFactory "LegacyToken" ;;;
  legacyToken <- deploy_tx admin "LegacyToken" [] [] ;;
  bal <- balanceOf hre legacyToken (JAddr admin) ;;
  console_log ("Minted " ++s pretty bal ++s " tokens for user: " ++s addr_text admin) ;;;
  console_log ("Deployed legacy token at: " ++s addr_text legacyToken) ;;;
  deploymentConfig <- lift (set_token deploymentConfig (JAddr legacyToken)) ;;
  data <- stringify deploymentConfig ;;
  writeFileSync (outputFolder ++s "/deploymentArgsTemplate") data.
End Legacy.

(** ** What the file says afterwards *)

Section LegacyProofs.
Context `{Ethers, Evm, Toml, !TomlLaws} (hre : Hre).

Lemma legacy_tx_run from name args ov code a c' es w :
  getDeployData name args = Some (Some code) →
  create from code (w_chain w, []) = Some (Some a, (c', es)) →
  deploy_tx from name args ov w = (Ok a, traced (on_chain w c') [ICreate from name args ov]).
Proof using Type.
  intros Hd Hc. unfold deploy_tx, deploy_data. rewrite Hd. unfold mbind_js, lift, get_chain. cbn [of_option].
  by rewrite Hc.
Qed.

(** The configuration with the address filled in. *)
Definition with_token (c ct : list (string * jsval)) (es : list jsval) (token : address) :=
  obj_set c "constructor"
    (JObj (obj_set ct expectedContract (JArr (JObj [(expectedField, JAddr token)] :: tail es)))).

Lemma set_token_run c ct es token :
  obj_get c "constructor" = Some (JObj ct) → obj_get ct expectedContract = Some (JArr es) →
  set_token (JObj c) (JAddr token) = Ok (JObj (with_token c ct es token)).
Proof using Type.
  intros Hc He. unfold set_token. rewrite (js_get_own _ _ _ Hc). cbn [rbind].
  by rewrite (js_get_own _ _ _ He).
Qed.

(** Reading the arguments of AToken back. *)
Lemma token_args_back c ct es token s args out w :
  toml_stringify (JObj (with_token c ct es token)) = Some s →
  fs_lookup (w_fs w) (resolve (args_path (Some out))) = Some (File s) →
  Forall (λ v, is_nullish v = false) (tail es) →
  res_mapM extract_arg (toml_canon <$> tail es) = Ok args →
  getDeploymentConstructorArgs expectedContract (Some out) w = (Ok (JAddr token :: args), w).
Proof using Type*.
  intros Hs Hf Hdef Hargs. apply toml_roundtrip in Hs.
  unfold getDeploymentConstructorArgs, readDeploymentArgs.
  destruct (toml_canon_obj (with_token c ct es token)) as (c' & Hc' & Hg). rewrite Hc' in Hs.
  mstep (readTOML_file w DEPLOYMENT_ARG_PATH _ _ _ Hf Hs). cbn [is_undefined].
  pose proof (Hg "constructor") as Hctor. unfold with_token in Hctor. rewrite obj_get_set_eq in Hctor.
  rewrite (mbind_lift _ _ _ _ (js_get_own _ _ _ Hctor)).
  set (ct' := obj_set ct expectedContract _) in *.
  destruct (toml_canon_obj ct') as (ct2 & Hct & Hg2). rewrite Hct. cbn [is_undefined].
  pose proof (Hg2 expectedContract) as He. unfold ct' in He. rewrite obj_get_set_eq in He.
  rewrite (mbind_lift _ _ _ _ (js_get_own _ _ _ He)).
  rewrite toml_canon_arr by by constructor. cbn [is_undefined]. unfold lift, extractArgs.
  rewrite fmap_cons. cbn [res_mapM].
  destruct (toml_canon_obj [(expectedField, JAddr token)]) as (o & Ho & Hgo). rewrite Ho.
  assert (extract_arg (JObj o) = Ok (JAddr token)) as ->; [|cbn [rbind]; by rewrite Hargs].
  apply (extract_single _ expectedField). intros k. rewrite Hgo. simpl. case_decide; [|done].
  by rewrite toml_canon_addr.
Qed.

(** C24: [deployLegacyTokenAndUpdateDeploymentArgs] creates the token with
    one transaction of the administrator, and the arguments file it writes
    gives the constructor of AToken the token's address as first argument
    and the other arguments as before; no other file changes. *)
Theorem legacy_token_recorded path out text c ct es args code token c' evs admin s w :
  fs_lookup (w_fs w) (resolve path) = Some (File text) → toml_parse text = Some (JObj c) →
  obj_get c "constructor" = Some (JObj ct) → obj_get ct expectedContract = Some (JArr es) →
  Forall (λ v, is_nullish v = false) (tail es) →
  res_mapM extract_arg (toml_canon <$> tail es) = Ok args →
  is_dir (w_fs w) (resolve out) = true → out ≠ EmptyString →
  is_dir (w_fs w) (resolve (args_path (Some out))) = false →
  head (hre_signers hre) = Some admin → hasContractFactory "LegacyToken" = true →
  getDeployData "LegacyToken" [] = Some (Some code) →
  create admin code (w_chain w, []) = Some (Some token, (c', evs)) →
  (∀ l, ∃ z, hre_tokenBalance hre l token (JAddr admin) = Ok z) →
  toml_stringify (JObj (with_token c ct es token)) = Some s →
  ∃ w', task_deployLegacyToken hre path out w = (Ok tt, w') ∧
    getDeploymentConstructorArgs expectedContract (Some out) w' = (Ok (JAddr token :: args), w') ∧
    w_chain w' = c' ∧ txs (w_trace w') = txs (w_trace w) ++ [ICreate admin "LegacyToken" [] []] ∧
    ∀ q, ¬ resolve (args_path (Some out)) `prefix_of` q → fs_lookup (w_fs w') q = fs_lookup (w_fs w) q.
Proof using Type*.
  intros Hf Hp Hc He Hdef Hargs Hout Hne Hnd Hadm Hfac Hcode Hcreate Hbal Hs.
  set (p := args_path (Some out)) in *.
  assert (resolve p = resolve out ++ ["deploymentArgsTemplate"]) as Hres.
  { unfold p, args_path. simpl. by apply (resolve_child out "deploymentArgsTemplate"). }
  assert (fs_write (w_fs w) p s = Ok (<[resolve p := File s]> (w_fs w))) as Hw.
  { apply fs_write_ok; [done|]. by rewrite Hres, removelast_last. }
  assert (fs_lookup (<[resolve p := File s]> (w_fs w)) (resolve p) = Some (File s)) as Hrd
    by by eapply fs_write_lookup.
  unfold task_deployLegacyToken. mstep (existsSync_true path w (ex_intro _ _ Hf)). cbv iota. rewrite mbind_ret.
  assert (is_Some (fs_lookup (w_fs w) (resolve out))) as Hex.
  { unfold is_dir in Hout. by destruct (fs_lookup (w_fs w) (resolve out)) as [[]|]. }
  mstep (existsSync_true out w Hex). cbv iota. rewrite mbind_ret.
  unfold console_log at 1. rewrite mbind_output. set (w1 := traced w _).
  unfold readDeploymentArgs. mstep (readTOML_file w1 DEPLOYMENT_ARG_PATH path text _ Hf Hp).
  rewrite (mbind_lift _ _ _ _ (js_get_own _ _ _ Hc)), (mbind_lift _ _ _ _ (js_get_own _ _ _ He)).
  cbn [is_undefined]. rewrite mbind_ret. unfold admin_address. rewrite Hadm. cbn [of_option]. rewrite mbind_lift_ok.
  unfold console_log at 1. rewrite mbind_output. unfold getContractFactory. rewrite Hfac, mbind_ret.
  erewrite mbind_Ok; [|eapply legacy_tx_run; [exact Hcode|exact Hcreate]].
  set (w2 := traced (on_chain _ _) _).
  unfold balanceOf at 1. unfold mbind_js at 1. destruct (Hbal (w_trace w2)) as [z ->].
  unfold console_log. rewrite !mbind_output.
  rewrite (mbind_lift _ _ _ _ (set_token_run _ _ _ _ Hc He)).
  unfold stringify. rewrite Hs. cbn [of_option]. rewrite mbind_lift_ok. unfold writeFileSync, get_fs, mbind_js, lift.
  change (out ++s "/deploymentArgsTemplate") with p.
  change (w_fs (traced (traced w2 _) _)) with (w_fs w). rewrite Hw. eexists. split; [reflexivity|].
  split; [by eapply token_args_back|]. split; [done|]. split.
  - unfold w2, w1. simpl. by rewrite !txs_app, <-!(assoc_L (++)).
  - intros q Hq. simpl. by apply fs_insert_beside.
Qed.
End LegacyProofs.

(** ** Witness *)

#[local] Existing Instances toml_model toml_model_laws ethers_model evm_ex.

Definition args_toml_ex : list (string * jsval) :=
  [("constructor", JObj [(expectedContract, JArr [JObj [("legacyToken_", JStr "UNDEFINED")]])])].
Definition args_text_ex : string := default EmptyString (toml_stringify (JObj args_toml_ex)).
Definition world_args : world :=
  {| w_fs := <[[".."; "scripts"; "base-files"; "deploymentArgsTemplate"] := File args_text_ex]> fs_ex;
     w_chain := chain_ex; w_trace := [] |}.

Definition legacy_code : string :=
  match getDeployData "LegacyToken" [] with Some (Some c) => c | _ => EmptyString end.
Definition legacy_token : address := getContractAddress owner_ex (nonce_of chain_ex owner_ex).
Definition legacy_chain : chain :=
  match create owner_ex legacy_code (chain_ex, []) with Some (_, (c, _)) => c | None => chain_ex end.

Lemma legacy_token_recorded_witness :
  ∃ w', task_deployLegacyToken (hre_ex None) "../scripts/base-files/deploymentArgsTemplate"
          "../scripts/generated" world_args = (Ok tt, w') ∧
    getDeploymentConstructorArgs expectedContract (Some "../scripts/generated") w' =
      (Ok [JAddr legacy_token], w').
Proof.
  destruct (legacy_token_recorded (hre_ex None) "../scripts/base-files/deploymentArgsTemplate"
    "../scripts/generated" args_text_ex args_toml_ex
    [(expectedContract, JArr [JObj [("legacyToken_", JStr "UNDEFINED")]])]
    [JObj [("legacyToken_", JStr "UNDEFINED")]] [] legacy_code legacy_token legacy_chain [] owner_ex
    (default EmptyString (toml_stringify (JObj (with_token args_toml_ex
      [(expectedContract, JArr [JObj [("legacyToken_", JStr "UNDEFINED")]])]
      [JObj [("legacyToken_", JStr "UNDEFINED")]] legacy_token)))) world_args)
    as (w' & Hrun & Hback & _).
  - vm_compute. reflexivity.
  - vm_compute. reflexivity.
  - reflexivity.
  - reflexivity.
  - constructor.
  - reflexivity.
  - vm_compute. reflexivity.
  - discriminate.
  - vm_compute. reflexivity.
  - reflexivity.
  - reflexivity.
  - vm_compute. reflexivity.
  - vm_compute. reflexivity.
  - intros l. exists 7. reflexivity.
  - vm_compute. reflexivity.
  - exists w'. exact (conj Hrun Hback).
Defined.
