(* ===== verification/Polling.v ===== *)
(** * Tasks that poll

    [create-local-seed-node], [start-local-seed-node] and [getGasCost] of
    [scripts/lib/alicenetTasks.ts].  The loops have no bound in the source:
    [fuel] bounds the rounds that are looked at, and the theorems hold for
    every number of rounds. *)

From S2P Require Import Prelude JsValue Constants Artifacts Fixtures Ethers Factory Instances World Scenario Provider Logic ValidatorTasks.
From stdpp Require Import options.
Local Open Scope Z_scope.

(** ** The seed node *)

Section SeedNode.
Context `{Ethers}.
(** The replies of the node's local server: status and data, or the
    exception of a request that fails or takes longer than two seconds. *)
Context (reply : nat → res (Z * jsval)).

Definition HEIGHT_URL : string := "http://0.0.0.0:8885/v1/get-block-number".

(** The [k]-th [axios.post]. *)
Definition post_height (k : nat) : M (Z * jsval) :=
  output (IHttp HEIGHT_URL (JObj [])) ;;; lift (reply k).

Fixpoint poll_height (fuel k : nat) : M jsval :=
  match fuel with
  | O => throw (LibError "fuel" "create-local-seed-node")
  | S fuel =>
      synced <- try_catch
        (response <- post_height k ;;
         if response.1 =? 200 then ret (Some response.2) else ret None)
        (λ err, output (IDelay 5000) ;;; ret None) ;;
      match synced with
      | Some alicenetHeight => ret alicenetHeight
      | None => poll_height fuel (S k)
      end
  end.

(** [v.toString()] *)
Definition to_string (v : jsval) : res string :=
  if is_nullish v then Throw (TypeError "Cannot read properties of undefined (reading 'toString')")
  else Ok (js_str v).

Definition task_createLocalSeedNode (fuel : nat) (configPath : string) : M string :=
  output (ISpawn "./alicenet" ["--config"; configPath; "validator"]) ;;;
  alicenetHeight <- poll_height fuel 0 ;;
  output (IKill 1) ;;;
  BlockHeight <- lift (js_get alicenetHeight "BlockHeight") ;;
  output (ILogValues [BlockHeight]) ;;;
  lift (to_string BlockHeight).

Definition task_startLocalSeedNode : M unit :=
  output (ISpawn "./alicenet" ["--config"; "./scripts/base-files/localTestNetBaseConfig.toml"; "validator"]).

(** *** Every round is one request, and a pause after a failure *)

Definition answers (k : nat) : Prop := ∃ v, reply k = Ok (200, v).

Global Instance answers_dec k : Decision (answers k).
Proof.
  unfold answers. destruct (reply k) as [[s v]|e]; [|right; naive_solver].
  destruct (decide (s = 200)) as [->|]; [left; by exists v|right; naive_solver].
Defined.

Definition poll_io (k : nat) : list io :=
  IHttp HEIGHT_URL (JObj []) ::
  match reply k with Ok _ => [] | Throw _ => [IDelay 5000] end.

Lemma poll_height_miss fuel k w :
  ¬ answers k → poll_height (S fuel) k w = poll_height fuel (S k) (traced w (poll_io k)).
Proof using Type.
  intros Hk. cbn [poll_height]. unfold mbind_js at 1, try_catch, post_height. rewrite mbind_assoc, mbind_output.
  unfold mbind_js, lift, poll_io. destruct (reply k) as [[s v]|e] eqn:E; [|by rewrite output_run, traced_app].
  cbn [fst snd]. destruct (Z.eqb_spec s 200) as [->|]; [|done].
  destruct Hk. by exists v.
Qed.

Lemma poll_height_hit fuel k v w :
  reply k = Ok (200, v) →
  poll_height (S fuel) k w = (Ok v, traced w [IHttp HEIGHT_URL (JObj [])]).
Proof using Type.
  intros Hk. cbn [poll_height]. unfold mbind_js at 1, try_catch, post_height. rewrite mbind_assoc, mbind_output.
  unfold mbind_js, lift. by rewrite Hk.
Qed.

Lemma poll_height_misses n : ∀ fuel k w,
  (∀ j, (k ≤ j < k + n)%nat → ¬ answers j) →
  poll_height (n + fuel) k w = poll_height fuel (k + n) (traced w (seq k n ≫= poll_io)).
Proof using Type.
  induction n as [|n IH]; intros fuel k w Hn.
  - by rewrite Nat.add_0_r, traced_nil.
  - change (S n + fuel)%nat with (S (n + fuel)). rewrite poll_height_miss by (apply Hn; lia).
    rewrite IH by (intros j Hj; apply Hn; lia). rewrite traced_app. by rewrite Nat.add_succ_r.
Qed.

Lemma seed_node_hit n v h fuel configPath w :
  (∀ j, (j < n)%nat → ¬ answers j) → reply n = Ok (200, v) →
  js_get v "BlockHeight" = Ok h → is_nullish h = false → (n < fuel)%nat →
  task_createLocalSeedNode fuel configPath w =
    (Ok (js_str h),
     traced w (ISpawn "./alicenet" ["--config"; configPath; "validator"] ::
               (seq 0 n ≫= poll_io) ++
               [IHttp HEIGHT_URL (JObj []); IKill 1; ILogValues [h]])).
Proof using Type.
  intros Hmiss Hn Hh Hdef Hf. unfold task_createLocalSeedNode. rewrite mbind_output.
  replace fuel with (n + S (fuel - S n))%nat by lia. unfold mbind_js at 1.
  rewrite poll_height_misses by (intros j Hj; apply Hmiss; lia).
  rewrite (poll_height_hit _ _ v) by done.
  rewrite mbind_output, (mbind_lift _ _ _ _ Hh), mbind_output. unfold lift, to_string. rewrite Hdef.
  rewrite !traced_app. by f_equal.
Qed.

Lemma seed_node_waits fuel configPath w :
  (∀ j, ¬ answers j) →
  ∃ l, task_createLocalSeedNode fuel configPath w =
    (Throw (LibError "fuel" "create-local-seed-node"), traced w l) ∧ IKill 1 ∉ l.
Proof using Type.
  intros Hno. unfold task_createLocalSeedNode. rewrite mbind_output. unfold mbind_js at 1.
  rewrite <-(Nat.add_0_r fuel), poll_height_misses by (intros j _; apply Hno). cbn [poll_height].
  rewrite traced_app. eexists. split; [reflexivity|]. cbn [app].
  rewrite not_elem_of_cons. split; [done|]. rewrite list_elem_of_bind.
  intros (k & Hin & _). unfold poll_io in Hin. destruct (reply k); set_solver.
Qed.
(** C32: [create-local-seed-node] comes to an end exactly when the node
    answers.  If the [n]-th request is the first one answered with status
    200, then with any fuel beyond [n] the task stops the node and returns
    the height of that answer, having asked [n + 1] times and paused five
    seconds after each failed request.  A node that never answers keeps the
    task polling for any number of rounds, and is never stopped. *)
Theorem seed_node_liveness configPath w :
  (∀ n v h fuel, (∀ j, (j < n)%nat → ¬ answers j) → reply n = Ok (200, v) →
    js_get v "BlockHeight" = Ok h → is_nullish h = false → (n < fuel)%nat →
    task_createLocalSeedNode fuel configPath w =
      (Ok (js_str h),
       traced w (ISpawn "./alicenet" ["--config"; configPath; "validator"] ::
                 (seq 0 n ≫= poll_io) ++
                 [IHttp HEIGHT_URL (JObj []); IKill 1; ILogValues [h]]))) ∧
  ((∀ j, ¬ answers j) → ∀ fuel, ∃ l, task_createLocalSeedNode fuel configPath w =
    (Throw (LibError "fuel" "create-local-seed-node"), traced w l) ∧ IKill 1 ∉ l).
Proof using Type.
  split; [intros; by eapply seed_node_hit|intros ? fuel; by apply seed_node_waits].
Qed.
End SeedNode.

(** ** The gas cost *)

Section GasCost.
Context (hre : Hre).
(** [provider.blockNumber]: the last block number the provider has heard of,
    after the requests of a trace. *)
Context (blockNumber : list io → Z).

Definition gas_line (blocknum : Z) : string :=
  "gas price @ blocknum " ++s pretty blocknum ++s ": " ++s pretty (hre_gasPrice hre).

(** One round of the loop: the new [lastBlock]. *)
Definition gas_round (lastBlock : Z) : M Z :=
  output (IRpc "eth_gasPrice") ;;;
  output (IDelay 7000) ;;;
  blocknum <- (λ w, (Ok (blockNumber (w_trace w)), w)) ;;
  (if lastBlock <? blocknum then console_log (gas_line blocknum) else ret tt) ;;;
  ret blocknum.

Fixpoint gas_rounds (n : nat) (lastBlock : Z) : M Z :=
  match n with
  | O => ret lastBlock
  | S n => lastBlock <- gas_round lastBlock ;; gas_rounds n lastBlock
  end.

(** The first [n] rounds of [getGasCost], which has no end. *)
Definition task_getGasCost (n : nat) : M Z := gas_rounds n 0.

Definition gas_io (lastBlock blocknum : Z) : list io :=
  [IRpc "eth_gasPrice"; IDelay 7000] ++ (if lastBlock <? blocknum then [ILog (gas_line blocknum)] else []).

Lemma gas_round_run last w :
  ∃ b, b = blockNumber (w_trace w ++ [IRpc "eth_gasPrice"; IDelay 7000]) ∧
    gas_round last w = (Ok b, traced w (gas_io last b)).
Proof using Type.
  eexists. split; [reflexivity|]. unfold gas_round. rewrite !mbind_output, traced_app.
  unfold mbind_js at 1. cbn [traced w_trace app]. unfold gas_io. case_match; [|done].
  unfold console_log. by rewrite mbind_output, traced_app.
Qed.

(** The lines a trace prints. *)
Definition printed (l : list io) : list string :=
  omap (λ i, match i with ILog s => Some s | _ => None end) l.

Lemma printed_app l1 l2 : printed (l1 ++ l2) = printed l1 ++ printed l2.
Proof using Type. apply omap_app. Qed.

(** [getGasCost] reports every block it sees, once.  With a provider
    whose block number never goes back, the numbers reported in the first
    [n] rounds increase strictly, the last number seen is the last one
    reported (or the one before the start), and there are seven seconds
    between two looks. *)
Theorem gas_cost_reports n last w :
  (∀ l1 l2, blockNumber l1 ≤ blockNumber (l1 ++ l2)) → last ≤ blockNumber (w_trace w) →
  ∃ bs l, gas_rounds n last w = (Ok (default last (list.last bs)), traced w l) ∧
    printed l = gas_line <$> bs ∧ StronglySorted Z.lt (last :: bs) ∧ delays l = replicate n 7000.
Proof using Type.
  intros Hmono. revert last w. induction n as [|n IH]; intros last w Hlast.
  - exists [], []. rewrite traced_nil. split_and!; [done|done| |done]. repeat constructor.
  - destruct (gas_round_run last w) as (b & Hb & Hrun). cbn [gas_rounds]. mstep Hrun.
    assert (last ≤ b) as Hle by (rewrite Hb; etrans; [exact Hlast|apply Hmono]).
    destruct (IH b (traced w (gas_io last b))) as (bs & l & -> & Hp & Hs & Hd).
    { cbn [traced w_trace]. unfold gas_io. rewrite (assoc_L (++)), Hb. apply Hmono. }
    rewrite traced_app. apply StronglySorted_inv in Hs as [Hs Hall].
    assert (delays (gas_io last b ++ l) = replicate (S n) 7000) as Hd'.
    { unfold delays in *. rewrite omap_app, Hd. unfold gas_io. by case_match. }
    destruct (Z.ltb_spec last b) as [Hlt|Hge].
    + exists (b :: bs), (gas_io last b ++ l). split_and!; [| | |done].
      * rewrite last_cons. by destruct (list.last bs).
      * rewrite printed_app, Hp. unfold gas_io. by rewrite (proj2 (Z.ltb_lt _ _)).
      * repeat constructor; try done. eapply Forall_impl; [exact Hall|]. simpl. lia.
    + assert (b = last) as -> by lia. exists bs, (gas_io last last ++ l). split_and!; [done| |by constructor|done].
      rewrite printed_app, Hp. unfold gas_io. by rewrite Z.ltb_irrefl.
Qed.
End GasCost.

(** ** Witnesses *)

#[local] Existing Instances ethers_model.

(** The third request is answered. *)
Definition reply_ex (k : nat) : res (Z * jsval) :=
  if decide (k < 2)%nat then Throw (LibError "axios" "ECONNREFUSED")
  else Ok (200, JObj [("BlockHeight", JNum 4242)]).

Lemma seed_node_liveness_witness :
  ∃ w', task_createLocalSeedNode reply_ex 10 "seed.toml" world_ex = (Ok "4242", w').
Proof.
  destruct (seed_node_liveness reply_ex "seed.toml" world_ex) as [Hhit _].
  eexists. apply (Hhit 2%nat (JObj [("BlockHeight", JNum 4242)]) (JNum 4242) 10%nat).
  - intros j Hj [v Hv]. unfold reply_ex in Hv. rewrite decide_True in Hv by done. discriminate Hv.
  - reflexivity.
  - reflexivity.
  - reflexivity.
  - lia.
Defined.

(** A new block every two requests. *)
Lemma gas_cost_reports_witness :
  ∃ bs l, gas_rounds (hre_ex None) (λ l, Z.of_nat (length l)) 3 0 world_ex
            = (Ok (default 0 (list.last bs)), traced world_ex l) ∧
    printed l = gas_line (hre_ex None) <$> bs.
Proof.
  destruct (gas_cost_reports (hre_ex None) (λ l, Z.of_nat (length l)) 3 0 world_ex)
    as (bs & l & Hrun & Hp & _).
  - intros l1 l2. rewrite length_app. lia.
  - simpl. lia.
  - exists bs, l. exact (conj Hrun Hp).
Defined.
