(* ===== verification/Traffic.v ===== *)
(** * Load on a test network

    The task [spamEthereum] of [scripts/lib/alicenetTasks.ts] and its helper
    [mintATokenTo]: an endless loop of random transactions.  The random
    numbers are the list of the rounds' types. *)

From S2P Require Import Prelude JsValue Constants Artifacts Fixtures Ethers Factory Instances World Scenario Provider Logic ValidatorTasks NodeTasks.
From stdpp Require Import options.
Local Open Scope Z_scope.

(** [notSoRandomNumBetweenRange(max, min)] for [Math.random() = p / q]. *)
Definition notSoRandomNumBetweenRange (max min p q : Z) : Z := (p * (max - min + 1)) / q + min.

(** The variables of the loop.  [txSet] holds responses that have been awaited
    already, so that [Promise.all] over them waits for nothing; only their
    number matters. *)
Record spam := { txSet : nat; txSent : Z; previousBlockNum : Z }.

Section Spam.
Context `{Ethers, Evm} (hre : Hre).
(** [signer.populateTransaction]: the gas of a transfer can be estimated. *)
Context (estimates : list io → address → address → Z → bool).

(** [accounts[i]] *)
Definition account (i : nat) : M address :=
  lift (of_option (TypeError "Cannot read properties of undefined") (hre_signers hre !! i)).

Definition getGasPrice : M Z := output (IRpc "eth_gasPrice") ;;; ret (hre_gasPrice hre).

Definition populateTransaction (from to : address) (value : Z) : M unit :=
  λ w, (if estimates (w_trace w) from to value then Ok tt
        else Throw (LibError "ethers" "UNPREDICTABLE_GAS_LIMIT"), w).

Definition defaultVal : Z := 100000000000000000000.

(** [accounts[i]] gets a hundred ether when it has less. *)
Definition fund_account (i : nat) : M unit :=
  a <- account i ;;
  bal <- getBalance hre (JAddr a) ;;
  if bal <? defaultVal then
    owner <- account 0 ;;
    populateTransaction owner a defaultVal ;;;
    send_value hre owner (JAddr a) defaultVal ;;;
    output (IWait None)
  else ret tt.

Definition gasBomb (fooToken : address) : M unit :=
  owner <- account 0 ;;
  deploy_tx owner "Minter" [JAddr fooToken]
    [("gasLimit", JBig 30000000); ("gasPrice", JBig (10000 * 10 ^ 9))] ;;;
  ret tt.

Definition deployContract : M unit :=
  gp <- getGasPrice ;;
  owner <- account 0 ;;
  nonce <- getTransactionCount owner ;;
  deploy_tx owner "ValidatorPool" [] [("nonce", JNum nonce); ("gasPrice", JBig gp)] ;;;
  ret tt.

(** One wei from one account to the other; a refused transaction is not
    among the results. *)
Definition send_wei (from to : nat) : M nat :=
  sender <- account from ;;
  receiver <- account to ;;
  getTransactionCount sender ;;;
  populateTransaction sender receiver 1 ;;;
  try_catch (send_value hre sender (JAddr receiver) 1 ;;; ret 1%nat) (λ _, ret 0%nat).

Definition sendEth : M nat :=
  getGasPrice ;;;
  n <- send_wei 2 1 ;;
  m <- send_wei 1 2 ;;
  ret (n + m)%nat.

(** [mintATokenTo(hre, factoryAddress, to, nonce)]: mints 1; the transaction
    is not waited for. *)
Definition mintATokenTo (factoryAddress : address) (to : address) (nonce : Z) : M Receipt :=
  getContractFactory "ATokenMinter" ;;;
  getContractAt ALICENET_FACTORY ;;;
  b <- format32 (Some "ATokenMinter") ;;
  aTokenMinterAddr <- factory_lookup factoryAddress b ;;
  calldata <- encode_call "ATokenMinter" "mint" [JAddr to; JNum 1] ;;
  with_nonce hre (Some nonce) (send hre factoryAddress (FCallAny aTokenMinterAddr 0 calldata) None).

Definition mintAToken (factoryAddress : address) : M unit :=
  to <- account 1 ;;
  owner <- account 0 ;;
  nonce <- getTransactionCount owner ;;
  mintATokenTo factoryAddress to nonce ;;;
  ret tt.

(** The transactions of a round that are kept, for the type drawn. *)
Definition spam_action (factoryAddress fooToken : address) (type_ : Z) : M nat :=
  try_catch
    (if type_ =? 0 then deployContract ;;; ret 0%nat
     else if type_ =? 1 then sendEth
     else if type_ =? 2 then mintAToken factoryAddress ;;; ret 1%nat
     else if type_ =? 3 then gasBomb fooToken ;;; ret 0%nat
     else ret 0%nat)
    (λ _, ret 0%nat).

(** One round of the loop. *)
Definition spam_round (factoryAddress fooToken : address) (s : spam) (type_ : Z) : M spam :=
  blocknum <- getBlockNumber hre ;;
  s <- (if previousBlockNum s <? blocknum
        then gasBomb fooToken ;;;
             ret {| txSet := txSet s; txSent := txSent s; previousBlockNum := blocknum |}
        else ret s) ;;
  if 15 <? txSent s
  then ret {| txSet := txSet s; txSent := 0; previousBlockNum := previousBlockNum s |}
  else
    let sent := txSent s + 1 in
    a1 <- account 1 ;;
    bal1 <- getBalance hre (JAddr a1) ;;
    a2 <- account 2 ;;
    bal2 <- getBalance hre (JAddr a2) ;;
    console_log ("tx type: " ++s pretty type_ ++s ", account1: " ++s pretty bal1 ++s
                 ", account2: " ++s pretty bal2) ;;;
    n <- spam_action factoryAddress fooToken type_ ;;
    ret {| txSet := (txSet s + n)%nat; txSent := sent; previousBlockNum := previousBlockNum s |}.

(** [spamEthereum], as many rounds as types are given. *)
Definition task_spamEthereum (factoryAddress : address) (types : list Z) : M spam :=
  getContractFactory "ValidatorPool" ;;;
  fund_account 2 ;;;
  fund_account 1 ;;;
  getContractFactory "FooToken" ;;;
  owner <- account 0 ;;
  fooToken <- deploy_tx owner "FooToken" [] [] ;;
  getContractFactory "Minter" ;;;
  getBlockNumber hre ;;;
  foldM (spam_round factoryAddress fooToken) types {| txSet := 0; txSent := 0; previousBlockNum := 0 |}.
End Spam.

(** ** The counters of the loop *)

Lemma random_range p q max min : 0 ≤ p < q → min ≤ max → min ≤ notSoRandomNumBetweenRange max min p q ≤ max.
Proof.
  intros Hp Hm. unfold notSoRandomNumBetweenRange.
  assert (0 ≤ p * (max - min + 1) / q) by (apply Z.div_pos; nia).
  assert (p * (max - min + 1) / q < max - min + 1); [|lia]. apply Z.div_lt_upper_bound; nia.
Qed.

Section SpamProofs.
Context `{Ethers, Evm} (hre : Hre) (estimates : list io → address → address → Z → bool).

Lemma send_wei_count from to w n w' : send_wei hre estimates from to w = (Ok n, w') → (n ≤ 1)%nat.
Proof using Type.
  unfold send_wei. intros (? & ? & _ & Hr)%mbind_inv. apply mbind_inv in Hr as (? & ? & _ & Hr).
  apply mbind_inv in Hr as (? & ? & _ & Hr). apply mbind_inv in Hr as (? & w1 & _ & Hr).
  unfold try_catch in Hr. destruct ((send_value _ _ _ _ ;;; ret 1%nat) w1) as [[m|e] w2] eqn:E;
    [injection Hr as -> ->|injection Hr as <- _; lia].
  apply mbind_inv in E as (? & ? & _ & E). by injection E as <- _.
Qed.

Lemma spam_action_count f foo t w :
  ∃ n w', spam_action hre estimates f foo t w = (Ok n, w') ∧ (n ≤ 2)%nat.
Proof using Type.
  unfold spam_action, try_catch.
  match goal with |- context [?m w] => destruct (m w) as [[n|e] w'] eqn:E end;
    [|eexists _, _; split; [reflexivity|lia]].
  exists n, w'. split; [done|]. repeat case_match.
  1,3,4: apply mbind_inv in E as (? & ? & _ & E); injection E as <- _; lia.
  - unfold sendEth in E. apply mbind_inv in E as (? & ? & _ & E).
    apply mbind_inv in E as (n1 & ? & E1%send_wei_count & E).
    apply mbind_inv in E as (n2 & ? & E2%send_wei_count & E). injection E as <- _. lia.
  - injection E as <- _. lia.
Qed.

(** One round: the counter of sent transactions runs from 0 to 16 and starts
    over, and at most two transactions are kept. *)
Lemma spam_round_counts f foo s t w s' w' :
  0 ≤ txSent s ≤ 16 → spam_round hre estimates f foo s t w = (Ok s', w') →
  txSent s' = (txSent s + 1) mod 17 ∧ (txSet s ≤ txSet s' ≤ txSet s + 2)%nat.
Proof using Type.
  intros Hs. unfold spam_round. intros (b & w1 & _ & Hr)%mbind_inv.
  apply mbind_inv in Hr as (s1 & w2 & E1 & Hr).
  assert (txSent s1 = txSent s ∧ txSet s1 = txSet s) as [Et En].
  { destruct (previousBlockNum s <? b); [apply mbind_inv in E1 as ([] & w3 & _ & E1)|]; injection E1 as <- _; done. }
  rewrite Et, En in Hr. destruct (Z.ltb_spec 15 (txSent s)) as [Hlt|Hge].
  - injection Hr as <- _. simpl. assert (txSent s = 16) as -> by lia. split; [done|lia].
  - apply mbind_inv in Hr as (? & ? & _ & Hr). apply mbind_inv in Hr as (? & ? & _ & Hr).
    apply mbind_inv in Hr as (? & ? & _ & Hr). apply mbind_inv in Hr as (? & ? & _ & Hr).
    apply mbind_inv in Hr as (? & w3 & _ & Hr). apply mbind_inv in Hr as (n & w4 & En' & Hr).
    destruct (spam_action_count f foo t w3) as (n' & w5 & E & Hn). rewrite E in En'. injection En' as -> ->.
    injection Hr as <- _. simpl. rewrite Z.mod_small by lia. lia.
Qed.

Lemma spam_rounds_counts f foo ts : ∀ s w s' w',
  0 ≤ txSent s ≤ 16 → foldM (spam_round hre estimates f foo) ts s w = (Ok s', w') →
  txSent s' = (txSent s + Z.of_nat (length ts)) mod 17 ∧
  (txSet s ≤ txSet s' ≤ txSet s + 2 * length ts)%nat.
Proof using Type.
  induction ts as [|t ts IH]; intros s w s' w' Hs Hr; cbn [foldM] in Hr.
  - injection Hr as <- _. simpl. rewrite Z.mod_small; lia.
  - apply mbind_inv in Hr as (s1 & w1 & E & Hr).
    apply spam_round_counts in E as [E1 E2]; [|done].
    apply IH in Hr as [E3 E4]; [|rewrite E1; pose proof (Z.mod_pos_bound (txSent s + 1) 17); lia].
    cbn [length]. split; [|lia]. rewrite E3, E1, Zplus_mod_idemp_l. f_equal. lia.
Qed.

(** What a round does after it has looked at the block number: its own
    transactions cannot end the loop. *)
Definition gas_bomb_of_round (foo : address) (s : spam) : M unit :=
  blocknum <- getBlockNumber hre ;;
  if previousBlockNum s <? blocknum then gasBomb hre foo else ret tt.

Lemma spam_round_split f foo s t w :
  is_Some (hre_signers hre !! 1%nat) → is_Some (hre_signers hre !! 2%nat) →
  (∀ l a, ∃ z, hre_balance hre l a = Ok z) →
  match gas_bomb_of_round foo s w with
  | (Ok _, _) => ∃ s' w', spam_round hre estimates f foo s t w = (Ok s', w')
  | (Throw e, w') => spam_round hre estimates f foo s t w = (Throw e, w')
  end.
Proof using Type.
  intros [a1 H1] [a2 H2] Hbal. unfold gas_bomb_of_round, spam_round.
  rewrite !(mbind_Ok _ _ _ _ _ (getBlockNumber_run hre w)). set (w1 := traced w _).
  set (b := hre_block hre _).
  assert (∀ s1 w1, ∃ s' w', (if 15 <? txSent s1
    then ret {| txSet := txSet s1; txSent := 0; previousBlockNum := previousBlockNum s1 |}
    else
      a1 <- account hre 1 ;;
      bal1 <- getBalance hre (JAddr a1) ;;
      a2 <- account hre 2 ;;
      bal2 <- getBalance hre (JAddr a2) ;;
      console_log ("tx type: " ++s pretty t ++s ", account1: " ++s pretty bal1 ++s
                   ", account2: " ++s pretty bal2) ;;;
      n <- spam_action hre estimates f foo t ;;
      ret {| txSet := (txSet s1 + n)%nat; txSent := txSent s1 + 1; previousBlockNum := previousBlockNum s1 |})
    w1 = (Ok s', w')) as Hrest.
  { intros s1 w2. case_match; [by eexists _, _|].
    unfold account. rewrite H1, H2. cbn [of_option]. rewrite mbind_lift_ok.
    unfold mbind_js at 1. unfold getBalance at 1. destruct (Hbal (w_trace w2) (JAddr a1)) as [z1 ->].
    rewrite mbind_lift_ok. unfold mbind_js at 1. unfold getBalance at 1.
    destruct (Hbal (w_trace w2) (JAddr a2)) as [z2 ->]. unfold console_log. rewrite mbind_output.
    match goal with |- ∃ _ _, mbind_js _ _ ?w3 = _ => destruct (spam_action_count f foo t w3) as (n & w' & E & _) end.
    mstep E. by eexists _, _. }
  cbv zeta in Hrest |- *. destruct (previousBlockNum s <? b).
  - rewrite mbind_assoc. destruct (gasBomb hre foo w1) as [[[]|e] w2] eqn:Eg.
    + rewrite (mbind_Ok _ _ _ _ _ Eg), mbind_ret. apply Hrest.
    + by rewrite (mbind_Throw _ _ _ _ _ Eg).
  - cbn [ret]. rewrite mbind_ret. apply Hrest.
Qed.

(** C40: the bookkeeping of [spamEthereum].  However the random types are
    drawn and whatever the network answers, when the loop has gone through
    [n] rounds the counter [txSent] is [n mod 17], and the list of responses
    is never emptied: it holds those of all rounds so far, at most two per
    round.  A round goes on when its own transactions are refused.  What ends
    the loop is the [Minter] it deploys whenever it sees a new block: that
    deployment is not inside a [try], so that its failure is the failure of
    the round and of the task. *)
Theorem spam_bookkeeping f ts w s w' :
  task_spamEthereum hre estimates f ts w = (Ok s, w') →
  txSent s = Z.of_nat (length ts) mod 17 ∧ (txSet s ≤ 2 * length ts)%nat ∧
  (∀ foo t s1 w1 w2, spam_round hre estimates f foo s t w1 = (Ok s1, w2) → (txSet s ≤ txSet s1)%nat) ∧
  (∀ foo t ts' s1 w1, is_Some (hre_signers hre !! 1%nat) → is_Some (hre_signers hre !! 2%nat) →
    (∀ l a, ∃ z, hre_balance hre l a = Ok z) →
    match gas_bomb_of_round foo s1 w1 with
    | (Ok _, _) => ∃ s2 w2, spam_round hre estimates f foo s1 t w1 = (Ok s2, w2)
    | (Throw e, w2) => foldM (spam_round hre estimates f foo) (t :: ts') s1 w1 = (Throw e, w2)
    end).
Proof using Type.
  unfold task_spamEthereum. intros Hr.
  do 8 (apply mbind_inv in Hr as (? & ? & _ & Hr)).
  apply spam_rounds_counts in Hr as [Ht Hn]; [|simpl; lia]. cbn [txSent txSet] in Ht, Hn. rewrite Z.add_0_l in Ht.
  split_and!; [done|lia| |].
  - intros foo t s1 w1 w2 E.
    assert (0 ≤ txSent s ≤ 16) as Hr by (rewrite Ht; pose proof (Z.mod_pos_bound (Z.of_nat (length ts)) 17); lia).
    apply (spam_round_counts _ _ _ _ _ _ _ Hr) in E. lia.
  - intros foo t ts' s1 w1 H1 H2 Hbal. pose proof (spam_round_split f foo s1 t w1 H1 H2 Hbal) as Hs.
    destruct (gas_bomb_of_round foo s1 w1) as [[u|e] w2]; [done|]. cbn [foldM]. by rewrite (mbind_Throw _ _ _ _ _ Hs).
Qed.
End SpamProofs.

(** ** Witness *)

#[local] Existing Instances ethers_model evm_ex.

(** Three accounts, and a network that refuses every transfer. *)
Definition hre_spam : Hre := {|
  hre_network := "dev"; hre_chainId := HARDHAT_CHAIN_ID;
  hre_gasPrice := 1000000000; hre_maxPriorityFee := 3000000000;
  hre_signers := [owner_ex; 11; 12]; hre_artifacts := art_ex;
  hre_env := λ _, None; hre_block := λ k, 100 + Z.of_nat k / 2; hre_sigGroup := λ _, None;
  hre_balance := λ _ _, Ok (200 * 10 ^ 18); hre_tokenBalance := λ _ _ _, Ok 7;
  hre_accepts := λ _ _ _ _, false; hre_verify := λ _, None |}.

Definition spam_ex : res spam * world :=
  task_spamEthereum hre_spam (λ _ _ _ _, true) factory_ex [0; 1; 2; 3] world_ex.
Definition spam_state : spam :=
  match spam_ex with (Ok s, _) => s | _ => {| txSet := 0; txSent := 0; previousBlockNum := 0 |} end.

Definition spam_start : spam := {| txSet := 0; txSent := 0; previousBlockNum := 0 |}.

(** The transfers of these four rounds are refused, the [Minter] of the new
    blocks is not. *)
Lemma spam_bookkeeping_witness :
  txSent spam_state = 4 ∧ (txSet spam_state ≤ 8)%nat ∧
  ∃ s2 w2, spam_round hre_spam (λ _ _ _ _, true) factory_ex 77 spam_start 1 world_ex = (Ok s2, w2).
Proof.
  destruct (spam_bookkeeping hre_spam (λ _ _ _ _, true) factory_ex [0; 1; 2; 3] world_ex spam_state
    spam_ex.2) as (Ht & Hn & _ & Hr).
  - vm_compute. reflexivity.
  - split; [exact Ht|]. split; [exact Hn|].
    specialize (Hr 77 1 [] spam_start world_ex (ex_intro _ 11 eq_refl) (ex_intro _ 12 eq_refl)
      (λ _ _, ex_intro _ _ eq_refl)).
    destruct (gas_bomb_of_round hre_spam 77 spam_start world_ex) as [[u|e] w2] eqn:E; [exact Hr|].
    vm_compute in E. discriminate E.
Defined.

(** On a network that refuses to deploy it, the first new block ends the loop. *)
Definition evm_refusing : Evm :=
  {| run_constructor _ _ _ := None; has_code := has_code; call_code := call_code;
     proxied_code := proxied_code; delegated_code := delegated_code;
     decode_call := decode_call; encode_upgrade := encode_upgrade; decode_upgrade := decode_upgrade;
     gas_used := gas_used; estimate_gas := estimate_gas; estimate_deploy_gas := estimate_deploy_gas;
     atoken_creation := atoken_creation |}.

Example bomb_ends_loop :
  (foldM (@spam_round ethers_model evm_refusing hre_spam (λ _ _ _ _, true) factory_ex 77)
     [1; 1; 1] spam_start world_ex).1 =
  Throw (LibError "ethers" "UNPREDICTABLE_GAS_LIMIT: execution reverted").
Proof. vm_compute. reflexivity. Qed.
