(* ===== verification/Bindings.v ===== *)
(** * Generated bindings

    [scripts/lib/gogogen.ts] writes the script that runs abigen on every ABI
    of a folder; [scripts/build/build.ts] writes [mapping.go], the names of
    the functions by selector, and [iface.go], the interfaces of the
    contracts.  The scripts run in the bridge's folder. *)

From S2P Require Import Prelude JsValue Numbers Json Constants Artifacts Fixtures Ethers Factory Instances World Scenario StateFile Provider Logic ValidatorTasks NodeTasks.
From stdpp Require Import options.
Local Open Scope Z_scope.

(** [s.replace(p, r)]: the first occurrence. *)
Fixpoint replace_first (p r s : string) : string :=
  match strip_prefix p s with
  | Some rest => r ++s rest
  | None => match s with EmptyString => EmptyString | String c s => String c (replace_first p r s) end
  end.

Definition endsWith (p s : string) : bool :=
  (String.length p <=? String.length s)%nat &&
  bool_decide (slice (String.length s - String.length p) s = p).

(** ** [go-go-gen] *)

Section GoGoGen.
Context (order : list string → list string).

(** [outpath[-1]] is undefined: a slash is added to every path but ["."]. *)
Definition go_outpath (out : string) : string :=
  if decide (out = ".") then EmptyString else out ++s "/".

Definition go_header (in_ out pkg : string) : string :=
  "#! /bin/bash" ++s nl ++s
  "# DO NOT EDIT THIS FILE! THIS FILE CONTAINS GENERATED CODE" ++s nl ++s
  "# CHANGES MADE TO THIS FILE WILL BE LOST" ++s nl ++s
  "#" ++s nl ++s
  "# npx hardhat go-go-gen --pkg " ++s pkg ++s " --in " ++s in_ ++s " --out " ++s out ++s " " ++s nl.

Definition abigen_line (in_ pkg outpath file : string) : string :=
  let source := replace_first ".json" EmptyString file in
  "abigen --abi " ++s in_ ++s "/" ++s source ++s ".json --pkg " ++s pkg ++s " --type " ++s source ++s
  " --out " ++s outpath ++s source ++s ".go" ++s nl.

Definition go_script (in_ out pkg : string) (files : list string) : string :=
  foldl (λ outputData file, outputData ++s abigen_line in_ pkg (go_outpath out) file)
        (go_header in_ out pkg) files.

(** The mode of the file is not part of the model. *)
Definition task_goGoGen (in_ out pkg : string) : M unit :=
  files <- readdirSync order in_ ;;
  ex <- existsSync pkg ;;
  (if ex : bool then ret tt else mkdirSync pkg) ;;;
  writeFileSync (pkg ++s "/generate.sh") (go_script in_ out pkg files).
End GoGoGen.

(** ** [build.ts] *)

Section Build.
Context `{Ethers} (order : list string → list string).
(** ethers's [keccak256] of the bytes of a text. *)
Context (keccak_text : string → string).
(** The outcome of a command. *)
Context (exec : string → option jserror).

Definition bindingsDir : string := "bindings".
Definition abiDir : string := bindingsDir ++s "/bindings-artifacts".

(** [path.basename(file, ".json")] of a name that ends in it. *)
Definition basename (file : string) : string :=
  if endsWith ".json" file then String.substring 0 (String.length file - 5) file else file.

Definition abi_files : M (list string) :=
  files <- readdirSync order abiDir ;; ret (filter (λ f, endsWith ".json" f = true) files).

(** [Buffer.from(s, "hex")]: up to the first pair that is not hexadecimal. *)
Fixpoint hex_bytes (s : string) : list Z :=
  match s with
  | String a (String b s) =>
      match digit_val a, digit_val b with
      | Some x, Some y => if (x <? 16) && (y <? 16) then x * 16 + y :: hex_bytes s else []
      | _, _ => []
      end
  | _ => []
  end.

(** The first four bytes of the hash. *)
Definition selector (canonical : string) : list Z :=
  hex_bytes (String.substring 0 8 (slice 2 (keccak_text canonical))).

(** [`${func.name}(${func.inputs.map((input) => input.type).join(",")})`] *)
Definition canonical (func : jsval) : res string :=
  name <~ js_get func "name" ;;
  inputs <~ js_get func "inputs" ;;
  types <~ match inputs with
           | JArr l => res_mapM (λ input, js_get input "type") l
           | JUndefined | JNull => Throw (TypeError "Cannot read properties of undefined (reading 'map')")
           | _ => Throw (TypeError "func.inputs.map is not a function")
           end ;;
  Ok (js_str name ++s "(" ++s js_str (JArr types) ++s ")").

Definition is_function (x : jsval) : res bool :=
  t <~ js_get x "type" ;; Ok (match t with JStr s => bool_decide (s = "function") | _ => false end).

Fixpoint functions_of (abi : list jsval) : res (list jsval) :=
  match abi with
  | [] => Ok []
  | x :: abi => b <~ is_function x ;; l <~ functions_of abi ;; Ok (if b : bool then x :: l else l)
  end.

(** The signatures of one ABI file. *)
Definition associations_of (contractName : string) (abi : jsval) : res (list (list Z * string)) :=
  match abi with
  | JArr l =>
      fs <~ functions_of l ;;
      res_mapM (λ func, c <~ canonical func ;; Ok (selector c, contractName ++s "." ++s c)) fs
  | _ => Throw (TypeError "abi.filter is not a function")
  end.

Fixpoint read_associations (files : list string) : M (list (list Z * string)) :=
  match files with
  | [] => ret []
  | fileName :: files =>
      contents <- readFileSync (abiDir ++s "/" ++s fileName) ;;
      abi <- lift (JSON_parse contents) ;;
      l <- lift (associations_of (basename fileName) abi) ;;
      rest <- read_associations files ;;
      ret (l ++ rest)
  end.

Definition tab : string := String (ascii_of_nat 9) EmptyString.

Definition mapping_entry (a : list Z * string) : string :=
  tab ++s "{" ++s join "," (pretty <$> a.1) ++s "}: " ++s dq ++s a.2 ++s dq.

Definition mapping_text (associations : list (list Z * string)) : string :=
  "// Generated by custom bridge script. DO NOT EDIT." ++s nl ++s nl ++s "package bindings" ++s nl ++s nl ++s
  "var FunctionMapping = map[[4]byte]string {" ++s nl ++s
  "    {0,0,0,0}: " ++s dq ++s "transfer()" ++s dq ++s "," ++s nl ++s
  "    {96,128,96,64}: " ++s dq ++s "deploy()" ++s dq ++s "," ++s nl ++s
  join ("," ++s nl) (mapping_entry <$> associations) ++s "}" ++s nl.

(** The folder of the ABI files exists, and so does its parent. *)
Definition generateMappingFile : M unit :=
  console_log "generating signature mapping..." ;;;
  files <- abi_files ;;
  associations <- read_associations files ;;
  writeFileSync (bindingsDir ++s "/mapping.go") (mapping_text associations).

Definition ifacemaker (contract kind letter : string) : string :=
  "ifacemaker -f " ++s contract ++s ".go -s " ++s contract ++s kind ++s " -o " ++s contract ++s ".iface." ++s
  letter ++s ".go -p bindings -i I" ++s contract ++s kind ++s " -c " ++s dq ++s
  "Generated by ifacemaker. DO NOT EDIT." ++s dq.

Definition iface_command (contract : string) : string :=
  join (" &&" ++s nl ++s "         ")
    [ifacemaker contract "Caller" "c"; ifacemaker contract "Transactor" "t";
     ifacemaker contract "Filterer" "f"].

Definition run_command (command : string) : M unit :=
  output (ISpawn command []) ;;;
  match exec command with None => ret tt | Some e => throw e end.

Definition iface_of (contract : string) : string :=
  "type I" ++s contract ++s " interface {" ++s nl ++s
  tab ++s "I" ++s contract ++s "Caller" ++s nl ++s
  tab ++s "I" ++s contract ++s "Transactor" ++s nl ++s
  tab ++s "I" ++s contract ++s "Filterer" ++s nl ++s "}".

Definition iface_text (contracts : list string) : string :=
  "// Generated by custom bridge script. DO NOT EDIT" ++s nl ++s nl ++s "package bindings" ++s nl ++s nl ++s
  join (nl ++s nl) (iface_of <$> contracts) ++s nl.

Definition generateIfaces : M unit :=
  files <- abi_files ;;
  let contracts := basename <$> files in
  forM contracts (λ contract,
    console_log ("generating " ++s contract ++s " interface...") ;;;
    run_command (iface_command contract)) ;;;
  writeFileSync (bindingsDir ++s "/iface.go") (iface_text contracts).

Definition build : M unit := generateMappingFile ;;; generateIfaces.
End Build.

(** ** Reading [mapping.go] back *)

Definition parse_entry (s : string) : option ((list Z * string) * string) :=
  s ← strip_prefix (tab ++s "{") s;
  let '(bytes, s) := break_at "}" s in
  key ← mapM (digits_go 10 None) (split_on ","%char bytes);
  s ← strip_prefix ("}: " ++s dq) s;
  let '(name, s) := break_at dq_char s in
  s ← strip_prefix dq s;
  Some ((key, name), s).

Fixpoint parse_entries (fuel : nat) (s : string) : option (list (list Z * string)) :=
  match fuel with
  | O => None
  | S fuel =>
      '(e, s) ← parse_entry s;
      match strip_prefix ("," ++s nl) s with
      | Some s => es ← parse_entries fuel s; Some (e :: es)
      | None => s ← strip_prefix ("}" ++s nl) s; if decide (s = EmptyString) then Some [e] else None
      end
  end.

(** The fixed lines before the entries. *)
Definition mapping_preamble : string :=
  "// Generated by custom bridge script. DO NOT EDIT." ++s nl ++s nl ++s "package bindings" ++s nl ++s nl ++s
  "var FunctionMapping = map[[4]byte]string {" ++s nl ++s
  "    {0,0,0,0}: " ++s dq ++s "transfer()" ++s dq ++s "," ++s nl ++s
  "    {96,128,96,64}: " ++s dq ++s "deploy()" ++s dq ++s "," ++s nl.

Definition parse_mapping (s : string) : option (list (list Z * string)) :=
  s ← strip_prefix mapping_preamble s;
  if decide (s = "}" ++s nl) then Some [] else parse_entries (String.length s) s.

(** Keys are lists of bytes and names contain no quotation mark. *)
Definition entry_ok (e : list Z * string) : Prop :=
  e.1 ≠ [] ∧ Forall (λ b, 0 ≤ b) e.1 ∧ string_elem dq_char e.2 = false.

Lemma pretty_clean c (n : Z) : 0 ≤ n → digit_val c = None → string_elem c (pretty n) = false.
Proof.
  intros Hn Hc. destruct (pretty_digits n Hn) as [Hd _]. revert Hd. generalize (pretty n) as s.
  induction s as [|d s IH]; [done|]. cbn [all_digits string_elem]. intros [Hd Hs]%andb_true_iff.
  rewrite IH by done. rewrite bool_decide_false; [done|]. intros ->. by rewrite Hc in Hd.
Qed.

Lemma mapping_entry_length e : (0 < String.length (mapping_entry e))%nat.
Proof. unfold mapping_entry. rewrite length_app_s. simpl. lia. Qed.

Lemma parse_entry_text e s : entry_ok e → parse_entry (mapping_entry e ++s s) = Some (e, s).
Proof.
  destruct e as [key name]. intros (Hne & Hk & Hn). cbn [fst snd] in *. unfold parse_entry, mapping_entry.
  cbn [fst snd].
  change (tab ++s "{" ++s ?x) with ((tab ++s "{") ++s x). rewrite !app_assoc_s.
  change (tab ++s "{" ++s ?x) with ((tab ++s "{") ++s x). rewrite strip_prefix_app. cbn [mbind option_bind].
  change ("}: " ++s ?x) with (String "}"%char (": " ++s x)).
  rewrite break_at_app.
  2:{ apply join_clean; [done|]. apply Forall_fmap. eapply Forall_impl; [exact Hk|]. intros n Hn'.
      by apply pretty_clean. }
  rewrite split_join.
  2:{ by destruct key. }
  2:{ apply Forall_fmap. eapply Forall_impl; [exact Hk|]. intros n Hn'. by apply pretty_clean. }
  assert (mapM (digits_go 10 None) (pretty <$> key) = Some key) as ->.
  { apply mapM_Some. clear Hne. induction Hk as [|n key Hn' _ IH]; [constructor|].
    rewrite fmap_cons. constructor; [by apply digits_go_dec|done]. }
  cbn [mbind option_bind].
  change (String "}"%char (": " ++s dq ++s ?x)) with (("}: " ++s dq) ++s x). rewrite strip_prefix_app.
  cbn [mbind option_bind]. change (dq ++s s) with (String dq_char s). rewrite break_at_app by done.
  change (String dq_char s) with (dq ++s s). by rewrite strip_prefix_app.
Qed.

Lemma parse_entries_text es : ∀ fuel, es ≠ [] → Forall entry_ok es → (length es ≤ fuel)%nat →
  parse_entries fuel (join ("," ++s nl) (mapping_entry <$> es) ++s "}" ++s nl) = Some es.
Proof.
  induction es as [|e es IH]; intros fuel Hne Hes Hf; [done|]. apply Forall_cons in Hes as [He Hes].
  destruct fuel as [|fuel]; [simpl in Hf; lia|]. cbn [parse_entries]. destruct es as [|e2 es].
  - change (join ("," ++s nl) (mapping_entry <$> [e])) with (mapping_entry e).
    rewrite parse_entry_text by done. done.
  - change (join ("," ++s nl) (mapping_entry <$> e :: e2 :: es))
      with (mapping_entry e ++s ("," ++s nl) ++s join ("," ++s nl) (mapping_entry <$> e2 :: es)).
    rewrite !app_assoc_s, parse_entry_text by done. cbn [mbind option_bind].
    change ("," ++s nl ++s ?x) with (("," ++s nl) ++s x). rewrite strip_prefix_app.
    rewrite IH; [done|done|done|simpl in *; lia].
Qed.

Lemma mapping_roundtrip es : Forall entry_ok es → parse_mapping (mapping_text es) = Some es.
Proof.
  intros Hes. unfold parse_mapping.
  assert (mapping_text es = mapping_preamble ++s join ("," ++s nl) (mapping_entry <$> es) ++s "}" ++s nl) as ->.
  { unfold mapping_text, mapping_preamble. by rewrite !app_assoc_s. }
  rewrite strip_prefix_app. cbn [mbind option_bind]. destruct es as [|e es]; [done|].
  rewrite decide_False.
  2:{ rewrite fmap_cons. unfold mapping_entry at 1. by destruct (mapping_entry <$> es). }
  apply parse_entries_text; [done|done|].
  rewrite length_app_s. etrans; [|apply Nat.le_add_r].
  clear Hes. generalize (e :: es) as l. induction l as [|x l IH]; [simpl; lia|]. destruct l as [|y l].
  - simpl. lia.
  - change (join ?sep (mapping_entry <$> x :: y :: l))
      with (mapping_entry x ++s sep ++s join sep (mapping_entry <$> y :: l)).
    rewrite !length_app_s. pose proof (mapping_entry_length x). cbn [length] in *. lia.
Qed.

(** ** The keys are selectors *)

Fixpoint all_hex (s : string) : bool :=
  match s with
  | EmptyString => true
  | String c s => match digit_val c with Some d => d <? 16 | None => false end && all_hex s
  end.

Lemma digit_val_nonneg c d : digit_val c = Some d → 0 ≤ d.
Proof. destruct c as [[][][][][][][][]]; vm_compute; intros [= <-]; done. Qed.

Lemma hex_bytes_pair a b s :
  all_hex (String a (String b s)) = true →
  ∃ x, hex_bytes (String a (String b s)) = x :: hex_bytes s ∧ 0 ≤ x < 256 ∧ all_hex s = true.
Proof.
  cbn [all_hex hex_bytes]. destruct (digit_val a) as [x|] eqn:Ha; [|done].
  destruct (digit_val b) as [y|] eqn:Hb; [|by rewrite andb_false_r].
  intros [Hx [Hy Hs]%andb_true_iff]%andb_true_iff. rewrite Hx, Hy. cbn [andb].
  apply Z.ltb_lt in Hx, Hy. apply digit_val_nonneg in Ha, Hb.
  exists (x * 16 + y). split_and!; [done|lia|lia|done].
Qed.

Section Mapping.
Context `{Ethers} (order : list string → list string) (keccak_text : string → string).

(** A digest is the text of 32 bytes. *)
Context (keccak_digest : ∀ s, ∃ h, keccak_text s = "0x" ++s h ∧ String.length h = 64%nat ∧ all_hex h = true).

Lemma selector_bytes s :
  length (selector keccak_text s) = 4%nat ∧ Forall (λ b, 0 ≤ b < 256) (selector keccak_text s).
Proof using keccak_digest.
  unfold selector. destruct (keccak_digest s) as (h & -> & Hl & Hh).
  change (slice 2 ("0x" ++s h)) with h.
  do 8 (destruct h as [|? h]; [discriminate Hl|]). clear Hl.
  cbn [String.substring]. cbn [all_hex] in Hh.
  repeat match type of Hh with _ && _ = true => apply andb_true_iff in Hh as [? Hh] end.
  assert (String.substring 0 0 h = EmptyString) as -> by by destruct h.
  do 4 (match goal with |- context [hex_bytes (String ?a (String ?b ?t))] =>
    let x := fresh "x" in let Hx := fresh "Hx" in let Ht := fresh "Ht" in
    destruct (hex_bytes_pair a b t) as (x & -> & Hx & Ht);
      [cbn [all_hex]; repeat (apply andb_true_iff; split); done|] end).
  change (hex_bytes EmptyString) with (@nil Z). split; [done|]. by rewrite !Forall_cons, Forall_nil.
Qed.

(** The functions of one ABI file. *)
Definition abi_file (w : world) (file : string) (l : list (list Z * string)) : Prop :=
  ∃ text abi, fs_read (w_fs w) (abiDir ++s "/" ++s file) = Ok text ∧ JSON_parse text = Ok abi ∧
    associations_of keccak_text (basename file) abi = Ok l.

Lemma read_associations_run w files ls :
  Forall2 (abi_file w) files ls →
  read_associations keccak_text files w = (Ok (concat ls), w).
Proof using Type.
  induction 1 as [|file l files ls (text & abi & Hr & Hj & Ha) _ IH]; [done|]. cbn [read_associations].
  assert (readFileSync (abiDir ++s "/" ++s file) w = (Ok text, w)) as E.
  { unfold readFileSync, get_fs, mbind_js, lift. by rewrite Hr. }
  mstep E. rewrite (mbind_lift _ _ _ _ Hj), (mbind_lift _ _ _ _ Ha). by mstep IH.
Qed.

Lemma associations_keys name abi l :
  associations_of keccak_text name abi = Ok l →
  Forall (λ e, length e.1 = 4%nat ∧ Forall (λ b, 0 ≤ b < 256) e.1) l.
Proof using keccak_digest.
  destruct abi; try done. cbn [associations_of]. intros (fs & _ & Hl)%res_bind_Ok_inv.
  apply res_mapM_Ok in Hl. induction Hl as [|f e fs es He _ IH]; constructor; [|done].
  apply res_bind_Ok_inv in He as (c & _ & [= <-]). apply selector_bytes.
Qed.

(** C33: [mapping.go] is a map from four bytes to names.  When every ABI file
    can be read and no name has a quotation mark, the file that is written
    reads back as exactly the functions of all the files, in order, and the
    key of each has the Go type [[4]byte]: four numbers below 256. *)
Theorem mapping_file w files ls :
  abi_files order w = (Ok files, w) → Forall2 (abi_file w) files ls →
  Forall (λ e, string_elem dq_char e.2 = false) (concat ls) →
  is_dir (w_fs w) ["bindings"] = true → is_dir (w_fs w) ["bindings"; "mapping.go"] = false →
  ∃ w' text, generateMappingFile order keccak_text w = (Ok tt, w') ∧
    fs_read (w_fs w') "bindings/mapping.go" = Ok text ∧
    parse_mapping text = Some (concat ls) ∧
    Forall (λ e, length e.1 = 4%nat ∧ Forall (λ b, 0 ≤ b < 256) e.1) (concat ls) ∧
    ∀ q, ¬ ["bindings"; "mapping.go"] `prefix_of` q → fs_lookup (w_fs w') q = fs_lookup (w_fs w) q.
Proof using keccak_digest.
  intros Hfiles Hls Hq Hd Hnd.
  assert (Forall (λ e : list Z * string, length e.1 = 4%nat ∧ Forall (λ b, 0 ≤ b < 256) e.1) (concat ls)) as Hkeys.
  { clear -Hls keccak_digest. induction Hls as [|file l files ls (text & abi & _ & _ & Ha) _ IH]; [constructor|].
    apply Forall_app. split; [by eapply associations_keys|done]. }
  assert (Forall entry_ok (concat ls)) as Hok.
  { apply Forall_and in Hkeys as [Hlen Hr]. clear -Hq Hlen Hr. induction (concat ls) as [|e l IH]; [constructor|].
    apply Forall_cons in Hq as [? ?], Hlen as [Hl ?], Hr as [Hr ?]. constructor; [|auto].
    split_and!; [by intros E; rewrite E in Hl|eapply Forall_impl; [exact Hr|simpl; lia]|done]. }
  set (text := mapping_text (concat ls)).
  assert (abi_files order (traced w [ILog "generating signature mapping..."]) =
          (Ok files, traced w [ILog "generating signature mapping..."])) as Hf1.
  { unfold abi_files, readdirSync, get_fs, mbind_js, ret, throw in *. cbn [traced w_fs].
    destruct (is_dir (w_fs w) (resolve abiDir)); [|done]. by injection Hfiles as <-. }
  unfold generateMappingFile, console_log. rewrite mbind_output. mstep Hf1.
  mstep (read_associations_run (traced w [ILog "generating signature mapping..."]) files ls Hls).
  fold text. unfold writeFileSync, get_fs, mbind_js, lift. cbn [traced w_fs].
  assert (fs_write (w_fs w) (bindingsDir ++s "/mapping.go") text =
          Ok (<[["bindings"; "mapping.go"] := File text]> (w_fs w))) as Hw by by apply fs_write_ok.
  rewrite Hw. eexists _, text. split; [reflexivity|]. split_and!; [|by apply mapping_roundtrip|done|].
  - by apply (fs_read_write (w_fs w)).
  - intros q Hq'. by apply fs_insert_beside.
Qed.
End Mapping.

(** ** Witness *)

#[local] Existing Instances ethers_model.

Definition abi_ex : jsval :=
  JArr [JObj [("type", JStr "event"); ("name", JStr "DeployedRaw")];
        JObj [("type", JStr "function"); ("name", JStr "lookup");
              ("inputs", JArr [JObj [("type", JStr "bytes32")]])];
        JObj [("type", JStr "function"); ("name", JStr "owner"); ("inputs", JArr [])]].
Definition abi_text : string :=
  match JSON_stringify addr_text EmptyString abi_ex with Ok (Some s) => s | _ => EmptyString end.

(** A digest that is the same for every text. *)
Definition keccak_ex (s : string) : string :=
  "0x13af4035" ++s String.concat EmptyString (replicate 56 "0").

Definition world_abi : world :=
  {| w_fs := <[["bindings"; "bindings-artifacts"; "AliceNetFactory.json"] := File abi_text]>
             (<[["bindings"; "bindings-artifacts"] := Dir]> (<[["bindings"] := Dir]> ∅));
     w_chain := chain_ex; w_trace := [] |}.

Definition mapping_ex : list (list Z * string) :=
  [([19; 175; 64; 53], "AliceNetFactory.lookup(bytes32)"); ([19; 175; 64; 53], "AliceNetFactory.owner()")].

Lemma mapping_file_witness :
  ∃ w' text, generateMappingFile id keccak_ex world_abi = (Ok tt, w') ∧
    fs_read (w_fs w') "bindings/mapping.go" = Ok text ∧ parse_mapping text = Some mapping_ex.
Proof.
  destruct (mapping_file id keccak_ex) with world_abi ["AliceNetFactory.json"] [mapping_ex]
    as (w' & text & Hrun & Hr & Hp & _).
  - intros s. exists ("13af4035" ++s String.concat EmptyString (replicate 56 "0")).
    split_and!; [reflexivity|vm_compute; reflexivity|vm_compute; reflexivity].
  - vm_compute. reflexivity.
  - constructor; [|constructor]. exists abi_text, abi_ex.
    split_and!; [vm_compute; reflexivity|vm_compute; reflexivity|vm_compute; reflexivity].
  - repeat constructor.
  - vm_compute. reflexivity.
  - vm_compute. reflexivity.
  - exists w', text. exact (conj Hrun (conj Hr Hp)).
Defined.
