(* ===== verification/Scripts.v ===== *)
(** * The stand-alone scripts

    [generateDeployList.ts], [generateDeploymentArgTemplate.ts],
    [getInitCallData.ts] and [deployAllContracts.ts]: their [main] functions
    on top of the libraries. *)

From S2P Require Import Prelude JsValue Constants Artifacts Fixtures DeployList Ethers Factory Instances World Scenario StateFile DeployArgs Provider FactoryTasks.
From stdpp Require Import options.
Local Open Scope Z_scope.

Section Scripts.
Context `{Ethers, Evm, Toml} (hre : Hre).
Local Notation art := (hre_artifacts hre).

(** [generateDeployList.ts] *)
Definition main_generateDeployList : M unit :=
  list <- sorted_list hre (getAllContracts art) ;;
  writeDeploymentList list None.

(** [generateDeploymentArgTemplate.ts]: the same steps as
    [generateDeployArgTemplate] on the contracts of the list file. *)
Definition arg_template_step (t : DeploymentArgs) (contract : jsval) : M DeploymentArgs :=
  contract <- as_name contract ;;
  cArgs <- lift (getConstructorArgsABI art contract) ;;
  iArgs <- lift (getInitializerArgsABI art contract) ;;
  ret {| da_constructor := add_args (da_constructor t) contract cArgs;
         da_initializer := add_args (da_initializer t) contract iArgs |}.

Definition main_generateDeploymentArgTemplate : M unit :=
  contracts <- getDeploymentList None ;;
  deploymentArgs <- foldM arg_template_step (list_items contracts)
                          {| da_constructor := []; da_initializer := [] |} ;;
  writeDeploymentArgs deploymentArgs None.

(** [getInitCallData.ts] *)
Definition main_getInitCallData : M unit :=
  getContractFactory "BToken" ;;;
  initCallData <- encode_call "BToken" "initialize" [] ;;
  console_log initCallData.

(** [deployAllContracts.ts]: [STATIC_DEPLOYMENT] is not a member of
    [constants.ts], so the first case is the contracts without a deploy type;
    both cases pass the library's arguments in another order, and a value
    that is not the artifact store is asked for build info. *)
Definition deploy_case (contract : jsval) : M unit :=
  fullyQualifiedName <- as_name contract ;;
  deployType <- lift (getDeployType art fullyQualifiedName) ;;
  if decide (deployType = None ∨ deployType = Some UPGRADEABLE_DEPLOYMENT)
  then throw (TypeError "artifacts.getBuildInfo is not a function")
  else ret tt.

Definition main_deployAllContracts : M unit :=
  task_deployFactory hre None None None ;;;
  contracts <- getDeploymentList None ;;
  forM (list_items contracts) deploy_case.

(** ** The script and the library build the same template *)

Lemma arg_template_agrees l : ∀ t w,
  foldM arg_template_step (JStr <$> l) t w =
  (res_foldl (template_step art) l t, w).
Proof using Type.
  induction l as [|c l IH]; intros t w; [done|]. cbn [fmap list_fmap foldM res_foldl].
  unfold mbind_js at 1. unfold arg_template_step at 1. cbn [as_name]. rewrite mbind_ret.
  unfold template_step at 1. unfold mbind_js, lift.
  destruct (getConstructorArgsABI art c) as [ca|]; [|done]. cbn [rbind].
  destruct (getInitializerArgsABI art c) as [ia|]; [|done]. cbn [rbind]. apply IH.
Qed.

Lemma template_script_agrees l w :
  getDeploymentList None w = (Ok (JArr (JStr <$> l)), w) →
  main_generateDeploymentArgTemplate w =
  (t <- lift (generateDeployArgTemplate art l) ;; writeDeploymentArgs t None) w.
Proof using Type.
  intros Hl. unfold main_generateDeploymentArgTemplate. mstep Hl. unfold mbind_js. cbn [list_items].
  by rewrite arg_template_agrees.
Qed.
End Scripts.
