(* ===== verification/GasSum.v ===== *)
(** * The gas spent by a deployment

    [sumGasInFactoryState.ts] adds up the gas of the entries of a JSON state
    and prints the sum.  The [+=] of the source is JavaScript's: it adds
    numbers, makes [NaN] of [undefined] and switches to text at the first
    string or object. *)

From S2P Require Import Prelude JsValue Json Ethers Factory Instances World Scenario Provider.
From stdpp Require Import options.
Local Open Scope Z_scope.

Section GasSum.
Context `{Ethers}.

(** The variable [gas]: a number, [None] being NaN, or a text. *)
Inductive total :=
  | GNum (n : option Z)
  | GStr (s : string).

Definition num_text (n : option Z) : string :=
  match n with Some z => pretty z | None => "NaN" end.

Definition total_text (g : total) : string :=
  match g with GNum n => num_text n | GStr s => s end.

(** [gas += v].  Numbers are exact, as the language's are up to 2^53. *)
Definition plus (g : total) (v : jsval) : total :=
  match g with
  | GStr s => GStr (s ++s js_str v)
  | GNum n =>
      match v with
      | JNum z | JBig z => GNum ((λ m, m + z) <$> n)
      | JNull => GNum n
      | JBool b => GNum ((λ m, m + if b then 1 else 0) <$> n)
      | JUndefined => GNum None
      | _ => GStr (num_text n ++s js_str v)
      end
  end.

(** What [for ... of] goes through; the characters of a text one by one. *)
Definition items (name : string) (v : jsval) : res (list jsval) :=
  match v with
  | JArr l => Ok l
  | JStr s => Ok ((λ c, JStr (String c EmptyString)) <$> String.list_ascii_of_string s)
  | _ => Throw (TypeError (name ++s " is not iterable"))
  end.

(** The body of the loops. *)
Definition add_contract_gas (gas : total) (contract : jsval) : res total :=
  g <~ js_get contract "gas" ;; Ok (plus gas g).

Definition sum_list (State : jsval) (name : string) (gas : total) : res total :=
  l <~ js_get State name ;;
  l <~ items ("State." ++s name) l ;;
  res_foldl add_contract_gas l gas.

Definition STATE_FILE : string := "./deployments/testnet/factoryState.json".

Definition sum_gas (State : jsval) : res total :=
  defaultFactory <~ js_get State "defaultFactoryData" ;;
  g <~ js_get defaultFactory "gas" ;;
  let gas := if is_undefined g then GNum (Some 0) else plus (GNum (Some 0)) g in
  gas <~ sum_list State "templates" gas ;;
  gas <~ sum_list State "staticContracts" gas ;;
  gas <~ sum_list State "deployCreates" gas ;;
  sum_list State "proxies" gas.

Definition main_sumGas : M unit :=
  rawData <- readFileSync STATE_FILE ;;
  State <- lift (JSON_parse rawData) ;;
  gas <- lift (sum_gas State) ;;
  console_log (total_text gas).

(** The script: a failure of [main] is printed and thrown as another. *)
Definition script_sumGas : M unit :=
  try_catch main_sumGas
    (λ error, console_error (error_text error) ;;; throw (Error "unexpected error")).

(** ** What it prints *)

(** An entry of the state and its gas: a number, or nothing. *)
Definition entry_gas (v : jsval) (g : option Z) : Prop :=
  ∃ o, v = JObj o ∧ obj_get o "gas" = JNum <$> g.

(** The sum, when every entry has its gas. *)
Definition sum_all (gs : list (option Z)) : option Z := foldr (λ g s, x ← g; y ← s; Some (x + y)) (Some 0) gs.

Lemma fold_entries l gs : Forall2 entry_gas l gs → ∀ n,
  res_foldl add_contract_gas l (GNum n) =
  Ok (GNum (x ← n; y ← sum_all gs; Some (x + y))).
Proof using Type.
  induction 1 as [|v g l gs (o & -> & Hg) _ IH]; intros n; cbn [res_foldl].
  { destruct n; simpl; [by rewrite Z.add_0_r|done]. }
  assert (add_contract_gas (GNum n) (JObj o) = Ok (GNum (x ← n; y ← g; Some (x + y)))) as ->.
  { unfold add_contract_gas, js_get. rewrite Hg. destruct n, g; done. }
  cbn [rbind]. rewrite IH. simpl. destruct n, g; simpl; try done. destruct (sum_all gs); simpl; [by rewrite Z.add_assoc|done].
Qed.

Lemma sum_list_entries State name l gs n :
  js_get State name = Ok (JArr l) → Forall2 entry_gas l gs →
  sum_list State name (GNum n) = Ok (GNum (x ← n; y ← sum_all gs; Some (x + y))).
Proof using Type.
  intros Hl Hgs. unfold sum_list. rewrite Hl. cbn [rbind items]. by apply fold_entries.
Qed.

Lemma sum_all_app gs1 gs2 : sum_all (gs1 ++ gs2) = (x ← sum_all gs1; y ← sum_all gs2; Some (x + y)).
Proof using Type.
  induction gs1 as [|g gs1 IH]; simpl; [by destruct (sum_all gs2)|]. rewrite IH.
  destruct g, (sum_all gs1), (sum_all gs2); simpl; try done. by rewrite Z.add_assoc.
Qed.

(** The four loops, one after the other. *)
Definition LISTS : list string := ["templates"; "staticContracts"; "deployCreates"; "proxies"].

Lemma sum_gas_lists State fo fg :
  js_get State "defaultFactoryData" = Ok (JObj fo) → obj_get fo "gas" = JNum <$> fg →
  sum_gas State = res_foldl (λ g name, sum_list State name g) LISTS (GNum (Some (default 0 fg))).
Proof using Type.
  intros Hf Hg. unfold sum_gas. rewrite Hf. cbn [rbind]. unfold js_get at 1. rewrite Hg.
  destruct fg; cbn; repeat (destruct (sum_list State _ _); [|done]; cbn [rbind]); done.
Qed.

Definition listed (State : jsval) (name : string) (gs : list (option Z)) : Prop :=
  ∃ l, js_get State name = Ok (JArr l) ∧ Forall2 entry_gas l gs.

Lemma sum_lists State names gs rest : Forall2 (listed State) names gs → ∀ n,
  res_foldl (λ g name, sum_list State name g) (names ++ rest) (GNum n) =
  res_foldl (λ g name, sum_list State name g) rest
    (GNum (x ← n; y ← sum_all (concat gs); Some (x + y))).
Proof using Type.
  induction 1 as [|name g names gs (l & Hl & Hg) _ IH]; intros n; cbn [concat sum_all foldr app].
  { destruct n; simpl; [by rewrite Z.add_0_r|done]. }
  cbn [res_foldl]. rewrite (sum_list_entries _ _ _ _ _ Hl Hg). cbn [rbind]. rewrite IH. do 2 f_equal.
  change (foldr _ (Some 0) ?l) with (sum_all l). rewrite sum_all_app.
  destruct n, (sum_all g), (sum_all (concat gs)); simpl; try done. by rewrite Z.add_assoc.
Qed.

(** A run of the script from what [main] does. *)
Lemma script_ok w text State g : fs_read (w_fs w) STATE_FILE = Ok text → JSON_parse text = Ok State →
  sum_gas State = Ok g → script_sumGas w = (Ok tt, traced w [ILog (total_text g)]).
Proof using Type.
  intros Hr Hp Hs. unfold script_sumGas, try_catch, main_sumGas. mstep (readFileSync_run _ _ _ Hr).
  rewrite (mbind_lift _ _ _ _ Hp), (mbind_lift _ _ _ _ Hs). done.
Qed.

Lemma script_throws w e : main_sumGas w = (Throw e, w) →
  script_sumGas w = (Throw (Error "unexpected error"), traced w [IErr (error_text e)]).
Proof using Type. intros Hm. unfold script_sumGas, try_catch. by rewrite Hm. Qed.

(** C39: [sumGasInFactoryState.ts], on every state whose lists hold entries
    with a number as gas, or none.  It prints one line: the sum of the gas of
    the factory, if it has one, and of the entries of all four lists; [NaN]
    as soon as one entry has no gas.  Without the file, or when one of the
    lists is missing, it fails with that error on the console and prints no
    sum.  It writes nothing and sends nothing. *)
Theorem gas_sum_outcome w :
  (∀ e, fs_read (w_fs w) STATE_FILE = Throw e →
     script_sumGas w = (Throw (Error "unexpected error"), traced w [IErr (error_text e)])) ∧
  ∀ text State fo fg, fs_read (w_fs w) STATE_FILE = Ok text → JSON_parse text = Ok State →
    js_get State "defaultFactoryData" = Ok (JObj fo) → obj_get fo "gas" = JNum <$> fg →
    (∀ gs, Forall2 (listed State) LISTS gs → script_sumGas w =
       (Ok tt, traced w [ILog (num_text (sum_all (Some (default 0 fg) :: concat gs)))])) ∧
    (∀ before name after gs, LISTS = before ++ name :: after → Forall2 (listed State) before gs →
       js_get State name = Ok JUndefined → script_sumGas w =
       (Throw (Error "unexpected error"),
        traced w [IErr ("TypeError: State." ++s name ++s " is not iterable")])).
Proof using Type.
  split; [|intros text State fo fg Hr Hp Hf Hg; split].
  - intros e He. apply script_throws. unfold main_sumGas, mbind_js, readFileSync, mbind_js, get_fs, lift. by rewrite He.
  - intros gs Hgs. refine (script_ok _ _ _ (GNum _) Hr Hp _). rewrite (sum_gas_lists _ _ _ Hf Hg).
    rewrite <-(app_nil_r LISTS), (sum_lists _ _ _ _ Hgs). done.
  - intros before name after gs Hl Hgs Hn.
    refine (script_throws w (TypeError ("State." ++s name ++s " is not iterable")) _). unfold main_sumGas.
    mstep (readFileSync_run _ _ _ Hr). rewrite (mbind_lift _ _ _ _ Hp).
    unfold mbind_js, lift. rewrite (sum_gas_lists _ _ _ Hf Hg), Hl, (sum_lists _ _ _ _ Hgs).
    cbn [res_foldl]. unfold sum_list at 1. by rewrite Hn.
Qed.
End GasSum.

(** ** Witness *)

#[local] Existing Instances ethers_model ethers_model_laws.

Definition entry_ex (g : Z) : jsval := JObj [("name", JStr "c"); ("gas", JNum g)].
Definition state_ex : jsval :=
  JObj [("defaultFactoryData", JObj [("gas", JNum 5)]); ("templates", JArr []);
        ("staticContracts", JArr [entry_ex 10]); ("deployCreates", JArr [entry_ex 20; entry_ex 30]);
        ("proxies", JArr [entry_ex 100])].
Definition state_text : string :=
  match JSON_stringify addr_text "  " state_ex with Ok (Some s) => s | _ => EmptyString end.
Definition world_state : world :=
  {| w_fs := <[resolve STATE_FILE := File state_text]> ∅; w_chain := chain0; w_trace := [] |}.

Example sum_of_text_first :
  sum_gas (JObj [("defaultFactoryData", JObj [("gas", JStr "7")]); ("templates", JArr []);
    ("staticContracts", JArr [entry_ex 10]); ("deployCreates", JArr []); ("proxies", JArr [entry_ex 2])])
  = Ok (GStr "07102").
Proof. reflexivity. Qed.

Lemma gas_sum_outcome_witness :
  script_sumGas world_state = (Ok tt, traced world_state [ILog "165"]) ∧
  ∃ msg, script_sumGas world_ex = (Throw (Error "unexpected error"), traced world_ex [IErr msg]).
Proof.
  split.
  - refine (proj1 (proj2 (gas_sum_outcome world_state) state_text state_ex [("gas", JNum 5)] (Some 5) _ _ _ _)
      [[]; [Some 10]; [Some 20; Some 30]; [Some 100]] _); [vm_compute; reflexivity..|].
    repeat (constructor; [eexists; split; [reflexivity|repeat constructor; eexists; split; reflexivity]|]).
    constructor.
  - eexists. refine (proj1 (gas_sum_outcome world_ex) _ _). vm_compute. reflexivity.
Defined.
