(* ===== verification/Config.v ===== *)
(** * The hardhat configuration

    [hardhat.config.ts]: the accounts and networks the tasks run with, the
    two tasks defined there, and the settings of compiler and plugins. *)

From Stdlib Require Import QArith.
From S2P Require Import Prelude JsValue Constants Artifacts Ethers Factory World Bindings.
From stdpp Require Import options.
Local Open Scope Z_scope.

(** ** Named accounts *)

Definition namedAccounts : list (string * nat) :=
  [("admin", 0); ("validator0", 1); ("validator1", 2); ("validator2", 3); ("validator3", 4);
   ("validator4", 0); ("validator5", 5); ("validator6", 6); ("validator7", 7); ("validator8", 8);
   ("validator9", 9); ("validator10", 10); ("user", 11)]%nat.

(** ** Networks *)

Record network_config := {
  n_url : option string;
  n_chainId : option Z;
  n_gas : option string;
  n_gasPrice : option string;
  n_gasMultiplier : option Z;
  n_accounts : list string }.

Definition ZERO_KEY : string := "0x0000000000000000000000000000000000000000000000000000000000000000".

(** The accounts of the local node: key and balance in wei. *)
Definition hardhat_accounts : list (string * string) :=
  [("0x6aea45ee1273170fb525da34015e4f20ba39fe792f486ba74020bcacc9badfc1", "1500000000000000000000000000000");
   ("0x8de84c4eb40a9d32804ebc4005075eed5d64efc92ba26b6ec04d399f5a9b7bd1", "10000000000000000000000");
   ("0x65a81057728efda8858d5d53094a093203d35cb7437d16f7635594788517bdd2", "10000000000000000000000");
   ("0xd599743b90304946278b39c8d51b240c0bde4c6603fe47b2b6b131509feca7fc", "10000000000000000000000");
   ("0xa7b4595b0697fcae35046b6d532d17d2f134c9c5e9a5d202ae4b7c83fa85399e", "10000000000000000000000");
   ("0x7253354503676cad1165425f4a528369991ca6931afe88d3e82c2edfdbef64f7", "10000000000000000000000");
   ("0x32a7f91d96f1f2f9926e0e4ec3d6af78b54d679509853125a7d0259be438b41a", "10000000000000000000000");
   ("0x99e883ac5e9135559842aac297319914fb89efc066975b69bffe82697d10fd9b", "10000000000000000000000");
   ("0xbc676d5eb82c6356ac53d46124fa01755cb6268b6a5ad51a648d69f9411c3257", "10000000000000000000000");
   ("0x009ab9b374ada80e33c4efcf5a16ed4235b327d5319532ff8cf39024e36cf9b9", "10000000000000000000000");
   ("0x264d19b082060f127bdcf6bdee7db0244c4b5a762f686d0fc865bb6e64b3e743", "10000000000000000000000");
   ("0xc62fd5e127b007a90478de7259b20b0281d20e8c8aa713bdbf819337cf8712df", "10000000000000000000000");
   ("0xff030000000000000000000000000000000000000000000000000000000000ff", "10000000000000000000000")].

Section Networks.
(** [process.env] *)
Context (env : string → option string).

(** A network behind an endpoint and a key of the environment. *)
Definition remote (url key : string) : network_config :=
  {| n_url := Some url; n_chainId := None; n_gas := Some "auto"; n_gasPrice := Some "auto";
     n_gasMultiplier := Some 2; n_accounts := [nonempty_or ZERO_KEY (env key)] |}.

Definition networks : list (string * network_config) :=
  [("dev", {| n_url := Some "http://127.0.0.1:8545"; n_chainId := None; n_gas := Some "auto";
              n_gasPrice := Some "auto"; n_gasMultiplier := Some 2;
              n_accounts := take 3 hardhat_accounts.*1 |});
   ("ropsten", remote "https://testnet.eth.mnexplore.com/" "TESTNET_PK");
   ("goerli", remote (nonempty_or "http://127.0.0.1:8545" (env "GOERLI_ENDPOINT")) "GOERLI_PK");
   ("mainnet", remote (nonempty_or "http://127.0.0.1:8545" (env "MAINNET_ENDPOINT")) "MAINNET_PK");
   ("production", {| n_url := Some "https://eth.alice.net/"; n_chainId := None; n_gas := Some "15000000";
                     n_gasPrice := Some "auto"; n_gasMultiplier := Some 2;
                     n_accounts := [nonempty_or ZERO_KEY (env "PROD_PK")] |});
   ("ganache", {| n_url := Some "http://127.0.0.1:8545"; n_chainId := None; n_gas := None;
                  n_gasPrice := None; n_gasMultiplier := None; n_accounts := [] |});
   ("hardhat", {| n_url := None; n_chainId := Some HARDHAT_CHAIN_ID; n_gas := None; n_gasPrice := None;
                  n_gasMultiplier := None; n_accounts := hardhat_accounts.*1 |})].
End Networks.

(** [accounts]: prints the addresses of the signers. *)
Definition task_accounts `{Ethers} (hre : Hre) : M unit :=
  forM (hre_signers hre) (λ account, console_log (addr_text account)).

(** [storage-check]: the plugin's [export]. *)
Definition task_storageCheck (storageLayout_export : M unit) : M unit := storageLayout_export.

(** ** Compiler and plugins *)

Definition etherscan (env : string → option string) : jsval :=
  JObj [("apiKey", match env "ETHERSCAN_API_KEY" with Some k => JStr k | None => JUndefined end)].

Definition compiler_settings : jsval :=
  JObj [("outputSelection",
         JObj [("*", JObj [("*", JArr (JStr <$> ["metadata"; "evm.bytecode"; "evm.bytecode.sourceMap"; "storageLayout"]));
                           (EmptyString, JArr [JStr "ast"])]);
               ("def", JObj [("MyContract", JArr (JStr <$> ["abi"; "evm.bytecode.opcodes"]))])]);
        ("metadata", JObj [("useLiteralContent", JBool true)]);
        ("optimizer", JObj [("enabled", JBool true); ("runs", JNum 20000)])].

Definition solidity : jsval :=
  JObj [("compilers", JArr [JObj [("version", JStr "0.8.16"); ("settings", compiler_settings)]])].

Definition paths : jsval :=
  JObj [("sources", JStr "./contracts"); ("tests", JStr "./test"); ("cache", JStr "./cache");
        ("artifacts", JStr "./artifacts")].

Definition contractSizer : jsval :=
  JObj [("alphaSort", JBool true); ("disambiguatePaths", JBool false); ("runOnCompile", JBool true);
        ("strict", JBool false)].

Definition gasReporter : jsval :=
  JObj [("currency", JStr "ETH"); ("gasPrice", JNum 1000000); ("excludeContracts", JArr [JStr "*.t.sol"])].

(** [mocha.jobs] on a machine with that many processors: a fraction when the
    number is odd. *)
Definition mocha_timeout : Z := 240000.
Definition mocha_jobs (cpus : Z) : Q :=
  if Qlt_le_dec 1 (inject_Z cpus / 2) then inject_Z cpus / 2 else 1.

Record abi_exporter := {
  x_path : string; x_runOnCompile : bool; x_clear : bool; x_flat : bool;
  x_only : list string; x_except : list string; x_spacing : Z; x_pretty : bool }.

Definition abiExporter : abi_exporter :=
  {| x_path := "./bindings/bindings-artifacts"; x_runOnCompile := true; x_clear := true; x_flat := true;
     x_only := ["AliceNetFactory"; "ETHDKG"; "ValidatorPool"; "Snapshots"; "BToken"; "AToken";
                "PublicStaking"; "ValidatorStaking"; "Governance"; "Dynamics"];
     x_except := ["I[A-Z].*"; "Immutable.*"; ".*Mock"; ".*Base"; ".*Storage"; ".*Error";
                  "ETHDKGAccusations"; "ETHDKGPhases"];
     x_spacing := 2; x_pretty := false |}.

(** ** Lemmas *)

(** The bindings are generated from the folder the exporter fills. *)
Lemma exporter_feeds_bindings : resolve (x_path abiExporter) = resolve abiDir.
Proof. reflexivity. Qed.

(** At least one job. *)
Lemma mocha_jobs_positive cpus : (1 <= mocha_jobs cpus)%Q.
Proof.
  unfold mocha_jobs. destruct (Qlt_le_dec 1 (inject_Z cpus / 2)); [by apply Qlt_le_weak|apply Qle_refl].
Qed.

(** Every named account exists on the local node, and no key appears twice. *)
Lemma named_accounts_exist :
  Forall (λ na, is_Some (hardhat_accounts !! na.2)) namedAccounts ∧ NoDup hardhat_accounts.*1.
Proof.
  split; [repeat constructor; by eexists|]. apply (bool_decide_unpack (NoDup hardhat_accounts.*1)).
  vm_compute. done.
Qed.

(** The administrator is also the fourth validator; all other names are
    different accounts. *)
Lemma named_accounts_distinct : NoDup (filter (λ na, na.1 ≠ "validator4") namedAccounts).*2.
Proof. apply (bool_decide_unpack _). vm_compute. done. Qed.

(** [constants.ts: env] *)
Definition deployment_env (env : string → option string) : string :=
  match env "DEPLOYMENT_ENVIRONMENT" with None => "dev" | Some e => e end.
